(* ===== verification/_CoqProject ===== *)
-Q . S2P
Prelude.v
GoRuntime.v
Strings.v
Engine.v
Sql.v
Schema.v
Effects.v
Json.v
JsonText.v
JsonRaw.v
JsonDecode.v
JsonScan.v
Dto.v
Rows.v
Repository.v
RepositoryFacts.v
Invariant.v
Preservation.v
Auth.v
Service.v
Executor.v
Lock.v
Rfc3339.v
Registry.v
Worker.v
Scenario.v
Webhook.v
AuthFacts.v
Safety.v
Outbox.v
OutboxFacts.v
System.v
Journal.v
History.v
Finalise.v
Process.v
Claim.v
Framing.v
Progress.v
Lifecycle.v
Tenancy.v
Idempotency.v
Delivery.v
Liveness.v
Pool.v
Schedule.v
PoolFacts.v
Shutdown.v
Sequential.v
Http.v
Wire.v
WireFacts.v
HttpFacts.v
Config.v
Float.v
RateLimit.v
Metrics.v
Server.v
Isolation.v
ServerFacts.v
ServerSafety.v
Envelope.v
Kafka.v
Cmd.v
CmdFacts.v
Serve.v
ServeFacts.v
