(* ===== verification/Prelude.v ===== *)
(** * Distributed job scheduler: verification library

    ** The program

    The repository is a job scheduler in Go.  An HTTP API stores webhook
    jobs in PostgreSQL; worker processes poll the table, claim due jobs
    under a lease, call the webhook and record success, a retry or a dead
    letter; every change writes an event into an outbox table that relay
    processes hand to Kafka; Redis holds a second, advisory lease per job,
    the workers' heartbeats and a token bucket per API client.  Any number of API replicas, workers and
    relays run against the same database, any of them can crash, and any
    statement can fail or lose its reply.

    ** How the model is built

    [GoRuntime] has the parts of Go and its library the source uses:
    64-bit integers with wrap-around, durations and instants as
    nanoseconds, strings as bytes, [Atoi], [TrimSpace] (facts in
    [Strings]), UUIDs as 128-bit numbers, error values with wrapping.
    [Json] is [json.Valid]; [JsonText], [JsonRaw], [JsonDecode] and
    [JsonScan] are the rest of encoding/json that create requests and
    webhooks need:
    quoting and unquoting of strings in UTF-8, numbers, compaction of raw
    values, the members of an object and the names of a struct, with the
    theorems that what is printed is read back and that what was read can
    be printed.  [Rfc3339] is the calendar with the RFC 3339
    form of an instant, written and read back; [Float] is rounding to
    double precision.  [Sql] has UPDATE, INSERT, SELECT, ORDER BY,
    LIMIT and OFFSET over tables, which are finite maps from the primary
    key to a row; [Schema] has the rows of migrations/*.sql with their
    constraints and the structs of internal/job/model.go.

    [Effects] has the two monads.  [M A] is a computation of a process:
    it reads an environment and transforms a world (database, Redis,
    message bus, recorded metrics and Prometheus calls).  The environment decides, tick by
    tick, what the program cannot: clocks, [uuid.New()], whether a driver
    call is rejected, applied, or applied with its reply lost, what other
    sessions committed before the call, which rows they hold locked, and
    in which order rows come that no ORDER BY orders.  [Tx A] is a
    transaction body; [with_tx] is Begin, body, Commit with the deferred
    Rollback.  A transaction is one step for the other sessions: its
    statements lock the rows they change, and every decision it takes is
    re-checked by the WHERE clause of such a statement.

    ** Files

    - [Engine] (internal/scheduler/engine.go and the retry rules of
      internal/job/service.go): the transition table, [DecideFailure],
      [NextRetryAt]; its theorems show the exact backoff and where it
      overflows, that a failing job is dead-lettered after [max_retries +
      1] runs, and that the two versions of the rules agree.
    - [Dto] (internal/job/dto.go, validator.go), [Repository] (every
      method of internal/job/repository.go), [RepositoryFacts] (what each
      transaction body does when it runs to its end).  [Rows]: how rows and
      tables look before and after an operation, column by column; the
      functional specifications are written in these terms, not in those of
      the update functions.
    - [Invariant] and [Preservation]: [db_ok], what holds of the database
      between transactions; [evolves] and [life_step], how it may change;
      every transaction keeps the one and is an instance of the others.
      The implemented lifecycle is compared with the central table.
    - [Auth], [AuthFacts] (internal/auth/auth.go): principals, roles, the
      client store; the life of an API key from creation to revocation.
    - [Service] (internal/job/service.go), [Http] and [HttpFacts]
      (internal/job/handler.go, internal/response/response.go,
      internal/auth/middleware.go): the use cases and endpoints, and what
      a guarded endpoint asks for.
    - [Wire], [WireFacts]: the body of a create request and the text that
      [Service.Create] hashes, byte by byte.  What is hashed decodes to
      the request again, so two requests under one Idempotency-Key count
      as the same exactly when the service prints them alike, from the
      bytes of the first request to the status code of the second.
    - [RateLimit] (internal/auth/rate_limit.go): the token bucket over
      doubles.  In any stretch of time a client gets no more requests than
      its capacity and the refill allow, up to a stated rounding slack,
      and after a pause that refills a token it gets through again.
    - [Metrics] (internal/observability/prometheus.go, http.go): what the
      series show of the calls made.
    - [Server] (internal/server/server.go, internal/middleware), its facts
      in [ServerFacts] and [ServerSafety]: the router as one handler.
      Every request is answered, in the documented shape and without the
      text of an internal cause; a request that
      changed something was authorised and within its rate; the dashboard
      counts exactly while its queries succeed, and answers 200 when they
      do not; every request keeps the database invariant.
    - [Config] (internal/config/config.go): what the environment variables
      say, for every value they can have.
    - [Cmd] and [CmdFacts] (cmd/, internal/postgres, internal/redis,
      internal/logger): the programs put together from the configuration.
      [Serve] and [ServeFacts]: serving, signals and graceful shutdown as
      one step relation around the program; the guarantees of the parts
      carried over to the processes, from their start to their exit code.
    - [Executor] (internal/worker/executor.go): target validation,
      request building, classification of outcomes, Retry-After.
      [Webhook]: the JSON of a webhook's payload and of the metadata kept
      of its response; the call is the one the payload describes, and what
      is kept is bounded and readable.
    - [Lock] (internal/lock/redis_lock.go): the lock interface as a record
      with its laws [LockLaws], the Redis lease and the no-op lock; a
      lease is exclusive until it expires.
    - [Registry] (internal/worker/registry.go): heartbeats as an interface
      ([RegistryLaws]) and in Redis; a worker is listed from its heartbeat
      until it expires, with the time it gave.
    - [Worker] (internal/worker/service.go): [ProcessJob], lease renewal,
      the polling loop, against the lock, executor, metrics and registry
      interfaces.
    - [Pool] (the goroutines of internal/worker/service.go): [Run] with its
      slots, channel and wait group, [consume], [renewLease] and
      [heartbeatLoop] as state machines that move call by call, any number
      of workers side by side, with signals and crashes.  [Schedule] plays
      such runs.  [PoolFacts]: every run is a run of [System], and no
      attempt is executed twice.  [Shutdown]: the goroutines never block
      each other or misuse their channel, a signal stops them all in a
      bounded number of steps, and nothing is recorded after it.
      [Sequential]: the loop of [Worker] is a run of these goroutines with
      nobody else moving.
    - [Outbox], [OutboxFacts], [Delivery], [Liveness]
      (internal/outbox/outbox.go): leasing, publishing, backing off and
      replaying events; leases are exclusive, published means accepted by
      the publisher, and a backlog drains once everything answers again.
    - [Envelope] (internal/events/events.go): the JSON of an event on the
      topic; [envelope_roundtrip] shows that a consumer reads every field
      back.
    - [Kafka] (internal/kafka/producer.go): the producer, as a publisher
      under the laws of its client library ([WriterLaws]).
    - [Safety]: rely and guarantee.  A computation is [safe] when, between
      any commits of the others that keep [db_ok] and move jobs along the
      lifecycle, it does the same.
    - [System]: all processes as one step relation; [reachable_ok] and
      [reachable_walks] are the invariant and the refinement of the
      lifecycle for every interleaving with crashes and lost replies;
      [worker_guarantee] and [api_guarantee] are the same for the programs
      of a worker and of the API, statement by statement ([PoolFacts] and
      [ServeFacts] have them for goroutines and whole processes).
    - [Journal] (internal/events/events.go): the promise of the outbox.
      No job changes its status without an event, in the same
      transaction, that announces it, and no event loses its content.
      [History]: in every reachable state the journal tells the status of
      every job and each of its retries.
    - [Framing], [Progress]: what the rest of a worker's turn leaves alone,
      and the turn from end to end.  In a healthy environment a tick of the
      loop runs every job it claims to a recorded outcome, and a job that
      is attended to reaches SUCCEEDED or DEAD_LETTERED within
      [max_retries - retry_count + 1] ticks.
    - [Finalise], [Process], [Claim], [Lifecycle], [Tenancy],
      [Idempotency]: the functional specifications of the operations on
      every branch and the protocol properties (an attempt is finalised once, claims are
      exclusive, a cancellation fences the worker, requeueing happens once,
      tenants are isolated, creation is idempotent per key).
      [Isolation]: nothing a tenant does through the API, replay of events
      included, changes or adds rows of another tenant.
    - [Scenario]: a concrete run on which the witnesses evaluate.

    ** Bounds and fuel

    [json_Valid] has fuel twice the length of its input, which is enough
    ([json_Valid_fuel]); [fields] has as much, and [object_fields_print]
    shows that it is enough for what was printed.  [strip_all] has the length of the string, each
    round removing a byte at least ([strip_all_spec]).  [renewLease],
    [Run] and [relay_Run] take the number of firings of a ticker, which
    the environment or a quantifier provides: their theorems hold for
    every number.  The number of turns that empty the outbox is in the
    statement of [outbox_drains].  The recursions of [Rfc3339], [Config]
    and [Cmd] are structural.  [Pool] and [Serve] are relations: runs have
    any length, and [shutdown_completes] bounds the steps after a signal.

    ** Parameters

    Code outside the repository is a parameter: [sha256.Sum256], the
    random source, the database's text of a JSONB value, the zone an event's
    time is printed in, [url.Parse], [uuid.Parse], [time.Parse] of what is not in RFC 3339 form, name
    resolution, the HTTP round trip, the Kafka client, chi's choice of a
    route and its own 404 and 405 answers, the metrics page, opening a
    connection pool and a logger.  Lock manager, executor, metrics,
    registry, publisher and Kafka writer are interfaces with the laws
    their clients use.  [Service], [Http] and [Executor] also take the JSON
    encoders and decoders as parameters, since most of their theorems hold
    for any; [WireFacts] and [Webhook] put the real ones in place.

    ** Simplifications

    Columns keep the value they are given: the normalisation of JSONB
    text, the rounding of TIMESTAMPTZ to microseconds and the refusal of
    NUL bytes and of values outside the ranges of these types are left
    out (the range of INT is not).  The text of a driver error is its
    SQLSTATE.  Doubles have no bound on the exponent: the limiter's
    numbers stay far from overflow and from the subnormals.  Of the
    response headers a handler had set before it panicked, the recovered
    response keeps only the request id.

    ** Not modelled

    Logging; the registration and text format of metrics; the web
    dashboard, a TypeScript client.  In [Worker] the renewal goroutine of a
    job runs before its handler and the claimed jobs one after the other;
    [Pool] has all of them at the same time.  What a cancelled context does
    to a call is that the call fails before it reaches a server; a call
    that is under way when the signal comes may have any outcome.  The
    grace periods of a shutdown are events that may come at any time, and
    closing the pools at the end of a process has no effect in the
    model. *)

From stdpp Require Export base tactics option list gmap strings sorting pretty.
From Stdlib Require Export ZArith Lia.

Declare Scope go_scope.
Delimit Scope go_scope with go.

#[export] Set Default Goal Selector "!".

(** ** Record update

    Go and SQL assign single fields of wide records.  [Eta] names the
    constructor of a record applied to its own projections; [mk_upd]
    turns a projection into the function that replaces that field. *)

Class Eta (R : Type) := eta : R -> R.

Class Upd {R T : Type} (p : R -> T) := upd : T -> R -> R.

Arguments upd {R T} p {_} _ _ /.

Ltac mk_upd p :=
  lazymatch type of p with
  | ?R -> ?T =>
    let r := fresh "r" in
    let v := fresh "v" in
    refine (fun (v : T) (r : R) => _);
    let e := constr:(_ : Eta R) in
    let body := eval cbv [eta] in (e r) in
    let body := eval hnf in body in
    let f := eval pattern (p r) in body in
    lazymatch f with ?F _ => let t := eval cbv beta in (F v) in exact t end
  end.

Notation "r <| f := v |>" := (upd f v r)
  (at level 1, left associativity, f constr) : go_scope.

(** ** Lexicographic keys

    [ORDER BY c1, c2, ...] compares rows by a list of integer columns. *)

Fixpoint lexb (a b : list Z) : bool :=
  match a, b with
  | [], _ => true
  | _ :: _, [] => false
  | x :: a', y :: b' =>
      if (x <? y)%Z then true else if (y <? x)%Z then false else lexb a' b'
  end.

Definition key_le {V : Type} (key : V -> list Z) (x y : V) : Prop :=
  lexb (key x) (key y) = true.

#[export] Instance key_le_dec {V : Type} (key : V -> list Z) (x y : V) :
  Decision (key_le key x y).
Proof. unfold key_le. apply _. Defined.

(** ** Tactics *)

(** Split on every [if]/[match] scrutinee of a hypothesis and drop the
    impossible branches. *)
Ltac split_match H :=
  repeat (case_match; simplify_eq/=; try discriminate H).

(** Turn boolean tests in the context into propositions. *)
Ltac bool_prop :=
  repeat match goal with
  | H : _ && _ = true |- _ => apply andb_true_iff in H as [? ?]
  | H : _ || _ = false |- _ => apply orb_false_iff in H as [? ?]
  | H : negb _ = true |- _ => apply negb_true_iff in H
  | H : negb _ = false |- _ => apply negb_false_iff in H
  | H : bool_decide _ = true |- _ => apply bool_decide_eq_true_1 in H
  | H : bool_decide _ = false |- _ => apply bool_decide_eq_false_1 in H
  | H : (_ <? _)%Z = true |- _ => apply Z.ltb_lt in H
  | H : (_ <? _)%Z = false |- _ => apply Z.ltb_ge in H
  | H : (_ <=? _)%Z = true |- _ => apply Z.leb_le in H
  | H : (_ <=? _)%Z = false |- _ => apply Z.leb_gt in H
  | H : (_ =? _)%Z = true |- _ => apply Z.eqb_eq in H
  | H : (_ =? _)%Z = false |- _ => apply Z.eqb_neq in H
  end.

(** ** Generic lemmas *)

Lemma lexb_total a b : lexb a b = true \/ lexb b a = true.
Proof.
  revert b; induction a as [|x a IH]; intros [|y b]; simpl; auto.
  destruct (Z.ltb_spec x y), (Z.ltb_spec y x); auto.
Qed.

Lemma lexb_trans a b c : lexb a b = true -> lexb b c = true -> lexb a c = true.
Proof.
  revert b c; induction a as [|x a IH]; intros [|y b] [|z c]; simpl; auto;
    try discriminate.
  destruct (Z.ltb_spec x y), (Z.ltb_spec y x), (Z.ltb_spec y z),
    (Z.ltb_spec z y), (Z.ltb_spec x z), (Z.ltb_spec z x);
    try lia; try discriminate; eauto.
Qed.

#[export] Instance key_le_total {V} (key : V -> list Z) : Total (key_le key).
Proof. intros x y. apply lexb_total. Qed.

#[export] Instance key_le_trans {V} (key : V -> list Z) : Transitive (key_le key).
Proof. intros x y z. apply lexb_trans. Qed.

Lemma lexb_antisymm a b : lexb a b = true -> lexb b a = true -> a = b.
Proof.
  revert b; induction a as [|x a IH]; intros [|y b]; simpl; try done.
  destruct (Z.ltb_spec x y), (Z.ltb_spec y x); try lia; try discriminate.
  intros H1 H2. f_equal; [lia | auto].
Qed.

Lemma Forall2_elem_of_r {A B} (P : A -> B -> Prop) l k y :
  Forall2 P l k -> y ∈ k -> exists x, x ∈ l /\ P x y.
Proof.
  induction 1 as [|x y' l k Hxy _ IH]; [by intros ?%not_elem_of_nil|].
  intros [->|Hy]%elem_of_cons; [exists x; split; [left|done]|].
  destruct (IH Hy) as (x' & ? & ?). exists x'. split; [by right|done].
Qed.

Lemma Forall2_elem_of_l {A B} (P : A -> B -> Prop) l k x :
  Forall2 P l k -> x ∈ l -> exists y, y ∈ k /\ P x y.
Proof.
  induction 1 as [|x' y l k Hxy _ IH]; [by intros ?%not_elem_of_nil|].
  intros [->|Hx]%elem_of_cons; [exists y; split; [left|done]|].
  destruct (IH Hx) as (y' & ? & ?). exists y'. split; [by right|done].
Qed.

Create HintDb sched.
