(* ===== verification/GoRuntime.v ===== *)
(** * The Go run-time fragment the scheduler uses

    Machine integers, [time.Duration]/[time.Time], byte strings with the
    [strings]/[strconv] functions the source calls, and the [error]
    values with [errors.Is]/[errors.As]. *)

From S2P Require Import Prelude.

Local Open Scope Z_scope.

(** ** Machine integers *)

(** Two's complement wrap-around of a 64-bit [int]. *)
Definition wrap64 (z : Z) : Z := (z + 2 ^ 63) mod 2 ^ 64 - 2 ^ 63.

Definition int64_ok (z : Z) : bool := (- 2 ^ 63 <=? z) && (z <? 2 ^ 63).

(** PostgreSQL's [INT] columns hold 32-bit integers. *)
Definition int4_ok (z : Z) : bool := (- 2 ^ 31 <=? z) && (z <? 2 ^ 31).

Definition int_add (a b : Z) : Z := wrap64 (a + b).
Definition int_sub (a b : Z) : Z := wrap64 (a - b).
Definition int_mul (a b : Z) : Z := wrap64 (a * b).

(** ** Time *)

(** [time.Duration]: 64-bit nanoseconds. *)
Abbreviation Duration := Z (only parsing).

Definition Millisecond : Duration := 1000000.
Definition Second : Duration := 1000000000.
Definition Minute : Duration := 60 * Second.

(** [time.Time]: an instant, in nanoseconds since the Unix epoch.  The
    zero [time.Time] is 1 January of year 1. *)
Abbreviation Time := Z (only parsing).

Definition zero_time : Time := - 62135596800 * 1000000000.

Definition time_add (t : Time) (d : Duration) : Time := t + d.

(** [t.Sub(u)] saturates at the ends of [Duration]. *)
Definition time_Sub (t u : Time) : Duration := Z.max (- 2 ^ 63) (Z.min (2 ^ 63 - 1) (t - u)).

(** [int(d.Seconds())] and [d.Milliseconds()] truncate towards zero.  The
    durations the program converts with [Seconds()] are whole seconds, for
    which the detour through [float64] is exact. *)
Definition duration_seconds (d : Duration) : Z := Z.quot d Second.
Definition duration_milliseconds (d : Duration) : Z := Z.quot d Millisecond.

(** ** UUIDs *)

(** A UUID is a 128-bit value; PostgreSQL orders UUIDs by that value. *)
Abbreviation UUID := N (only parsing).

Definition uuid_Nil : UUID := 0%N.

(** ** Strings *)

(** The UTF-8 encodings of the white-space runes of [unicode.IsSpace]. *)
Definition bytes (l : list nat) : string :=
  String.string_of_list_ascii (Ascii.ascii_of_nat <$> l).

Definition space_runes : list string :=
  [bytes [9]; bytes [10]; bytes [11]; bytes [12]; bytes [13]; bytes [32];
   bytes [194; 133]; bytes [194; 160]; bytes [225; 154; 128];
   bytes [226; 128; 128]; bytes [226; 128; 129]; bytes [226; 128; 130];
   bytes [226; 128; 131]; bytes [226; 128; 132]; bytes [226; 128; 133];
   bytes [226; 128; 134]; bytes [226; 128; 135]; bytes [226; 128; 136];
   bytes [226; 128; 137]; bytes [226; 128; 138]; bytes [226; 128; 168];
   bytes [226; 128; 169]; bytes [226; 128; 175]; bytes [226; 129; 159];
   bytes [227; 128; 128]]%nat.

(** Remove one of the words [ws] from the front of [s], if one is there. *)
Fixpoint strip_one (ws : list string) (s : string) : option string :=
  match ws with
  | [] => None
  | w :: ws' =>
      if String.prefix w s
      then Some (String.substring (String.length w)
                   (String.length s - String.length w) s)
      else strip_one ws' s
  end.

Fixpoint strip_all (fuel : nat) (ws : list string) (s : string) : string :=
  match fuel with
  | O => s
  | S n => match strip_one ws s with
           | Some s' => strip_all n ws s'
           | None => s
           end
  end.

Definition string_rev (s : string) : string :=
  String.string_of_list_ascii (rev (String.list_ascii_of_string s)).

Definition TrimLeftSpace (s : string) : string :=
  strip_all (String.length s) space_runes s.

Definition TrimRightSpace (s : string) : string :=
  string_rev (strip_all (String.length s) (string_rev <$> space_runes)
                (string_rev s)).

(** [strings.TrimSpace]. *)
Definition TrimSpace (s : string) : string := TrimRightSpace (TrimLeftSpace s).

(** [strings.ToLower] on ASCII letters. *)
Definition ascii_lower (c : Ascii.ascii) : Ascii.ascii :=
  let n := Ascii.nat_of_ascii c in
  if (Nat.leb 65 n && Nat.leb n 90)%bool then Ascii.ascii_of_nat (n + 32) else c.

Fixpoint ToLower (s : string) : string :=
  match s with
  | EmptyString => EmptyString
  | String c s' => String (ascii_lower c) (ToLower s')
  end.

(** [len(s)], in bytes, and [s[:n]] for [n] up to it. *)
Definition string_len (s : string) : Z := Z.of_nat (String.length s).
Definition string_take (n : Z) (s : string) : string := String.substring 0 (Z.to_nat n) s.

Definition digit (c : Ascii.ascii) : option Z :=
  let n := Ascii.nat_of_ascii c in
  if (Nat.leb 48 n && Nat.leb n 57)%bool then Some (Z.of_nat (n - 48)) else None.

Fixpoint digits (acc : Z) (s : string) : option Z :=
  match s with
  | EmptyString => Some acc
  | String c s' => d ← digit c; digits (10 * acc + d) s'
  end.

Definition parse_digits (s : string) : option Z :=
  match s with EmptyString => None | _ => digits 0 s end.

(** [strconv.Atoi]: an optional sign, decimal digits, 64-bit range. *)
Definition Atoi (s : string) : option Z :=
  z ← match s with
      | String c s' =>
          if bool_decide (Ascii.nat_of_ascii c = 45%nat) then Z.opp <$> parse_digits s'
          else if bool_decide (Ascii.nat_of_ascii c = 43%nat) then parse_digits s'
          else parse_digits s
      | EmptyString => None
      end;
  if int64_ok z then Some z else None.

(** [strconv.Itoa]. *)
Definition Itoa (z : Z) : string := pretty z.

(** The last [width] hexadecimal digits of [n]. *)
Fixpoint hex_digits (width : nat) (n : N) : string :=
  match width with
  | O => ""
  | S w => hex_digits w (N.div n 16) +:+
           String.substring (N.to_nat (N.modulo n 16)) 1 "0123456789abcdef"
  end.

(** [uuid.UUID.String()]: 8-4-4-4-12 hexadecimal digits. *)
Definition uuid_String (u : UUID) : string :=
  hex_digits 8 (N.shiftr u 96) +:+ "-" +:+ hex_digits 4 (N.shiftr u 80) +:+ "-" +:+
  hex_digits 4 (N.shiftr u 64) +:+ "-" +:+ hex_digits 4 (N.shiftr u 48) +:+ "-" +:+
  hex_digits 12 u.

(** ** Errors *)

(** [worker.ExecutionError]. *)
Record ExecutionError := {
  ee_Code : string;
  ee_Message : string;
  ee_Retryable : bool;
  ee_RetryAfter : Duration;
  ee_Metadata : string
}.

(** The [error] values of the program: the sentinels of
    [internal/errors], the driver's errors, the context errors, plain
    [errors.New] strings and [fmt.Errorf] with a [%w] verb. *)
Inductive error :=
| ErrNotFound
| ErrInvalidInput
| ErrInvalidTransition
| ErrConflict
| ErrIdempotency
| ErrUnauthorized
| ErrForbidden
| ErrDependency
| ErrInvalidAPIKey
| PgError (code : string)
| ErrNoRows
| ContextCanceled
| ContextDeadlineExceeded
| ExecErr (e : ExecutionError)
| ErrorString (msg : string)
| Wrapped (msg : string) (inner : error).

(** The text of [err.Error()]. *)
Definition error_text (e : error) : string :=
  match e with
  | ErrNotFound => "not found"
  | ErrInvalidInput => "invalid input"
  | ErrInvalidTransition => "invalid status transition"
  | ErrConflict => "conflict"
  | ErrIdempotency => "idempotency conflict"
  | ErrUnauthorized => "unauthorized"
  | ErrForbidden => "forbidden"
  | ErrDependency => "dependency unavailable"
  | ErrInvalidAPIKey => "invalid API key"
  | PgError code => "ERROR: (SQLSTATE " +:+ code +:+ ")"
  | ErrNoRows => "no rows in result set"
  | ContextCanceled => "context canceled"
  | ContextDeadlineExceeded => "context deadline exceeded"
  | ExecErr e => ee_Message e
  | ErrorString msg => msg
  | Wrapped msg _ => msg
  end.

#[export] Instance ExecutionError_eq_dec : EqDecision ExecutionError.
Proof. solve_decision. Defined.

#[export] Instance error_eq_dec : EqDecision error.
Proof. solve_decision. Defined.

(** [errors.Is(err, target)] for a sentinel target: follow the chain of
    wrapped errors. *)
Fixpoint errors_Is (err target : error) : bool :=
  bool_decide (err = target) ||
  match err with
  | Wrapped _ inner => errors_Is inner target
  | _ => false
  end.

(** [errors.As(err, &executionErr)]. *)
Fixpoint as_ExecutionError (err : error) : option ExecutionError :=
  match err with
  | ExecErr e => Some e
  | Wrapped _ inner => as_ExecutionError inner
  | _ => None
  end.

(** [errors.As(err, &pgErr)], giving the SQLSTATE. *)
Fixpoint as_PgError (err : error) : option string :=
  match err with
  | PgError code => Some code
  | Wrapped _ inner => as_PgError inner
  | _ => None
  end.

(** A Go result pair [(A, error)]. *)
Inductive result (A : Type) :=
| Ok (a : A)
| Err (e : error).
Arguments Ok {A} _.
Arguments Err {A} _.

(** ** Lemmas *)

Lemma int64_ok_spec z : int64_ok z = true <-> - 2 ^ 63 <= z < 2 ^ 63.
Proof. unfold int64_ok. rewrite andb_true_iff, Z.leb_le, Z.ltb_lt. tauto. Qed.

Lemma int4_ok_spec z : int4_ok z = true <-> - 2 ^ 31 <= z < 2 ^ 31.
Proof. unfold int4_ok. rewrite andb_true_iff, Z.leb_le, Z.ltb_lt. tauto. Qed.

Lemma wrap64_range z : - 2 ^ 63 <= wrap64 z < 2 ^ 63.
Proof.
  unfold wrap64. pose proof (Z.mod_pos_bound (z + 2 ^ 63) (2 ^ 64)) as H.
  lia.
Qed.

Lemma wrap64_id z : - 2 ^ 63 <= z < 2 ^ 63 -> wrap64 z = z.
Proof. intros H. unfold wrap64. rewrite Z.mod_small by lia. lia. Qed.

Lemma wrap64_mul_wrap a b : wrap64 (wrap64 a * b) = wrap64 (a * b).
Proof.
  unfold wrap64. f_equal.
  rewrite (Z.add_mod (((a + 2 ^ 63) mod 2 ^ 64 - 2 ^ 63) * b)) by lia.
  rewrite (Z.add_mod (a * b)) by lia. do 2 f_equal.
  rewrite (Z.mul_mod (_ - _)) by lia. rewrite (Z.mul_mod a b) by lia.
  do 2 f_equal. rewrite Zminus_mod_idemp_l. f_equal. lia.
Qed.

Lemma int_add_small a b :
  - 2 ^ 63 <= a + b < 2 ^ 63 -> int_add a b = a + b.
Proof. apply wrap64_id. Qed.

Lemma errors_Is_refl e : errors_Is e e = true.
Proof. destruct e; cbn [errors_Is]; by rewrite bool_decide_eq_true_2. Qed.

Lemma errors_Is_wrapped msg e t :
  errors_Is e t = true -> errors_Is (Wrapped msg e) t = true.
Proof. intros H. simpl. rewrite H. apply orb_true_r. Qed.

#[export] Hint Resolve errors_Is_refl errors_Is_wrapped : sched.

(** Prefixes. *)
Lemma substring_length n s :
  String.length (String.substring 0 n s) = Nat.min n (String.length s).
Proof.
  revert n. induction s as [|c s IH]; intros [|n]; cbn; try done. by rewrite IH.
Qed.

Lemma substring_substring m n s :
  (m <= n)%nat -> String.substring 0 m (String.substring 0 n s) = String.substring 0 m s.
Proof.
  revert m n. induction s as [|c s IH]; intros [|m] [|n] H; cbn; try done; try lia.
  by rewrite IH by lia.
Qed.

Lemma substring_prefix n s : String.prefix (String.substring 0 n s) s = true.
Proof.
  revert n. induction s as [|c s IH]; intros [|n]; cbn; try done.
  destruct (Ascii.ascii_dec c c); [apply IH|done].
Qed.

Lemma string_take_length n s :
  0 <= n -> string_len (string_take n s) = Z.min n (string_len s).
Proof. intros Hn. unfold string_len, string_take. rewrite substring_length. lia. Qed.

Lemma string_take_take m n s :
  m <= n -> string_take m (string_take n s) = string_take m s.
Proof. intros H. unfold string_take. apply substring_substring. lia. Qed.

Lemma string_take_prefix n s : String.prefix (string_take n s) s = true.
Proof. apply substring_prefix. Qed.
