(* ===== verification/Strings.v ===== *)
(** * Facts on [strings.TrimSpace]

    Trimming is idempotent, and a string without white space at either
    end is its own trim.  API keys are trimmed once when a client is
    created and again when it authenticates. *)

From S2P Require Import Prelude GoRuntime.
Local Open Scope go_scope.

Lemma app_cons c w t : String c w +:+ t = String c (w +:+ t).
Proof. done. Qed.

Lemma app_nil_string t : "" +:+ t = t.
Proof. done. Qed.

Lemma string_app_assoc s1 s2 s3 : (s1 +:+ s2) +:+ s3 = s1 +:+ (s2 +:+ s3).
Proof. induction s1 as [|c s1 IH]; [done|]. rewrite !app_cons. by f_equal. Qed.

Lemma string_length_app s1 s2 :
  String.length (s1 +:+ s2) = String.length s1 + String.length s2.
Proof. induction s1 as [|c s1 IH]; [done|]. rewrite app_cons. simpl. by rewrite IH. Qed.

Lemma prefix_app w s : String.prefix w s = true <-> exists t, s = w +:+ t.
Proof.
  revert w. induction s as [|c' s IH]; intros [|c w]; simpl.
  - split; [by exists "" | done].
  - split; [done | by intros [t Ht]].
  - split; [by exists (String c' s) | done].
  - destruct (Ascii.ascii_dec c c') as [->|Hc].
    + rewrite IH. setoid_rewrite app_cons. split; intros [t Ht]; exists t; congruence.
    + split; [done|]. intros [t Ht]. rewrite app_cons in Ht. congruence.
Qed.

Lemma substring_app w t :
  String.substring (String.length w) (String.length (w +:+ t) - String.length w) (w +:+ t) = t.
Proof.
  induction w as [|c w IH]; [|rewrite app_cons; exact IH].
  change ("" +:+ t) with t. simpl. rewrite Nat.sub_0_r. induction t as [|c t IH]; simpl; [done|]. by rewrite IH.
Qed.

Lemma strip_one_spec ws s :
  match strip_one ws s with
  | Some s' => exists w, w ∈ ws /\ s = w +:+ s'
  | None => forall w t, w ∈ ws -> s <> w +:+ t
  end.
Proof.
  induction ws as [|w ws IH]; simpl; [set_solver|].
  destruct (String.prefix w s) eqn:E.
  - apply prefix_app in E as [t ->]. exists w. rewrite substring_app. set_solver.
  - assert (Hw : forall t, s <> w +:+ t).
    { intros t ->. assert (String.prefix w (w +:+ t) = true) by (apply prefix_app; eauto).
      congruence. }
    destruct (strip_one ws s) as [s'|]; [set_solver|].
    intros w' t [->|H]%elem_of_cons; [apply Hw | by apply IH].
Qed.

Lemma strip_all_spec fuel ws s :
  Forall (fun w => w <> "") ws -> String.length s <= fuel ->
  strip_one ws (strip_all fuel ws s) = None /\
  exists p, s = p +:+ strip_all fuel ws s.
Proof.
  intros Hws. revert s. induction fuel as [|n IH]; intros s Hn; simpl.
  - split; [|by exists ""]. destruct s; [|simpl in Hn; lia].
    pose proof (strip_one_spec ws "") as H. destruct (strip_one ws ""); [|done].
    destruct H as (w & Hw & E). rewrite Forall_forall in Hws. apply Hws in Hw.
    by destruct w.
  - pose proof (strip_one_spec ws s) as H. destruct (strip_one ws s) as [s'|] eqn:E.
    + destruct H as (w & Hw & ->). rewrite Forall_forall in Hws. apply Hws in Hw.
      rewrite string_length_app in Hn.
      destruct (IH s') as [H1 [p Hp]]; [destruct w; simpl in *; [done|lia]|].
      split; [done|]. exists (w +:+ p). rewrite string_app_assoc. by f_equal.
    + split; [done|]. by exists "".
Qed.

Lemma string_rev_involutive s : string_rev (string_rev s) = s.
Proof.
  unfold string_rev. rewrite String.list_ascii_of_string_of_list_ascii, rev_involutive.
  apply String.string_of_list_ascii_of_string.
Qed.

Lemma string_of_list_app l1 l2 :
  String.string_of_list_ascii (l1 ++ l2) =
  String.string_of_list_ascii l1 +:+ String.string_of_list_ascii l2.
Proof. induction l1 as [|c l1 IH]; [done|]. simpl. by rewrite IH, app_cons. Qed.

Lemma list_of_string_app s1 s2 :
  String.list_ascii_of_string (s1 +:+ s2) =
  String.list_ascii_of_string s1 ++ String.list_ascii_of_string s2.
Proof. induction s1 as [|c s1 IH]; [done|]. rewrite app_cons. simpl. by rewrite IH. Qed.

Lemma string_rev_app s1 s2 : string_rev (s1 +:+ s2) = string_rev s2 +:+ string_rev s1.
Proof. unfold string_rev. by rewrite list_of_string_app, rev_app_distr, string_of_list_app. Qed.

Lemma string_rev_length s : String.length (string_rev s) = String.length s.
Proof.
  unfold string_rev. rewrite <- (String.string_of_list_ascii_of_string s) at 2.
  assert (H : forall l, String.length (String.string_of_list_ascii l) = length l)
    by (induction l; simpl; congruence).
  by rewrite !H, length_rev.
Qed.

Lemma strip_one_prefix ws s t :
  strip_one ws (s +:+ t) = None -> strip_one ws s = None.
Proof.
  intros H. pose proof (strip_one_spec ws (s +:+ t)) as Ht. rewrite H in Ht.
  pose proof (strip_one_spec ws s) as Hs. destruct (strip_one ws s) as [s'|]; [|done].
  destruct Hs as (w & Hw & ->). exfalso. apply (Ht w (s' +:+ t) Hw).
  by rewrite string_app_assoc.
Qed.

Lemma strip_all_id fuel ws s : strip_one ws s = None -> strip_all fuel ws s = s.
Proof. destruct fuel; simpl; [done|]. by intros ->. Qed.

(** A string with no white space at either end is its own trim. *)
Lemma TrimSpace_id s :
  strip_one space_runes s = None ->
  strip_one (string_rev <$> space_runes) (string_rev s) = None -> TrimSpace s = s.
Proof.
  intros HL HR. unfold TrimSpace, TrimLeftSpace, TrimRightSpace.
  rewrite (strip_all_id _ _ s) by done. rewrite strip_all_id by done.
  apply string_rev_involutive.
Qed.

Lemma TrimSpace_idem s : TrimSpace (TrimSpace s) = TrimSpace s.
Proof.
  assert (HL : Forall (fun w => w <> "") space_runes).
  { by apply (bool_decide_unpack _). }
  assert (HR : Forall (fun w => w <> "") (string_rev <$> space_runes)).
  { by apply (bool_decide_unpack _). }
  unfold TrimSpace at 2 3. set (l := TrimLeftSpace s).
  destruct (strip_all_spec (String.length s) _ s HL) as [Hl _]; [lia|].
  fold (TrimLeftSpace s) in Hl. fold l in Hl.
  destruct (strip_all_spec (String.length l) _ (string_rev l) HR) as [Hr [p Hp]];
    [rewrite string_rev_length; lia|].
  apply TrimSpace_id; unfold TrimRightSpace.
  - apply (strip_one_prefix _ _ (string_rev p)).
    rewrite <- string_rev_app, <- Hp, string_rev_involutive. done.
  - rewrite string_rev_involutive. done.
Qed.

(** Trimming cuts off both ends. *)
Lemma TrimSpace_sub s : exists p q, s = p +:+ TrimSpace s +:+ q.
Proof.
  assert (HL : Forall (fun w => w <> "") space_runes).
  { by apply (bool_decide_unpack _). }
  assert (HR : Forall (fun w => w <> "") (string_rev <$> space_runes)).
  { by apply (bool_decide_unpack _). }
  destruct (strip_all_spec (String.length s) _ s HL) as [_ [p Hp]]; [lia|].
  fold (TrimLeftSpace s) in Hp. unfold TrimSpace. set (l := TrimLeftSpace s) in *.
  destruct (strip_all_spec (String.length l) _ (string_rev l) HR) as [_ [q Hq]];
    [rewrite string_rev_length; lia|].
  exists p, (string_rev q). rewrite Hp at 1. f_equal. unfold TrimRightSpace.
  rewrite <- string_rev_app, <- Hq. by rewrite string_rev_involutive.
Qed.
