(* ===== verification/Engine.v ===== *)
(** * The lifecycle rules: internal/scheduler/engine.go

    The status constants, the transition table with [CanTransition], and
    the retry rules [DecideFailure] and [NextRetryAt]; beside them the
    float-based [NextRetryAt] and [ShouldDeadLetter] of
    internal/job/service.go, which state the same rules a second time. *)

From S2P Require Import Prelude GoRuntime.

Local Open Scope Z_scope.

(** ** Statuses *)

(** [job.Status]; the constants of internal/job/model.go. *)
Inductive Status :=
| StatusPending
| StatusScheduled
| StatusRunning
| StatusSucceeded
| StatusFailed
| StatusRetryScheduled
| StatusDeadLettered
| StatusCancelled
| StatusPaused.

#[export] Instance Status_eq_dec : EqDecision Status.
Proof. solve_decision. Defined.

(** [string(status)]. *)
Definition status_string (s : Status) : string :=
  match s with
  | StatusPending => "PENDING"
  | StatusScheduled => "SCHEDULED"
  | StatusRunning => "RUNNING"
  | StatusSucceeded => "SUCCEEDED"
  | StatusFailed => "FAILED"
  | StatusRetryScheduled => "RETRY_SCHEDULED"
  | StatusDeadLettered => "DEAD_LETTERED"
  | StatusCancelled => "CANCELLED"
  | StatusPaused => "PAUSED"
  end.

(** ** The transition table *)

(** [var transitions = map[string]map[string]struct{}]. *)
Definition transitions : gmap string (gset string) :=
  {[ "PENDING" := {[ "RUNNING"; "CANCELLED"; "PAUSED" ]};
     "SCHEDULED" := {[ "RUNNING"; "CANCELLED"; "PAUSED" ]};
     "RUNNING" := {[ "SUCCEEDED"; "FAILED"; "RETRY_SCHEDULED";
                     "DEAD_LETTERED"; "CANCELLED" ]};
     "FAILED" := {[ "RETRY_SCHEDULED"; "DEAD_LETTERED" ]};
     "RETRY_SCHEDULED" := {[ "RUNNING"; "CANCELLED"; "DEAD_LETTERED" ]};
     "PAUSED" := {[ "SCHEDULED" ]};
     "DEAD_LETTERED" := {[ "RETRY_SCHEDULED" ]} ]}.

Definition CanTransition (from to : string) : bool :=
  match transitions !! from with
  | None => false
  | Some next => bool_decide (to ∈ next)
  end.

(** The table on [Status] values, as the services call it. *)
Definition can_transition (from to : Status) : bool :=
  CanTransition (status_string from) (status_string to).

(** ** Retry rules *)

Record FailureDecision := {
  fd_Status : Status;
  fd_NextRetryCount : Z;
  fd_NextRunAt : Time
}.

(** The loop [for i := 1; i < attemptNumber; i++ { delay *= 2 }]: [n]
    doublings of a 64-bit duration. *)
Fixpoint double_delay (n : nat) (delay : Duration) : Duration :=
  match n with
  | O => delay
  | S n' => double_delay n' (int_mul delay 2)
  end.

Definition NextRetryAt (now : Time) (baseBackoffSeconds attemptNumber : Z) : Time :=
  let base := if baseBackoffSeconds <=? 0 then 30 else baseBackoffSeconds in
  let attempt := if attemptNumber <? 1 then 1 else attemptNumber in
  let delay := int_mul base Second in
  time_add now (double_delay (Z.to_nat (attempt - 1)) delay).

Definition DecideFailure (now : Time) (retryCount maxRetries retryBackoffSeconds : Z)
    : FailureDecision :=
  let nextRetryCount := int_add retryCount 1 in
  if maxRetries <? nextRetryCount
  then {| fd_Status := StatusDeadLettered;
          fd_NextRetryCount := nextRetryCount;
          fd_NextRunAt := zero_time |}
  else {| fd_Status := StatusRetryScheduled;
          fd_NextRetryCount := nextRetryCount;
          fd_NextRunAt := NextRetryAt now retryBackoffSeconds nextRetryCount |}.

(** ** The same rules in internal/job/service.go *)

(** [float64(z)] for an integer: round to 53 significant bits, ties to even. *)
Definition float64_of_int (z : Z) : Z :=
  let a := Z.abs z in
  let e := Z.log2 a - 52 in
  if e <=? 0 then z
  else
    let q := a / 2 ^ e in
    let r := a mod 2 ^ e in
    let h := 2 ^ (e - 1) in
    let q' := if (h <? r) || ((h =? r) && Z.odd q) then q + 1 else q in
    Z.sgn z * (q' * 2 ^ e).

(** [time.Duration(f)] for an integral float [f]; out of the 64-bit range
    (or for [+Inf], at [2^1024]) the language leaves the value to the
    implementation, here the parameter [overflow]. *)
Definition duration_of_float (overflow : Z) (f : Z) : Z :=
  if (f <? 2 ^ 1024) && int64_ok f then f else overflow.

Definition service_NextRetryAt (overflow : Z) (now : Time)
    (baseBackoffSeconds retryCount : Z) : Time :=
  let base := if baseBackoffSeconds <=? 0 then 30 else baseBackoffSeconds in
  let count := if retryCount <? 0 then 0 else retryCount in
  let multiplier := 2 ^ count in
  let delay := int_mul (duration_of_float overflow (float64_of_int base * multiplier))
                 Second in
  time_add now delay.

Definition ShouldDeadLetter (retryCount maxRetries : Z) : bool :=
  maxRetries <=? retryCount.

(** ** Lemmas *)

Lemma status_string_inj s t : status_string s = status_string t -> s = t.
Proof. by destruct s, t. Qed.

(** The loop computes one wrapped product. *)
Lemma double_delay_wrap n d :
  double_delay n (wrap64 d) = wrap64 (d * 2 ^ Z.of_nat n).
Proof.
  revert d; induction n as [|n IH]; intros d; simpl double_delay.
  - by rewrite Z.mul_1_r.
  - unfold int_mul. rewrite wrap64_mul_wrap, IH. f_equal.
    rewrite Nat2Z.inj_succ, Z.pow_succ_r by lia. ring.
Qed.

Lemma NextRetryAt_wrap now base attempt :
  0 < base -> 1 <= attempt ->
  NextRetryAt now base attempt = now + wrap64 (base * Second * 2 ^ (attempt - 1)).
Proof.
  intros Hb Ha. unfold NextRetryAt, time_add.
  destruct (Z.leb_spec base 0); [lia|]. destruct (Z.ltb_spec attempt 1); [lia|].
  unfold int_mul. rewrite double_delay_wrap. by rewrite Z2Nat.id by lia.
Qed.

Lemma DecideFailure_count now rc mr b :
  0 <= rc < 2 ^ 63 - 1 ->
  fd_NextRetryCount (DecideFailure now rc mr b) = rc + 1.
Proof.
  intros H. unfold DecideFailure. rewrite int_add_small by lia. by case_match.
Qed.

Lemma DecideFailure_status now rc mr b :
  0 <= rc < 2 ^ 63 - 1 ->
  fd_Status (DecideFailure now rc mr b) =
    if mr <=? rc then StatusDeadLettered else StatusRetryScheduled.
Proof.
  intros H. unfold DecideFailure. rewrite int_add_small by lia.
  destruct (Z.ltb_spec mr (rc + 1)), (Z.leb_spec mr rc); done || lia.
Qed.

Lemma float64_of_int_small z : Z.abs z < 2 ^ 53 -> float64_of_int z = z.
Proof.
  intros H. unfold float64_of_int.
  destruct (Z.leb_spec (Z.log2 (Z.abs z) - 52) 0); [done|].
  exfalso. assert (Hlog : 53 <= Z.log2 (Z.abs z)) by lia.
  assert (0 < Z.abs z).
  { destruct (Z.eq_dec (Z.abs z) 0) as [E|]; [|lia]. rewrite E in Hlog.
    simpl in Hlog. lia. }
  apply Z.log2_le_pow2 in Hlog; lia.
Qed.

(** ** Theorems *)

(** The backoff of attempt [n] in nanoseconds, without wrap-around. *)
Definition backoff (base n : Z) : Z := base * Second * 2 ^ (n - 1).

(** C38. The doubling loop computes [base * 2^(attempt-1)] seconds exactly as
    long as that fits 64 bits of nanoseconds, and only then; past it the
    delay wraps around. *)
Theorem NextRetryAt_exact now base attempt :
  0 < base -> 1 <= attempt ->
  (NextRetryAt now base attempt = now + backoff base attempt <->
   backoff base attempt < 2 ^ 63).
Proof.
  intros Hb Ha. rewrite NextRetryAt_wrap by done. unfold backoff.
  set (z := base * Second * 2 ^ (attempt - 1)).
  assert (Hz : 0 <= z) by (unfold z, Second; pose proof (Z.pow_nonneg 2 (attempt - 1)); nia).
  pose proof (wrap64_range z). split; [lia|]. intros H'. rewrite wrap64_id by lia. done.
Qed.

Lemma NextRetryAt_exact_witness :
  NextRetryAt 7 30 4 = 7 + 240 * Second.
Proof.
  apply (NextRetryAt_exact 7 30 4); [lia|lia|]. vm_compute. reflexivity.
Defined.

(** With the default backoff of 30 seconds the 30th retry is scheduled
    in the past: the uncapped doubling has overflowed. *)
Theorem NextRetryAt_overflow now : NextRetryAt now 30 30 < now.
Proof.
  rewrite NextRetryAt_wrap by lia.
  assert (E : wrap64 (30 * Second * 2 ^ (30 - 1)) < 0) by (vm_compute; reflexivity).
  lia.
Qed.

(** The decision after a failed attempt: the retry count goes up by
    one, the job is dead-lettered exactly when the budget is spent, and
    otherwise the next run lies the exponential backoff ahead. *)
Theorem DecideFailure_spec now rc mr base :
  0 <= rc < 2 ^ 31 -> 0 < base -> backoff base (rc + 1) < 2 ^ 63 ->
  DecideFailure now rc mr base =
  if mr <=? rc
  then {| fd_Status := StatusDeadLettered; fd_NextRetryCount := rc + 1;
          fd_NextRunAt := zero_time |}
  else {| fd_Status := StatusRetryScheduled; fd_NextRetryCount := rc + 1;
          fd_NextRunAt := now + backoff base (rc + 1) |}.
Proof.
  intros Hrc Hb Hfit. unfold DecideFailure. rewrite int_add_small by lia.
  destruct (Z.ltb_spec mr (rc + 1)), (Z.leb_spec mr rc); try lia; [done|].
  f_equal. rewrite NextRetryAt_wrap by lia. unfold backoff in *.
  rewrite wrap64_id; [done|]. unfold Second in *.
  pose proof (Z.pow_nonneg 2 (rc + 1 - 1)). nia.
Qed.

Lemma DecideFailure_spec_witness :
  fd_NextRunAt (DecideFailure 5 1 3 30) = 5 + 60 * Second /\
  fd_Status (DecideFailure 5 3 3 30) = StatusDeadLettered.
Proof.
  rewrite (DecideFailure_spec 5 1 3 30), (DecideFailure_spec 5 3 3 30);
    try lia; vm_compute; done.
Defined.

(** Failures of a job in a row: how many runs it gets before it is
    dead-lettered, starting from retry count [rc]. *)
Fixpoint runs_until_dead (fuel : nat) (now : Time) (rc mr base : Z) : option nat :=
  match fuel with
  | O => None
  | S fuel' =>
      let d := DecideFailure now rc mr base in
      match fd_Status d with
      | StatusDeadLettered => Some 1%nat
      | _ => S <$> runs_until_dead fuel' now (fd_NextRetryCount d) mr base
      end
  end.

Lemma runs_until_dead_from fuel now rc mr base :
  0 <= rc <= mr -> mr < 2 ^ 31 -> mr - rc < Z.of_nat fuel ->
  runs_until_dead fuel now rc mr base = Some (Z.to_nat (mr - rc + 1)).
Proof.
  revert rc. induction fuel as [|fuel IH]; intros rc Hrc Hmr Hf; [lia|].
  cbn [runs_until_dead]. rewrite DecideFailure_status, DecideFailure_count by lia.
  destruct (Z.leb_spec mr rc).
  - f_equal. lia.
  - rewrite IH by lia. cbn. f_equal. lia.
Qed.

(** A job whose every attempt fails terminates: it runs exactly
    [max_retries + 1] times and is then dead-lettered. *)
Theorem failing_job_terminates now mr base :
  0 <= mr < 2 ^ 31 ->
  runs_until_dead (Z.to_nat mr + 1) now 0 mr base = Some (Z.to_nat mr + 1)%nat.
Proof.
  intros Hmr. rewrite runs_until_dead_from by lia. f_equal. lia.
Qed.

Lemma failing_job_terminates_witness : runs_until_dead 4 0 0 3 30 = Some 4%nat.
Proof. apply (failing_job_terminates 0 3 30). lia. Defined.

(** C40. The retry rules of internal/job/service.go agree with the engine's:
    its float-based [NextRetryAt] of retry [n] is the engine's for attempt
    [n + 1], whatever the platform makes of an overflowing conversion, as
    long as the backoff fits, and [ShouldDeadLetter] is the engine's
    dead-letter decision. *)
Theorem retry_rules_agree overflow now base rc mr :
  0 < base < 2 ^ 31 -> 0 <= rc < 2 ^ 31 -> backoff base (rc + 1) < 2 ^ 63 ->
  service_NextRetryAt overflow now base rc = NextRetryAt now base (rc + 1) /\
  (ShouldDeadLetter rc mr = true <->
   fd_Status (DecideFailure now rc mr base) = StatusDeadLettered).
Proof.
  intros Hb Hrc Hfit. split.
  - rewrite NextRetryAt_wrap by lia. unfold service_NextRetryAt, time_add, backoff in *.
    destruct (Z.leb_spec base 0); [lia|]. destruct (Z.ltb_spec rc 0); [lia|].
    rewrite float64_of_int_small by lia.
    replace (rc + 1 - 1) with rc in * by lia.
    assert (Hp : 0 <= 2 ^ rc) by (apply Z.pow_nonneg; lia).
    assert (Hs : 0 <= base * 2 ^ rc < 2 ^ 63) by (unfold Second in Hfit; nia).
    assert (H1024 : 2 ^ 63 < 2 ^ 1024) by (vm_compute; reflexivity).
    unfold duration_of_float. rewrite (proj2 (int64_ok_spec _)) by lia.
    destruct (Z.ltb_spec (base * 2 ^ rc) (2 ^ 1024)); [|lia]. cbn [andb].
    unfold int_mul. do 2 f_equal. ring.
  - rewrite DecideFailure_status by lia. unfold ShouldDeadLetter. by case_match.
Qed.

Lemma retry_rules_agree_witness :
  service_NextRetryAt 0 11 30 3 = NextRetryAt 11 30 4 /\
  (ShouldDeadLetter 3 3 = true <->
   fd_Status (DecideFailure 11 3 3 30) = StatusDeadLettered).
Proof.
  apply (retry_rules_agree 0 11 30 3 3); [lia|lia|]. vm_compute. reflexivity.
Defined.
