(* ===== verification/Sql.v ===== *)
(** * The SQL fragment the repository's statements use

    A table is a finite map from its UUID primary key to a row.  The
    statements keep PostgreSQL's meaning: [UPDATE ... WHERE] rewrites the
    rows that satisfy the predicate and reports how many there were,
    [INSERT] refuses a taken key, [SELECT ... ORDER BY ... LIMIT ...
    OFFSET] filters, sorts and cuts.  A comparison with [NULL] is not
    true: a nullable column is an [option], and [c = $1] is
    [bool_decide (c = Some v)]. *)

From S2P Require Import Prelude GoRuntime.

Section Tables.
Context {V : Type}.

(** [UPDATE t SET ... WHERE P]: the new table and [RowsAffected()]. *)
Definition update_where (P : UUID -> V -> bool) (f : V -> V) (t : gmap UUID V)
    : gmap UUID V * nat :=
  (map_imap (fun k v => Some (if P k v then f v else v)) t,
   size (filter (fun kv => P kv.1 kv.2 = true) t)).

(** The rows of [t] that satisfy [P], in table order. *)
Definition select_where (P : V -> bool) (t : gmap UUID V) : list V :=
  filter (fun v => P v = true) (snd <$> map_to_list t).

(** [ORDER BY] with an integer key per column ([DESC] negates it). *)
Definition order_by (key : V -> list Z) (rows : list V) : list V :=
  merge_sort (key_le key) rows.

(** [LIMIT n OFFSET k]. *)
Definition limit_offset (n k : Z) (rows : list V) : list V :=
  take (Z.to_nat n) (drop (Z.to_nat k) rows).

(** [INSERT]: [23505] when the key is taken. *)
Definition insert_row (k : UUID) (v : V) (t : gmap UUID V) : result (gmap UUID V) :=
  match t !! k with
  | Some _ => Err (PgError "23505")
  | None => Ok (<[k := v]> t)
  end.

(** ** Lemmas *)

Implicit Types (t : gmap UUID V) (k : UUID) (v : V) (f : V -> V).

Lemma lookup_update_where P f t k :
  (update_where P f t).1 !! k = (fun v => if P k v then f v else v) <$> t !! k.
Proof. simpl. rewrite map_lookup_imap. by destruct (t !! k). Qed.

Lemma update_where_none P f t :
  (forall k v, t !! k = Some v -> P k v = false) -> update_where P f t = (t, 0).
Proof.
  intros H. unfold update_where. f_equal.
  - apply map_eq. intros k. rewrite map_lookup_imap.
    destruct (t !! k) as [v|] eqn:E; simpl; [|done]. by rewrite (H _ _ E).
  - apply map_size_empty_iff, map_empty_filter. intros k v Hk. simpl.
    rewrite (H _ _ Hk). done.
Qed.

Lemma update_where_count P f t :
  (update_where P f t).2 = 0 <-> (forall k v, t !! k = Some v -> P k v = false).
Proof.
  simpl. rewrite map_size_empty_iff, map_empty_filter. unfold map_Forall.
  split; intros H k v Hk; specialize (H k v Hk); simpl in *;
    destruct (P k v); congruence.
Qed.

(** An update whose predicate pins the primary key touches at most that row. *)
Lemma update_where_key P f t k v :
  t !! k = Some v -> P k v = true ->
  (forall k' v', P k' v' = true -> k' = k) ->
  update_where P f t = (<[k := f v]> t, 1).
Proof.
  intros Hk HP Hpin. unfold update_where. f_equal.
  - apply map_eq. intros k'. rewrite map_lookup_imap, lookup_insert.
    case_decide as E; subst.
    + rewrite Hk. simpl. by rewrite HP.
    + destruct (t !! k') as [v'|]; simpl; [|done].
      destruct (P k' v') eqn:HP'; [|done]. exfalso. by apply E, eq_sym, (Hpin _ v').
  - assert (E : filter (fun kv => P kv.1 kv.2 = true) t = {[ k := v ]}).
    { apply map_eq. intros k'. rewrite map_lookup_filter, lookup_singleton.
      case_decide as E; subst.
      - rewrite Hk. simpl. by rewrite option_guard_True.
      - destruct (t !! k') as [v'|]; simpl; [|done].
        rewrite option_guard_False; [done|]. intros HP'. by apply E, eq_sym, (Hpin _ v'). }
    rewrite E. apply map_size_singleton.
Qed.

Lemma elem_of_select_where P t v :
  v ∈ select_where P t <-> P v = true /\ exists k, t !! k = Some v.
Proof.
  unfold select_where. rewrite list_elem_of_filter, list_elem_of_fmap.
  split.
  - intros [HP [[k v'] [-> Hin]]]. split; [done|]. exists k.
    by apply elem_of_map_to_list in Hin.
  - intros [HP [k Hk]]. split; [done|]. exists (k, v). split; [done|].
    by apply elem_of_map_to_list.
Qed.

Lemma order_by_perm key rows : order_by key rows ≡ₚ rows.
Proof. apply merge_sort_Permutation. Qed.

Lemma order_by_sorted key rows : StronglySorted (key_le key) (order_by key rows).
Proof. apply StronglySorted_merge_sort; apply _. Qed.

Lemma elem_of_order_by key rows v : v ∈ order_by key rows <-> v ∈ rows.
Proof. by rewrite order_by_perm. Qed.

Lemma limit_offset_sublist n o (rows : list V) : limit_offset n o rows `sublist_of` rows.
Proof. unfold limit_offset. etrans; [apply sublist_take | apply sublist_drop]. Qed.

Lemma length_select_where P t :
  length (select_where P t) = size (filter (fun kv => P kv.2 = true) t).
Proof.
  unfold select_where. induction t as [|k v t Hk Hf IH] using map_first_key_ind.
  { by rewrite map_to_list_empty, map_filter_empty, map_size_empty. }
  rewrite map_to_list_insert_first_key by done. rewrite fmap_cons, filter_cons, map_filter_insert.
  cbn [snd]. case_decide; cbn [length].
  - rewrite map_size_insert_None; [by f_equal|]. rewrite map_lookup_filter_None. auto.
  - rewrite delete_id by done. apply IH.
Qed.

(** Distinct keys give distinct selected rows. *)
Lemma select_where_nodup (id : V -> UUID) P t :
  (forall k v, t !! k = Some v -> id v = k) -> NoDup (id <$> select_where P t).
Proof.
  intros Hid. unfold select_where.
  assert (E : id <$> (snd <$> map_to_list t) = (map_to_list t).*1).
  { rewrite <- list_fmap_compose. apply list_fmap_ext. intros i [k v] Hi.
    apply list_elem_of_lookup_2, elem_of_map_to_list in Hi. simpl. auto. }
  eapply sublist_NoDup; [|apply fmap_sublist, sublist_filter].
  rewrite E. apply NoDup_fst_map_to_list.
Qed.

Lemma insert_row_ok k v t t' :
  insert_row k v t = Ok t' <-> t !! k = None /\ t' = <[k := v]> t.
Proof. unfold insert_row. destruct (t !! k); naive_solver. Qed.

End Tables.

#[global] Arguments update_where : simpl never.
#[global] Arguments select_where : simpl never.
#[global] Arguments order_by : simpl never.
