(* ===== verification/Schema.v ===== *)
(** * The data model: internal/job/model.go and the migrations

    The Go structs of the job package, the rows of the PostgreSQL tables
    they are scanned from, and the database state.  Rows carry the
    migrations' constraints: primary keys are the keys of the maps,
    [INT] columns are checked to be 32-bit, [uq_jobs_tenant_idempotency]
    and the foreign keys are checked by the insert functions. *)

From S2P Require Import Prelude GoRuntime Engine Sql.

Local Open Scope Z_scope.
Local Open Scope go_scope.

(** ** JSON values of event payloads *)

Inductive jval :=
| JStr (s : string)
| JInt (z : Z)
| JBool (b : bool)
| JUUID (u : UUID)
| JTime (t : Time).

Abbreviation payload := (list (string * jval)).

(** [time.Time.MarshalJSON] refuses years outside [0, 9999]. *)
Definition json_year_ok (t : Time) : bool :=
  (- 62167219200 * Second <=? t) && (t <? 253402300800 * Second).

Definition jval_ok (v : jval) : bool :=
  match v with JTime t => json_year_ok t | _ => true end.

(** [json.Marshal(map[string]any{...})]. *)
Definition json_marshal (p : payload) : result payload :=
  if forallb (fun kv => jval_ok kv.2) p then Ok p
  else Err (ErrorString "json: error calling MarshalJSON for type time.Time").

(** ** Go structs *)

(** [job.Job]. *)
Record Job := mkJob {
  j_ID : UUID;
  j_TenantID : UUID;
  j_Name : string;
  j_JobType : string;
  j_Payload : string;
  j_Status : Status;
  j_Priority : Z;
  j_RunAt : Time;
  j_LockedUntil : option Time;
  j_LockedBy : option string;
  j_RetryCount : Z;
  j_MaxRetries : Z;
  j_RetryBackoffSeconds : Z;
  j_TimeoutSeconds : Z;
  j_LastError : option string;
  j_CreatedBy : option string;
  j_CreatedAt : Time;
  j_UpdatedAt : Time;
  j_CompletedAt : option Time;
  j_FailedAt : option Time;
  j_CancelledAt : option Time;
  j_IdempotencyKey : option string;
  j_RequestHash : option string;
  j_ActiveAttemptID : UUID;
  j_AttemptNumber : Z
}.

(** The statuses written to [job_attempts.status]. *)
Inductive AttemptStatus :=
| AttemptRunning
| AttemptSucceeded
| AttemptFailed
| AttemptCancelled.

#[export] Instance AttemptStatus_eq_dec : EqDecision AttemptStatus.
Proof. solve_decision. Defined.

(** [job.Attempt]. *)
Record Attempt := mkAttempt {
  a_ID : UUID;
  a_JobID : UUID;
  a_WorkerID : string;
  a_AttemptNumber : Z;
  a_Status : AttemptStatus;
  a_StartedAt : Time;
  a_CompletedAt : option Time;
  a_FailedAt : option Time;
  a_ErrorMessage : option string;
  a_ExecutionDurationMS : option Z;
  a_CreatedAt : Time;
  a_Result : option string;
  a_ErrorCode : option string;
  a_Retryable : option bool
}.

(** [job.DeadLetterJob]; also the row of [dead_letter_jobs]. *)
Record DeadLetterJob := mkDeadLetterJob {
  dl_ID : UUID;
  dl_OriginalJobID : UUID;
  dl_Name : string;
  dl_JobType : string;
  dl_Payload : string;
  dl_FinalError : string;
  dl_RetryCount : Z;
  dl_FailedAt : Time;
  dl_CreatedAt : Time;
  dl_TenantID : UUID;
  dl_RequeuedAt : option Time;
  dl_RequeuedJobID : option UUID
}.

(** [job.Event]. *)
Record Event := mkEvent {
  ev_ID : UUID;
  ev_JobID : UUID;
  ev_TenantID : UUID;
  ev_EventType : string;
  ev_Source : string;
  ev_SchemaVersion : Z;
  ev_CorrelationID : option string;
  ev_CausationID : option UUID;
  ev_Payload : payload;
  ev_CreatedAt : Time;
  ev_PublishedAt : option Time;
  ev_PublishAttempts : Z;
  ev_LastPublishError : option string
}.

(** [job.ExecutionResult]. *)
Record ExecutionResult := mkExecutionResult {
  er_Metadata : string;
  er_ErrorCode : string;
  er_Retryable : bool;
  er_Message : string
}.

(** [events.Event], the envelope published to Kafka. *)
Record OutboxEvent := mkOutboxEvent {
  oe_EventID : UUID;
  oe_SchemaVersion : Z;
  oe_TenantID : UUID;
  oe_EventType : string;
  oe_Source : string;
  oe_EntityType : string;
  oe_EntityID : string;
  oe_OccurredAt : Time;
  oe_CorrelationID : string;
  oe_CausationID : option UUID;
  oe_Payload : payload;
  oe_PublishAttempts : Z
}.

(** ** Table rows *)

(** [jobs]. *)
Record job_row := mkjob_row {
  jr_id : UUID;
  jr_name : string;
  jr_job_type : string;
  jr_payload : string;
  jr_status : Status;
  jr_priority : Z;
  jr_run_at : Time;
  jr_locked_until : option Time;
  jr_locked_by : option string;
  jr_retry_count : Z;
  jr_max_retries : Z;
  jr_retry_backoff_seconds : Z;
  jr_timeout_seconds : Z;
  jr_last_error : option string;
  jr_created_by : option string;
  jr_created_at : Time;
  jr_updated_at : Time;
  jr_completed_at : option Time;
  jr_failed_at : option Time;
  jr_cancelled_at : option Time;
  jr_tenant_id : UUID;
  jr_idempotency_key : option string;
  jr_request_hash : option string;
  jr_source_dead_letter_id : option UUID
}.

(** [job_attempts]. *)
Record attempt_row := mkattempt_row {
  ar_id : UUID;
  ar_job_id : UUID;
  ar_tenant_id : UUID;
  ar_worker_id : string;
  ar_attempt_number : Z;
  ar_status : AttemptStatus;
  ar_started_at : Time;
  ar_completed_at : option Time;
  ar_failed_at : option Time;
  ar_error_message : option string;
  ar_execution_duration_ms : option Z;
  ar_created_at : Time;
  ar_result : option string;
  ar_error_code : option string;
  ar_retryable : option bool
}.

(** [job_events], the outbox. *)
Record event_row := mkevent_row {
  vr_id : UUID;
  vr_job_id : UUID;
  vr_tenant_id : UUID;
  vr_event_type : string;
  vr_source : string;
  vr_schema_version : Z;
  vr_correlation_id : option string;
  vr_causation_id : option UUID;
  vr_payload : payload;
  vr_created_at : Time;
  vr_published_at : option Time;
  vr_publish_attempts : Z;
  vr_next_publish_at : Time;
  vr_last_publish_error : option string;
  vr_claimed_by : option string;
  vr_claimed_until : option Time
}.

(** [tenants]. *)
Record tenant_row := mktenant_row {
  tr_slug : string;
  tr_name : string
}.

(** [auth.Role]; the check constraint of [api_clients.role]. *)
Inductive Role := RoleViewer | RoleOperator | RoleAdmin.

#[export] Instance Role_eq_dec : EqDecision Role.
Proof. solve_decision. Defined.

(** [api_clients]. *)
Record client_row := mkclient_row {
  cr_id : UUID;
  cr_tenant_id : UUID;
  cr_name : string;
  cr_key_prefix : string;
  cr_key_hash : string;
  cr_role : Role;
  cr_enabled : bool;
  cr_created_at : Time;
  cr_last_used_at : option Time;
  cr_revoked_at : option Time
}.

(** ** The database *)

Record Db := mkDb {
  jobs : gmap UUID job_row;
  job_attempts : gmap UUID attempt_row;
  dead_letter_jobs : gmap UUID DeadLetterJob;
  job_events : gmap UUID event_row;
  tenants : gmap UUID tenant_row;
  api_clients : gmap UUID client_row
}.

(** ** Record updates *)

#[export] Instance eta_Job : Eta Job := fun r =>
  mkJob (j_ID r) (j_TenantID r) (j_Name r) (j_JobType r) (j_Payload r) (j_Status r)
    (j_Priority r) (j_RunAt r) (j_LockedUntil r) (j_LockedBy r) (j_RetryCount r)
    (j_MaxRetries r) (j_RetryBackoffSeconds r) (j_TimeoutSeconds r) (j_LastError r)
    (j_CreatedBy r) (j_CreatedAt r) (j_UpdatedAt r) (j_CompletedAt r) (j_FailedAt r)
    (j_CancelledAt r) (j_IdempotencyKey r) (j_RequestHash r) (j_ActiveAttemptID r)
    (j_AttemptNumber r).
#[export] Instance upd_j_Status : Upd j_Status := ltac:(mk_upd j_Status).
#[export] Instance upd_j_LockedUntil : Upd j_LockedUntil := ltac:(mk_upd j_LockedUntil).
#[export] Instance upd_j_LockedBy : Upd j_LockedBy := ltac:(mk_upd j_LockedBy).
#[export] Instance upd_j_ActiveAttemptID : Upd j_ActiveAttemptID :=
  ltac:(mk_upd j_ActiveAttemptID).
#[export] Instance upd_j_AttemptNumber : Upd j_AttemptNumber :=
  ltac:(mk_upd j_AttemptNumber).

#[export] Instance eta_job_row : Eta job_row := fun r =>
  mkjob_row (jr_id r) (jr_name r) (jr_job_type r) (jr_payload r) (jr_status r)
    (jr_priority r) (jr_run_at r) (jr_locked_until r) (jr_locked_by r)
    (jr_retry_count r) (jr_max_retries r) (jr_retry_backoff_seconds r)
    (jr_timeout_seconds r) (jr_last_error r) (jr_created_by r) (jr_created_at r)
    (jr_updated_at r) (jr_completed_at r) (jr_failed_at r) (jr_cancelled_at r)
    (jr_tenant_id r) (jr_idempotency_key r) (jr_request_hash r)
    (jr_source_dead_letter_id r).
#[export] Instance upd_jr_status : Upd jr_status := ltac:(mk_upd jr_status).
#[export] Instance upd_jr_run_at : Upd jr_run_at := ltac:(mk_upd jr_run_at).
#[export] Instance upd_jr_locked_until : Upd jr_locked_until := ltac:(mk_upd jr_locked_until).
#[export] Instance upd_jr_locked_by : Upd jr_locked_by := ltac:(mk_upd jr_locked_by).
#[export] Instance upd_jr_retry_count : Upd jr_retry_count := ltac:(mk_upd jr_retry_count).
#[export] Instance upd_jr_last_error : Upd jr_last_error := ltac:(mk_upd jr_last_error).
#[export] Instance upd_jr_updated_at : Upd jr_updated_at := ltac:(mk_upd jr_updated_at).
#[export] Instance upd_jr_completed_at : Upd jr_completed_at := ltac:(mk_upd jr_completed_at).
#[export] Instance upd_jr_failed_at : Upd jr_failed_at := ltac:(mk_upd jr_failed_at).
#[export] Instance upd_jr_cancelled_at : Upd jr_cancelled_at := ltac:(mk_upd jr_cancelled_at).

#[export] Instance eta_attempt_row : Eta attempt_row := fun r =>
  mkattempt_row (ar_id r) (ar_job_id r) (ar_tenant_id r) (ar_worker_id r)
    (ar_attempt_number r) (ar_status r) (ar_started_at r) (ar_completed_at r)
    (ar_failed_at r) (ar_error_message r) (ar_execution_duration_ms r)
    (ar_created_at r) (ar_result r) (ar_error_code r) (ar_retryable r).
#[export] Instance upd_ar_status : Upd ar_status := ltac:(mk_upd ar_status).
#[export] Instance upd_ar_completed_at : Upd ar_completed_at := ltac:(mk_upd ar_completed_at).
#[export] Instance upd_ar_failed_at : Upd ar_failed_at := ltac:(mk_upd ar_failed_at).
#[export] Instance upd_ar_error_message : Upd ar_error_message :=
  ltac:(mk_upd ar_error_message).
#[export] Instance upd_ar_execution_duration_ms : Upd ar_execution_duration_ms :=
  ltac:(mk_upd ar_execution_duration_ms).
#[export] Instance upd_ar_result : Upd ar_result := ltac:(mk_upd ar_result).
#[export] Instance upd_ar_error_code : Upd ar_error_code := ltac:(mk_upd ar_error_code).
#[export] Instance upd_ar_retryable : Upd ar_retryable := ltac:(mk_upd ar_retryable).

#[export] Instance eta_DeadLetterJob : Eta DeadLetterJob := fun r =>
  mkDeadLetterJob (dl_ID r) (dl_OriginalJobID r) (dl_Name r) (dl_JobType r)
    (dl_Payload r) (dl_FinalError r) (dl_RetryCount r) (dl_FailedAt r)
    (dl_CreatedAt r) (dl_TenantID r) (dl_RequeuedAt r) (dl_RequeuedJobID r).
#[export] Instance upd_dl_RequeuedAt : Upd dl_RequeuedAt := ltac:(mk_upd dl_RequeuedAt).
#[export] Instance upd_dl_RequeuedJobID : Upd dl_RequeuedJobID :=
  ltac:(mk_upd dl_RequeuedJobID).

#[export] Instance eta_event_row : Eta event_row := fun r =>
  mkevent_row (vr_id r) (vr_job_id r) (vr_tenant_id r) (vr_event_type r) (vr_source r)
    (vr_schema_version r) (vr_correlation_id r) (vr_causation_id r) (vr_payload r)
    (vr_created_at r) (vr_published_at r) (vr_publish_attempts r)
    (vr_next_publish_at r) (vr_last_publish_error r) (vr_claimed_by r)
    (vr_claimed_until r).
#[export] Instance upd_vr_published_at : Upd vr_published_at := ltac:(mk_upd vr_published_at).
#[export] Instance upd_vr_publish_attempts : Upd vr_publish_attempts :=
  ltac:(mk_upd vr_publish_attempts).
#[export] Instance upd_vr_next_publish_at : Upd vr_next_publish_at :=
  ltac:(mk_upd vr_next_publish_at).
#[export] Instance upd_vr_last_publish_error : Upd vr_last_publish_error :=
  ltac:(mk_upd vr_last_publish_error).
#[export] Instance upd_vr_claimed_by : Upd vr_claimed_by := ltac:(mk_upd vr_claimed_by).
#[export] Instance upd_vr_claimed_until : Upd vr_claimed_until :=
  ltac:(mk_upd vr_claimed_until).

#[export] Instance eta_Db : Eta Db := fun d =>
  mkDb (jobs d) (job_attempts d) (dead_letter_jobs d) (job_events d) (tenants d)
    (api_clients d).
#[export] Instance upd_jobs : Upd jobs := ltac:(mk_upd jobs).
#[export] Instance upd_job_attempts : Upd job_attempts := ltac:(mk_upd job_attempts).
#[export] Instance upd_dead_letter_jobs : Upd dead_letter_jobs :=
  ltac:(mk_upd dead_letter_jobs).
#[export] Instance upd_job_events : Upd job_events := ltac:(mk_upd job_events).
#[export] Instance upd_api_clients : Upd api_clients := ltac:(mk_upd api_clients).

(** ** Scanning rows *)

(** [scanJob]: the 23 selected columns; the claim metadata stays zero. *)
Definition scanJob (r : job_row) : Job :=
  {| j_ID := jr_id r;
     j_TenantID := jr_tenant_id r;
     j_Name := jr_name r;
     j_JobType := jr_job_type r;
     j_Payload := jr_payload r;
     j_Status := jr_status r;
     j_Priority := jr_priority r;
     j_RunAt := jr_run_at r;
     j_LockedUntil := jr_locked_until r;
     j_LockedBy := jr_locked_by r;
     j_RetryCount := jr_retry_count r;
     j_MaxRetries := jr_max_retries r;
     j_RetryBackoffSeconds := jr_retry_backoff_seconds r;
     j_TimeoutSeconds := jr_timeout_seconds r;
     j_LastError := jr_last_error r;
     j_CreatedBy := jr_created_by r;
     j_CreatedAt := jr_created_at r;
     j_UpdatedAt := jr_updated_at r;
     j_CompletedAt := jr_completed_at r;
     j_FailedAt := jr_failed_at r;
     j_CancelledAt := jr_cancelled_at r;
     j_IdempotencyKey := jr_idempotency_key r;
     j_RequestHash := jr_request_hash r;
     j_ActiveAttemptID := uuid_Nil;
     j_AttemptNumber := 0 |}.

Definition scanAttempt (r : attempt_row) : Attempt :=
  {| a_ID := ar_id r;
     a_JobID := ar_job_id r;
     a_WorkerID := ar_worker_id r;
     a_AttemptNumber := ar_attempt_number r;
     a_Status := ar_status r;
     a_StartedAt := ar_started_at r;
     a_CompletedAt := ar_completed_at r;
     a_FailedAt := ar_failed_at r;
     a_ErrorMessage := ar_error_message r;
     a_ExecutionDurationMS := ar_execution_duration_ms r;
     a_CreatedAt := ar_created_at r;
     a_Result := ar_result r;
     a_ErrorCode := ar_error_code r;
     a_Retryable := ar_retryable r |}.

Definition scanEvent (r : event_row) : Event :=
  {| ev_ID := vr_id r;
     ev_JobID := vr_job_id r;
     ev_TenantID := vr_tenant_id r;
     ev_EventType := vr_event_type r;
     ev_Source := vr_source r;
     ev_SchemaVersion := vr_schema_version r;
     ev_CorrelationID := vr_correlation_id r;
     ev_CausationID := vr_causation_id r;
     ev_Payload := vr_payload r;
     ev_CreatedAt := vr_created_at r;
     ev_PublishedAt := vr_published_at r;
     ev_PublishAttempts := vr_publish_attempts r;
     ev_LastPublishError := vr_last_publish_error r |}.

(** ** Constraint-checking inserts *)

Definition DefaultTenantID : UUID := 1%N.

Definition err_int4 : error := ErrorString "cannot encode: value out of range for int4".
Definition err_unique : error := PgError "23505".
Definition err_foreign_key : error := PgError "23503".

(** Some row of the tenant already carries the idempotency key. *)
Definition idempotency_taken (tenant : UUID) (key : option string)
    (t : gmap UUID job_row) : bool :=
  match key with
  | None => false
  | Some k =>
      negb (bool_decide (select_where (fun r =>
        bool_decide (jr_tenant_id r = tenant) &&
        bool_decide (jr_idempotency_key r = Some k)) t = []))
  end.

Definition has_tenant (d : Db) (t : UUID) : bool := bool_decide (is_Some (tenants d !! t)).
Definition has_job (d : Db) (j : UUID) : bool := bool_decide (is_Some (jobs d !! j)).

(** [INSERT INTO jobs]. *)
Definition insert_jobs (r : job_row) (d : Db) : result Db :=
  if negb (forallb int4_ok [jr_priority r; jr_retry_count r; jr_max_retries r;
                            jr_retry_backoff_seconds r; jr_timeout_seconds r])
  then Err err_int4
  else if idempotency_taken (jr_tenant_id r) (jr_idempotency_key r) (jobs d)
  then Err err_unique
  else match insert_row (jr_id r) r (jobs d) with
       | Err e => Err e
       | Ok t => if has_tenant d (jr_tenant_id r)
                 then Ok (d <| jobs := t |>) else Err err_foreign_key
       end.

(** [INSERT INTO job_attempts]. *)
Definition insert_job_attempts (r : attempt_row) (d : Db) : result Db :=
  if negb (int4_ok (ar_attempt_number r)) then Err err_int4
  else match insert_row (ar_id r) r (job_attempts d) with
       | Err e => Err e
       | Ok t => if has_job d (ar_job_id r) && has_tenant d (ar_tenant_id r)
                 then Ok (d <| job_attempts := t |>) else Err err_foreign_key
       end.

(** [INSERT INTO dead_letter_jobs]. *)
Definition insert_dead_letter_jobs (r : DeadLetterJob) (d : Db) : result Db :=
  if negb (int4_ok (dl_RetryCount r)) then Err err_int4
  else match insert_row (dl_ID r) r (dead_letter_jobs d) with
       | Err e => Err e
       | Ok t => if has_tenant d (dl_TenantID r)
                 then Ok (d <| dead_letter_jobs := t |>) else Err err_foreign_key
       end.

(** [INSERT INTO job_events]. *)
Definition insert_job_events (r : event_row) (d : Db) : result Db :=
  match insert_row (vr_id r) r (job_events d) with
  | Err e => Err e
  | Ok t => if has_tenant d (vr_tenant_id r)
            then Ok (d <| job_events := t |>) else Err err_foreign_key
  end.

(** ** Lemmas *)

Lemma insert_jobs_ok r d d' :
  insert_jobs r d = Ok d' ->
  jobs d !! jr_id r = None /\ d' = d <| jobs := <[jr_id r := r]> (jobs d) |> /\
  has_tenant d (jr_tenant_id r) = true /\
  idempotency_taken (jr_tenant_id r) (jr_idempotency_key r) (jobs d) = false /\
  forallb int4_ok [jr_priority r; jr_retry_count r; jr_max_retries r;
                   jr_retry_backoff_seconds r; jr_timeout_seconds r] = true.
Proof.
  unfold insert_jobs. intros H.
  destruct (forallb _ _) eqn:E1; [|discriminate].
  destruct (idempotency_taken _ _ _) eqn:E2; [discriminate|].
  destruct (insert_row _ _ _) as [t|] eqn:E3; [|discriminate].
  destruct (has_tenant _ _) eqn:E4; [|discriminate].
  apply insert_row_ok in E3 as [? ->]. cbn [negb andb] in H. simplify_eq. split_and!; auto.
Qed.

Lemma insert_job_attempts_ok r d d' :
  insert_job_attempts r d = Ok d' ->
  job_attempts d !! ar_id r = None /\
  d' = d <| job_attempts := <[ar_id r := r]> (job_attempts d) |> /\
  has_job d (ar_job_id r) = true /\ has_tenant d (ar_tenant_id r) = true /\
  int4_ok (ar_attempt_number r) = true.
Proof.
  unfold insert_job_attempts. intros H.
  destruct (int4_ok _) eqn:E1; [|discriminate].
  destruct (insert_row _ _ _) as [t|] eqn:E3; [|discriminate].
  destruct (has_job _ _) eqn:E4; [|discriminate].
  destruct (has_tenant _ _) eqn:E5; [|discriminate].
  apply insert_row_ok in E3 as [? ->]. cbn [negb andb] in H. simplify_eq. split_and!; auto.
Qed.

Lemma insert_dead_letter_jobs_ok r d d' :
  insert_dead_letter_jobs r d = Ok d' ->
  dead_letter_jobs d !! dl_ID r = None /\
  d' = d <| dead_letter_jobs := <[dl_ID r := r]> (dead_letter_jobs d) |> /\
  has_tenant d (dl_TenantID r) = true /\ int4_ok (dl_RetryCount r) = true.
Proof.
  unfold insert_dead_letter_jobs. intros H.
  destruct (int4_ok _) eqn:E1; [|discriminate].
  destruct (insert_row _ _ _) as [t|] eqn:E3; [|discriminate].
  destruct (has_tenant _ _) eqn:E5; [|discriminate].
  apply insert_row_ok in E3 as [? ->]. cbn [negb andb] in H. simplify_eq. split_and!; auto.
Qed.

Lemma insert_job_events_ok r d d' :
  insert_job_events r d = Ok d' ->
  job_events d !! vr_id r = None /\
  d' = d <| job_events := <[vr_id r := r]> (job_events d) |> /\
  has_tenant d (vr_tenant_id r) = true.
Proof.
  unfold insert_job_events. intros H.
  destruct (insert_row _ _ _) as [t|] eqn:E3; [|discriminate].
  destruct (has_tenant _ _) eqn:E5; [|discriminate].
  apply insert_row_ok in E3 as [? ->]. cbn [negb andb] in H. simplify_eq. split_and!; auto.
Qed.

Lemma idempotency_taken_spec tenant k (t : gmap UUID job_row) :
  idempotency_taken tenant (Some k) t = true <->
  exists i r, t !! i = Some r /\ jr_tenant_id r = tenant /\
              jr_idempotency_key r = Some k.
Proof.
  unfold idempotency_taken. rewrite negb_true_iff, bool_decide_eq_false. split.
  - intros Hne. destruct (select_where _ t) as [|r l] eqn:E; [done|].
    assert (Hin : r ∈ select_where (fun r =>
      bool_decide (jr_tenant_id r = tenant) &&
      bool_decide (jr_idempotency_key r = Some k)) t) by (rewrite E; left).
    apply elem_of_select_where in Hin as [HP [i Hi]]. bool_prop. eauto.
  - intros (i & r & Hi & <- & Hk) E.
    assert (Hin : r ∈ select_where (fun r' =>
      bool_decide (jr_tenant_id r' = jr_tenant_id r) &&
      bool_decide (jr_idempotency_key r' = Some k)) t).
    { apply elem_of_select_where. split; [|eauto].
      by rewrite !bool_decide_eq_true_2. }
    rewrite E in Hin. by apply not_elem_of_nil in Hin.
Qed.
