(* ===== verification/Effects.v ===== *)
(** * Effects: the world a Go process acts on

    A computation [M A] reads an environment and transforms a world.
    The environment answers, by a tick that advances with every call,
    what the program cannot decide: the value of [uuid.New()] and of the
    clocks, whether a driver call reaches the server and whether its
    reply comes back, what other sessions committed in the meantime
    ([e_others], [e_redis_others]), which rows they hold locked
    ([e_locked]), in which order a scan without [ORDER BY] returns rows
    ([e_rank]), how many rows of a result arrive before its connection
    breaks ([e_rows]), and how often a renewal ticker fires
    ([e_renewals]).

    [with_tx] is the shape [Begin; defer Rollback; ...; return Commit]:
    the body runs on a private copy of the database and its effect
    becomes visible only at the commit.  A commit whose reply is lost
    ([AppliedUnacked]) reports an error although it took effect. *)

From S2P Require Import Prelude GoRuntime Engine Sql Schema.
From Stdlib Require QArith.QArith_base.

Local Open Scope go_scope.

(** ** The environment *)

Inductive fault := FConn | FCanceled | FDeadline.

Definition fault_error (f : fault) : error :=
  match f with
  | FConn => ErrorString "connection error"
  | FCanceled => ContextCanceled
  | FDeadline => ContextDeadlineExceeded
  end.

Inductive outcome :=
| Applied
| Rejected (f : fault)
| AppliedUnacked (f : fault).

(** A Redis keyspace: string keys with their expiry, sets, and the hashes
    of the rate limiter, whose fields hold numbers. *)
Record Redis := mkRedis {
  rd_strings : gmap string (string * option Time);
  rd_sets : gmap string (gset string);
  rd_hashes : gmap string (gmap string QArith_base.Q * option Time)
}.

Record env := mkenv {
  e_uuid : nat -> UUID;
  e_time : nat -> Time;
  e_pgnow : nat -> Time;
  e_redisnow : nat -> Time;
  e_outcome : nat -> outcome;
  e_others : nat -> Db -> Db;
  e_redis_others : nat -> Redis -> Redis;
  e_renewals : nat -> nat;
  e_locked : nat -> UUID -> bool;
  e_rank : nat -> UUID -> Z;
  e_rows : nat -> nat
}.

(** ** The world *)

(** The calls of [observability.Recorder]. *)
Inductive metric :=
| JobCreated (jobType : string)
| JobCompleted (jobType : string) (duration : Duration)
| JobFailed (jobType : string)
| JobDeadLettered (jobType : string)
| WorkerClaimed (count : Z)
| SetActiveWorkers (count : Z).

(** The calls on the collectors of the Prometheus client: a counter is
    incremented or added to, a histogram observes a number of seconds
    (given as a duration), a gauge is set. *)
Inductive collector :=
| CInc (name : string) (labels : list string)
| CAdd (name : string) (count : Z)
| CObserve (name : string) (labels : list string) (d : Duration)
| CSet (name : string) (count : Z).

Record world := mkworld {
  w_db : Db;
  w_redis : Redis;
  w_bus : list OutboxEvent;
  w_metrics : list metric;
  w_prom : list collector;
  w_tick : nat
}.

#[export] Instance eta_Redis : Eta Redis := fun r =>
  mkRedis (rd_strings r) (rd_sets r) (rd_hashes r).
#[export] Instance upd_rd_strings : Upd rd_strings := ltac:(mk_upd rd_strings).
#[export] Instance upd_rd_sets : Upd rd_sets := ltac:(mk_upd rd_sets).
#[export] Instance upd_rd_hashes : Upd rd_hashes := ltac:(mk_upd rd_hashes).

#[export] Instance eta_world : Eta world := fun w =>
  mkworld (w_db w) (w_redis w) (w_bus w) (w_metrics w) (w_prom w)
    (w_tick w).
#[export] Instance upd_w_db : Upd w_db := ltac:(mk_upd w_db).
#[export] Instance upd_w_redis : Upd w_redis := ltac:(mk_upd w_redis).
#[export] Instance upd_w_bus : Upd w_bus := ltac:(mk_upd w_bus).
#[export] Instance upd_w_metrics : Upd w_metrics := ltac:(mk_upd w_metrics).
#[export] Instance upd_w_prom : Upd w_prom := ltac:(mk_upd w_prom).
#[export] Instance upd_w_tick : Upd w_tick := ltac:(mk_upd w_tick).

(** ** Computations *)

Definition M (A : Type) : Type := env -> world -> result A * world.

#[export] Instance M_ret : MRet M := fun A a e w => (Ok a, w).

#[export] Instance M_bind : MBind M := fun A B k m e w =>
  match m e w with
  | (Ok a, w') => k a e w'
  | (Err err, w') => (Err err, w')
  end.

(** [return err]. *)
Definition fail {A} (err : error) : M A := fun e w => (Err err, w).

(** [x, err := m] followed by code that inspects [err]. *)
Definition try {A} (m : M A) : M (result A) := fun e w =>
  let '(r, w') := m e w in (Ok r, w').

Definition tick : M nat := fun e w => (Ok (w_tick w), w <| w_tick := S (w_tick w) |>).

Definition uuid_New : M UUID := fun e w =>
  (Ok (e_uuid e (w_tick w)), w <| w_tick := S (w_tick w) |>).

Definition time_Now : M Time := fun e w =>
  (Ok (e_time e (w_tick w)), w <| w_tick := S (w_tick w) |>).

Definition record_metric (m : metric) : M unit := fun e w =>
  (Ok tt, w <| w_metrics := w_metrics w ++ [m] |>).

(** A call on a collector of the process. *)
Definition collect (c : collector) : M unit := fun e w =>
  (Ok tt, w <| w_prom := w_prom w ++ [c] |>).

(** [time.Since(t)]. *)
Definition time_Since (t : Time) : M Duration := fun e w =>
  (Ok (time_Sub (e_time e (w_tick w)) t), w <| w_tick := S (w_tick w) |>).

(** [panic(...)] ends the goroutine; who recovers, catches it with [try]. *)
Definition go_panic {A} (msg : string) : M A := fail (ErrorString ("panic: " +:+ msg)).

(** [time.NewTicker(d)]. *)
Definition time_NewTicker (d : Duration) : M unit :=
  if (d <=? 0)%Z then go_panic "non-positive interval for NewTicker" else mret tt.

(** ** Statements inside a transaction *)

(** [now] is fixed when the transaction begins. *)
Definition Tx (A : Type) : Type := env -> Time -> Db * nat -> result A * (Db * nat).

#[export] Instance Tx_ret : MRet Tx := fun A a e now s => (Ok a, s).

#[export] Instance Tx_bind : MBind Tx := fun A B k m e now s =>
  match m e now s with
  | (Ok a, s') => k a e now s'
  | (Err err, s') => (Err err, s')
  end.

Definition tx_fail {A} (err : error) : Tx A := fun e now s => (Err err, s).

Definition tx_lift {A} (r : result A) : Tx A := fun e now s => (r, s).

Definition tx_uuid_New : Tx UUID := fun e now '(d, n) => (Ok (e_uuid e n), (d, S n)).

Definition tx_time_Now : Tx Time := fun e now '(d, n) => (Ok (e_time e n), (d, S n)).

(** One statement: it may be rejected, or fail on a constraint. *)
Definition tx_exec {A} (f : Time -> Db -> result (Db * A)) : Tx A :=
  fun e now '(d, n) =>
    match e_outcome e n with
    | Applied => match f now d with
                 | Ok (d', a) => (Ok a, (d', S n))
                 | Err err => (Err err, (d, S n))
                 end
    | Rejected ft | AppliedUnacked ft => (Err (fault_error ft), (d, S n))
    end.

(** One query; [locked] and [rank] are the session's view of the scan. *)
Definition tx_query {A} (f : (UUID -> bool) -> (UUID -> Z) -> Time -> Db -> A) : Tx A :=
  fun e now '(d, n) =>
    match e_outcome e n with
    | Applied => (Ok (f (e_locked e n) (e_rank e n) now d), (d, S n))
    | Rejected ft | AppliedUnacked ft => (Err (fault_error ft), (d, S n))
    end.

(** [for i := range items { ... }], collecting the results. *)
Fixpoint tx_each {A B} (f : A -> Tx B) (l : list A) : Tx (list B) :=
  match l with
  | [] => mret []
  | x :: l' => y ← f x; ys ← tx_each f l'; mret (y :: ys)
  end.

(** ** Transactions and single statements on the pool *)

Definition with_tx {A} (body : Tx A) : M A := fun e w =>
  let n := w_tick w in
  let d0 := e_others e n (w_db w) in
  match e_outcome e n with
  | Rejected ft | AppliedUnacked ft =>
      (Err (fault_error ft), w <| w_db := d0 |> <| w_tick := S n |>)
  | Applied =>
      match body e (e_pgnow e n) (d0, S n) with
      | (Err err, (_, n')) => (Err err, w <| w_db := d0 |> <| w_tick := n' |>)
      | (Ok a, (d', n')) =>
          match e_outcome e n' with
          | Applied => (Ok a, w <| w_db := d' |> <| w_tick := S n' |>)
          | Rejected ft =>
              (Err (fault_error ft), w <| w_db := d0 |> <| w_tick := S n' |>)
          | AppliedUnacked ft =>
              (Err (fault_error ft), w <| w_db := d' |> <| w_tick := S n' |>)
          end
      end
  end.

(** A statement executed on the pool commits by itself. *)
Definition pool_exec {A} (f : Time -> Db -> result (Db * A)) : M A := fun e w =>
  let n := w_tick w in
  let d0 := e_others e n (w_db w) in
  match e_outcome e n with
  | Rejected ft => (Err (fault_error ft), w <| w_db := d0 |> <| w_tick := S n |>)
  | Applied =>
      match f (e_pgnow e n) d0 with
      | Ok (d', a) => (Ok a, w <| w_db := d' |> <| w_tick := S n |>)
      | Err err => (Err err, w <| w_db := d0 |> <| w_tick := S n |>)
      end
  | AppliedUnacked ft =>
      match f (e_pgnow e n) d0 with
      | Ok (d', a) => (Err (fault_error ft), w <| w_db := d' |> <| w_tick := S n |>)
      | Err err => (Err (fault_error ft), w <| w_db := d0 |> <| w_tick := S n |>)
      end
  end.

(** A query on the pool reads one snapshot; [rank] orders what [ORDER BY]
    leaves open. *)
Definition pool_query {A} (f : (UUID -> Z) -> Time -> Db -> result A) : M A := fun e w =>
  pool_exec (fun now d => match f (e_rank e (w_tick w)) now d with
                          | Ok a => Ok (d, a)
                          | Err err => Err err
                          end) e w.

(** One Redis command, or one script, which the server runs atomically. *)
Definition redis_exec {A} (f : Time -> Redis -> result (Redis * A)) : M A := fun e w =>
  let n := w_tick w in
  let r0 := e_redis_others e n (w_redis w) in
  let w' := w <| w_redis := r0 |> <| w_tick := S n |> in
  match e_outcome e n with
  | Rejected ft => (Err (fault_error ft), w')
  | Applied =>
      match f (e_redisnow e n) r0 with
      | Ok (r1, a) => (Ok a, w' <| w_redis := r1 |>)
      | Err err => (Err err, w')
      end
  | AppliedUnacked ft =>
      match f (e_redisnow e n) r0 with
      | Ok (r1, a) => (Err (fault_error ft), w' <| w_redis := r1 |>)
      | Err err => (Err (fault_error ft), w')
      end
  end.

(** [defer cleanup()] around [m]. *)
Definition deferred {A} (m : M A) (cleanup : M unit) : M A := fun e w =>
  let '(r, w1) := m e w in (r, (cleanup e w1).2).

(** ** What a computation may do to the database *)

(** Every committed effect of the body is in [R]. *)
Definition tx_rel {A} (R : Db -> Db -> Prop) (body : Tx A) : Prop :=
  forall e now d n a d' n', body e now (d, n) = (Ok a, (d', n')) -> R d d'.

Definition stmt_rel {A} (R : Db -> Db -> Prop) (f : Time -> Db -> result (Db * A)) : Prop :=
  forall now d d' a, f now d = Ok (d', a) -> R d d'.

(** ** Lemmas *)

Lemma M_bind_ok {A B} (m : M A) (k : A -> M B) e w b w' :
  (m ≫= k) e w = (Ok b, w') <->
  exists a w1, m e w = (Ok a, w1) /\ k a e w1 = (Ok b, w').
Proof.
  unfold mbind, M_bind. split.
  - destruct (m e w) as [[a|err] w1]; [eauto | discriminate].
  - intros (a & w1 & -> & Hk). done.
Qed.

Lemma M_bind_assoc {A B C} (m : M A) (f : A -> M B) (g : B -> M C) e w :
  ((m ≫= f) ≫= g) e w = (m ≫= fun a => f a ≫= g) e w.
Proof. unfold mbind, M_bind. by destruct (m e w) as [[a|err] w1]. Qed.

Lemma M_bind_eq {A B} (m : M A) (k : A -> M B) e w :
  (m ≫= k) e w = match m e w with (Ok a, w1) => k a e w1 | (Err err, w1) => (Err err, w1) end.
Proof. done. Qed.

Lemma M_ret_bind {A B} (a : A) (k : A -> M B) e w : (mret a ≫= k) e w = k a e w.
Proof. done. Qed.

Lemma Tx_bind_ok {A B} (m : Tx A) (k : A -> Tx B) e now s b s' :
  (m ≫= k) e now s = (Ok b, s') <->
  exists a s1, m e now s = (Ok a, s1) /\ k a e now s1 = (Ok b, s').
Proof.
  unfold mbind, Tx_bind. split.
  - destruct (m e now s) as [[a|err] s1]; [eauto | discriminate].
  - intros (a & s1 & -> & Hk). done.
Qed.

Lemma tx_exec_ok {A} (f : Time -> Db -> result (Db * A)) e now d n a s' :
  tx_exec f e now (d, n) = (Ok a, s') <->
  e_outcome e n = Applied /\ exists d', f now d = Ok (d', a) /\ s' = (d', S n).
Proof.
  unfold tx_exec.
  destruct (e_outcome e n), (f now d) as [[d1 a1]|err]; naive_solver.
Qed.

Lemma tx_query_ok {A} (f : (UUID -> bool) -> (UUID -> Z) -> Time -> Db -> A) e now d n a s' :
  tx_query f e now (d, n) = (Ok a, s') <->
  e_outcome e n = Applied /\ a = f (e_locked e n) (e_rank e n) now d /\ s' = (d, S n).
Proof. unfold tx_query. destruct (e_outcome e n); naive_solver. Qed.

Lemma tx_lift_ok {A} (r : result A) e now s a s' :
  tx_lift r e now s = (Ok a, s') <-> r = Ok a /\ s' = s.
Proof. unfold tx_lift. naive_solver. Qed.

Lemma tx_ret_ok {A} (x : A) e now s a s' :
  (mret x : Tx A) e now s = (Ok a, s') <-> a = x /\ s' = s.
Proof. unfold mret, Tx_ret. naive_solver. Qed.

(** Step through a successful transaction body. *)
Ltac tx_inv H :=
  repeat match type of H with
  | (_ ≫= _) _ _ _ = (Ok _, _) =>
      let H1 := fresh "Htx" in
      apply Tx_bind_ok in H as (? & [? ?] & H1 & H); tx_inv H1
  | tx_exec _ _ _ _ = (Ok _, _) =>
      let d := fresh "d" in
      let Ho := fresh "Hout" in
      apply tx_exec_ok in H as [Ho (d & H & ?)]; simplify_eq
  | tx_query _ _ _ _ = (Ok _, _) =>
      let Ho := fresh "Hout" in
      apply tx_query_ok in H as (Ho & ? & ?); simplify_eq
  | tx_lift _ _ _ _ = (Ok _, _) => apply tx_lift_ok in H as [H ?]; simplify_eq
  | mret _ _ _ _ = (Ok _, _) => apply tx_ret_ok in H as [? ?]; simplify_eq
  | tx_fail _ _ _ _ = (Ok _, _) => discriminate H
  | tx_uuid_New _ _ _ = (Ok _, _) => unfold tx_uuid_New in H; simplify_eq
  | tx_time_Now _ _ _ = (Ok _, _) => unfold tx_time_Now in H; simplify_eq
  end.

(** A transaction leaves the database as it found it or commits the
    whole effect of a body that ran to its end. *)
Lemma with_tx_cases {A} (body : Tx A) e w :
  let d0 := e_others e (w_tick w) (w_db w) in
  let out := with_tx body e w in
  w_redis out.2 = w_redis w /\ w_bus out.2 = w_bus w /\
  w_metrics out.2 = w_metrics w /\
  ((w_db out.2 = d0 /\ exists err, out.1 = Err err) \/
   (exists a n', body e (e_pgnow e (w_tick w)) (d0, S (w_tick w)) =
                 (Ok a, (w_db out.2, n')) /\
                 (out.1 = Ok a \/ exists ft, out.1 = Err (fault_error ft)))).
Proof.
  simpl. unfold with_tx. destruct (e_outcome e (w_tick w)); simpl; [|eauto 10..].
  destruct (body _ _ _) as [[a|err] [d' n']] eqn:E; simpl; [|eauto 10].
  destruct (e_outcome e n'); simpl; split_and!; eauto 10.
Qed.

Lemma with_tx_ok {A} (body : Tx A) e w a w' :
  with_tx body e w = (Ok a, w') ->
  let d0 := e_others e (w_tick w) (w_db w) in
  exists n', body e (e_pgnow e (w_tick w)) (d0, S (w_tick w)) = (Ok a, (w_db w', n')) /\
             w' = w <| w_db := w_db w' |> <| w_tick := S n' |>.
Proof.
  unfold with_tx. simpl. destruct (e_outcome e (w_tick w)); try discriminate.
  destruct (body _ _ _) as [[a1|err] [d' n']] eqn:E; try discriminate.
  destruct (e_outcome e n'); try discriminate.
  intros H. simplify_eq/=. eauto.
Qed.

Lemma with_tx_rel {A} (R : Db -> Db -> Prop) `{!Reflexive R} (body : Tx A) e w :
  tx_rel R body ->
  R (e_others e (w_tick w) (w_db w)) (w_db (with_tx body e w).2).
Proof.
  intros HR. destruct (with_tx_cases body e w) as (_ & _ & _ & [[-> _]|H]); [done|].
  destruct H as (a & n' & Hb & _). by eapply HR.
Qed.

Lemma pool_exec_ok {A} (f : Time -> Db -> result (Db * A)) e w a w' :
  pool_exec f e w = (Ok a, w') ->
  f (e_pgnow e (w_tick w)) (e_others e (w_tick w) (w_db w)) = Ok (w_db w', a) /\
  w' = w <| w_db := w_db w' |> <| w_tick := S (w_tick w) |>.
Proof.
  unfold pool_exec. destruct (e_outcome e (w_tick w)); try discriminate;
    destruct (f _ _) as [[d' a1]|err]; try discriminate.
  intros H. by simplify_eq/=.
Qed.

Lemma pool_exec_rel {A} (R : Db -> Db -> Prop) `{!Reflexive R}
    (f : Time -> Db -> result (Db * A)) e w :
  stmt_rel R f ->
  R (e_others e (w_tick w) (w_db w)) (w_db (pool_exec f e w).2).
Proof.
  intros HR. unfold pool_exec.
  destruct (f (e_pgnow e (w_tick w)) (e_others e (w_tick w) (w_db w)))
    as [[d' a1]|err] eqn:E; destruct (e_outcome e (w_tick w)); simpl; try done;
    by eapply HR.
Qed.

Lemma pool_query_ok {A} (f : (UUID -> Z) -> Time -> Db -> result A) e w a w' :
  pool_query f e w = (Ok a, w') ->
  f (e_rank e (w_tick w)) (e_pgnow e (w_tick w)) (e_others e (w_tick w) (w_db w)) = Ok a /\
  w' = w <| w_db := e_others e (w_tick w) (w_db w) |> <| w_tick := S (w_tick w) |>.
Proof.
  unfold pool_query. intros H. apply pool_exec_ok in H as [H1 H2].
  destruct (f _ _ _) as [a'|]; [|discriminate]. simplify_eq.
  split; [done|]. by rewrite H2 at 1; congruence.
Qed.

Lemma pool_query_db {A} (f : (UUID -> Z) -> Time -> Db -> result A) e w :
  w_db (pool_query f e w).2 = e_others e (w_tick w) (w_db w).
Proof.
  unfold pool_query, pool_exec.
  destruct (f (e_rank e (w_tick w)) (e_pgnow e (w_tick w))
             (e_others e (w_tick w) (w_db w))); by destruct (e_outcome e (w_tick w)).
Qed.

Lemma pool_exec_frame {A} (f : Time -> Db -> result (Db * A)) e w :
  w_redis (pool_exec f e w).2 = w_redis w /\ w_bus (pool_exec f e w).2 = w_bus w /\
  w_metrics (pool_exec f e w).2 = w_metrics w.
Proof. unfold pool_exec. by repeat case_match. Qed.

Lemma uuid_New_bind {A} (k : UUID -> M A) e w :
  (uuid_New ≫= k) e w = k (e_uuid e (w_tick w)) e (w <| w_tick := S (w_tick w) |>).
Proof. done. Qed.

Lemma time_Now_bind {A} (k : Time -> M A) e w :
  (time_Now ≫= k) e w = k (e_time e (w_tick w)) e (w <| w_tick := S (w_tick w) |>).
Proof. done. Qed.

(** ** A healthy environment *)

(** Every call reaches its server and returns, and no other session
    commits in between. *)
Record healthy (e : env) : Prop := mk_healthy {
  h_outcome : forall n, e_outcome e n = Applied;
  h_others : forall n d, e_others e n d = d;
  h_redis_others : forall n r, e_redis_others e n r = r
}.

Lemma redis_exec_frame {A} (f : Time -> Redis -> result (Redis * A)) e w :
  w_db (redis_exec f e w).2 = w_db w /\ w_bus (redis_exec f e w).2 = w_bus w /\
  w_metrics (redis_exec f e w).2 = w_metrics w.
Proof. unfold redis_exec. by repeat case_match. Qed.

Section Healthy.
Context (e : env) (H : healthy e).

Lemma pool_exec_healthy {A} (f : Time -> Db -> result (Db * A)) w :
  pool_exec f e w =
  match f (e_pgnow e (w_tick w)) (w_db w) with
  | Ok (d', a) => (Ok a, w <| w_db := d' |> <| w_tick := S (w_tick w) |>)
  | Err err => (Err err, w <| w_tick := S (w_tick w) |>)
  end.
Proof.
  unfold pool_exec. rewrite (h_outcome _ H), (h_others _ H).
  destruct (f _ _) as [[d' a]|err]; [done|]. by destruct w.
Qed.

Lemma pool_query_healthy {A} (f : (UUID -> Z) -> Time -> Db -> result A) w :
  pool_query f e w =
  (f (e_rank e (w_tick w)) (e_pgnow e (w_tick w)) (w_db w),
   w <| w_tick := S (w_tick w) |>).
Proof.
  unfold pool_query. rewrite pool_exec_healthy. destruct (f _ _ _); [|done].
  by destruct w.
Qed.

Lemma with_tx_healthy {A} (body : Tx A) w :
  with_tx body e w =
  match body e (e_pgnow e (w_tick w)) (w_db w, S (w_tick w)) with
  | (Ok a, (d', n')) => (Ok a, w <| w_db := d' |> <| w_tick := S n' |>)
  | (Err err, (_, n')) => (Err err, w <| w_tick := n' |>)
  end.
Proof.
  unfold with_tx. rewrite (h_outcome _ H), (h_others _ H).
  destruct (body _ _ _) as [[a|err] [d' n']]; [by rewrite (h_outcome _ H)|].
  by destruct w.
Qed.

Lemma redis_exec_healthy {A} (f : Time -> Redis -> result (Redis * A)) w :
  redis_exec f e w =
  match f (e_redisnow e (w_tick w)) (w_redis w) with
  | Ok (r1, a) => (Ok a, w <| w_redis := r1 |> <| w_tick := S (w_tick w) |>)
  | Err err => (Err err, w <| w_tick := S (w_tick w) |>)
  end.
Proof.
  unfold redis_exec. rewrite (h_outcome _ H), (h_redis_others _ H).
  destruct (f _ _) as [[d' a]|err]; [done|]. by destruct w.
Qed.

End Healthy.

(** A healthy environment in which time stands still, and the empty world. *)
Definition quiet_env : env :=
  {| e_uuid := N.of_nat; e_time := fun _ => 0%Z; e_pgnow := fun _ => 0%Z;
     e_redisnow := fun _ => 0%Z; e_outcome := fun _ => Applied;
     e_others := fun _ d => d; e_redis_others := fun _ r => r;
     e_renewals := fun _ => 0; e_locked := fun _ _ => false; e_rank := fun _ _ => 0%Z;
     e_rows := fun _ => 0 |}.

Definition empty_world : world :=
  {| w_db := mkDb ∅ ∅ ∅ ∅ ∅ ∅; w_redis := mkRedis ∅ ∅ ∅; w_bus := []; w_metrics := [];
     w_prom := []; w_tick := 0 |}.

Lemma quiet_env_healthy : healthy quiet_env.
Proof. by split. Qed.
