(* ===== verification/Json.v ===== *)
(** * encoding/json: [json.Valid]

    The recogniser behind [json.Valid]: RFC 8259 values over bytes, with
    the decoder's nesting limit of 10000.  The fuel of twice the length
    of the input (plus two) never runs out: more of it gives the same
    answer ([json_Valid_fuel]). *)

From S2P Require Import Prelude GoRuntime.

Local Open Scope N_scope.

Definition codes (s : string) : list N :=
  Ascii.N_of_ascii <$> String.list_ascii_of_string s.

Fixpoint skip_ws (l : list N) : list N :=
  match l with
  | c :: l' => if bool_decide (c ∈ [32; 9; 10; 13]) then skip_ws l' else l
  | [] => []
  end.

Definition is_digit (c : N) : bool := (48 <=? c) && (c <=? 57).

Definition is_hex (c : N) : bool :=
  is_digit c || ((97 <=? c) && (c <=? 102)) || ((65 <=? c) && (c <=? 70)).

(** After the opening quote: the rest after the closing one. *)
Fixpoint json_string (l : list N) : option (list N) :=
  match l with
  | [] => None
  | c :: l1 =>
      if c =? 34 then Some l1
      else if c =? 92 then
        match l1 with
        | [] => None
        | e :: l2 =>
            if e =? 117 then
              match l2 with
              | h1 :: h2 :: h3 :: h4 :: l3 =>
                  if forallb is_hex [h1; h2; h3; h4] then json_string l3 else None
              | _ => None
              end
            else if bool_decide (e ∈ [34; 92; 47; 98; 102; 110; 114; 116])
            then json_string l2 else None
        end
      else if c <? 32 then None
      else json_string l1
  end.

Fixpoint skip_digits (l : list N) : list N :=
  match l with
  | c :: l' => if is_digit c then skip_digits l' else l
  | [] => []
  end.

(** One or more digits. *)
Definition digits1 (l : list N) : option (list N) :=
  match l with
  | c :: l' => if is_digit c then Some (skip_digits l') else None
  | [] => None
  end.

Definition json_int (l : list N) : option (list N) :=
  match l with
  | c :: l' => if c =? 48 then Some l' else digits1 l
  | [] => None
  end.

Definition json_frac (l : list N) : option (list N) :=
  match l with
  | c :: l' => if c =? 46 then digits1 l' else Some l
  | [] => Some l
  end.

(** An optional sign. *)
Definition skip_sign (signs l : list N) : list N :=
  match l with
  | c :: l' => if bool_decide (c ∈ signs) then l' else l
  | [] => l
  end.

Definition json_exp (l : list N) : option (list N) :=
  match l with
  | c :: l' => if (c =? 101) || (c =? 69) then digits1 (skip_sign [43; 45] l') else Some l
  | [] => Some l
  end.

Definition json_number (l : list N) : option (list N) :=
  l1 ← json_int (skip_sign [45] l);
  l2 ← json_frac l1;
  json_exp l2.

Fixpoint strip_codes (w l : list N) : option (list N) :=
  match w, l with
  | [], _ => Some l
  | c :: w', c' :: l' => if c =? c' then strip_codes w' l' else None
  | _ :: _, [] => None
  end.

Definition max_nesting_depth : N := 10000.

(** The byte at the front, if it is [c]. *)
Definition next_is (c : N) (l : list N) : option (list N) :=
  match l with
  | c' :: l' => if c' =? c then Some l' else None
  | [] => None
  end.

Fixpoint json_value (fuel : nat) (depth : N) (l : list N) {struct fuel}
    : option (list N) :=
  match fuel with
  | O => None
  | S f =>
      match skip_ws l with
      | [] => None
      | c :: l' =>
          if c =? 123 then
            if max_nesting_depth <? depth + 1 then None else
            match next_is 125 (skip_ws l') with
            | Some r => Some r
            | None => json_members f (depth + 1) l'
            end
          else if c =? 91 then
            if max_nesting_depth <? depth + 1 then None else
            match next_is 93 (skip_ws l') with
            | Some r => Some r
            | None => json_elements f (depth + 1) l'
            end
          else if c =? 34 then json_string l'
          else if c =? 116 then strip_codes [114; 117; 101] l'
          else if c =? 102 then strip_codes [97; 108; 115; 101] l'
          else if c =? 110 then strip_codes [117; 108; 108] l'
          else json_number (c :: l')
      end
  end
with json_members (fuel : nat) (depth : N) (l : list N) {struct fuel}
    : option (list N) :=
  match fuel with
  | O => None
  | S f =>
      l1 ← next_is 34 (skip_ws l);
      l2 ← json_string l1;
      l3 ← next_is 58 (skip_ws l2);
      l4 ← json_value f depth l3;
      match next_is 44 (skip_ws l4) with
      | Some l5 => json_members f depth l5
      | None => next_is 125 (skip_ws l4)
      end
  end
with json_elements (fuel : nat) (depth : N) (l : list N) {struct fuel}
    : option (list N) :=
  match fuel with
  | O => None
  | S f =>
      l1 ← json_value f depth l;
      match next_is 44 (skip_ws l1) with
      | Some l2 => json_elements f depth l2
      | None => next_is 93 (skip_ws l1)
      end
  end.

(** [json.Valid(data)]. *)
Definition json_Valid (s : string) : bool :=
  let l := codes s in
  match json_value (2 * length l + 2) 0 l with
  | Some r => bool_decide (skip_ws r = [])
  | None => false
  end.

Example json_Valid_object : json_Valid "{}" = true.
Proof. reflexivity. Qed.

Example json_Valid_nested : json_Valid "[1, -0.5e+3, [true, null], {}] " = true.
Proof. reflexivity. Qed.

Example json_Valid_trailing : json_Valid "{} x" = false.
Proof. reflexivity. Qed.

Example json_Valid_leading_zero : json_Valid "01" = false.
Proof. reflexivity. Qed.

Example json_Valid_escape : json_Valid (String (Ascii.ascii_of_nat 34) "\u00e9 \n" +:+
  String (Ascii.ascii_of_nat 34) "") = true.
Proof. reflexivity. Qed.

(** ** The fuel is enough *)

(** What a successful parse leaves is shorter than its input. *)
Definition shrinks (p : list N -> option (list N)) : Prop :=
  forall l r, p l = Some r -> (length r < length l)%nat.

Lemma skip_ws_length l : (length (skip_ws l) <= length l)%nat.
Proof. induction l; simpl; [done|]. case_bool_decide; simpl; lia. Qed.

Lemma skip_digits_length l : (length (skip_digits l) <= length l)%nat.
Proof. induction l; simpl; [done|]. case_match; simpl; lia. Qed.

Lemma skip_sign_length signs l : (length (skip_sign signs l) <= length l)%nat.
Proof. destruct l; simpl; [done|]. case_bool_decide; simpl; lia. Qed.

Lemma next_is_shrinks c : shrinks (next_is c).
Proof. intros [|c' l] r; simpl; [done|]. case_match; naive_solver. Qed.

Lemma digits1_shrinks : shrinks digits1.
Proof.
  intros [|c l] r; simpl; [done|]. pose proof (skip_digits_length l).
  case_match; naive_solver lia.
Qed.

Lemma strip_codes_length w l r : strip_codes w l = Some r -> (length r <= length l)%nat.
Proof.
  revert l. induction w as [|c w IH]; intros [|c' l]; simpl; try naive_solver.
  case_match; [|done]. intros Hr%IH. lia.
Qed.

Lemma json_string_shrinks : shrinks json_string.
Proof.
  intros l. remember (length l) as n eqn:Hn. revert l Hn.
  induction (lt_wf n) as [n _ IH]; intros [|c l] -> r; simpl; [done|].
  repeat case_match; intros; simplify_eq/=; try lia;
    match goal with H : json_string ?l' = Some _ |- _ =>
      apply (IH (length l')) in H; simpl; lia end.
Qed.

Lemma json_int_shrinks : shrinks json_int.
Proof.
  intros [|c l] r; cbn [json_int]; [done|].
  destruct (c =? 48); [intros [= ->]; simpl; lia | apply digits1_shrinks].
Qed.

Lemma json_frac_length l r : json_frac l = Some r -> (length r <= length l)%nat.
Proof.
  destruct l as [|c l]; cbn [json_frac]; [by intros [= <-]|].
  destruct (c =? 46); [|by intros [= <-]].
  intros H%digits1_shrinks. simpl. lia.
Qed.

Lemma json_exp_length l r : json_exp l = Some r -> (length r <= length l)%nat.
Proof.
  destruct l as [|c l]; cbn [json_exp]; [by intros [= <-]|].
  destruct (_ || _); [|by intros [= <-]].
  intros H%digits1_shrinks. pose proof (skip_sign_length [43; 45] l). simpl. lia.
Qed.

Lemma json_number_shrinks : shrinks json_number.
Proof.
  intros l r (l1 & H1%json_int_shrinks & (l2 & H2 & H3)%bind_Some)%bind_Some.
  pose proof (skip_sign_length [45] l).
  apply json_frac_length in H2. apply json_exp_length in H3. lia.
Qed.

Lemma json_shrinks f :
  (forall depth, shrinks (json_value f depth)) /\
  (forall depth, shrinks (json_members f depth)) /\
  (forall depth, shrinks (json_elements f depth)).
Proof.
  induction f as [|f (IHv & IHm & IHe)]; [by split_and!|].
  assert (Hnext : forall c l r, next_is c (skip_ws l) = Some r -> (length r < length l)%nat).
  { intros c l r H%next_is_shrinks. pose proof (skip_ws_length l). lia. }
  split_and!; intros depth l r; cbn [json_value json_members json_elements].
  - pose proof (skip_ws_length l) as Hl. destruct (skip_ws l) as [|c l']; [done|].
    cbn [length] in Hl.
    repeat (case_match; [|]); intros H'; simplify_eq;
      repeat match goal with
      | H : next_is _ (skip_ws _) = Some _ |- _ => apply Hnext in H
      | H : json_members _ _ _ = Some _ |- _ => apply IHm in H
      | H : json_elements _ _ _ = Some _ |- _ => apply IHe in H
      | H : json_string _ = Some _ |- _ => apply json_string_shrinks in H
      | H : strip_codes _ _ = Some _ |- _ => apply strip_codes_length in H
      | H : json_number _ = Some _ |- _ => apply json_number_shrinks in H; simpl in H
      end; lia.
  - intros (l1 & H1%Hnext & (l2 & H2%json_string_shrinks & (l3 & H3%Hnext &
      (l4 & H4%IHv & H5)%bind_Some)%bind_Some)%bind_Some)%bind_Some.
    case_match; [apply IHm in H5 | apply Hnext in H5]; [|lia].
    match goal with H : next_is _ (skip_ws _) = Some _ |- _ => apply Hnext in H end. lia.
  - intros (l1 & H1%IHv & H2)%bind_Some.
    case_match; [apply IHe in H2 | apply Hnext in H2]; [|lia].
    match goal with H : next_is _ (skip_ws _) = Some _ |- _ => apply Hnext in H end. lia.
Qed.

(** Any two amounts of fuel past twice the length of the input agree. *)
Lemma json_fuel f f' l depth :
  (2 * length l + 1 <= f -> 2 * length l + 1 <= f' ->
   json_value f depth l = json_value f' depth l /\
   json_members f depth l = json_members f' depth l)%nat /\
  (2 * length l + 2 <= f -> 2 * length l + 2 <= f' ->
   json_elements f depth l = json_elements f' depth l)%nat.
Proof.
  revert f' l depth. induction f as [|f IH]; intros [|f'] l depth; try (split; lia).
  assert (IHv : forall l d, (2 * length l + 1 <= f)%nat -> (2 * length l + 1 <= f')%nat ->
    json_value f d l = json_value f' d l) by (intros; by apply IH).
  assert (IHm : forall l d, (2 * length l + 1 <= f)%nat -> (2 * length l + 1 <= f')%nat ->
    json_members f d l = json_members f' d l) by (intros; by apply IH).
  assert (IHe : forall l d, (2 * length l + 2 <= f)%nat -> (2 * length l + 2 <= f')%nat ->
    json_elements f d l = json_elements f' d l) by (intros; by apply IH).
  pose proof (skip_ws_length l) as Hl. cbn [json_value json_members json_elements].
  split; intros Hf Hf'; [split|].
  - destruct (skip_ws l) as [|c l']; [done|]. cbn [length] in Hl.
    rewrite (IHm l' (depth + 1)), (IHe l' (depth + 1)) by lia. done.
  - destruct (next_is 34 (skip_ws l)) as [l1|] eqn:H1; [|done]. cbn.
    destruct (json_string l1) as [l2|] eqn:H2; [|done]. cbn.
    destruct (next_is 58 (skip_ws l2)) as [l3|] eqn:H3; [|done]. cbn.
    apply next_is_shrinks in H1, H3. apply json_string_shrinks in H2.
    pose proof (skip_ws_length l2). rewrite (IHv l3) by lia.
    destruct (json_value f' depth l3) as [l4|] eqn:H4; [|done]. cbn.
    apply json_shrinks in H4.
    destruct (next_is 44 (skip_ws l4)) as [l5|] eqn:H5; [|done].
    apply next_is_shrinks in H5. pose proof (skip_ws_length l4). by rewrite (IHm l5) by lia.
  - rewrite (IHv l) by lia.
    destruct (json_value f' depth l) as [l1|] eqn:H1; [|done]. cbn.
    apply json_shrinks in H1.
    destruct (next_is 44 (skip_ws l1)) as [l2|] eqn:H2; [|done].
    apply next_is_shrinks in H2. pose proof (skip_ws_length l1). by rewrite (IHe l2) by lia.
Qed.

Lemma json_Valid_fuel s f :
  (2 * length (codes s) + 2 <= f)%nat ->
  json_value f 0 (codes s) = json_value (2 * length (codes s) + 2) 0 (codes s).
Proof. intros Hf. apply json_fuel; lia. Qed.
