(* ===== verification/JsonText.v ===== *)
(** * encoding/json: strings, numbers and raw values

    What the program's [json.Marshal], [json.Unmarshal] and
    [json.Decoder] do with bytes: quoting a string (with Go's escapes of
    HTML characters and of invalid UTF-8), reading it back, printing an
    integer and reading it back.  Texts are lists of byte values, as in
    the recogniser of [json.Valid]. *)

From S2P Require Import Prelude GoRuntime Strings Json.

Local Open Scope N_scope.

(** ** Bytes and strings *)

Definition text (l : list N) : string :=
  String.string_of_list_ascii (Ascii.ascii_of_N <$> l).

Definition byte_list (l : list N) : Prop := Forall (fun c => c < 256) l.

Lemma codes_app s1 s2 : codes (s1 +:+ s2) = codes s1 ++ codes s2.
Proof. unfold codes. by rewrite list_of_string_app, fmap_app. Qed.

Lemma codes_bytes s : byte_list (codes s).
Proof.
  apply Forall_forall. unfold codes. intros c (a & -> & _)%list_elem_of_fmap.
  apply Ascii.N_ascii_bounded.
Qed.

Lemma text_codes s : text (codes s) = s.
Proof.
  unfold text, codes. rewrite <- list_fmap_compose.
  rewrite <- (String.string_of_list_ascii_of_string s) at 2. f_equal.
  induction (String.list_ascii_of_string s) as [|a l IH]; [done|]. cbn.
  by rewrite IH, Ascii.ascii_N_embedding.
Qed.

Lemma codes_text l : byte_list l -> codes (text l) = l.
Proof.
  intros Hl. unfold text, codes. rewrite String.list_ascii_of_string_of_list_ascii.
  induction Hl as [|c l Hc _ IH]; [done|]. cbn. by rewrite IH, Ascii.N_ascii_embedding.
Qed.

#[export] Instance codes_inj : Inj (=) (=) codes.
Proof. intros s1 s2 H. by rewrite <- (text_codes s1), H, text_codes. Qed.

Lemma byte_list_app l1 l2 : byte_list (l1 ++ l2) <-> byte_list l1 /\ byte_list l2.
Proof. apply Forall_app. Qed.

(** ** UTF-8 *)

Definition continuation (c : N) : bool := (128 <=? c) && (c <=? 191).

(** [utf8.DecodeRune] accepts these sequences of two, three and four bytes. *)
Definition rune2 (c1 c2 : N) : bool := (194 <=? c1) && (c1 <=? 223) && continuation c2.

Definition rune3 (c1 c2 c3 : N) : bool :=
  continuation c3 &&
  (if c1 =? 224 then (160 <=? c2) && (c2 <=? 191)
   else if c1 =? 237 then (128 <=? c2) && (c2 <=? 159)
   else (225 <=? c1) && (c1 <=? 239) && continuation c2).

Definition rune4 (c1 c2 c3 c4 : N) : bool :=
  continuation c3 && continuation c4 &&
  (if c1 =? 240 then (144 <=? c2) && (c2 <=? 191)
   else if c1 =? 244 then (128 <=? c2) && (c2 <=? 143)
   else (241 <=? c1) && (c1 <=? 243) && continuation c2).

(** A string as the encoder and the decoder walk through it: an ASCII
    byte, a rune of several bytes, or a byte that starts no rune. *)
Inductive rune :=
| RAscii (c : N)
| RMulti (bs : list N)
| RBad (c : N).

Fixpoint runes (l : list N) : list rune :=
  match l with
  | [] => []
  | c1 :: l1 =>
      if c1 <? 128 then RAscii c1 :: runes l1
      else match l1 with
      | c2 :: l2 =>
          if rune2 c1 c2 then RMulti [c1; c2] :: runes l2
          else match l2 with
          | c3 :: l3 =>
              if rune3 c1 c2 c3 then RMulti [c1; c2; c3] :: runes l3
              else match l3 with
              | c4 :: l4 =>
                  if rune4 c1 c2 c3 c4 then RMulti [c1; c2; c3; c4] :: runes l4
                  else RBad c1 :: runes l1
              | [] => RBad c1 :: runes l1
              end
          | [] => RBad c1 :: runes l1
          end
      | [] => RBad c1 :: runes l1
      end
  end.

(** U+FFFD. *)
Definition replacement : list N := [239; 191; 189].

Definition rune_bytes (r : rune) : list N :=
  match r with RAscii c => [c] | RMulti bs => bs | RBad _ => replacement end.

(** The string with every invalid byte replaced by U+FFFD. *)
Definition to_valid (l : list N) : list N := runes l ≫= rune_bytes.

Definition rune_ok (r : rune) : bool := match r with RBad _ => false | _ => true end.

(** [utf8.Valid]. *)
Definition utf8_Valid (l : list N) : bool := forallb rune_ok (runes l).

(** ** Quoting *)

Definition hex_code (d : N) : N := if d <? 10 then 48 + d else 87 + d.

(** [\u] and four hexadecimal digits. *)
Definition unicode_escape (c : N) : list N :=
  [92; 117; hex_code (c / 4096 mod 16); hex_code (c / 256 mod 16); hex_code (c / 16 mod 16);
   hex_code (c mod 16)].

(** An ASCII byte: [htmlSafeSet], the short escapes, or [\u00xx]. *)
Definition escape_ascii (c : N) : list N :=
  if bool_decide (c ∈ [34; 92]) then [92; c]
  else if c =? 8 then [92; 98]
  else if c =? 12 then [92; 102]
  else if c =? 10 then [92; 110]
  else if c =? 13 then [92; 114]
  else if c =? 9 then [92; 116]
  else if (c <? 32) || bool_decide (c ∈ [60; 62; 38]) then unicode_escape c
  else [c].

(** U+2028 and U+2029 are escaped, other runes copied. *)
Definition escape_multi (bs : list N) : list N :=
  if bool_decide (bs = [226; 128; 168]) then unicode_escape 8232
  else if bool_decide (bs = [226; 128; 169]) then unicode_escape 8233
  else bs.

Definition escape_rune (r : rune) : list N :=
  match r with
  | RAscii c => escape_ascii c
  | RMulti bs => escape_multi bs
  | RBad _ => unicode_escape 65533
  end.

(** [appendString] between the quotes. *)
Definition quote_body (l : list N) : list N := runes l ≫= escape_rune.

Definition quote (l : list N) : list N := [34] ++ quote_body l ++ [34].

(** ** Reading a string *)

Definition hex_val (c : N) : N :=
  if is_digit c then c - 48 else if (97 <=? c) && (c <=? 102) then c - 87 else c - 55.

(** [getu4]. *)
Definition hex4 (h1 h2 h3 h4 : N) : N :=
  ((hex_val h1 * 16 + hex_val h2) * 16 + hex_val h3) * 16 + hex_val h4.

Definition surrogate (r : N) : bool := (55296 <=? r) && (r <? 57344).
Definition low_surrogate (r : N) : bool := (56320 <=? r) && (r <? 57344).

(** [utf8.EncodeRune]. *)
Definition encode_rune (r : N) : list N :=
  if r <? 128 then [r]
  else if r <? 2048 then [192 + r / 64; 128 + r mod 64]
  else if surrogate r then replacement
  else if r <? 65536 then [224 + r / 4096; 128 + r / 64 mod 64; 128 + r mod 64]
  else [240 + r / 262144; 128 + r / 4096 mod 64; 128 + r / 64 mod 64; 128 + r mod 64].

(** [utf16.DecodeRune] of a pair. *)
Definition combine (r1 r2 : N) : N := (r1 - 55296) * 1024 + (r2 - 56320) + 65536.

(** The byte a short escape stands for. *)
Definition short_escape (e : N) : option N :=
  if bool_decide (e ∈ [34; 92; 47]) then Some e
  else if e =? 98 then Some 8
  else if e =? 102 then Some 12
  else if e =? 110 then Some 10
  else if e =? 114 then Some 13
  else if e =? 116 then Some 9
  else None.

Definition push (bs : list N) (r : option (list N * list N)) : option (list N * list N) :=
  '(s, t) ← r; Some (bs ++ s, t).

(** [unquoteBytes] after the opening quote: the string, and what follows
    the closing quote. *)
Fixpoint unquote (l : list N) : option (list N * list N) :=
  match l with
  | [] => None
  | c1 :: l1 =>
      if c1 =? 34 then Some ([], l1)
      else if c1 =? 92 then
        match l1 with
        | [] => None
        | e :: l2 =>
            if e =? 117 then
              match l2 with
              | h1 :: h2 :: h3 :: h4 :: l3 =>
                  if negb (forallb is_hex [h1; h2; h3; h4]) then None
                  else
                    let r := hex4 h1 h2 h3 h4 in
                    if surrogate r && negb (low_surrogate r) then
                      match l3 with
                      | b :: u :: g1 :: g2 :: g3 :: g4 :: l4 =>
                          if (b =? 92) && (u =? 117) && forallb is_hex [g1; g2; g3; g4] &&
                             low_surrogate (hex4 g1 g2 g3 g4)
                          then push (encode_rune (combine r (hex4 g1 g2 g3 g4))) (unquote l4)
                          else push replacement (unquote l3)
                      | _ => push replacement (unquote l3)
                      end
                    else push (encode_rune r) (unquote l3)
              | _ => None
              end
            else match short_escape e with
                 | Some b => push [b] (unquote l2)
                 | None => None
                 end
        end
      else if c1 <? 32 then None
      else if c1 <? 128 then push [c1] (unquote l1)
      else match l1 with
      | c2 :: l2 =>
          if rune2 c1 c2 then push [c1; c2] (unquote l2)
          else match l2 with
          | c3 :: l3 =>
              if rune3 c1 c2 c3 then push [c1; c2; c3] (unquote l3)
              else match l3 with
              | c4 :: l4 =>
                  if rune4 c1 c2 c3 c4 then push [c1; c2; c3; c4] (unquote l4)
                  else push replacement (unquote l1)
              | [] => push replacement (unquote l1)
              end
          | [] => push replacement (unquote l1)
          end
      | [] => push replacement (unquote l1)
      end
  end.

Example unquote_quote_example :
  let s := [60; 34; 10; 1; 195; 169; 226; 128; 168; 240; 159; 152; 128; 255; 92] in
  unquote (quote_body s ++ [34; 44]) = Some (to_valid s, [44]).
Proof. vm_compute. reflexivity. Qed.

Example unquote_pair : unquote (codes "\ud83d\ude00" ++ [34]) = Some ([240; 159; 152; 128], []).
Proof. vm_compute. reflexivity. Qed.

(** ** What is quoted can be read *)

(** [bool_prop] with the comparisons of [N]. *)
Ltac byte_prop :=
  repeat (bool_prop; match goal with
  | H : (_ <? _)%N = true |- _ => apply N.ltb_lt in H
  | H : (_ <? _)%N = false |- _ => apply N.ltb_ge in H
  | H : (_ <=? _)%N = true |- _ => apply N.leb_le in H
  | H : (_ <=? _)%N = false |- _ => apply N.leb_gt in H
  | H : (_ =? _)%N = true |- _ => apply N.eqb_eq in H
  | H : (_ =? _)%N = false |- _ => apply N.eqb_neq in H
  end); bool_prop.

(** Runes as the walk finds them. *)
Definition rune_wf (r : rune) : Prop :=
  match r with
  | RAscii c => c < 128
  | RMulti bs =>
      match bs with
      | [c1; c2] => rune2 c1 c2 = true
      | [c1; c2; c3] => rune3 c1 c2 c3 = true
      | [c1; c2; c3; c4] => rune4 c1 c2 c3 c4 = true
      | _ => False
      end
  | RBad c => 128 <= c
  end.

Lemma rune2_spec c1 c2 : rune2 c1 c2 = true -> 194 <= c1 <= 223 /\ 128 <= c2 <= 191.
Proof. unfold rune2, continuation. intros H. byte_prop. lia. Qed.

Lemma rune3_spec c1 c2 c3 :
  rune3 c1 c2 c3 = true -> 224 <= c1 <= 239 /\ 128 <= c2 <= 191 /\ 128 <= c3 <= 191.
Proof.
  unfold rune3, continuation. intros H. bool_prop.
  repeat match goal with H : context [if ?b then _ else _] |- _ => destruct b eqn:? end;
    byte_prop; lia.
Qed.

Lemma rune4_spec c1 c2 c3 c4 :
  rune4 c1 c2 c3 c4 = true ->
  240 <= c1 <= 244 /\ 128 <= c2 <= 191 /\ 128 <= c3 <= 191 /\ 128 <= c4 <= 191.
Proof.
  unfold rune4, continuation. intros H. bool_prop.
  repeat match goal with H : context [if ?b then _ else _] |- _ => destruct b eqn:? end;
    byte_prop; lia.
Qed.

Lemma runes_wf l : Forall rune_wf (runes l).
Proof.
  remember (length l) as n eqn:Hn. revert l Hn.
  induction (lt_wf n) as [n _ IH]; intros [|c1 l1] ->; cbn [runes]; [done|].
  assert (Hgo : forall l, (length l < length (c1 :: l1))%nat -> Forall rune_wf (runes l)).
  { intros l Hl. by apply (IH (length l)). }
  destruct (N.ltb_spec c1 128) as [Hc|Hc]; [constructor; [done|apply Hgo; cbn; lia]|].
  assert (Hbad : Forall rune_wf (RBad c1 :: runes l1))
    by (constructor; [done|apply Hgo; cbn; lia]).
  destruct l1 as [|c2 l2]; [done|].
  destruct (rune2 c1 c2) eqn:H2; [constructor; [done|apply Hgo; cbn; lia]|].
  destruct l2 as [|c3 l3]; [done|].
  destruct (rune3 c1 c2 c3) eqn:H3; [constructor; [done|apply Hgo; cbn; lia]|].
  destruct l3 as [|c4 l4]; [done|].
  destruct (rune4 c1 c2 c3 c4) eqn:H4; [constructor; [done|apply Hgo; cbn; lia]|done].
Qed.

(** Hexadecimal digits. *)
Lemma hex_code_hex d : d < 16 -> is_hex (hex_code d) = true /\ hex_val (hex_code d) = d.
Proof.
  intros Hd. unfold hex_code, is_hex, hex_val, is_digit.
  destruct (N.ltb_spec d 10).
  - rewrite (proj2 (N.leb_le 48 (48 + d))), (proj2 (N.leb_le (48 + d) 57)) by lia. split; [done|]. cbn [andb]. lia.
  - destruct (N.leb_spec (87 + d) 57); [lia|]. rewrite andb_false_r.
    rewrite (proj2 (N.leb_le 97 (87 + d))), (proj2 (N.leb_le (87 + d) 102)) by lia.
    split; [done|]. cbn [andb]. lia.
Qed.

Lemma unquote_unicode c t :
  c < 65536 -> surrogate c = false ->
  unquote (unicode_escape c ++ t) = push (encode_rune c) (unquote t).
Proof.
  intros Hc Hs.
  destruct (hex_code_hex (c / 4096 mod 16)) as [X1 V1]; [by apply N.mod_lt|].
  destruct (hex_code_hex (c / 256 mod 16)) as [X2 V2]; [by apply N.mod_lt|].
  destruct (hex_code_hex (c / 16 mod 16)) as [X3 V3]; [by apply N.mod_lt|].
  destruct (hex_code_hex (c mod 16)) as [X4 V4]; [by apply N.mod_lt|].
  assert (Hv : hex4 (hex_code (c / 4096 mod 16)) (hex_code (c / 256 mod 16))
    (hex_code (c / 16 mod 16)) (hex_code (c mod 16)) = c).
  { unfold hex4. rewrite V1, V2, V3, V4.
    change 4096 with (16 * 16 * 16). change 256 with (16 * 16).
    rewrite <- !N.Div0.div_div. pose proof (N.div_mod' c 16). pose proof (N.div_mod' (c / 16) 16).
    pose proof (N.div_mod' (c / 16 / 16) 16).
    assert (c / 16 / 16 / 16 < 16) by (rewrite !N.Div0.div_div; apply N.Div0.div_lt_upper_bound; lia).
    rewrite (N.mod_small (c / 16 / 16 / 16)) by done. lia. }
  unfold unicode_escape. cbn [app unquote N.eqb Pos.eqb forallb].
  by rewrite X1, X2, X3, X4, Hv, Hs.
Qed.

Lemma unquote_ascii c t :
  c < 128 -> unquote (escape_ascii c ++ t) = push [c] (unquote t).
Proof.
  intros Hc. unfold escape_ascii.
  case_bool_decide as Hin. { apply elem_of_cons in Hin as [->|Hin%list_elem_of_singleton]; subst; done. }
  destruct (N.eqb_spec c 8) as [->|]; [done|]. destruct (N.eqb_spec c 12) as [->|]; [done|].
  destruct (N.eqb_spec c 10) as [->|]; [done|]. destruct (N.eqb_spec c 13) as [->|]; [done|].
  destruct (N.eqb_spec c 9) as [->|]; [done|].
  destruct (_ || _) eqn:E.
  - rewrite unquote_unicode; [|lia|].
    + unfold encode_rune. by rewrite (proj2 (N.ltb_lt c 128)).
    + unfold surrogate. destruct (N.leb_spec 55296 c); [lia|done].
  - byte_prop. assert (c <> 34 /\ c <> 92) as [H34 H92] by (split; intros ->; set_solver).
    cbn [app unquote]. rewrite (proj2 (N.eqb_neq c 34)), (proj2 (N.eqb_neq c 92)) by done.
    rewrite (proj2 (N.ltb_ge c 32)), (proj2 (N.ltb_lt c 128)) by lia. done.
Qed.

(** A byte from 128 on is neither a quote, an escape nor a control. *)
Lemma unquote_high c1 : 128 <= c1 ->
  (c1 =? 34) = false /\ (c1 =? 92) = false /\ (c1 <? 32) = false /\ (c1 <? 128) = false.
Proof. intros H. rewrite !N.eqb_neq, !N.ltb_ge. lia. Qed.

Lemma unquote_multi bs t :
  rune_wf (RMulti bs) -> unquote (bs ++ t) = push bs (unquote t).
Proof.
  intros Hw. destruct bs as [|c1 [|c2 [|c3 [|c4 [|]]]]]; try done; cbn [rune_wf] in Hw.
  - destruct (rune2_spec _ _ Hw) as [H1 _].
    destruct (unquote_high c1) as (E1 & E2 & E3 & E4); [lia|].
    cbn [app unquote]. by rewrite E1, E2, E3, E4, Hw.
  - destruct (rune3_spec _ _ _ Hw) as [H1 _].
    destruct (unquote_high c1) as (E1 & E2 & E3 & E4); [lia|].
    assert (Hn2 : rune2 c1 c2 = false).
    { destruct (rune2 c1 c2) eqn:E; [|done]. apply rune2_spec in E. lia. }
    cbn [app unquote]. by rewrite E1, E2, E3, E4, Hn2, Hw.
  - destruct (rune4_spec _ _ _ _ Hw) as [H1 _].
    destruct (unquote_high c1) as (E1 & E2 & E3 & E4); [lia|].
    assert (Hn2 : rune2 c1 c2 = false).
    { destruct (rune2 c1 c2) eqn:E; [|done]. apply rune2_spec in E. lia. }
    assert (Hn3 : rune3 c1 c2 c3 = false).
    { destruct (rune3 c1 c2 c3) eqn:E; [|done]. apply rune3_spec in E. lia. }
    cbn [app unquote]. by rewrite E1, E2, E3, E4, Hn2, Hn3, Hw.
Qed.

Lemma unquote_rune r t :
  rune_wf r -> unquote (escape_rune r ++ t) = push (rune_bytes r) (unquote t).
Proof.
  intros Hw. destruct r as [c|bs|c]; cbn [escape_rune rune_bytes].
  - by apply unquote_ascii.
  - unfold escape_multi. case_bool_decide as E1; [subst; by rewrite unquote_unicode|].
    case_bool_decide as E2; [subst; by rewrite unquote_unicode|]. by apply unquote_multi.
  - by rewrite unquote_unicode.
Qed.

Lemma push_push a b r : push a (push b r) = push (a ++ b) r.
Proof. unfold push. destruct r as [[s t]|]; [|done]. cbn. by rewrite app_assoc. Qed.

(** Reading back a quoted string gives the string, with U+FFFD for bytes
    that are not UTF-8, and leaves what follows it. *)
Lemma unquote_quote l t : unquote (quote_body l ++ 34 :: t) = Some (to_valid l, t).
Proof.
  unfold quote_body, to_valid. pose proof (runes_wf l) as Hw. induction Hw as [|r rs Hr _ IH]; [done|].
  cbn [mbind list_bind]. rewrite <- app_assoc, unquote_rune by done. by rewrite IH.
Qed.

Lemma to_valid_id l : utf8_Valid l = true -> to_valid l = l.
Proof.
  unfold utf8_Valid, to_valid. remember (length l) as n eqn:Hn. revert l Hn.
  induction (lt_wf n) as [n _ IH]; intros [|c1 l1] ->; [done|].
  assert (Hgo : forall l, (length l < length (c1 :: l1))%nat ->
    forallb rune_ok (runes l) = true -> runes l ≫= rune_bytes = l).
  { intros l Hl. by apply (IH (length l)). }
  cbn [runes].
  repeat (case_match; cbn [forallb rune_ok andb mbind list_bind rune_bytes app]; try done;
    intros; try (repeat f_equal; apply Hgo; [cbn; lia|done])).
Qed.

(** ** Integers *)

Definition print_int (z : Z) : list N := codes (Itoa z).

(** The value of a list of digits. *)
Definition digits_value (acc : N) (ds : list N) : N := foldl (fun a d => 10 * a + (d - 48)) acc ds.

Definition digit_list (ds : list N) : Prop := Forall (fun c => is_digit c = true) ds.

Lemma pretty_digit n : n < 10 -> Ascii.N_of_ascii (pretty_N_char n) = 48 + n.
Proof.
  intros Hn. destruct n as [|p]; [done|].
  do 4 (destruct p as [p|p|]; [..|done]); by destruct p || lia.
Qed.

Lemma is_digit_range c : is_digit c = true <-> 48 <= c <= 57.
Proof. unfold is_digit. by rewrite andb_true_iff, !N.leb_le. Qed.

(** The digits of a positive number do not start with a zero. *)
Lemma pretty_N_codes x s :
  0 < x -> exists c ds, codes (pretty_N_go x s) = c :: ds ++ codes s /\ c <> 48 /\
    digit_list (c :: ds) /\ digits_value 0 (c :: ds) = x.
Proof.
  revert s. induction (N.lt_wf_0 x) as [x _ IH]; intros s Hx.
  rewrite pretty_N_go_step by done. pose proof (N.mod_lt x 10 ltac:(lia)) as Hm.
  pose proof (N.div_mod' x 10) as Hd. pose proof (pretty_digit _ Hm) as Hc.
  revert Hm Hd Hc. generalize (x mod 10) (x / 10). intros m q Hm Hd Hc.
  destruct (decide (q = 0)) as [E|E].
  - rewrite E, pretty_N_go_0. unfold codes. cbn. rewrite Hc.
    exists (48 + m), []. cbn. split_and!; [done|lia| |lia].
    constructor; [|done]. apply is_digit_range. lia.
  - destruct (IH q ltac:(lia) (String (pretty_N_char m) s) ltac:(lia))
      as (c & ds & -> & Hne & Hds & Hv).
    exists c, (ds ++ [48 + m]). unfold codes. cbn. rewrite Hc, <- app_assoc.
    split_and!; [done|done| |].
    + constructor; [by inversion Hds|]. apply Forall_app. split; [by inversion Hds|].
      constructor; [|done]. apply is_digit_range. lia.
    + unfold digits_value in *. cbn in *. rewrite foldl_app. cbn. rewrite Hv. lia.
Qed.

Definition int_digits (z : Z) : list N := codes (pretty (Z.abs_N z)).

Lemma print_int_sign z :
  print_int z = (if (z <? 0)%Z then [45] else []) ++ int_digits z.
Proof. by destruct z. Qed.

Lemma int_digits_spec z :
  exists c ds, int_digits z = c :: ds /\ (c = 48 -> ds = []) /\ digit_list (c :: ds) /\
    digits_value 0 (c :: ds) = Z.abs_N z.
Proof.
  unfold int_digits, pretty, pretty_N. case_decide as E.
  - exists 48, []. rewrite E. split_and!; try done. by constructor.
  - destruct (pretty_N_codes (Z.abs_N z) "" ltac:(lia)) as (c & ds & -> & Hc & Hds & Hv).
    exists c, ds. rewrite app_nil_r. by split_and!.
Qed.

(** [strconv.ParseInt(s, 10, 64)] of a number literal; a fraction or an
    exponent is refused. *)
Definition parse_int (raw : list N) : option Z :=
  let neg := match raw with c :: _ => c =? 45 | [] => false end in
  let ds := if neg then tail raw else raw in
  if bool_decide (ds = []) || negb (forallb is_digit ds) then None
  else
    let v := Z.of_N (digits_value 0 ds) in
    let z := if neg then (- v)%Z else v in
    if int64_ok z then Some z else None.

Lemma digit_list_forallb ds : digit_list ds -> forallb is_digit ds = true.
Proof. intros H. apply forallb_forall. intros c Hc. by eapply List.Forall_forall in H. Qed.

Lemma parse_print_int z : int64_ok z = true -> parse_int (print_int z) = Some z.
Proof.
  intros Hz. rewrite print_int_sign. destruct (int_digits_spec z) as (c & ds & -> & _ & Hds & Hv).
  pose proof (digit_list_forallb _ Hds) as Hall. unfold parse_int.
  destruct (Z.ltb_spec z 0) as [Hneg|Hpos]; cbn [app].
  - cbn [N.eqb Pos.eqb tail]. rewrite bool_decide_eq_false_2, Hall, Hv by done. cbn [orb negb].
    replace (- Z.of_N (Z.abs_N z))%Z with z by lia. by rewrite Hz.
  - inversion Hds as [|? ? Hc _]. apply is_digit_range in Hc.
    rewrite (proj2 (N.eqb_neq c 45)) by lia.
    rewrite bool_decide_eq_false_2, Hall, Hv by done. cbn [orb negb].
    replace (Z.of_N (Z.abs_N z)) with z by lia. by rewrite Hz.
Qed.

(** What cannot continue a number. *)
Definition ends_number (t : list N) : Prop :=
  match t with
  | [] => True
  | c :: _ => is_digit c = false /\ c <> 46 /\ c <> 101 /\ c <> 69
  end.

Lemma skip_digits_app ds t : digit_list ds -> ends_number t -> skip_digits (ds ++ t) = t.
Proof.
  intros Hds Ht. induction Hds as [|c ds Hc _ IH]; cbn; [|by rewrite Hc].
  destruct t as [|c t]; [done|]. cbn. by destruct Ht as [-> _].
Qed.

Lemma json_number_int z t : ends_number t -> json_number (print_int z ++ t) = Some t.
Proof.
  intros Ht. rewrite print_int_sign. destruct (int_digits_spec z) as (c & ds & -> & H0 & Hds & _).
  assert (Hi : json_int ((c :: ds) ++ t) = Some t).
  { inversion Hds as [|? ? Hc Hds']. subst. cbn. destruct (N.eqb_spec c 48) as [->|].
    - by rewrite H0.
    - by rewrite Hc, skip_digits_app. }
  assert (Hs : skip_sign [45] (((if (z <? 0)%Z then [45] else []) ++ c :: ds) ++ t) = (c :: ds) ++ t).
  { destruct (z <? 0)%Z; [done|]. cbn. rewrite bool_decide_eq_false_2; [done|].
    inversion Hds as [|? ? Hc _]. apply is_digit_range in Hc. intros ->%list_elem_of_singleton. lia. }
  unfold json_number. rewrite Hs, Hi. cbn. destruct t as [|c' t]; [done|].
  destruct Ht as (_ & H1 & H2 & H3). cbn. rewrite (proj2 (N.eqb_neq c' 46)) by done. cbn.
  by rewrite (proj2 (N.eqb_neq c' 101)), (proj2 (N.eqb_neq c' 69)).
Qed.
