(* ===== verification/JsonRaw.v ===== *)
(** * encoding/json: raw values

    Compaction of a [json.RawMessage], as [json.Marshal] does it, and the
    facts about the recogniser that reading and printing share: a value is
    read the same whatever follows it, more fuel changes nothing, and
    compaction keeps a text valid. *)

From S2P Require Import Prelude GoRuntime Strings Json JsonText.

Local Open Scope N_scope.

(** ** Raw values *)

(** What a value's text is followed by does not change how it is read. *)
Lemma skip_ws_app l t : skip_ws l <> [] -> skip_ws (l ++ t) = skip_ws l ++ t.
Proof. induction l as [|c l IH]; cbn; [done|]. case_bool_decide; [auto|done]. Qed.

Lemma next_is_app c l t r : next_is c l = Some r -> next_is c (l ++ t) = Some (r ++ t).
Proof. destruct l as [|c' l]; cbn; [done|]. case_match; [|done]. by intros [= ->]. Qed.

Lemma next_is_ws_app c l t r :
  next_is c (skip_ws l) = Some r -> next_is c (skip_ws (l ++ t)) = Some (r ++ t).
Proof.
  intros H. rewrite skip_ws_app; [by apply next_is_app|]. by intros E; rewrite E in H.
Qed.

(** A refusal, when there is a byte to refuse. *)
Lemma next_is_ws_none c l t :
  next_is c (skip_ws l) = None -> skip_ws l <> [] -> next_is c (skip_ws (l ++ t)) = None.
Proof.
  intros H Hne. rewrite skip_ws_app by done. destruct (skip_ws l) as [|c' l']; [done|].
  cbn in *. by case_match.
Qed.

Lemma json_string_app l t r : json_string l = Some r -> json_string (l ++ t) = Some (r ++ t).
Proof.
  remember (length l) as n eqn:Hn. revert l Hn.
  induction (lt_wf n) as [n _ IH]; intros [|c l] ->; cbn [json_string app]; [done|].
  assert (Hgo : forall l', (length l' <= length l)%nat -> json_string l' = Some r ->
    json_string (l' ++ t) = Some (r ++ t)) by (intros l' Hl'; apply (IH (length l')); cbn; lia).
  destruct (c =? 34); [by intros [= ->]|]. destruct (c =? 92).
  - destruct l as [|e l2]; [done|]. cbn [app]. destruct (e =? 117).
    + destruct l2 as [|h1 [|h2 [|h3 [|h4 l3]]]]; try done. cbn [app].
      destruct (forallb _ _); [|done]. apply Hgo. cbn. lia.
    + case_bool_decide; [|done]. apply Hgo. cbn. lia.
  - destruct (c <? 32); [done|]. by apply Hgo.
Qed.

Lemma strip_codes_app w l t r : strip_codes w l = Some r -> strip_codes w (l ++ t) = Some (r ++ t).
Proof.
  revert l. induction w as [|c w IH]; intros l; cbn; [by intros [= ->]|].
  destruct l as [|c' l]; [done|]. cbn. case_match; [apply IH|done].
Qed.

Section NumberSuffix.
Context (t : list N) (Ht : ends_number t).

Lemma skip_digits_suffix l : skip_digits (l ++ t) = skip_digits l ++ t.
Proof.
  induction l as [|c l IH]; cbn; [|by case_match].
  destruct t as [|c t']; [done|]. cbn. by destruct Ht as [-> _].
Qed.

Lemma digits1_suffix l r : digits1 l = Some r -> digits1 (l ++ t) = Some (r ++ t).
Proof.
  destruct l as [|c l]; cbn; [done|]. case_match; [|done]. intros [= <-].
  by rewrite skip_digits_suffix.
Qed.

Lemma json_int_suffix l r : json_int l = Some r -> json_int (l ++ t) = Some (r ++ t).
Proof.
  destruct l as [|c l]; cbn [json_int app]; [done|]. destruct (c =? 48); [by intros [= ->]|].
  apply digits1_suffix.
Qed.

Lemma json_frac_suffix l r : json_frac l = Some r -> json_frac (l ++ t) = Some (r ++ t).
Proof.
  destruct l as [|c l]; cbn [json_frac app].
  - intros [= <-]. destruct t as [|c' t']; [done|]. destruct Ht as (_ & H & _). cbn.
    by rewrite (proj2 (N.eqb_neq c' 46)).
  - destruct (c =? 46); [apply digits1_suffix|by intros [= <-]].
Qed.

Lemma json_exp_suffix l r : json_exp l = Some r -> json_exp (l ++ t) = Some (r ++ t).
Proof.
  destruct l as [|c l]; cbn [json_exp app].
  - intros [= <-]. destruct t as [|c' t']; [done|]. destruct Ht as (_ & _ & H1 & H2). cbn.
    by rewrite (proj2 (N.eqb_neq c' 101)), (proj2 (N.eqb_neq c' 69)).
  - destruct (_ || _); [|by intros [= <-]]. intros H.
    destruct l as [|c' l]; [done|]. cbn [app skip_sign] in *.
    case_bool_decide; by apply (digits1_suffix _ _ H).
Qed.

Lemma json_number_suffix l r : json_number l = Some r -> json_number (l ++ t) = Some (r ++ t).
Proof.
  intros (l1 & H1 & (l2 & H2 & H3)%bind_Some)%bind_Some. unfold json_number.
  assert (Hs : skip_sign [45] (l ++ t) = skip_sign [45] l ++ t).
  { destruct l as [|c l]; [done|]. cbn. by case_bool_decide. }
  rewrite Hs, (json_int_suffix _ _ H1). cbn. rewrite (json_frac_suffix _ _ H2). cbn.
  by apply json_exp_suffix.
Qed.

(** The value, the members or the elements at the front of a text are the
    same when [t] follows. *)
Lemma json_suffix f :
  (forall d l r, json_value f d l = Some r -> json_value f d (l ++ t) = Some (r ++ t)) /\
  (forall d l r, json_members f d l = Some r -> json_members f d (l ++ t) = Some (r ++ t)) /\
  (forall d l r, json_elements f d l = Some r -> json_elements f d (l ++ t) = Some (r ++ t)).
Proof.
  induction f as [|f (IHv & IHm & IHe)]; [by split_and!|].
  split_and!; intros d l r; cbn [json_value json_members json_elements].
  - destruct (skip_ws l) as [|c l'] eqn:Hl; [done|]. rewrite skip_ws_app, Hl by (by rewrite Hl).
    cbn [app]. destruct (c =? 123); [|destruct (c =? 91)].
    + destruct (max_nesting_depth <? d + 1); [done|]. destruct (next_is 125 (skip_ws l')) as [r'|] eqn:E.
      * intros [= ->]. by rewrite (next_is_ws_app _ _ _ _ E).
      * intros H. rewrite next_is_ws_none; [by apply IHm|done|]. intros Hn.
        destruct f; [done|]. cbn in H. by rewrite Hn in H.
    + destruct (max_nesting_depth <? d + 1); [done|]. destruct (next_is 93 (skip_ws l')) as [r'|] eqn:E.
      * intros [= ->]. by rewrite (next_is_ws_app _ _ _ _ E).
      * intros H. rewrite next_is_ws_none; [by apply IHe|done|]. intros Hn.
        destruct f as [|[|f]]; [done|done|]. cbn in H. by rewrite Hn in H.
    + destruct (c =? 34); [apply json_string_app|].
      destruct (c =? 116); [apply strip_codes_app|].
      destruct (c =? 102); [apply strip_codes_app|].
      destruct (c =? 110); [apply strip_codes_app|]. apply (json_number_suffix (c :: l')).
  - intros (l1 & H1 & (l2 & H2 & (l3 & H3 & (l4 & H4 & H5)%bind_Some)%bind_Some)%bind_Some)%bind_Some.
    rewrite (next_is_ws_app _ _ _ _ H1). cbn. rewrite (json_string_app _ _ _ H2). cbn.
    rewrite (next_is_ws_app _ _ _ _ H3). cbn. rewrite (IHv _ _ _ H4). cbn.
    destruct (next_is 44 (skip_ws l4)) as [l5|] eqn:E.
    + rewrite (next_is_ws_app _ _ _ _ E). by apply IHm.
    + rewrite next_is_ws_none; [by apply next_is_ws_app|done|]. by intros Hn; rewrite Hn in H5.
  - intros (l1 & H1 & H2)%bind_Some. rewrite (IHv _ _ _ H1). cbn.
    destruct (next_is 44 (skip_ws l1)) as [l2|] eqn:E.
    + rewrite (next_is_ws_app _ _ _ _ E). by apply IHe.
    + rewrite next_is_ws_none; [by apply next_is_ws_app|done|]. by intros Hn; rewrite Hn in H2.
Qed.
End NumberSuffix.

(** ** Compaction *)

Inductive compact_state := Outside | Inside | Escaped.

Definition is_ws (c : N) : bool := bool_decide (c ∈ [32; 9; 10; 13]).

(** [appendCompact] with HTML escaping, on valid JSON: white space outside
    strings goes, and the characters the encoder escapes are escaped. *)
Fixpoint compact_from (st : compact_state) (l : list N) : list N :=
  match l with
  | [] => []
  | c :: l1 =>
      match st with
      | Outside =>
          if is_ws c then compact_from Outside l1
          else c :: compact_from (if c =? 34 then Inside else Outside) l1
      | Inside =>
          if c =? 34 then c :: compact_from Outside l1
          else if c =? 92 then c :: compact_from Escaped l1
          else if bool_decide (c ∈ [60; 62; 38]) then unicode_escape c ++ compact_from Inside l1
          else match l1 with
               | c2 :: c3 :: l3 =>
                   if (c =? 226) && (c2 =? 128) && ((c3 =? 168) || (c3 =? 169))
                   then unicode_escape (8064 + c3) ++ compact_from Inside l3
                   else c :: compact_from Inside l1
               | _ => c :: compact_from Inside l1
               end
      | Escaped => c :: compact_from Inside l1
      end
  end.

Definition compact (l : list N) : list N := compact_from Outside l.

Example compact_example :
  text (compact (codes "{ 'a' : [1 , 2 ] }")) = "{'a':[1,2]}".
Proof. reflexivity. Qed.

Lemma compact_skip_ws l : compact (skip_ws l) = compact l.
Proof.
  induction l as [|c l IH]; [done|]. cbn [skip_ws]. unfold compact. cbn. unfold is_ws.
  case_bool_decide; [apply IH|]. cbn. unfold is_ws. by rewrite bool_decide_eq_false_2.
Qed.

(** Compact text starts with no white space. *)
Lemma skip_ws_compact l : skip_ws (compact l) = compact l.
Proof.
  induction l as [|c l IH]; [done|]. unfold compact. cbn. destruct (is_ws c) eqn:E; [apply IH|].
  unfold is_ws in E. cbn. by rewrite E.
Qed.

Lemma skip_ws_head l c l' : skip_ws l = c :: l' -> is_ws c = false.
Proof.
  induction l as [|c0 l IH]; cbn [skip_ws]; [done|]. unfold is_ws.
  case_bool_decide as E; [done|]. intros [= -> _]. by apply bool_decide_eq_false_2.
Qed.

(** A structural byte survives. *)
Lemma next_is_compact c l r :
  next_is c (skip_ws l) = Some r -> (c =? 34) = false ->
  next_is c (skip_ws (compact l)) = Some (compact r).
Proof.
  intros H Hc. rewrite skip_ws_compact, <- compact_skip_ws.
  destruct (skip_ws l) as [|c' l'] eqn:E; [done|]. cbn in H.
  destruct (N.eqb_spec c' c) as [->|]; [|done]. injection H as ->.
  unfold compact. cbn. rewrite (skip_ws_head _ _ _ E), Hc. cbn. by rewrite N.eqb_refl.
Qed.

Lemma next_is_compact_none c l :
  next_is c (skip_ws l) = None -> next_is c (skip_ws (compact l)) = None.
Proof.
  intros H. rewrite skip_ws_compact, <- compact_skip_ws.
  destruct (skip_ws l) as [|c' l'] eqn:E; [done|]. cbn in H.
  unfold compact. cbn. rewrite (skip_ws_head _ _ _ E). cbn. by destruct (c' =? c).
Qed.

Lemma json_string_escape c t :
  c < 65536 -> json_string (unicode_escape c ++ t) = json_string t.
Proof.
  intros Hc. unfold unicode_escape. cbn [app json_string N.eqb Pos.eqb forallb].
  rewrite (proj1 (hex_code_hex (c / 4096 mod 16) ltac:(by apply N.mod_lt))),
    (proj1 (hex_code_hex (c / 256 mod 16) ltac:(by apply N.mod_lt))),
    (proj1 (hex_code_hex (c / 16 mod 16) ltac:(by apply N.mod_lt))),
    (proj1 (hex_code_hex (c mod 16) ltac:(by apply N.mod_lt))). done.
Qed.

(** An ordinary byte of a string. *)
Lemma json_string_plain c t :
  (c =? 34) = false -> (c =? 92) = false -> (c <? 32) = false ->
  json_string (c :: t) = json_string t.
Proof. intros H1 H2 H3. cbn [json_string]. by rewrite H1, H2, H3. Qed.

(** A byte of a string that the compaction copies. *)
Lemma compact_plain c l :
  (c =? 34) = false -> (c =? 92) = false -> c ∉ [60; 62; 38] -> (c =? 226) = false ->
  compact_from Inside (c :: l) = c :: compact_from Inside l.
Proof.
  intros H1 H2 H3 H4. cbn [compact_from]. rewrite H1, H2, bool_decide_eq_false_2, H4 by done.
  cbn. by destruct l as [|? [|? ?]].
Qed.

Lemma compact_hex h l :
  is_hex h = true -> compact_from Inside (h :: l) = h :: compact_from Inside l.
Proof.
  intros Hh. assert (Hr : 48 <= h <= 57 \/ 97 <= h <= 102 \/ 65 <= h <= 70).
  { unfold is_hex, is_digit in Hh. rewrite !orb_true_iff, !andb_true_iff, !N.leb_le in Hh. lia. }
  apply compact_plain; rewrite ?N.eqb_neq; try lia.
  rewrite !elem_of_cons, elem_of_nil. lia.
Qed.

Lemma json_string_compact l r :
  json_string l = Some r -> json_string (compact_from Inside l) = Some (compact r).
Proof.
  remember (length l) as n eqn:Hn. revert l Hn.
  induction (lt_wf n) as [n _ IH]; intros [|c l] -> Hl; [done|].
  assert (Hgo : forall l', (length l' <= length l)%nat -> json_string l' = Some r ->
    json_string (compact_from Inside l') = Some (compact r))
    by (intros l' Hl'; apply (IH (length l')); cbn; lia).
  destruct (c =? 34) eqn:E34.
  { apply N.eqb_eq in E34 as ->. cbn in Hl |- *. by injection Hl as ->. }
  destruct (c =? 92) eqn:E92.
  { apply N.eqb_eq in E92 as ->. cbn [json_string N.eqb Pos.eqb] in Hl.
    destruct l as [|e l2]; [done|]. cbn [compact_from N.eqb Pos.eqb json_string].
    destruct (e =? 117).
    - destruct l2 as [|h1 [|h2 [|h3 [|h4 l3]]]]; try done.
      destruct (forallb is_hex [h1; h2; h3; h4]) eqn:Hx; [|done].
      pose proof Hx as Hx'. cbn in Hx'. bool_prop. rewrite !compact_hex by done.
      rewrite Hx. apply Hgo; [cbn; lia|done].
    - case_bool_decide; [|done]. apply Hgo; [cbn; lia|done]. }
  destruct (c <? 32) eqn:E32; [by cbn in Hl; rewrite E34, E92, E32 in Hl|].
  rewrite json_string_plain in Hl by done.
  cbn [compact_from]. rewrite E34, E92. case_bool_decide as Hesc.
  { rewrite json_string_escape; [by apply Hgo|]. set_solver by lia. }
  assert (Hplain : json_string (c :: compact_from Inside l) = Some (compact r)).
  { rewrite json_string_plain by done. by apply Hgo. }
  destruct l as [|c2 [|c3 l3]]; [done|done|]. destruct (_ && _) eqn:E; [|done].
  byte_prop. subst. assert (Hc3 : c3 = 168 \/ c3 = 169).
  { match goal with H : _ || _ = true |- _ => apply orb_true_iff in H as [H|H] end;
      byte_prop; auto. }
  rewrite json_string_escape by lia. rewrite !json_string_plain in Hl;
    try (rewrite ?N.eqb_neq, ?N.ltb_ge; lia). apply Hgo; [cbn; lia|done].
Qed.

(** Outside a string, a byte that is no white space and no quote is copied. *)
Lemma compact_copy c l :
  is_ws c = false -> (c =? 34) = false -> compact (c :: l) = c :: compact l.
Proof. intros H1 H2. unfold compact. cbn. by rewrite H1, H2. Qed.

Lemma digit_copy c : is_digit c = true -> is_ws c = false /\ (c =? 34) = false.
Proof.
  intros H%is_digit_range. unfold is_ws. rewrite bool_decide_eq_false, N.eqb_neq.
  rewrite !elem_of_cons, elem_of_nil. lia.
Qed.

(** ** The bytes of a number *)

Definition starts (P : N -> Prop) (t : list N) : Prop := match t with [] => True | c :: _ => P c end.
Definition no_digit (t : list N) : Prop := starts (fun c => is_digit c = false) t.
Definition no_frac (t : list N) : Prop := starts (fun c => is_digit c = false /\ c <> 46) t.

(** Bytes that compaction copies. *)
Definition copied (p : list N) : Prop := Forall (fun c => is_ws c = false /\ (c =? 34) = false) p.

Lemma compact_copied p l : copied p -> compact (p ++ l) = p ++ compact l.
Proof.
  induction 1 as [|c p [H1 H2] _ IH]; [done|]. cbn [app]. by rewrite compact_copy, IH.
Qed.

(** A parser that consumed [p] of its input does so before any other rest
    that [ok] allows. *)
Definition consumes (parse : list N -> option (list N)) (ok : list N -> Prop)
    (p : list N) : Prop :=
  copied p /\ forall t, ok t -> parse (p ++ t) = Some t.

Lemma digits1_consumes l r :
  digits1 l = Some r -> exists p, l = p ++ r /\ consumes digits1 no_digit p.
Proof.
  destruct l as [|c l]; cbn; [done|]. destruct (is_digit c) eqn:Hc; [|done]. intros [= <-].
  assert (Hsp : exists ds, l = ds ++ skip_digits l /\ digit_list ds).
  { clear Hc. induction l as [|c' l IH]; cbn; [exists []; by split; [|constructor]|].
    destruct (is_digit c') eqn:E.
    - destruct IH as (ds & Hl & Hds). exists (c' :: ds). split; [cbn; congruence|by constructor].
    - exists []. by split; [|constructor]. }
  destruct Hsp as (ds & Hl & Hds). exists (c :: ds). split; [cbn; congruence|]. split.
  - apply (Forall_impl (fun c => is_digit c = true)); [by constructor|]. apply digit_copy.
  - intros t Ht. cbn. rewrite Hc. f_equal. clear Hl. induction Hds as [|c' ds Hc' _ IH]; cbn.
    + destruct t as [|c' t]; [done|]. cbn in *. by rewrite Ht.
    + by rewrite Hc'.
Qed.

Lemma json_int_consumes l r :
  json_int l = Some r -> exists p, l = p ++ r /\ consumes json_int no_digit p /\ p <> [].
Proof.
  destruct l as [|c l]; cbn [json_int]; [done|]. destruct (N.eqb_spec c 48) as [->|Hc].
  - intros [= ->]. exists [48]. split_and!; [done| |done]. split; [|done]. by repeat constructor.
  - intros (p & Hp & Hcop & Hcons)%digits1_consumes. exists p.
    destruct p as [|c' p]; [specialize (Hcons [] Logic.I); done|]. injection Hp as <- ->.
    split_and!; [done| |done]. split; [done|]. intros t Ht. cbn [app json_int].
    rewrite (proj2 (N.eqb_neq c 48)) by done. by apply Hcons.
Qed.

Lemma json_frac_consumes l r :
  json_frac l = Some r -> exists p, l = p ++ r /\ consumes json_frac no_frac p /\
    starts (fun c => c = 46) p.
Proof.
  assert (Hnil : consumes json_frac no_frac []).
  { split; [constructor|]. intros [|c t]; cbn; [done|]. intros [_ H].
    by rewrite (proj2 (N.eqb_neq c 46)). }
  destruct l as [|c l]; cbn [json_frac]; [intros [= <-]; by exists []|].
  destruct (N.eqb_spec c 46) as [->|Hc]; [|intros [= <-]; by exists []].
  intros (p & -> & Hcop & Hcons)%digits1_consumes. exists (46 :: p).
  split_and!; [done| |done]. split; [by constructor|]. intros t Ht. cbn [app json_frac].
  rewrite N.eqb_refl. apply Hcons. destruct t as [|c t]; [done|]. by destruct Ht.
Qed.

Lemma json_exp_consumes l r :
  json_exp l = Some r -> exists p, l = p ++ r /\ consumes json_exp ends_number p /\
    starts (fun c => c = 101 \/ c = 69) p.
Proof.
  assert (Hnil : consumes json_exp ends_number []).
  { split; [constructor|]. intros [|c t]; cbn; [done|]. intros (_ & _ & H1 & H2).
    by rewrite (proj2 (N.eqb_neq c 101)), (proj2 (N.eqb_neq c 69)). }
  destruct l as [|c l]; cbn [json_exp]; [intros [= <-]; by exists []|].
  destruct (_ || _) eqn:E; [|intros [= <-]; by exists []].
  intros (p & Hp & Hcop & Hcons)%digits1_consumes.
  assert (He : c = 101 \/ c = 69) by (apply orb_true_iff in E as [E|E]; byte_prop; auto).
  assert (Hce : is_ws c = false /\ (c =? 34) = false) by (by destruct He as [-> | ->]).
  assert (Hnd : forall t, ends_number t -> no_digit t) by (intros [|? ?] Ht; [done|apply Ht]).
  destruct l as [|s l]; cbn [skip_sign] in Hp.
  { destruct p; [|done]. by specialize (Hcons [] Logic.I). }
  case_bool_decide as Hs; subst.
  - exists (c :: s :: p). split_and!; [done| |done].
    assert (Hcs : is_ws s = false /\ (s =? 34) = false).
    { apply elem_of_cons in Hs as [->|Hs%list_elem_of_singleton]; by subst. }
    split; [constructor; [done|constructor; [done|exact Hcop]]|]. intros t Ht. cbn [app json_exp].
    rewrite E. cbn [skip_sign]. rewrite bool_decide_eq_true_2 by done. by apply Hcons, Hnd.
  - exists (c :: p). split_and!; [by rewrite Hp| |done]. split; [by constructor|].
    intros t Ht. cbn [app json_exp]. rewrite E.
    destruct p as [|s' p]; [by specialize (Hcons [] Logic.I)|]. injection Hp as <- _.
    cbn [app skip_sign]. rewrite bool_decide_eq_false_2 by done. by apply Hcons, Hnd.
Qed.

Lemma json_number_consumes l r :
  json_number l = Some r -> exists p, l = p ++ r /\ consumes json_number ends_number p /\ p <> [].
Proof.
  intros (l1 & H1 & (l2 & H2 & H3)%bind_Some)%bind_Some.
  apply json_int_consumes in H1 as (p1 & E1 & [C1 P1] & Hne).
  apply json_frac_consumes in H2 as (p2 & E2 & [C2 P2] & S2).
  apply json_exp_consumes in H3 as (p3 & E3 & [C3 P3] & S3).
  assert (Hgo : consumes (fun l => l1 ← json_int l; l2 ← json_frac l1; json_exp l2)
    ends_number (p1 ++ p2 ++ p3)).
  { split; [unfold copied in *; by rewrite !Forall_app|]. intros t Ht. rewrite <- !app_assoc.
    rewrite P1; [cbn; rewrite P2; [by apply P3|]|].
    - destruct p3 as [|c p3]; cbn; [destruct t; [done|by destruct Ht as (?&?&_)]|].
      destruct S3 as [-> | ->]; done.
    - destruct p2 as [|c p2]; cbn; [|by rewrite S2].
      destruct p3 as [|c p3]; cbn; [destruct t; [done|by destruct Ht]|].
      destruct S3 as [-> | ->]; done. }
  destruct Hgo as [Hcop Hcons].
  assert (Hnosign : forall c p, p1 ++ p2 ++ p3 = c :: p -> c <> 45).
  { intros c p Hp ->. destruct p1 as [|c p1']; [done|]. injection Hp as -> _.
    specialize (P1 [] Logic.I). by cbn in P1. }
  destruct l as [|c l]; cbn [skip_sign] in E1.
  { destruct p1; done. }
  case_bool_decide as Hs.
  - apply list_elem_of_singleton in Hs as ->. exists (45 :: p1 ++ p2 ++ p3).
    split_and!; [subst; cbn; by rewrite <- !app_assoc| |done]. split; [by constructor|].
    intros t Ht. unfold json_number. cbn [app skip_sign].
    rewrite bool_decide_eq_true_2 by set_solver. by apply Hcons.
  - exists (p1 ++ p2 ++ p3). split_and!; [subst; by rewrite E1, <- !app_assoc| |by destruct p1].
    split; [done|]. intros t Ht. unfold json_number.
    destruct (p1 ++ p2 ++ p3) as [|c' p] eqn:Hp; [by destruct p1|]. cbn [app skip_sign].
    rewrite bool_decide_eq_false_2; [by apply Hcons|].
    intros ->%list_elem_of_singleton. by apply (Hnosign 45 p).
Qed.

(** ** Compaction preserves what the recogniser sees *)

Lemma strip_codes_split w l r : strip_codes w l = Some r -> l = w ++ r.
Proof.
  revert l. induction w as [|c w IH]; intros l; cbn; [by intros [= ->]|].
  destruct l as [|c' l]; [done|]. destruct (N.eqb_spec c c') as [->|]; [|done].
  intros H. by rewrite (IH _ H).
Qed.

Lemma strip_codes_self w r : strip_codes w (w ++ r) = Some r.
Proof. induction w as [|c w IH]; [done|]. cbn. by rewrite N.eqb_refl. Qed.

Lemma strip_codes_compact w l r :
  copied w -> strip_codes w l = Some r -> strip_codes w (compact l) = Some (compact r).
Proof.
  intros Hw ->%strip_codes_split. by rewrite compact_copied, strip_codes_self.
Qed.

Lemma compact_quote l l' :
  next_is 34 (skip_ws l) = Some l' -> compact l = 34 :: compact_from Inside l'.
Proof.
  intros H. rewrite <- compact_skip_ws. destruct (skip_ws l) as [|c l1] eqn:E; [done|].
  cbn in H. destruct (N.eqb_spec c 34) as [->|]; [|done]. injection H as ->. done.
Qed.

(** A structural byte ends a number. *)
Lemma next_is_ends c l r :
  (c =? 34) = false -> is_digit c = false -> c <> 46 -> c <> 101 -> c <> 69 ->
  next_is c (skip_ws l) = Some r -> ends_number (compact l).
Proof.
  intros H34 H1 H2 H3 H4 H. rewrite <- compact_skip_ws.
  destruct (skip_ws l) as [|c' l'] eqn:E; [done|]. cbn in H.
  destruct (N.eqb_spec c' c) as [->|]; [|done]. rewrite compact_copy; [done| |done].
  by eapply skip_ws_head.
Qed.

Lemma json_compact f :
  (forall d l r, json_value f d l = Some r -> ends_number (compact r) ->
     json_value f d (compact l) = Some (compact r)) /\
  (forall d l r, json_members f d l = Some r -> json_members f d (compact l) = Some (compact r)) /\
  (forall d l r, json_elements f d l = Some r ->
     json_elements f d (compact l) = Some (compact r)).
Proof.
  induction f as [|f (IHv & IHm & IHe)]; [by split_and!|].
  assert (Hend : forall l r c, c = 44 \/ c = 93 \/ c = 125 ->
    next_is c (skip_ws l) = Some r -> ends_number (compact l)).
  { intros l r c Hc. apply next_is_ends; destruct Hc as [->|[->| ->]]; done. }
  split_and!; intros d l r; cbn [json_value json_members json_elements].
  - rewrite skip_ws_compact, <- (compact_skip_ws l).
    destruct (skip_ws l) as [|c l'] eqn:El; [done|]. pose proof (skip_ws_head _ _ _ El) as Hws.
    intros H Hr. destruct (c =? 34) eqn:E34.
    { apply N.eqb_eq in E34 as ->. change (compact (34 :: l')) with (34 :: compact_from Inside l').
      cbn [N.eqb Pos.eqb] in *. by apply json_string_compact. }
    rewrite compact_copy by done. destruct (c =? 123) eqn:E123; [|destruct (c =? 91) eqn:E91].
    + destruct (max_nesting_depth <? d + 1); [done|].
      destruct (next_is 125 (skip_ws l')) as [r'|] eqn:E.
      * injection H as ->. by rewrite (next_is_compact _ _ _ E eq_refl).
      * rewrite next_is_compact_none by done. by apply IHm.
    + destruct (max_nesting_depth <? d + 1); [done|].
      destruct (next_is 93 (skip_ws l')) as [r'|] eqn:E.
      * injection H as ->. by rewrite (next_is_compact _ _ _ E eq_refl).
      * rewrite next_is_compact_none by done. by apply IHe.
    + rewrite E34 in *. destruct (c =? 116); [by apply strip_codes_compact; [repeat constructor|]|].
      destruct (c =? 102); [by apply strip_codes_compact; [repeat constructor|]|].
      destruct (c =? 110); [by apply strip_codes_compact; [repeat constructor|]|].
      rewrite <- compact_copy by done.
      apply json_number_consumes in H as (p & -> & [Hcop Hcons] & _).
      rewrite compact_copied by done. by apply Hcons.
  - intros (l1 & H1 & (l2 & H2 & (l3 & H3 & (l4 & H4 & H5)%bind_Some)%bind_Some)%bind_Some)%bind_Some.
    rewrite skip_ws_compact, (compact_quote _ _ H1). cbn [next_is N.eqb Pos.eqb mbind option_bind].
    rewrite (json_string_compact _ _ H2). cbn. rewrite (next_is_compact _ _ _ H3 eq_refl). cbn.
    destruct (next_is 44 (skip_ws l4)) as [l5|] eqn:E.
    + rewrite (IHv _ _ _ H4) by eauto. cbn. rewrite (next_is_compact _ _ _ E eq_refl). by apply IHm.
    + rewrite (IHv _ _ _ H4) by eauto. cbn. rewrite next_is_compact_none by done.
      by apply next_is_compact.
  - intros (l1 & H1 & H2)%bind_Some. destruct (next_is 44 (skip_ws l1)) as [l2|] eqn:E.
    + rewrite (IHv _ _ _ H1) by eauto. cbn. rewrite (next_is_compact _ _ _ E eq_refl). by apply IHe.
    + rewrite (IHv _ _ _ H1) by eauto. cbn. rewrite next_is_compact_none by done.
      by apply next_is_compact.
Qed.

(** A valid text is still valid when it is compact, and nothing follows
    the value. *)
Lemma compact_valid f d l r :
  json_value f d l = Some r -> skip_ws r = [] -> json_value f d (compact l) = Some [].
Proof.
  intros Hr Hws. assert (Hc : compact r = []) by (by rewrite <- compact_skip_ws, Hws).
  rewrite <- Hc. apply json_compact; [done|]. by rewrite Hc.
Qed.

(** ** More fuel *)

Lemma json_more_fuel f :
  (forall f' d l r, (f <= f')%nat -> json_value f d l = Some r -> json_value f' d l = Some r) /\
  (forall f' d l r, (f <= f')%nat -> json_members f d l = Some r -> json_members f' d l = Some r) /\
  (forall f' d l r, (f <= f')%nat -> json_elements f d l = Some r -> json_elements f' d l = Some r).
Proof.
  induction f as [|f (IHv & IHm & IHe)]; [by split_and!|].
  split_and!; intros [|f'] d l r Hf; try lia; cbn [json_value json_members json_elements].
  - destruct (skip_ws l) as [|c l']; [done|].
    destruct (c =? 123); [|destruct (c =? 91)]; [..|done];
      (destruct (max_nesting_depth <? d + 1); [done|]);
      (destruct (next_is _ _); [done|]); [apply IHm|apply IHe]; lia.
  - intros (l1 & H1 & (l2 & H2 & (l3 & H3 & (l4 & H4 & H5)%bind_Some)%bind_Some)%bind_Some)%bind_Some.
    rewrite H1. cbn. rewrite H2. cbn. rewrite H3. cbn.
    rewrite (IHv f' d l3 l4 ltac:(lia) H4). cbn.
    destruct (next_is 44 (skip_ws l4)); [|done]. apply IHm; [lia|done].
  - intros (l1 & H1 & H2)%bind_Some. rewrite (IHv f' d l l1 ltac:(lia) H1). cbn.
    destruct (next_is 44 (skip_ws l1)); [|done]. apply IHe; [lia|done].
Qed.

(** ** The text of one value *)

(** [raw] is one value at nesting [d], with no space around it. *)
Definition value_text (d : N) (raw : list N) : Prop :=
  skip_ws raw = raw /\ json_value (2 * length raw + 2) d raw = Some [].

Lemma value_text_nonempty d raw : value_text d raw -> raw <> [].
Proof. by intros [_ H] ->. Qed.

Lemma value_text_read d raw f t :
  value_text d raw -> ends_number t -> (2 * length raw + 2 <= f)%nat ->
  json_value f d (raw ++ t) = Some t.
Proof.
  intros [_ H] Ht Hf. apply (proj1 (json_suffix t Ht _)) in H. cbn in H.
  by eapply (proj1 (json_more_fuel _)).
Qed.

Lemma value_text_ws d raw t : value_text d raw -> skip_ws (raw ++ t) = raw ++ t.
Proof.
  intros H. pose proof (value_text_nonempty _ _ H). destruct H as [H _].
  rewrite skip_ws_app by congruence. by rewrite H.
Qed.

Lemma compact_text d l r :
  json_value (2 * length l + 2) d l = Some r -> skip_ws r = [] -> value_text d (compact l).
Proof.
  intros Hl Hr. split; [apply skip_ws_compact|].
  pose proof (compact_valid _ _ _ _ Hl Hr) as H.
  destruct (le_ge_dec (2 * length (compact l) + 2) (2 * length l + 2)) as [Hle|Hge].
  - rewrite <- H. apply json_fuel; lia.
  - by eapply (proj1 (json_more_fuel _)); [|exact H].
Qed.
