(* ===== verification/JsonDecode.v ===== *)
(** * encoding/json: objects and structs

    Printing an object of named members, cutting the members out of an
    object's text, and matching their names with the fields of a struct,
    as [json.Unmarshal] and [json.Decoder] do it.  What is printed is read
    back member by member. *)

From S2P Require Import Prelude GoRuntime Strings Json JsonText JsonRaw.

Local Open Scope N_scope.

(** ** Objects *)

(** The members of an object after its opening brace: the key, unquoted,
    and the text of the value; and what follows the closing brace. *)
Fixpoint fields (fuel : nat) (depth : N) (l : list N)
    : option (list (list N * list N) * list N) :=
  match fuel with
  | O => None
  | S f =>
      l1 ← next_is 34 (skip_ws l);
      '(key, l2) ← unquote l1;
      l3 ← next_is 58 (skip_ws l2);
      let v := skip_ws l3 in
      l4 ← json_value f depth v;
      let raw := take (length v - length l4) v in
      match next_is 44 (skip_ws l4) with
      | Some l5 => '(fs, r) ← fields f depth l5; Some ((key, raw) :: fs, r)
      | None => r ← next_is 125 (skip_ws l4); Some ([(key, raw)], r)
      end
  end.

(** The members of the object at the front of [l]; [null] has none, and
    any other value is not what a struct or a map is decoded from. *)
Definition object_fields (l : list N) : option (list (list N * list N)) :=
  _ ← json_value (2 * length l + 2) 0 l;
  match skip_ws l with
  | c :: l' =>
      if c =? 123 then
        match next_is 125 (skip_ws l') with
        | Some _ => Some []
        | None => fst <$> fields (2 * length l + 1) 1 l'
        end
      else if c =? 110 then Some [] else None
  | [] => None
  end.

(** ** Names *)

(** [foldName]: ASCII letters in upper case; U+017F and U+212A, which fold
    to S and K, are the only other runes that fold to ASCII. *)
Fixpoint fold_name (l : list N) : list N :=
  match l with
  | [] => []
  | c :: l1 =>
      if (97 <=? c) && (c <=? 122) then (c - 32) :: fold_name l1
      else match l1 with
      | c2 :: l2 =>
          if (c =? 197) && (c2 =? 191) then 83 :: fold_name l2
          else match l2 with
          | c3 :: l3 =>
              if (c =? 226) && (c2 =? 132) && (c3 =? 170) then 75 :: fold_name l3
              else c :: fold_name l1
          | [] => c :: fold_name l1
          end
      | [] => c :: fold_name l1
      end
  end.

(** The field a key stands for: its own name or one that folds alike (the
    names of a struct here all fold differently). *)
Fixpoint match_field {F} (names : list (string * F)) (key : list N) : option F :=
  match names with
  | [] => None
  | (n, f) :: names' =>
      if bool_decide (fold_name (codes n) = fold_name key) then Some f
      else match_field names' key
  end.

(** Decode the members one after the other; the first error ends it. *)
Fixpoint decode_fields {A} (step : A -> list N -> list N -> option A) (a : A)
    (fs : list (list N * list N)) : option A :=
  match fs with
  | [] => Some a
  | (key, raw) :: fs' => a' ← step a key raw; decode_fields step a' fs'
  end.

Lemma decode_fields_cons {A} (step : A -> list N -> list N -> option A) a key raw fs a' :
  step a key raw = Some a' -> decode_fields step a ((key, raw) :: fs) = decode_fields step a' fs.
Proof. cbn. by intros ->. Qed.

(** ** Values *)

Definition is_null (raw : list N) : bool := bool_decide (raw = [110; 117; 108; 108]).

(** [null] leaves a string or an integer as it was. *)
Definition decode_string (old : string) (raw : list N) : option string :=
  if is_null raw then Some old
  else match raw with
       | c :: l => if c =? 34 then '(s, _) ← unquote l; Some (text s) else None
       | [] => None
       end.

Definition decode_int (old : Z) (raw : list N) : option Z :=
  if is_null raw then Some old else parse_int raw.

(** [Time.UnmarshalJSON]: the bytes between the quotes, not unquoted. *)
Definition decode_time (time_Parse : string -> option Time) (old : Time) (raw : list N)
    : option Time :=
  if is_null raw then Some old
  else match raw with
       | c :: l => if (c =? 34) && bool_decide (last l = Some 34)
                   then time_Parse (text (removelast l)) else None
       | [] => None
       end.

(** ** Printing *)

Definition print_member (m : string * list N) : list N := quote (codes m.1) ++ [58] ++ m.2.

Fixpoint print_members (ms : list (string * list N)) : list N :=
  match ms with
  | [] => []
  | [m] => print_member m
  | m :: ms' => print_member m ++ [44] ++ print_members ms'
  end.

Definition print_object (ms : list (string * list N)) : list N :=
  [123] ++ print_members ms ++ [125].

(** ** A printed object is read back *)

Lemma unquote_string l r : json_string l = Some r -> exists s, unquote l = Some (s, r).
Proof.
  remember (length l) as n eqn:Hn. revert l Hn.
  induction (lt_wf n) as [n _ IH]; intros [|c1 l1] -> Hl; [done|].
  assert (Hgo : forall bs l', (length l' <= length l1)%nat -> json_string l' = Some r ->
    exists s, push bs (unquote l') = Some (s, r)).
  { intros bs l' Hl' H. destruct (IH (length l') ltac:(cbn; lia) l' eq_refl H) as [s ->].
    by eexists. }
  cbn [json_string unquote] in *. destruct (c1 =? 34); [injection Hl as ->; by eexists|].
  destruct (c1 =? 92).
  { destruct l1 as [|e l2]; [done|]. destruct (e =? 117).
    - destruct l2 as [|h1 [|h2 [|h3 [|h4 l3]]]]; try done.
      destruct (forallb is_hex [h1; h2; h3; h4]); [|done]. cbn [negb]. cbv zeta.
      destruct (_ && _); [|apply Hgo; [cbn; lia|done]].
      destruct l3 as [|b [|u [|g1 [|g2 [|g3 [|g4 l4]]]]]];
        try (apply Hgo; [cbn; lia|done]).
      destruct (_ && _) eqn:E; [|apply Hgo; [cbn; lia|done]].
      apply andb_true_iff in E as [[[Eb Eu]%andb_true_iff Ehex]%andb_true_iff _].
      apply N.eqb_eq in Eb as ->. apply N.eqb_eq in Eu as ->.
      apply Hgo; [cbn; lia|]. cbn [json_string N.eqb Pos.eqb] in Hl. by rewrite Ehex in Hl.
    - unfold short_escape. destruct (bool_decide (e ∈ [34; 92; 47])) eqn:E1; bool_prop.
      + rewrite bool_decide_eq_true_2 in Hl by set_solver. apply Hgo; [cbn; lia|done].
      + case_bool_decide as E2; [|done].
        destruct (N.eqb_spec e 98); [apply Hgo; [cbn; lia|done]|].
        destruct (N.eqb_spec e 102); [apply Hgo; [cbn; lia|done]|].
        destruct (N.eqb_spec e 110); [apply Hgo; [cbn; lia|done]|].
        destruct (N.eqb_spec e 114); [apply Hgo; [cbn; lia|done]|].
        destruct (N.eqb_spec e 116); [apply Hgo; [cbn; lia|done]|]. set_solver. }
  destruct (c1 <? 32); [done|]. destruct (c1 <? 128) eqn:E128; [by apply Hgo|].
  assert (Hhigh : forall c l', 128 <= c -> json_string (c :: l') = json_string l').
  { intros c l' Hc. apply json_string_plain; rewrite ?N.eqb_neq, ?N.ltb_ge; lia. }
  destruct l1 as [|c2 l2]; [by apply Hgo|].
  destruct (rune2 c1 c2) eqn:H2.
  { apply rune2_spec in H2. apply Hgo; [cbn; lia|]. by rewrite Hhigh in Hl by lia. }
  destruct l2 as [|c3 l3]; [by apply Hgo|].
  destruct (rune3 c1 c2 c3) eqn:H3.
  { apply rune3_spec in H3. apply Hgo; [cbn; lia|]. by rewrite !Hhigh in Hl by lia. }
  destruct l3 as [|c4 l4]; [by apply Hgo|].
  destruct (rune4 c1 c2 c3 c4) eqn:H4; [|by apply Hgo].
  apply rune4_spec in H4. apply Hgo; [cbn; lia|]. by rewrite !Hhigh in Hl by lia.
Qed.

Lemma json_string_rune r t : rune_wf r -> json_string (escape_rune r ++ t) = json_string t.
Proof.
  intros Hw. destruct r as [c|bs|c]; cbn [escape_rune rune_wf] in *.
  - unfold escape_ascii.
    case_bool_decide as Hin. { apply elem_of_cons in Hin as [->|Hin%list_elem_of_singleton]; by subst. }
    destruct (N.eqb_spec c 8); [done|]. destruct (N.eqb_spec c 12); [done|].
    destruct (N.eqb_spec c 10); [done|]. destruct (N.eqb_spec c 13); [done|].
    destruct (N.eqb_spec c 9); [done|]. destruct (_ || _) eqn:E.
    + apply json_string_escape. lia.
    + byte_prop. apply json_string_plain; rewrite ?N.eqb_neq, ?N.ltb_ge; [set_solver..|done].
  - unfold escape_multi. case_bool_decide as E1; [by apply json_string_escape|].
    case_bool_decide as E2; [by apply json_string_escape|]. clear E1 E2.
    assert (Hhigh : Forall (fun c => 128 <= c) bs).
    { destruct bs as [|c1 [|c2 [|c3 [|c4 [|]]]]]; try done.
      - apply rune2_spec in Hw. repeat constructor; lia.
      - apply rune3_spec in Hw. repeat constructor; lia.
      - apply rune4_spec in Hw. repeat constructor; lia. }
    clear Hw. induction Hhigh as [|c bs Hc _ IH]; [done|]. cbn [app].
    rewrite json_string_plain; [done|rewrite ?N.eqb_neq, ?N.ltb_ge; lia..].
  - by apply json_string_escape.
Qed.

Lemma json_string_quote l t : json_string (quote_body l ++ 34 :: t) = Some t.
Proof.
  unfold quote_body. pose proof (runes_wf l) as Hw. induction Hw as [|r rs Hr _ IH]; [done|].
  cbn [mbind list_bind]. by rewrite <- app_assoc, json_string_rune.
Qed.

Lemma quote_app l t : quote l ++ t = 34 :: quote_body l ++ 34 :: t.
Proof. unfold quote. cbn. by rewrite <- app_assoc. Qed.

(** A quoted string is the text of a value. *)
Lemma quote_text d l : value_text d (quote l).
Proof.
  split; [done|]. rewrite <- (app_nil_r (quote l)) at 2. rewrite quote_app.
  rewrite Nat.add_comm. cbn [Nat.add json_value]. by apply json_string_quote.
Qed.

Lemma print_int_text d z : value_text d (print_int z).
Proof.
  assert (Hhead : exists c l, print_int z = c :: l /\ (is_digit c = true \/ c = 45)).
  { rewrite print_int_sign. destruct (int_digits_spec z) as (c & ds & -> & _ & Hds & _).
    inversion Hds. destruct (z <? 0)%Z; [exists 45, (c :: ds)|exists c, ds]; auto. }
  destruct Hhead as (c & l & Hz & Hc).
  assert (Hne : is_ws c = false /\ (c =? 123) = false /\ (c =? 91) = false /\ (c =? 34) = false /\
    (c =? 116) = false /\ (c =? 102) = false /\ (c =? 110) = false).
  { destruct Hc as [Hc| ->]; [|done]. destruct (digit_copy _ Hc) as [Hw _].
    apply is_digit_range in Hc. rewrite Hw, !N.eqb_neq. lia. }
  destruct Hne as (Hw & E1 & E2 & E3 & E4 & E5 & E6).
  assert (Hs : skip_ws (print_int z) = print_int z).
  { rewrite Hz. cbn. unfold is_ws in Hw. by rewrite Hw. }
  split; [done|]. rewrite Nat.add_comm. cbn [Nat.add json_value]. rewrite Hs, Hz.
  rewrite E1, E2, E3, E4, E5, E6, <- Hz. pose proof (json_number_int z [] Logic.I) as H.
  by rewrite app_nil_r in H.
Qed.

(** What the decoder sees of a printed member. *)
Definition seen (m : string * list N) : list N * list N := (to_valid (codes m.1), m.2).

Lemma print_member_app m t :
  print_member m ++ t = 34 :: quote_body (codes m.1) ++ 34 :: 58 :: m.2 ++ t.
Proof. unfold print_member. rewrite <- app_assoc, quote_app. done. Qed.

Lemma print_member_length m : (length m.2 + 3 <= length (print_member m))%nat.
Proof. unfold print_member, quote. rewrite !length_app. cbn. lia. Qed.

Lemma next_is_self c l : is_ws c = false -> next_is c (skip_ws (c :: l)) = Some l.
Proof. unfold is_ws. intros H. cbn. rewrite H. cbn. by rewrite N.eqb_refl. Qed.

Section ReadBack.
Context (d : N).

(** One member and what comes after it. *)
Lemma fields_step f m t :
  value_text d m.2 -> ends_number t -> (2 * length m.2 + 2 <= f)%nat ->
  fields (S f) d (print_member m ++ t) =
    match next_is 44 (skip_ws t) with
    | Some l5 => '(fs, r) ← fields f d l5; Some (seen m :: fs, r)
    | None => r ← next_is 125 (skip_ws t); Some ([seen m], r)
    end.
Proof.
  intros Hv Ht Hf. cbn [fields]. rewrite print_member_app, next_is_self by done.
  cbn [mbind option_bind]. rewrite unquote_quote. cbn [mbind option_bind].
  rewrite next_is_self by done. cbn [mbind option_bind]. cbv zeta.
  rewrite (value_text_ws d), (value_text_read d) by done. cbn [mbind option_bind].
  replace (length (m.2 ++ t) - length t)%nat with (length m.2) by (rewrite length_app; lia).
  by rewrite take_app_length.
Qed.

Lemma members_step f m t :
  value_text d m.2 -> ends_number t -> (2 * length m.2 + 2 <= f)%nat ->
  json_members (S f) d (print_member m ++ t) =
    match next_is 44 (skip_ws t) with
    | Some l5 => json_members f d l5
    | None => next_is 125 (skip_ws t)
    end.
Proof.
  intros Hv Ht Hf. cbn [json_members]. rewrite print_member_app, next_is_self by done.
  cbn [mbind option_bind]. rewrite json_string_quote. cbn [mbind option_bind].
  rewrite next_is_self by done. cbn [mbind option_bind].
  by rewrite (value_text_read d).
Qed.

Lemma fields_print ms f t :
  ms <> [] -> Forall (fun m => value_text d m.2) ms ->
  (2 * length (print_members ms) <= f)%nat ->
  fields f d (print_members ms ++ 125 :: t) = Some (seen <$> ms, t) /\
  json_members f d (print_members ms ++ 125 :: t) = Some t.
Proof.
  revert f. induction ms as [|m ms IH]; intros f Hne Hall Hf; [done|].
  apply Forall_cons in Hall as [Hm Hall]. pose proof (print_member_length m) as Hlen.
  destruct ms as [|m' ms].
  - cbn [print_members] in *. destruct f as [|f]; [lia|].
    rewrite fields_step, members_step; [done|done|done|lia|done|done|lia].
  - change (print_members (m :: m' :: ms)) with
      (print_member m ++ [44] ++ print_members (m' :: ms)) in *.
    rewrite !length_app in Hf. cbn [length] in Hf. destruct f as [|f]; [lia|].
    destruct (IH f) as [IH1 IH2]; [done|done|lia|].
    rewrite <- !app_assoc. cbn [app].
    rewrite fields_step, members_step; [|done|done|lia|done|done|lia].
    rewrite next_is_self by done. by rewrite IH1, IH2.
Qed.
End ReadBack.

Lemma print_object_app ms t : print_object ms ++ t = 123 :: print_members ms ++ 125 :: t.
Proof. unfold print_object. cbn. by rewrite <- app_assoc. Qed.

(** A printed object is one value, and its members are read back, whatever
    follows it. *)
Lemma object_fields_print ms t :
  ms <> [] -> Forall (fun m => value_text 1 m.2) ms ->
  object_fields (print_object ms ++ t) = Some (seen <$> ms).
Proof.
  intros Hne Hall. rewrite print_object_app. unfold object_fields.
  set (n := (length _)). assert (Hn : (length (print_members ms) + 2 <= n)%nat).
  { subst n. cbn. rewrite length_app. cbn. lia. }
  destruct (fields_print 1 ms (2 * n + 1) t Hne Hall ltac:(lia)) as [H1 H2].
  assert (Hobj : next_is 125 (skip_ws (print_members ms ++ 125 :: t)) = None).
  { destruct ms as [|m ms]; [done|].
    assert (E : exists l, print_members (m :: ms) ++ 125 :: t = 34 :: l).
    { destruct ms; cbn [print_members]; rewrite <- ?app_assoc, print_member_app; by eexists. }
    by destruct E as [l ->]. }
  replace (2 * n + 2)%nat with (S (2 * n + 1)) by lia. cbn [json_value].
  change (skip_ws (123 :: print_members ms ++ 125 :: t)) with (123 :: print_members ms ++ 125 :: t).
  change (0 + 1) with 1. cbn [N.eqb Pos.eqb]. rewrite Hobj.
  change (max_nesting_depth <? 1) with false. cbv iota.
  rewrite H2. cbn [mbind option_bind]. by rewrite H1.
Qed.
