(* ===== verification/JsonScan.v ===== *)
(** * encoding/json: what the decoder hands on

    A value, cut out of the text around it, is the same value; every
    string the decoder returns is valid UTF-8; and so the members of an
    object are what the marshaller could print again. *)

From S2P Require Import Prelude GoRuntime Strings Json JsonText JsonRaw JsonDecode.

Local Open Scope N_scope.

(** ** A value is cut out where it ends *)

(** [parse] reads [p] at the front of [l], and reads it alike before any
    rest that cannot continue a number. *)
Definition reads (parse : list N -> option (list N)) (l r : list N) : Prop :=
  exists p, l = p ++ r /\ forall t, ends_number t -> parse (p ++ t) = Some t.

(** The same for a parser that does not look past its end. *)
Definition cuts (parse : list N -> option (list N)) (l r : list N) : Prop :=
  exists p, l = p ++ r /\ forall t, parse (p ++ t) = Some t.

Lemma skip_ws_split l :
  exists w, l = w ++ skip_ws l /\ forall t, skip_ws (w ++ t) = skip_ws t.
Proof.
  induction l as [|c l (w & Hl & Hw)]; [by exists []|]. cbn [skip_ws].
  destruct (bool_decide (c ∈ [32; 9; 10; 13])) eqn:E; [|by exists []].
  exists (c :: w). split; [cbn; by f_equal|]. intros t. cbn. by rewrite E, Hw.
Qed.

Lemma next_is_cuts c l r :
  is_ws c = false -> next_is c (skip_ws l) = Some r ->
  cuts (fun l => next_is c (skip_ws l)) l r.
Proof.
  intros Hc H. destruct (skip_ws_split l) as (w & Hl & Hw).
  destruct (skip_ws l) as [|c' l'] eqn:E; [done|]. cbn in H.
  destruct (N.eqb_spec c' c) as [->|]; [|done]. injection H as ->.
  exists (w ++ [c]). split; [by rewrite <- app_assoc|]. intros t. cbn beta.
  rewrite <- app_assoc, Hw. by apply next_is_self.
Qed.

Lemma json_string_cuts l r : json_string l = Some r -> cuts json_string l r.
Proof.
  remember (length l) as n eqn:Hn. revert l Hn.
  induction (lt_wf n) as [n _ IH]; intros [|c l] -> H; [done|].
  assert (Hgo : forall q l', (length l' <= length l)%nat -> json_string l' = Some r ->
    (forall t, json_string (q ++ t) = json_string t) -> cuts json_string (q ++ l') r).
  { intros q l' Hl' Hj Hq. destruct (IH (length l') ltac:(cbn; lia) l' eq_refl Hj) as (p & -> & Hp).
    exists (q ++ p). split; [by rewrite app_assoc|]. intros t. by rewrite <- app_assoc, Hq. }
  cbn [json_string] in H. destruct (c =? 34) eqn:E34.
  { injection H as ->. exists [c]. split; [done|]. intros t. cbn. by rewrite E34. }
  destruct (c =? 92) eqn:E92.
  - destruct l as [|e l2]; [done|]. destruct (e =? 117) eqn:Eu.
    + destruct l2 as [|h1 [|h2 [|h3 [|h4 l3]]]]; try done.
      destruct (forallb is_hex [h1; h2; h3; h4]) eqn:Eh; [|done].
      apply (Hgo [c; e; h1; h2; h3; h4] l3); [cbn; lia|done|]. intros t.
      cbn [app json_string]. by rewrite E34, E92, Eu, Eh.
    + case_bool_decide as Ee; [|done]. apply (Hgo [c; e] l2); [cbn; lia|done|]. intros t.
      cbn [app json_string]. rewrite E34, E92, Eu. by rewrite bool_decide_eq_true_2.
  - destruct (c <? 32) eqn:E32; [done|]. apply (Hgo [c] l); [done|done|]. intros t.
    by apply json_string_plain.
Qed.

Lemma strip_codes_cuts w l r : strip_codes w l = Some r -> cuts (strip_codes w) l r.
Proof. intros ->%strip_codes_split. exists w. split; [done|]. apply strip_codes_self. Qed.

Lemma json_number_reads l r : json_number l = Some r -> reads json_number l r.
Proof. intros (p & -> & [_ Hp] & _)%json_number_consumes. by exists p. Qed.

(** The first byte of what a parser accepts. *)
Lemma json_members_first f d l r :
  json_members f d l = Some r -> next_is 125 (skip_ws l) = None.
Proof.
  destruct f as [|f]; [done|]. cbn [json_members]. intros (l1 & H & _)%bind_Some.
  destruct (skip_ws l) as [|c l']; [done|]. cbn in *. destruct (N.eqb_spec c 34) as [->|]; done.
Qed.

Lemma json_elements_first f d l r :
  json_elements f d l = Some r -> next_is 93 (skip_ws l) = None.
Proof.
  destruct f as [|[|f]]; [done|done|]. cbn [json_elements json_value].
  intros (l1 & H & _)%bind_Some. destruct (skip_ws l) as [|c l']; [done|]. cbn [next_is].
  destruct (N.eqb_spec c 93) as [->|]; [|done]. done.
Qed.

(** Space and a structural byte end a number. *)
Lemma ends_structural c l r :
  c = 44 \/ c = 93 \/ c = 125 -> next_is c (skip_ws l) = Some r -> ends_number l.
Proof.
  intros Hc H. destruct l as [|c' l]; [done|]. cbn in H |- *. case_bool_decide as E.
  - repeat (apply elem_of_cons in E as [->|E]; [done|]). by apply not_elem_of_nil in E.
  - cbn in H. destruct (N.eqb_spec c' c) as [->|]; [|done]. by destruct Hc as [->|[->| ->]].
Qed.

Lemma other_byte c c' l r :
  c <> c' -> next_is c (skip_ws l) = Some r -> next_is c' (skip_ws l) = None.
Proof.
  intros Hne H. destruct (skip_ws l) as [|x l']; [done|]. cbn in *.
  destruct (N.eqb_spec x c) as [->|]; [|done]. by rewrite (proj2 (N.eqb_neq c c')).
Qed.

(** After a value: a comma and more, or the closing byte. *)
Lemma tail_reads close parse l r :
  close = 93 \/ close = 125 ->
  (forall l r, parse l = Some r -> reads parse l r) ->
  (match next_is 44 (skip_ws l) with
   | Some l5 => parse l5
   | None => next_is close (skip_ws l)
   end = Some r) ->
  exists p, l = p ++ r /\ forall t, ends_number t -> ends_number (p ++ t) /\
    match next_is 44 (skip_ws (p ++ t)) with
    | Some l5 => parse l5
    | None => next_is close (skip_ws (p ++ t))
    end = Some t.
Proof.
  intros Hc Hparse. destruct (next_is 44 (skip_ws l)) as [l5|] eqn:E; intros H.
  - apply Hparse in H as (p5 & -> & H5). apply next_is_cuts in E as (q & -> & Hq); [|done].
    exists (q ++ p5). split; [by rewrite app_assoc|]. intros t Ht. rewrite <- app_assoc.
    specialize (Hq (p5 ++ t)). cbn beta in Hq. split; [eapply (ends_structural 44); eauto|].
    by rewrite Hq; apply H5.
  - apply next_is_cuts in H as (q & -> & Hq); [|by destruct Hc as [-> | ->]].
    exists q. split; [done|]. intros t Ht. specialize (Hq t). cbn beta in Hq.
    split; [eapply ends_structural; [|exact Hq]; by destruct Hc as [-> | ->]; auto|].
    rewrite (other_byte close 44) with (r := t); [done| |done]. by destruct Hc as [-> | ->].
Qed.

(** A value, when the parsers of its members and elements are local. *)
Lemma json_value_reads f d l r :
  (forall d l r, json_members f d l = Some r -> reads (json_members f d) l r) ->
  (forall d l r, json_elements f d l = Some r -> reads (json_elements f d) l r) ->
  json_value (S f) d l = Some r -> reads (json_value (S f) d) l r.
Proof.
  intros IHm IHe.
  intros H. destruct (skip_ws_split l) as (w & Hl & Hw). cbn [json_value] in H.
  destruct (skip_ws l) as [|c l'] eqn:E; [done|]. pose proof (skip_ws_head _ _ _ E) as Hc.
  assert (Hgo : forall parse, reads parse l' r ->
    (forall t, ends_number t -> forall q, parse q = Some t ->
       json_value (S f) d (c :: q) = Some t) -> reads (json_value (S f) d) l r).
  { intros parse (p & -> & Hp) Hq. exists (w ++ c :: p).
    split; [by rewrite Hl, <- app_assoc|]. intros t Ht. rewrite <- app_assoc. cbn [app].
    specialize (Hq t Ht (p ++ t) (Hp t Ht)). cbn [json_value] in Hq |- *. by rewrite Hw. }
  assert (Hs : forall q, skip_ws (c :: q) = c :: q).
  { intros q. cbn. unfold is_ws in Hc. by rewrite Hc. }
  assert (Hcut : forall parse, cuts parse l' r -> reads parse l' r).
  { intros parse (p & -> & Hp). exists p. by split. }
  destruct (c =? 123) eqn:E1; [|destruct (c =? 91) eqn:E2].
  - destruct (max_nesting_depth <? d + 1) eqn:Ed; [done|].
    destruct (next_is 125 (skip_ws l')) as [r'|] eqn:En.
    + injection H as ->. eapply Hgo; [by apply Hcut, (next_is_cuts 125)|]. intros t _ q Hq.
      cbn [json_value]. cbn beta in Hq. by rewrite Hs, E1, Ed, Hq.
    + eapply Hgo; [by apply IHm|]. intros t _ q Hq. cbn [json_value].
      by rewrite Hs, E1, Ed, (json_members_first _ _ _ _ Hq).
  - destruct (max_nesting_depth <? d + 1) eqn:Ed; [done|].
    destruct (next_is 93 (skip_ws l')) as [r'|] eqn:En.
    + injection H as ->. eapply Hgo; [by apply Hcut, (next_is_cuts 93)|]. intros t _ q Hq.
      cbn [json_value]. cbn beta in Hq. by rewrite Hs, E1, E2, Ed, Hq.
    + eapply Hgo; [by apply IHe|]. intros t _ q Hq. cbn [json_value].
      by rewrite Hs, E1, E2, Ed, (json_elements_first _ _ _ _ Hq).
  - destruct (c =? 34) eqn:E3; [|destruct (c =? 116) eqn:E4; [|destruct (c =? 102) eqn:E5;
      [|destruct (c =? 110) eqn:E6]]];
      try (eapply Hgo; [first [by apply Hcut, json_string_cuts | by apply Hcut, strip_codes_cuts]|];
        intros t _ q Hq; cbn [json_value]; by rewrite Hs, E1, E2, ?E3, ?E4, ?E5, ?E6).
    apply json_number_reads in H as (p & Hp & Hn). destruct p as [|c0 p].
    { specialize (Hn [] Logic.I). by cbn in Hn. }
    injection Hp as <- ->. exists (w ++ c :: p). split; [by rewrite Hl, <- app_assoc|].
    intros t Ht. rewrite <- app_assoc. cbn [json_value]. rewrite Hw. cbn [app].
    rewrite Hs, E1, E2, E3, E4, E5, E6. by apply (Hn t).
Qed.

Lemma json_reads f :
  (forall d l r, json_value f d l = Some r -> reads (json_value f d) l r) /\
  (forall d l r, json_members f d l = Some r -> reads (json_members f d) l r) /\
  (forall d l r, json_elements f d l = Some r -> reads (json_elements f d) l r).
Proof.
  induction f as [|f (IHv & IHm & IHe)]; [by split_and!|]. split_and!; intros d l r H.
  - by apply json_value_reads.
  - cbn [json_members] in H.
    apply bind_Some in H as (l1 & H1 & (l2 & H2 & (l3 & H3 & (l4 & H4 & H5)%bind_Some)%bind_Some)%bind_Some).
    apply (tail_reads 125 (json_members f d)) in H5 as (p5 & -> & H5); [|auto|by apply IHm].
    apply IHv in H4 as (p4 & -> & H4). apply next_is_cuts in H3 as (p3 & -> & H3); [|done].
    apply json_string_cuts in H2 as (p2 & -> & H2). apply next_is_cuts in H1 as (p1 & -> & H1); [|done].
    exists (p1 ++ p2 ++ p3 ++ p4 ++ p5). split; [by rewrite <- !app_assoc|]. intros t Ht.
    rewrite <- !app_assoc. cbn [json_members]. cbn beta in *. destruct (H5 t Ht) as [He Hr].
    rewrite H1. cbn. rewrite H2. cbn. rewrite H3. cbn. by rewrite H4.
  - cbn [json_elements] in H. apply bind_Some in H as (l1 & H1 & H2).
    apply (tail_reads 93 (json_elements f d)) in H2 as (p2 & -> & H2); [|auto|by apply IHe].
    apply IHv in H1 as (p1 & -> & H1). exists (p1 ++ p2). split; [by rewrite app_assoc|].
    intros t Ht. rewrite <- app_assoc. cbn [json_elements]. destruct (H2 t Ht) as [He Hr].
    by rewrite H1.
Qed.

(** The text of a value, on its own. *)
Lemma json_value_cut f d l r :
  json_value f d l = Some r ->
  let raw := take (length l - length r) l in
  l = raw ++ r /\ json_value (2 * length raw + 2) d raw = Some [].
Proof.
  intros (p & -> & Hp)%json_reads. cbv zeta. rewrite length_app, Nat.add_sub, take_app_length.
  split; [done|]. specialize (Hp [] Logic.I). rewrite app_nil_r in Hp.
  destruct (le_ge_dec f (2 * length p + 2)) as [Hle|Hge].
  - by eapply (proj1 (json_more_fuel _)).
  - rewrite <- Hp. apply json_fuel; lia.
Qed.

(** ** Decoded strings are UTF-8 *)

Lemma runes_app r s :
  rune_wf r -> rune_ok r = true -> runes (rune_bytes r ++ s) = r :: runes s.
Proof.
  intros Hw Hok. destruct r as [c|bs|c]; cbn [rune_wf rune_ok rune_bytes] in *; [| |done].
  - cbn [app runes]. by rewrite (proj2 (N.ltb_lt c 128)).
  - destruct bs as [|c1 [|c2 [|c3 [|c4 [|]]]]]; try done; cbn [app runes].
    + destruct (rune2_spec _ _ Hw) as [H1 _]. rewrite (proj2 (N.ltb_ge c1 128)) by lia.
      by rewrite Hw.
    + destruct (rune3_spec _ _ _ Hw) as [H1 _]. rewrite (proj2 (N.ltb_ge c1 128)) by lia.
      replace (rune2 c1 c2) with false; [by rewrite Hw|]. symmetry. apply not_true_iff_false.
      intros H%rune2_spec. lia.
    + destruct (rune4_spec _ _ _ _ Hw) as [H1 _]. rewrite (proj2 (N.ltb_ge c1 128)) by lia.
      replace (rune2 c1 c2) with false by (symmetry; apply not_true_iff_false; intros H%rune2_spec; lia).
      replace (rune3 c1 c2 c3) with false by (symmetry; apply not_true_iff_false; intros H%rune3_spec; lia).
      by rewrite Hw.
Qed.

(** The bytes of one well-formed rune. *)
Definition rune_text (bs : list N) : Prop :=
  exists r, rune_wf r /\ rune_ok r = true /\ bs = rune_bytes r.

Lemma utf8_push bs s : rune_text bs -> utf8_Valid s = true -> utf8_Valid (bs ++ s) = true.
Proof.
  intros (r & Hw & Hok & ->) Hs. unfold utf8_Valid in *. rewrite runes_app by done. cbn.
  by rewrite Hok.
Qed.

Lemma rune_text_ascii c : c < 128 -> rune_text [c].
Proof. intros Hc. by exists (RAscii c). Qed.

Lemma rune_text_multi bs : rune_wf (RMulti bs) -> rune_text bs.
Proof. intros Hw. by exists (RMulti bs). Qed.

Lemma replacement_text : rune_text replacement.
Proof. by apply rune_text_multi. Qed.

Lemma in_range a b c : a <= c <= b -> (a <=? c) && (c <=? b) = true.
Proof. intros [H1 H2]. by rewrite andb_true_iff, !N.leb_le. Qed.

Lemma continuation_mod x : continuation (128 + x mod 64) = true.
Proof.
  pose proof (N.mod_lt x 64 ltac:(lia)) as H. revert H. generalize (x mod 64). intros y H.
  apply in_range. lia.
Qed.

Lemma rune3_encode c :
  2048 <= c < 65536 -> surrogate c = false ->
  rune3 (224 + c / 4096) (128 + c / 64 mod 64) (128 + c mod 64) = true.
Proof.
  intros Hc Hs. unfold rune3. rewrite !continuation_mod. cbn [andb].
  assert (Hs' : c < 55296 \/ 57344 <= c).
  { unfold surrogate in Hs. apply andb_false_iff in Hs as [H|H]; byte_prop; lia. }
  assert (E : c / 64 / 64 = c / 4096) by (by rewrite N.Div0.div_div).
  pose proof (N.Div0.div_mod c 64) as H0. pose proof (N.mod_lt c 64 ltac:(lia)) as H0'.
  pose proof (N.Div0.div_mod (c / 64) 64) as H1. pose proof (N.mod_lt (c / 64) 64 ltac:(lia)) as H2.
  rewrite E in H1. revert H0 H0' H1 H2.
  generalize (c / 64 mod 64) as y. generalize (c / 64) as z. generalize (c / 4096) as q.
  generalize (c mod 64) as m. intros m q z y H0 H0' H1 H2.
  destruct (N.eqb_spec (224 + q) 224); [apply in_range; lia|].
  destruct (N.eqb_spec (224 + q) 237); [apply in_range; lia|].
  by rewrite in_range by lia.
Qed.

Lemma rune4_encode c :
  65536 <= c < 1114112 ->
  rune4 (240 + c / 262144) (128 + c / 4096 mod 64) (128 + c / 64 mod 64) (128 + c mod 64) = true.
Proof.
  intros Hc. unfold rune4. rewrite !continuation_mod. cbn [andb].
  assert (E : c / 4096 / 64 = c / 262144) by (by rewrite N.Div0.div_div).
  pose proof (N.Div0.div_mod c 4096) as H0. pose proof (N.mod_lt c 4096 ltac:(lia)) as H0'.
  pose proof (N.Div0.div_mod (c / 4096) 64) as H1.
  pose proof (N.mod_lt (c / 4096) 64 ltac:(lia)) as H2.
  rewrite E in H1. revert H0 H0' H1 H2.
  generalize (c / 4096 mod 64) as y. generalize (c / 4096) as z. generalize (c / 262144) as q.
  generalize (c mod 4096) as m. intros m q z y H0 H0' H1 H2.
  destruct (N.eqb_spec (240 + q) 240); [apply in_range; lia|].
  destruct (N.eqb_spec (240 + q) 244); [apply in_range; lia|].
  by rewrite in_range by lia.
Qed.

Lemma encode_rune_text c : c < 1114112 -> rune_text (encode_rune c).
Proof.
  intros Hc. unfold encode_rune. destruct (N.ltb_spec c 128); [by apply rune_text_ascii|].
  destruct (N.ltb_spec c 2048) as [Hlt|Hge].
  { apply rune_text_multi. cbn [rune_wf]. unfold rune2. rewrite continuation_mod.
    pose proof (N.Div0.div_mod c 64) as H1. pose proof (N.mod_lt c 64 ltac:(lia)) as H2.
    revert H1 H2. generalize (c / 64) as q. generalize (c mod 64) as m. intros m q H1 H2.
    rewrite in_range by lia. done. }
  destruct (surrogate c) eqn:Hs; [apply replacement_text|].
  destruct (N.ltb_spec c 65536).
  - apply rune_text_multi. by apply rune3_encode.
  - apply rune_text_multi. by apply rune4_encode.
Qed.

Lemma hex_val_lt h : is_hex h = true -> hex_val h < 16.
Proof.
  unfold is_hex, hex_val, is_digit. intros H.
  destruct ((48 <=? h) && (h <=? 57)) eqn:E1; [byte_prop; lia|].
  destruct ((97 <=? h) && (h <=? 102)) eqn:E2; [byte_prop; lia|]. cbn in H. byte_prop. lia.
Qed.

Lemma hex4_lt h1 h2 h3 h4 : forallb is_hex [h1; h2; h3; h4] = true -> hex4 h1 h2 h3 h4 < 65536.
Proof.
  cbn. intros H. bool_prop.
  repeat match goal with H : is_hex _ = true |- _ => apply hex_val_lt in H end.
  unfold hex4. lia.
Qed.

(** Some bytes at the front give the text of one rune, the rest the rest. *)
Definition takes_rune (l s r : list N) : Prop :=
  exists q bs l' s', l = q ++ l' /\ q <> [] /\ rune_text bs /\ s = bs ++ s' /\
    unquote l' = Some (s', r).

Lemma takes_push q l l' bs s r :
  l = q ++ l' -> q <> [] -> rune_text bs -> push bs (unquote l') = Some (s, r) ->
  takes_rune l s r.
Proof.
  intros Hl Hq Hbs Hp. unfold push in Hp.
  apply bind_Some in Hp as ([s' t] & Hs' & [= <- <-]). by exists q, bs, l', s'.
Qed.

Lemma high_surrogate_lt c : surrogate c && negb (low_surrogate c) = true -> c < 56320.
Proof.
  unfold surrogate, low_surrogate. intros H. byte_prop.
  match goal with H : _ && _ = false |- _ => apply andb_false_iff in H as [H|H] end;
    byte_prop; lia.
Qed.

Lemma short_escape_ascii e b : short_escape e = Some b -> b < 128.
Proof.
  unfold short_escape. case_bool_decide as Hin; [intros [= <-]; set_solver by lia|].
  repeat case_match; naive_solver lia.
Qed.

(** After a backslash. *)
Lemma unquote_escaped l s r : unquote (92 :: l) = Some (s, r) -> takes_rune (92 :: l) s r.
Proof.
  intros H. cbn [unquote N.eqb Pos.eqb] in H. destruct l as [|e l2]; [done|].
  destruct (e =? 117).
  2:{ destruct (short_escape e) as [b|] eqn:Ee; [|done]. apply short_escape_ascii in Ee.
      by eapply (takes_push [92; e]); [..|exact H]; auto using rune_text_ascii. }
  destruct l2 as [|h1 [|h2 [|h3 [|h4 l3]]]]; try done.
  destruct (forallb is_hex [h1; h2; h3; h4]) eqn:Eh; [|done]. cbn [negb] in H. cbv zeta in H.
  apply hex4_lt in Eh. set (q := [92; e; h1; h2; h3; h4]).
  assert (Hrep : push replacement (unquote l3) = Some (s, r) -> takes_rune (q ++ l3) s r).
  { by apply (takes_push q); auto using replacement_text. }
  destruct (surrogate _ && _) eqn:Es.
  2:{ eapply (takes_push q); [..|exact H]; try done. apply encode_rune_text. lia. }
  apply high_surrogate_lt in Es.
  destruct l3 as [|b [|u [|g1 [|g2 [|g3 [|g4 l4]]]]]]; try (by apply Hrep).
  destruct (_ && _) eqn:E; [|by apply Hrep].
  apply andb_true_iff in E as [[_ Eg]%andb_true_iff El].
  apply hex4_lt in Eg. unfold low_surrogate in El.
  eapply (takes_push (q ++ [b; u; g1; g2; g3; g4])); [..|exact H]; try done.
  apply encode_rune_text. unfold combine. byte_prop. lia.
Qed.

(** One step of the decoder: the closing quote, or a rune. *)
Lemma unquote_step l s r :
  unquote l = Some (s, r) -> (s = [] /\ l = 34 :: r) \/ takes_rune l s r.
Proof.
  destruct l as [|c1 l1]; [done|]. intros H.
  destruct (N.eqb_spec c1 92) as [->|H92]; [right; by apply unquote_escaped|].
  cbn [unquote] in H. destruct (N.eqb_spec c1 34) as [->|]; [by injection H as <- <-; left|right].
  rewrite (proj2 (N.eqb_neq c1 92)) in H by done. destruct (c1 <? 32); [done|].
  destruct (N.ltb_spec c1 128).
  { by eapply (takes_push [c1]); [..|exact H]; auto using rune_text_ascii. }
  assert (Hrep : push replacement (unquote l1) = Some (s, r) -> takes_rune ([c1] ++ l1) s r).
  { by apply (takes_push [c1]); auto using replacement_text. }
  destruct l1 as [|c2 l2]; [by apply Hrep|].
  destruct (rune2 c1 c2) eqn:H2.
  { by eapply (takes_push [c1; c2]); [..|exact H]; auto using rune_text_multi. }
  destruct l2 as [|c3 l3]; [by apply Hrep|].
  destruct (rune3 c1 c2 c3) eqn:H3.
  { by eapply (takes_push [c1; c2; c3]); [..|exact H]; auto using rune_text_multi. }
  destruct l3 as [|c4 l4]; [by apply Hrep|].
  destruct (rune4 c1 c2 c3 c4) eqn:H4; [|by apply Hrep].
  by eapply (takes_push [c1; c2; c3; c4]); [..|exact H]; auto using rune_text_multi.
Qed.

(** The string is valid UTF-8, and the rest is a suffix of the text. *)
Lemma unquote_valid l s r :
  unquote l = Some (s, r) -> utf8_Valid s = true /\ exists p, l = p ++ r.
Proof.
  remember (length l) as n eqn:Hn. revert l s Hn.
  induction (lt_wf n) as [n _ IH]; intros l s -> H.
  destruct (unquote_step _ _ _ H) as [[-> ->]|(q & bs & l' & s' & -> & Hq & Hbs & -> & H')];
    [by split; [|exists [34]]|].
  assert (Hlen : (length l' < length (q ++ l'))%nat).
  { rewrite length_app. destruct q; [done|]. cbn. lia. }
  destruct (IH (length l') Hlen l' s' eq_refl H') as [Hv [p ->]]. split; [by apply utf8_push|].
  exists (q ++ p). by rewrite <- app_assoc.
Qed.

Lemma utf8_bytes s : utf8_Valid s = true -> byte_list s.
Proof.
  intros Hs. rewrite <- (to_valid_id _ Hs). unfold to_valid, utf8_Valid in *.
  pose proof (runes_wf s) as Hw. induction Hw as [|r rs Hr _ IH]; [constructor|].
  cbn in Hs. apply andb_true_iff in Hs as [Hok Hs]. cbn [mbind list_bind].
  apply byte_list_app. split; [|by apply IH]. unfold byte_list.
  destruct r as [c|bs|c]; cbn [rune_wf rune_bytes] in *; [repeat constructor; lia| |done].
  destruct bs as [|c1 [|c2 [|c3 [|c4 [|]]]]]; try done.
  - apply rune2_spec in Hr. repeat constructor; lia.
  - apply rune3_spec in Hr. repeat constructor; lia.
  - apply rune4_spec in Hr. repeat constructor; lia.
Qed.

(** ** The members of an object *)

(** A name in UTF-8 and the text of one value at nesting [d]. *)
Definition member_ok (d : N) (m : list N * list N) : Prop :=
  utf8_Valid m.1 = true /\ byte_list m.2 /\
  json_value (2 * length m.2 + 2) d m.2 = Some [].

Lemma skip_ws_bytes l : byte_list l -> byte_list (skip_ws l).
Proof. destruct (skip_ws_split l) as (w & Hl & _). rewrite Hl at 1. by intros [_ H]%byte_list_app. Qed.

Lemma next_is_bytes c l r : byte_list l -> next_is c (skip_ws l) = Some r -> byte_list r.
Proof.
  intros Hl%skip_ws_bytes H. destruct (skip_ws l) as [|c' l']; [done|]. cbn in H.
  case_match; [|done]. injection H as ->. by apply (byte_list_app [c'] r).
Qed.

Lemma fields_ok f d l fs r :
  byte_list l -> fields f d l = Some (fs, r) -> Forall (member_ok d) fs.
Proof.
  revert l fs r. induction f as [|f IH]; intros l fs r Hl H; [done|]. cbn [fields] in H.
  apply bind_Some in H as (l1 & H1 & ([key l2] & H2 & (l3 & H3 & H)%bind_Some)%bind_Some).
  cbv zeta in H. apply bind_Some in H as (l4 & H4 & H5).
  apply next_is_bytes in H1; [|done]. apply unquote_valid in H2 as [Hkey [p ->]].
  apply byte_list_app in H1 as [_ H1]. apply next_is_bytes in H3; [|done].
  apply skip_ws_bytes in H3. apply json_value_cut in H4 as [Hv Hraw]. cbv zeta in Hv, Hraw.
  rewrite Hv in H3. apply byte_list_app in H3 as [Hb H4b].
  assert (Hm : member_ok d (key, take (length (skip_ws l3) - length l4) (skip_ws l3)))
    by (by split_and!).
  destruct (next_is 44 (skip_ws l4)) as [l5|] eqn:E.
  - apply bind_Some in H5 as ([fs' r'] & H5 & [= <- <-]). constructor; [done|].
    eapply IH; [|exact H5]. by eapply next_is_bytes.
  - apply bind_Some in H5 as (r' & _ & [= <- <-]). by constructor.
Qed.

Lemma object_fields_ok l fs :
  byte_list l -> object_fields l = Some fs -> Forall (member_ok 1) fs.
Proof.
  intros Hl H. apply bind_Some in H as (t & _ & H). apply skip_ws_bytes in Hl.
  destruct (skip_ws l) as [|c l']; [done|]. apply (byte_list_app [c] l') in Hl as [_ Hl].
  destruct (c =? 123); [|destruct (c =? 110); [by injection H as <-|done]].
  destruct (next_is 125 _); [by injection H as <-|].
  apply fmap_Some in H as ([fs' r] & H & ->). by eapply fields_ok.
Qed.

(** What [step] keeps from member to member holds in the end. *)
Lemma decode_fields_inv {A} (P : A -> Prop) (step : A -> list N -> list N -> option A) a fs a' d :
  (forall a key raw a', P a -> member_ok d (key, raw) -> step a key raw = Some a' -> P a') ->
  P a -> Forall (member_ok d) fs -> decode_fields step a fs = Some a' -> P a'.
Proof.
  intros Hstep Ha Hfs. revert a Ha. induction Hfs as [|[key raw] fs Hm _ IH]; intros a Ha;
    cbn [decode_fields]; [by intros [= <-]|]. intros (a1 & H1 & H2)%bind_Some. eauto.
Qed.

Lemma decode_string_valid old raw s :
  utf8_Valid (codes old) = true -> decode_string old raw = Some s -> utf8_Valid (codes s) = true.
Proof.
  intros Ho. unfold decode_string. destruct (is_null raw); [by intros [= <-]|].
  destruct raw as [|c l]; [done|]. destruct (c =? 34); [|done].
  intros ([s' t] & H & [= <-])%bind_Some. apply unquote_valid in H as [H _].
  by rewrite codes_text by (by apply utf8_bytes).
Qed.

Lemma decode_int_range old raw z :
  int64_ok old = true -> decode_int old raw = Some z -> int64_ok z = true.
Proof.
  intros Ho. unfold decode_int, parse_int. destruct (is_null raw); [by intros [= <-]|].
  cbv zeta. destruct (_ || _); [done|]. intros H.
  match type of H with (if int64_ok ?v then _ else _) = _ => destruct (int64_ok v) eqn:E end;
    [by injection H as <-|done].
Qed.

(** ** Values that were printed *)

Lemma is_null_quote l : is_null (quote l) = false.
Proof. unfold is_null. by apply bool_decide_eq_false_2. Qed.

Lemma decode_quote old l : decode_string old (quote l) = Some (text (to_valid l)).
Proof.
  unfold decode_string. rewrite is_null_quote. unfold quote. cbn [app N.eqb Pos.eqb].
  by rewrite unquote_quote.
Qed.

Lemma print_int_not_null z : is_null (print_int z) = false.
Proof.
  unfold is_null. apply bool_decide_eq_false_2. rewrite print_int_sign.
  destruct (int_digits_spec z) as (c & ds & -> & _ & Hds & _).
  destruct (z <? 0)%Z; [done|]. cbn. intros [= -> _]. inversion Hds as [|? ? Hc _].
  apply is_digit_range in Hc. lia.
Qed.

Lemma decode_print_int old z : int64_ok z = true -> decode_int old (print_int z) = Some z.
Proof. intros Hz. unfold decode_int. by rewrite print_int_not_null, parse_print_int. Qed.

(** ** Everything printed is bytes *)

Lemma hex_code_byte d : (hex_code (d mod 16) < 256)%N.
Proof.
  pose proof (N.mod_lt d 16 ltac:(lia)) as H. revert H. generalize (d mod 16)%N. intros x H.
  unfold hex_code. case_match; lia.
Qed.

Lemma unicode_escape_bytes c : byte_list (unicode_escape c).
Proof. unfold unicode_escape. repeat constructor; try apply hex_code_byte. Qed.

Lemma quote_bytes l : byte_list l -> byte_list (quote l).
Proof.
  intros Hl. unfold quote, byte_list. rewrite !Forall_app. split_and!; [by repeat constructor| |by repeat constructor].
  unfold quote_body. remember (length l) as n eqn:Hn. revert l Hn Hl.
  induction (lt_wf n) as [n _ IH]; intros [|c1 l1] -> Hl; [constructor|].
  assert (Hgo : forall l', (length l' < length (c1 :: l1))%nat -> byte_list l' ->
    Forall (fun c => c < 256)%N (runes l' ≫= escape_rune)) by (intros; by eapply IH).
  assert (Hmulti : forall bs, byte_list bs -> byte_list (escape_multi bs)).
  { intros bs Hb. unfold escape_multi. repeat case_bool_decide; auto using unicode_escape_bytes. }
  cbn [runes]. unfold byte_list in Hl. inversion_clear Hl as [|? ? Hc1 Hl1].
  destruct (c1 <? 128)%N.
  { cbn [mbind list_bind]. apply Forall_app. split; [|by apply Hgo; [cbn; lia|]].
    cbn [escape_rune]. unfold escape_ascii.
    repeat case_match; try apply unicode_escape_bytes; by repeat constructor. }
  assert (Hbad : Forall (fun c => c < 256)%N ((RBad c1 :: runes l1) ≫= escape_rune)).
  { cbn [mbind list_bind]. apply Forall_app. split; [apply unicode_escape_bytes|].
    by apply Hgo; [cbn; lia|]. }
  destruct l1 as [|c2 l2]; [done|]. inversion_clear Hl1 as [|? ? Hc2 Hl2].
  destruct (rune2 c1 c2).
  { cbn [mbind list_bind]. apply Forall_app. split; [apply Hmulti; by repeat constructor|].
    by apply Hgo; [cbn; lia|]. }
  destruct l2 as [|c3 l3]; [done|]. inversion_clear Hl2 as [|? ? Hc3 Hl3].
  destruct (rune3 c1 c2 c3).
  { cbn [mbind list_bind]. apply Forall_app. split; [apply Hmulti; by repeat constructor|].
    by apply Hgo; [cbn; lia|]. }
  destruct l3 as [|c4 l4]; [done|]. inversion_clear Hl3 as [|? ? Hc4 Hl4].
  destruct (rune4 c1 c2 c3 c4); [|done].
  cbn [mbind list_bind]. apply Forall_app. split; [apply Hmulti; by repeat constructor|].
  by apply Hgo; [cbn; lia|].
Qed.

Lemma compact_bytes st l : byte_list l -> byte_list (compact_from st l).
Proof.
  remember (length l) as n eqn:Hn. revert st l Hn.
  induction (lt_wf n) as [n _ IH]; intros st [|c l1] -> Hl; [constructor|].
  unfold byte_list in Hl. inversion_clear Hl as [|? ? Hc Hl1].
  assert (Hgo : forall st l', (length l' <= length l1)%nat -> byte_list l' ->
    byte_list (compact_from st l')) by (intros st' l' Hl'; apply (IH (length l')); cbn; lia).
  assert (Hcopy : forall st, byte_list (c :: compact_from st l1))
    by (intros st'; constructor; [done|by apply Hgo]).
  destruct st; cbn [compact_from].
  - case_match; [by apply Hgo|apply Hcopy].
  - destruct (c =? 34)%N; [apply Hcopy|]. destruct (c =? 92)%N; [apply Hcopy|].
    case_bool_decide; [apply byte_list_app; split; [apply unicode_escape_bytes|by apply Hgo]|].
    destruct l1 as [|c2 [|c3 l3]]; [apply Hcopy..|]. destruct (_ && _); [|apply Hcopy].
    apply byte_list_app. split; [apply unicode_escape_bytes|]. apply Hgo; [cbn; lia|].
    inversion_clear Hl1 as [|? ? _ Hl2]. by inversion_clear Hl2.
  - apply Hcopy.
Qed.

Lemma print_object_bytes ms :
  Forall (fun m => byte_list m.2) ms -> byte_list (print_object ms).
Proof.
  intros Hms. unfold print_object. rewrite !byte_list_app.
  split_and!; [by repeat constructor| |by repeat constructor].
  assert (Hm : forall m : string * list N, byte_list m.2 -> byte_list (print_member m)).
  { intros m Hm. unfold print_member. rewrite !byte_list_app.
    split_and!; [apply quote_bytes, codes_bytes|by repeat constructor|done]. }
  induction Hms as [|m ms H1 Hms IH]; [constructor|].
  destruct ms as [|m' ms]; [by apply Hm|].
  change (print_members (m :: m' :: ms)) with
    (print_member m ++ [44%N] ++ print_members (m' :: ms)).
  rewrite !byte_list_app. split_and!; [by apply Hm|by repeat constructor|done].
Qed.
