(* ===== verification/Dto.v ===== *)
(** * Requests, pages and validation

    internal/job/dto.go and internal/job/validator.go: the request and
    page types, [validateCreate], [initialStatus], and the paging
    arithmetic of internal/job/repository.go. *)

From S2P Require Import Prelude GoRuntime Engine Sql Schema Json.

Local Open Scope Z_scope.

Record CreateRequest := mkCreateRequest {
  cq_Name : string;
  cq_JobType : string;
  cq_Payload : string;
  cq_RunAt : Time;
  cq_Priority : Z;
  cq_MaxRetries : Z;
  cq_RetryBackoffSeconds : Z;
  cq_TimeoutSeconds : Z;
  cq_IdempotencyKey : string
}.

#[export] Instance eta_CreateRequest : Eta CreateRequest := fun r =>
  mkCreateRequest (cq_Name r) (cq_JobType r) (cq_Payload r) (cq_RunAt r)
    (cq_Priority r) (cq_MaxRetries r) (cq_RetryBackoffSeconds r)
    (cq_TimeoutSeconds r) (cq_IdempotencyKey r).
#[export] Instance upd_cq_Priority : Upd cq_Priority := ltac:(mk_upd cq_Priority).
#[export] Instance upd_cq_MaxRetries : Upd cq_MaxRetries := ltac:(mk_upd cq_MaxRetries).
#[export] Instance upd_cq_RetryBackoffSeconds : Upd cq_RetryBackoffSeconds :=
  ltac:(mk_upd cq_RetryBackoffSeconds).
#[export] Instance upd_cq_TimeoutSeconds : Upd cq_TimeoutSeconds :=
  ltac:(mk_upd cq_TimeoutSeconds).
#[export] Instance upd_cq_IdempotencyKey : Upd cq_IdempotencyKey :=
  ltac:(mk_upd cq_IdempotencyKey).

Record CreateResponse := mkCreateResponse {
  cp_JobID : UUID;
  cp_Status : Status;
  cp_Replayed : bool
}.

(** [job.DashboardSummary]; the counts are keyed by the status text. *)
Record DashboardSummary := mkDashboardSummary {
  ds_StatusCounts : gmap string Z;
  ds_ActiveWorkers : Z;
  ds_OutboxBacklog : Z;
  ds_FailuresLast24Hour : Z
}.

(** [job.ListFilter]; an empty string is an absent criterion. *)
Record ListFilter := mkListFilter {
  lf_Status : string;
  lf_JobType : string;
  lf_Page : Z;
  lf_PageSize : Z;
  lf_Sort : string;
  lf_Order : string;
  lf_CreatedAfter : option Time;
  lf_CreatedBefore : option Time
}.

#[export] Instance eta_ListFilter : Eta ListFilter := fun f =>
  mkListFilter (lf_Status f) (lf_JobType f) (lf_Page f) (lf_PageSize f) (lf_Sort f)
    (lf_Order f) (lf_CreatedAfter f) (lf_CreatedBefore f).
#[export] Instance upd_lf_Page : Upd lf_Page := ltac:(mk_upd lf_Page).
#[export] Instance upd_lf_Sort : Upd lf_Sort := ltac:(mk_upd lf_Sort).
#[export] Instance upd_lf_Order : Upd lf_Order := ltac:(mk_upd lf_Order).

Record Page := mkPage {
  pg_Items : list Job;
  pg_Page : Z;
  pg_PageSize : Z;
  pg_Total : Z
}.

(** ** Validation *)

Definition supportedJobTypes : gset string := {[ "CALL_WEBHOOK" ]}.

Definition isSupportedJobType (jobType : string) : bool :=
  bool_decide (jobType ∈ supportedJobTypes).

(** The constants of pkg/types/job.go. *)
Definition types_JobTypes : list string :=
  ["SEND_EMAIL"; "CALL_WEBHOOK"; "GENERATE_REPORT"; "PROCESS_PAYMENT_RETRY";
   "SYNC_CUSTOMER_DATA"; "CLEANUP_EXPIRED_SESSIONS"].

Definition isKnownStatus (s : string) : bool :=
  bool_decide (s ∈ status_string <$>
    [StatusPending; StatusScheduled; StatusRunning; StatusSucceeded; StatusFailed;
     StatusRetryScheduled; StatusDeadLettered; StatusCancelled; StatusPaused]).

(** [None] is Go's nil error; [Some msg] the message of the error. *)
Definition validateCreate (req : CreateRequest) : option string :=
  if bool_decide (TrimSpace (cq_Name req) = "") then Some "name is required"
  else if negb (isSupportedJobType (cq_JobType req)) then Some "unsupported job type"
  else if bool_decide (cq_Payload req = "") || negb (json_Valid (cq_Payload req))
          || bool_decide (cq_Payload req = "null")
  then Some "payload must be valid JSON"
  else if cq_RunAt req =? zero_time then Some "run_at is required"
  else if (cq_Priority req <? 0) || (10 <? cq_Priority req)
  then Some "priority must be between 0 and 10"
  else if cq_MaxRetries req <? 0 then Some "max_retries must not be negative"
  else if cq_RetryBackoffSeconds req <? 0
  then Some "retry_backoff_seconds must not be negative"
  else if cq_TimeoutSeconds req <? 0 then Some "timeout_seconds must not be negative"
  else None.

Definition initialStatus (runAt now : Time) : Status :=
  if now <? runAt then StatusScheduled else StatusPending.

(** ** Paging *)

Definition normalizePage (page : Z) : Z := if page <? 1 then 1 else page.

Definition normalizePageSize (pageSize : Z) : Z :=
  if pageSize <? 1 then 20 else if 100 <? pageSize then 100 else pageSize.

(** [(page - 1) * pageSize] on 64-bit integers. *)
Definition page_offset (page pageSize : Z) : Z := int_mul (int_sub page 1) pageSize.

(** ** Lemmas *)

(** One of the reserved job types has an executor and is accepted. *)
Lemma supported_types :
  filter (fun t => isSupportedJobType t = true) types_JobTypes = ["CALL_WEBHOOK"].
Proof. by vm_compute. Qed.

Lemma normalizePageSize_range n : 1 <= normalizePageSize n <= 100.
Proof. unfold normalizePageSize. repeat case_match; bool_prop; lia. Qed.

Lemma normalizePage_range n : 1 <= normalizePage n.
Proof. unfold normalizePage. case_match; bool_prop; lia. Qed.

Lemma page_offset_small page size :
  1 <= page -> 1 <= size <= 100 -> (page - 1) * size < 2 ^ 63 ->
  page_offset page size = (page - 1) * size.
Proof.
  intros Hp Hs Ho. unfold page_offset, int_mul, int_sub.
  rewrite (wrap64_id (page - 1)) by nia. apply wrap64_id. nia.
Qed.

Lemma isKnownStatus_spec s :
  isKnownStatus s = true <-> exists st, status_string st = s.
Proof.
  unfold isKnownStatus. rewrite bool_decide_eq_true, list_elem_of_fmap. split.
  - intros (st & -> & _). eauto.
  - intros [st <-]. exists st. split; [done|]. destruct st; set_solver.
Qed.
