(* ===== verification/Rows.v ===== *)
(** * What a committed change leaves, column by column

    The specifications of the repository and the outbox speak of rows
    before and after.  Here they are written out column by column, and
    independently of the update functions of [Repository] and [Outbox]:
    what a completed, failed, released, leased or cancelled row looks like,
    what an event and a dead letter contain, and what it means that a
    statement took the first rows of an order. *)

From S2P Require Import Prelude GoRuntime Engine Sql Schema.

Local Open Scope Z_scope.
Local Open Scope go_scope.

(** ** Jobs *)

(** The columns that describe the work and are never rewritten. *)
Definition same_definition (r r' : job_row) : Prop :=
  jr_id r' = jr_id r /\ jr_name r' = jr_name r /\ jr_job_type r' = jr_job_type r /\
  jr_payload r' = jr_payload r /\ jr_priority r' = jr_priority r /\
  jr_max_retries r' = jr_max_retries r /\
  jr_retry_backoff_seconds r' = jr_retry_backoff_seconds r /\
  jr_timeout_seconds r' = jr_timeout_seconds r /\ jr_created_by r' = jr_created_by r /\
  jr_created_at r' = jr_created_at r /\ jr_tenant_id r' = jr_tenant_id r /\
  jr_idempotency_key r' = jr_idempotency_key r /\ jr_request_hash r' = jr_request_hash r /\
  jr_source_dead_letter_id r' = jr_source_dead_letter_id r.

Definition unleased (r : job_row) : Prop := jr_locked_by r = None /\ jr_locked_until r = None.

(** What a claim, a release, a completion and an operator leave alone. *)
Definition same_retries (r r' : job_row) : Prop :=
  jr_run_at r' = jr_run_at r /\ jr_retry_count r' = jr_retry_count r /\
  jr_last_error r' = jr_last_error r /\ jr_failed_at r' = jr_failed_at r.

(** RUNNING, leased to [worker] for [seconds]. *)
Definition leased_row (worker : string) (seconds : Z) (now : Time) (r r' : job_row) : Prop :=
  same_definition r r' /\ same_retries r r' /\ jr_status r' = StatusRunning /\
  jr_locked_by r' = Some worker /\ jr_locked_until r' = Some (now + seconds * 10 ^ 9) /\
  jr_updated_at r' = now /\ jr_completed_at r' = jr_completed_at r /\
  jr_cancelled_at r' = jr_cancelled_at r.

Definition succeeded_row (now : Time) (r r' : job_row) : Prop :=
  same_definition r r' /\ same_retries r r' /\ unleased r' /\
  jr_status r' = StatusSucceeded /\ jr_completed_at r' = Some now /\ jr_updated_at r' = now /\
  jr_cancelled_at r' = jr_cancelled_at r.

(** Given back: nothing but the status and the lease. *)
Definition released_row (now : Time) (r r' : job_row) : Prop :=
  same_definition r r' /\ same_retries r r' /\ unleased r' /\
  jr_status r' = StatusRetryScheduled /\ jr_updated_at r' = now /\
  jr_completed_at r' = jr_completed_at r /\ jr_cancelled_at r' = jr_cancelled_at r.

(** Moved by an operator; a cancellation is dated. *)
Definition moved_row (to : Status) (now : Time) (r r' : job_row) : Prop :=
  same_definition r r' /\ same_retries r r' /\ unleased r' /\
  jr_status r' = to /\ jr_updated_at r' = now /\ jr_completed_at r' = jr_completed_at r /\
  (to = StatusCancelled -> jr_cancelled_at r' = Some now) /\
  (to <> StatusCancelled -> jr_cancelled_at r' = jr_cancelled_at r).

(** A failure, of whatever consequence. *)
Definition failed_row (count : Z) (message : string) (now : Time) (r r' : job_row) : Prop :=
  same_definition r r' /\ unleased r' /\ jr_retry_count r' = count /\
  jr_last_error r' = Some message /\ jr_failed_at r' = Some now /\ jr_updated_at r' = now /\
  jr_completed_at r' = jr_completed_at r /\ jr_cancelled_at r' = jr_cancelled_at r.

Definition retried_row (count : Z) (run_at : Time) (message : string) (now : Time)
    (r r' : job_row) : Prop :=
  failed_row count message now r r' /\ jr_status r' = StatusRetryScheduled /\
  jr_run_at r' = run_at.

Definition dead_row (count : Z) (message : string) (now : Time) (r r' : job_row) : Prop :=
  failed_row count message now r r' /\ jr_status r' = StatusDeadLettered /\
  jr_run_at r' = jr_run_at r.

(** ** Attempts *)

Definition same_start (a a' : attempt_row) : Prop :=
  ar_id a' = ar_id a /\ ar_job_id a' = ar_job_id a /\ ar_tenant_id a' = ar_tenant_id a /\
  ar_worker_id a' = ar_worker_id a /\ ar_attempt_number a' = ar_attempt_number a /\
  ar_started_at a' = ar_started_at a /\ ar_created_at a' = ar_created_at a.

(** An attempt that has just begun. *)
Definition fresh_attempt (id job tenant : UUID) (worker : string) (number : Z) (now : Time)
    (a : attempt_row) : Prop :=
  ar_id a = id /\ ar_job_id a = job /\ ar_tenant_id a = tenant /\ ar_worker_id a = worker /\
  ar_attempt_number a = number /\ ar_status a = AttemptRunning /\ ar_started_at a = now /\
  ar_created_at a = now /\ ar_completed_at a = None /\ ar_failed_at a = None /\
  ar_error_message a = None /\ ar_execution_duration_ms a = None /\ ar_result a = None /\
  ar_error_code a = None /\ ar_retryable a = None.

(** Text stored as JSONB, [NULL] where there is none. *)
Definition stored_json (s : string) : option string :=
  if bool_decide (s = "") then None else Some s.

Definition succeeded_attempt (ms : Z) (res : string) (now : Time) (a a' : attempt_row) : Prop :=
  same_start a a' /\ ar_status a' = AttemptSucceeded /\ ar_completed_at a' = Some now /\
  ar_execution_duration_ms a' = Some ms /\ ar_result a' = stored_json res /\
  ar_failed_at a' = ar_failed_at a /\ ar_error_message a' = ar_error_message a /\
  ar_error_code a' = ar_error_code a /\ ar_retryable a' = ar_retryable a.

Definition failed_attempt (o : ExecutionResult) (ms : Z) (now : Time) (a a' : attempt_row)
    : Prop :=
  same_start a a' /\ ar_status a' = AttemptFailed /\ ar_failed_at a' = Some now /\
  ar_error_message a' = Some (er_Message o) /\ ar_error_code a' = Some (er_ErrorCode o) /\
  ar_retryable a' = Some (er_Retryable o) /\ ar_execution_duration_ms a' = Some ms /\
  ar_result a' = stored_json (er_Metadata o) /\ ar_completed_at a' = ar_completed_at a.

Definition cancelled_attempt (now : Time) (a a' : attempt_row) : Prop :=
  same_start a a' /\ ar_status a' = AttemptCancelled /\ ar_failed_at a' = Some now /\
  ar_error_message a' = Some "cancelled by operator" /\ ar_error_code a' = Some "CANCELLED" /\
  ar_retryable a' = Some false /\ ar_completed_at a' = ar_completed_at a /\
  ar_execution_duration_ms a' = ar_execution_duration_ms a /\ ar_result a' = ar_result a.

(** ** Events and dead letters *)

(** An event just recorded, not yet published and due at once. *)
Definition recorded_event (id job tenant : UUID) (type source : string) (p : payload)
    (now : Time) (v : event_row) : Prop :=
  vr_id v = id /\ vr_job_id v = job /\ vr_tenant_id v = tenant /\ vr_event_type v = type /\
  vr_source v = source /\ vr_payload v = p /\ vr_schema_version v = 1 /\ vr_created_at v = now /\
  vr_correlation_id v = None /\ vr_causation_id v = None /\ vr_published_at v = None /\
  vr_publish_attempts v = 0 /\ vr_next_publish_at v = now /\ vr_last_publish_error v = None /\
  vr_claimed_by v = None /\ vr_claimed_until v = None.

Definition dead_letter_of (id : UUID) (j : Job) (message : string) (count : Z) (now : Time)
    (dl : DeadLetterJob) : Prop :=
  dl_ID dl = id /\ dl_OriginalJobID dl = j_ID j /\ dl_TenantID dl = j_TenantID j /\
  dl_Name dl = j_Name j /\ dl_JobType dl = j_JobType j /\ dl_Payload dl = j_Payload j /\
  dl_FinalError dl = message /\ dl_RetryCount dl = count /\ dl_FailedAt dl = now /\
  dl_CreatedAt dl = now /\ dl_RequeuedAt dl = None /\ dl_RequeuedJobID dl = None.

(** What an event reports is never rewritten. *)
Definition same_report (v v' : event_row) : Prop :=
  vr_id v' = vr_id v /\ vr_job_id v' = vr_job_id v /\ vr_tenant_id v' = vr_tenant_id v /\
  vr_event_type v' = vr_event_type v /\ vr_source v' = vr_source v /\
  vr_payload v' = vr_payload v /\ vr_schema_version v' = vr_schema_version v /\
  vr_created_at v' = vr_created_at v /\ vr_correlation_id v' = vr_correlation_id v /\
  vr_causation_id v' = vr_causation_id v.

(** Published: one attempt more, no error, no lease. *)
Definition published_event (now : Time) (v v' : event_row) : Prop :=
  same_report v v' /\ vr_published_at v' = Some now /\
  vr_publish_attempts v' = vr_publish_attempts v + 1 /\ vr_last_publish_error v' = None /\
  vr_next_publish_at v' = vr_next_publish_at v /\
  vr_claimed_by v' = None /\ vr_claimed_until v' = None.

(** Refused: still to be published, after [seconds]. *)
Definition refused_event (message : string) (seconds : Z) (now : Time) (v v' : event_row)
    : Prop :=
  same_report v v' /\ vr_published_at v' = vr_published_at v /\
  vr_publish_attempts v' = vr_publish_attempts v + 1 /\
  vr_last_publish_error v' = Some message /\
  vr_next_publish_at v' = now + seconds * 10 ^ 9 /\
  vr_claimed_by v' = None /\ vr_claimed_until v' = None.

(** ** Tables *)

(** One row changed, one row new. *)
Definition row_changed {V} (R : V -> V -> Prop) (k : UUID) (t t' : gmap UUID V) : Prop :=
  exists v v', t !! k = Some v /\ R v v' /\ t' = <[k := v']> t.

Definition row_added {V} (P : UUID -> V -> Prop) (t t' : gmap UUID V) : Prop :=
  exists k v, t !! k = None /\ P k v /\ t' = <[k := v]> t.

Lemma row_changed_lookup {V} (R : V -> V -> Prop) k (t t' : gmap UUID V) v :
  row_changed R k t t' -> t !! k = Some v -> exists v', t' !! k = Some v' /\ R v v'.
Proof.
  intros (v0 & v' & Hv & HR & ->) Hk. simplify_eq. exists v'. by rewrite lookup_insert_eq.
Qed.

(** ** The first rows of an order *)

(** [rows] are the first [limit] of the rows of [t] that are due, one
    before the other. *)
Record first_due {V} (due : V -> Prop) (before : V -> V -> Prop) (limit : nat)
    (t : gmap UUID V) (rows : list V) : Prop := mk_first_due {
  fd_due : forall v, v ∈ rows -> due v /\ exists k, t !! k = Some v;
  fd_order : StronglySorted before rows;
  fd_limit : (length rows <= limit)%nat;
  fd_rest : forall k v, t !! k = Some v -> due v ->
    v ∈ rows \/ (length rows = limit /\ forall u, u ∈ rows -> before u v)
}.

Lemma StronglySorted_split {V} (R : V -> V -> Prop) l n x y :
  StronglySorted R l -> x ∈ take n l -> y ∈ drop n l -> R x y.
Proof.
  intros Hs Hx Hy. rewrite <- (take_drop n l) in Hs. by eapply StronglySorted_app_1_elem_of.
Qed.

Lemma StronglySorted_distinct {V W} (R R' : V -> V -> Prop) (f : V -> W) l :
  (forall u v, f u <> f v -> R u v -> R' u v) ->
  NoDup (f <$> l) -> StronglySorted R l -> StronglySorted R' l.
Proof.
  intros HR Hnd Hs. induction Hs as [|a l Hs IH Ha]; [constructor|].
  apply NoDup_cons in Hnd as [Hni Hnd]. constructor; [by apply IH|].
  apply Forall_forall. intros v Hv. apply HR; [|by eapply Forall_forall in Ha].
  intros E. apply Hni. rewrite E. by apply list_elem_of_fmap_2.
Qed.

(** [WHERE P ORDER BY key LIMIT n] over a table whose rows carry their id. *)
Lemma order_by_first {V} (due : V -> Prop) (before : V -> V -> Prop) (id : V -> UUID) P key
    (t : gmap UUID V) n :
  (forall k v, t !! k = Some v -> id v = k) -> (forall v, P v = true <-> due v) ->
  (forall u v, id u <> id v -> key_le key u v -> before u v) ->
  first_due due before n t (take n (order_by key (select_where P t))).
Proof.
  intros Hid HP Hkey. set (l := order_by key (select_where P t)).
  assert (Hin : forall v, v ∈ l <-> due v /\ exists k, t !! k = Some v).
  { intros v. unfold l. by rewrite elem_of_order_by, elem_of_select_where, HP. }
  assert (Hnd : NoDup (id <$> l)).
  { unfold l. rewrite order_by_perm. by apply select_where_nodup. }
  assert (Hs : StronglySorted before l).
  { eapply StronglySorted_distinct; [exact Hkey|exact Hnd|apply order_by_sorted]. }
  split.
  - intros v Hv. apply Hin. eapply elem_of_submseteq; [exact Hv|].
    apply sublist_submseteq, sublist_take.
  - rewrite <- (take_drop n l) in Hs. by eapply StronglySorted_app_1_l.
  - rewrite length_take. lia.
  - intros k v Hk Hd. assert (Hv : v ∈ l) by (apply Hin; eauto).
    rewrite <- (take_drop n l) in Hv. apply elem_of_app in Hv as [Hv|Hv]; [by left|right].
    split; [|intros u Hu; by eapply StronglySorted_split].
    rewrite length_take. assert (length (drop n l) <> 0%nat).
    { intros E%length_zero_iff_nil. rewrite E in Hv. by apply not_elem_of_nil in Hv. }
    rewrite length_drop in *. lia.
Qed.
