(* ===== verification/Repository.v ===== *)
(** * The PostgreSQL repository: internal/job/repository.go

    Every method of [PostgresRepository], statement by statement.  A
    method that opens a transaction is a [with_tx] over a body in [Tx];
    a method that runs one statement on the pool is a [pool_exec] or
    [pool_query].  [RowsAffected() == 0] is the [0] returned by
    [update_where]. *)

From S2P Require Import Prelude GoRuntime Engine Sql Schema Effects Json Dto.

Local Open Scope Z_scope.
Local Open Scope go_scope.

(** ** Helpers *)

(** pgx refuses to encode an [int] that does not fit an [INT] parameter. *)
Definition int4_params (l : list Z) : result unit :=
  if forallb int4_ok l then Ok tt else Err err_int4.

(** [if tag.RowsAffected() == 0 { return err }]. *)
Definition require_rows (n : nat) (err : error) : Tx unit :=
  match n with O => tx_fail err | S _ => mret tt end.

Definition tx_update_jobs (P : UUID -> job_row -> bool) (f : Time -> job_row -> job_row)
    : Tx nat :=
  tx_exec (fun now d =>
    let '(t, n) := update_where P (f now) (jobs d) in
    Ok (d <| jobs := t |>, n)).

Definition tx_update_attempts (P : UUID -> attempt_row -> bool)
    (f : Time -> attempt_row -> attempt_row) : Tx nat :=
  tx_exec (fun now d =>
    let '(t, n) := update_where P (f now) (job_attempts d) in
    Ok (d <| job_attempts := t |>, n)).

Definition tx_insert (f : Time -> Db -> result Db) : Tx unit :=
  tx_exec (fun now d => match f now d with
                        | Ok d' => Ok (d', tt)
                        | Err err => Err err
                        end).

Definition pool_update_jobs (P : UUID -> job_row -> bool)
    (f : Time -> job_row -> job_row) : M nat :=
  pool_exec (fun now d =>
    let '(t, n) := update_where P (f now) (jobs d) in
    Ok (d <| jobs := t |>, n)).

Definition pool_update_attempts (P : UUID -> attempt_row -> bool)
    (f : Time -> attempt_row -> attempt_row) : M nat :=
  pool_exec (fun now d =>
    let '(t, n) := update_where P (f now) (job_attempts d) in
    Ok (d <| job_attempts := t |>, n)).

Definition lift_result {A} (r : result A) : M A := fun e w => (r, w).

(** The first row of a query, as [QueryRow(...).Scan] sees it. *)
Definition first_row {A} (l : list A) : result A :=
  match l with [] => Err ErrNoRows | x :: _ => Ok x end.

(** [WHERE id=$1 AND locked_by=$2 AND status='RUNNING']. *)
Definition owned_running (jobID : UUID) (workerID : string) (k : UUID) (r : job_row) : bool :=
  bool_decide (k = jobID) && bool_decide (jr_locked_by r = Some workerID) &&
  bool_decide (jr_status r = StatusRunning).

Definition nullableJSON (value : string) : option string :=
  if bool_decide (value = "") then None else Some value.

(** [scanJobs]: every row of a result set, in its order. *)
Definition scanJobs (rows : list job_row) : list Job := scanJob <$> rows.

(** A row of [job_events] with the columns' defaults. *)
Definition new_event_row (id : UUID) (j : Job) (eventType source : string)
    (body : payload) (now : Time) : event_row :=
  {| vr_id := id;
     vr_job_id := j_ID j;
     vr_tenant_id := j_TenantID j;
     vr_event_type := eventType;
     vr_source := source;
     vr_schema_version := 1;
     vr_correlation_id := None;
     vr_causation_id := None;
     vr_payload := body;
     vr_created_at := now;
     vr_published_at := None;
     vr_publish_attempts := 0;
     vr_next_publish_at := now;
     vr_last_publish_error := None;
     vr_claimed_by := None;
     vr_claimed_until := None |}.

Definition insertJobEvent (j : Job) (eventType source : string) (p : payload) : Tx unit :=
  body ← tx_lift (json_marshal p);
  id ← tx_uuid_New;
  tx_insert (fun now d =>
    insert_job_events (new_event_row id j eventType source body now) d).

(** A row of [dead_letter_jobs] with the columns' defaults; [tenant] is
    the value of the [tenant_id] column, or its default. *)
Definition new_dead_letter_row (id tenant : UUID) (j : Job) (message : string)
    (retryCount : Z) (now : Time) : DeadLetterJob :=
  {| dl_ID := id;
     dl_OriginalJobID := j_ID j;
     dl_Name := j_Name j;
     dl_JobType := j_JobType j;
     dl_Payload := j_Payload j;
     dl_FinalError := message;
     dl_RetryCount := retryCount;
     dl_FailedAt := now;
     dl_CreatedAt := now;
     dl_TenantID := tenant;
     dl_RequeuedAt := None;
     dl_RequeuedJobID := None |}.

Definition insert_dead_letter (tenant : UUID) (j : Job) (message : string)
    (retryCount : Z) : Tx unit :=
  id ← tx_uuid_New;
  tx_insert (fun now d =>
    insert_dead_letter_jobs (new_dead_letter_row id tenant j message retryCount now) d).

(** ** Creation *)

Definition job_insert_row (j : Job) (now : Time) : job_row :=
  {| jr_id := j_ID j;
     jr_name := j_Name j;
     jr_job_type := j_JobType j;
     jr_payload := j_Payload j;
     jr_status := j_Status j;
     jr_priority := j_Priority j;
     jr_run_at := j_RunAt j;
     jr_locked_until := None;
     jr_locked_by := None;
     jr_retry_count := j_RetryCount j;
     jr_max_retries := j_MaxRetries j;
     jr_retry_backoff_seconds := j_RetryBackoffSeconds j;
     jr_timeout_seconds := j_TimeoutSeconds j;
     jr_last_error := None;
     jr_created_by := j_CreatedBy j;
     jr_created_at := now;
     jr_updated_at := now;
     jr_completed_at := None;
     jr_failed_at := None;
     jr_cancelled_at := None;
     jr_tenant_id := j_TenantID j;
     jr_idempotency_key := j_IdempotencyKey j;
     jr_request_hash := j_RequestHash j;
     jr_source_dead_letter_id := None |}.

(** [INSERT INTO jobs ... RETURNING ...].  The error of this statement is
    the one [Create] inspects, so it leaves the transaction marked with
    [insert_mark]. *)
Definition insert_mark (err : error) : error := Wrapped "insert" err.

Definition tx_insert_job (mark : error -> error) (row : Time -> job_row) : Tx Job :=
  fun e now s =>
    match tx_exec (fun now d => match insert_jobs (row now) d with
                                | Ok d' => Ok (d', scanJob (row now))
                                | Err err => Err err
                                end) e now s with
    | (Err err, s') => (Err (mark err), s')
    | ok => ok
    end.

Definition create_body (j : Job) : Tx Job :=
  inserted ← tx_insert_job insert_mark (job_insert_row j);
  insertJobEvent inserted "job.created" "scheduler-api"
    [("status", JStr (status_string (j_Status inserted)));
     ("run_at", JTime (j_RunAt inserted));
     ("priority", JInt (j_Priority inserted))];;
  mret inserted.

Definition getByIdempotencyKey (tenantID : UUID) (key : string) : M Job :=
  pool_query (fun rank now d =>
    first_row (scanJob <$> order_by (fun r => [rank (jr_id r)])
      (select_where (fun r => bool_decide (jr_tenant_id r = tenantID) &&
                              bool_decide (jr_idempotency_key r = Some key)) (jobs d)))).

(** [existing.RequestHash == nil || j.RequestHash == nil || *a != *b]. *)
Definition same_hash (a b : option string) : bool :=
  match a, b with
  | Some x, Some y => bool_decide (x = y)
  | _, _ => false
  end.

(** The duplicate-key branch of [Create]. *)
Definition resolve_duplicate (j : Job) (key : string) : M Job :=
  existing ← getByIdempotencyKey (j_TenantID j) key;
  if same_hash (j_RequestHash existing) (j_RequestHash j)
  then mret existing else fail ErrIdempotency.

Definition Create (j : Job) : M Job :=
  r ← try (with_tx (create_body j));
  match r with
  | Ok inserted => mret inserted
  | Err (Wrapped "insert" err) =>
      match as_PgError err, j_IdempotencyKey j with
      | Some "23505", Some key => resolve_duplicate j key
      | _, _ => fail err
      end
  | Err err => fail err
  end.

(** ** Reads *)

(** [($2 = '' OR status = $2) AND ...]. *)
Definition list_matches (tenantID : UUID) (f : ListFilter) (r : job_row) : bool :=
  bool_decide (jr_tenant_id r = tenantID) &&
  (bool_decide (lf_Status f = "") ||
   bool_decide (status_string (jr_status r) = lf_Status f)) &&
  (bool_decide (lf_JobType f = "") || bool_decide (jr_job_type r = lf_JobType f)) &&
  match lf_CreatedAfter f with None => true | Some t => t <=? jr_created_at r end &&
  match lf_CreatedBefore f with None => true | Some t => jr_created_at r <=? t end.

(** The text spliced into [ORDER BY]: the name of a column that is not null
    and a number, a time or the id, in any case, and a direction, which may
    be left out.  What else SQL accepts there (columns of text or with
    nulls, expressions, NULLS FIRST) is outside the model and an error in
    it; [Service.List] lets only created_at, run_at and priority with asc
    and desc through. *)
Definition sort_column (sort : string) : option (job_row -> Z) :=
  (list_to_map [("created_at", jr_created_at); ("updated_at", jr_updated_at);
                ("run_at", jr_run_at); ("priority", jr_priority);
                ("retry_count", jr_retry_count); ("max_retries", jr_max_retries);
                ("retry_backoff_seconds", jr_retry_backoff_seconds);
                ("timeout_seconds", jr_timeout_seconds);
                ("id", fun r => Z.of_N (jr_id r))] : gmap string (job_row -> Z))
    !! ToLower sort.

Definition sort_direction (order : string) : option Z :=
  let order := ToLower order in
  if bool_decide (order = "asc") || bool_decide (order = "") then Some 1
  else if bool_decide (order = "desc") then Some (-1)
  else None.

Definition list_key (column : job_row -> Z) (dir : Z) (r : job_row) : list Z :=
  [dir * column r; dir * Z.of_N (jr_id r)].

Definition List (tenantID : UUID) (filter : ListFilter) : M Page :=
  let page := normalizePage (lf_Page filter) in
  let pageSize := normalizePageSize (lf_PageSize filter) in
  let offset := page_offset page pageSize in
  total ← pool_query (fun _ now d =>
    Ok (Z.of_nat (length (select_where (list_matches tenantID filter) (jobs d)))));
  items ← pool_query (fun _ now d =>
    match sort_column (lf_Sort filter), sort_direction (lf_Order filter) with
    | Some column, Some dir =>
        if offset <? 0 then Err (PgError "2201X")
        else Ok (scanJobs (limit_offset pageSize offset
                   (order_by (list_key column dir)
                      (select_where (list_matches tenantID filter) (jobs d)))))
    | _, _ => Err (PgError "42601")
    end);
  mret {| pg_Items := items; pg_Page := page; pg_PageSize := pageSize;
          pg_Total := total |}.

Definition GetByID (tenantID id : UUID) : M Job :=
  r ← try (pool_query (fun rank now d =>
        first_row (scanJob <$> select_where (fun r =>
          bool_decide (jr_tenant_id r = tenantID) && bool_decide (jr_id r = id)) (jobs d))));
  match r with
  | Ok j => mret j
  | Err err => if errors_Is err ErrNoRows then fail ErrNotFound else fail err
  end.

Definition ListAttempts (tenantID jobID : UUID) : M (list Attempt) :=
  pool_query (fun rank now d =>
    Ok (scanAttempt <$> order_by (fun r => [ar_attempt_number r; rank (ar_id r)])
          (select_where (fun r => bool_decide (ar_tenant_id r = tenantID) &&
                                  bool_decide (ar_job_id r = jobID)) (job_attempts d)))).

Definition ListEvents (tenantID jobID : UUID) : M (list Event) :=
  pool_query (fun _ now d =>
    Ok (scanEvent <$> order_by (fun r => [vr_created_at r; Z.of_N (vr_id r)])
          (select_where (fun r => bool_decide (vr_tenant_id r = tenantID) &&
                                  bool_decide (vr_job_id r = jobID)) (job_events d)))).

Definition ListDeadLetters (tenantID : UUID) (page pageSize : Z) : M (list DeadLetterJob) :=
  let page := normalizePage page in
  let pageSize := normalizePageSize pageSize in
  let offset := page_offset page pageSize in
  pool_query (fun _ now d =>
    if offset <? 0 then Err (PgError "2201X")
    else Ok (limit_offset pageSize offset
               (order_by (fun r => [- dl_CreatedAt r; - Z.of_N (dl_ID r)])
                  (select_where (fun r => bool_decide (dl_TenantID r = tenantID))
                     (dead_letter_jobs d))))).

(** ** Claiming *)

Definition claimable_status (s : Status) : bool :=
  bool_decide (s ∈ [StatusPending; StatusScheduled; StatusRetryScheduled]).

(** The [WHERE] clause of the claim; [SKIP LOCKED] drops locked rows. *)
Definition claimable (locked : UUID -> bool) (now : Time) (r : job_row) : bool :=
  claimable_status (jr_status r) && (jr_run_at r <=? now) &&
  match jr_locked_until r with None => true | Some t => t <? now end &&
  negb (locked (jr_id r)).

(** [ORDER BY priority DESC, run_at ASC, created_at ASC, id ASC]. *)
Definition claim_key (r : job_row) : list Z :=
  [- jr_priority r; jr_run_at r; jr_created_at r; Z.of_N (jr_id r)].

Definition select_due (batchSize : Z) (locked : UUID -> bool) (now : Time) (d : Db)
    : list Job :=
  scanJobs (limit_offset batchSize 0
    (order_by claim_key (select_where (claimable locked now) (jobs d)))).

(** [SET status='RUNNING', locked_by=$2, locked_until=now()+$3*interval '1 second']. *)
Definition set_claimed (workerID : string) (ttlSeconds : Z) (now : Time) (r : job_row)
    : job_row :=
  r <| jr_status := StatusRunning |>
    <| jr_locked_by := Some workerID |>
    <| jr_locked_until := Some (now + ttlSeconds * Second) |>
    <| jr_updated_at := now |>.

Definition new_attempt_row (id jobID tenantID : UUID) (workerID : string)
    (attemptNumber : Z) (now : Time) : attempt_row :=
  {| ar_id := id;
     ar_job_id := jobID;
     ar_tenant_id := tenantID;
     ar_worker_id := workerID;
     ar_attempt_number := attemptNumber;
     ar_status := AttemptRunning;
     ar_started_at := now;
     ar_completed_at := None;
     ar_failed_at := None;
     ar_error_message := None;
     ar_execution_duration_ms := None;
     ar_created_at := now;
     ar_result := None;
     ar_error_code := None;
     ar_retryable := None |}.

(** One iteration of the claim loop. *)
Definition claim_one (workerID : string) (lockTTL : Duration) (j : Job) : Tx Job :=
  tx_update_jobs (fun k _ => bool_decide (k = j_ID j))
    (set_claimed workerID (duration_seconds lockTTL));;
  clock ← tx_time_Now;
  attemptID ← tx_uuid_New;
  let j := j <| j_Status := StatusRunning |>
             <| j_LockedBy := Some workerID |>
             <| j_LockedUntil := Some (time_add clock lockTTL) |>
             <| j_AttemptNumber := int_add (j_RetryCount j) 1 |>
             <| j_ActiveAttemptID := attemptID |> in
  tx_insert (fun now d => insert_job_attempts
    (new_attempt_row attemptID (j_ID j) (j_TenantID j) workerID (j_AttemptNumber j) now) d);;
  insertJobEvent j "job.started" "worker"
    [("worker_id", JStr workerID); ("attempt_number", JInt (j_AttemptNumber j))];;
  mret j.

Definition claim_body (workerID : string) (batchSize : Z) (lockTTL : Duration)
    : Tx (list Job) :=
  if batchSize <? 0 then tx_fail (PgError "2201W") else
  items ← tx_query (fun locked _ now d => select_due batchSize locked now d);
  tx_each (claim_one workerID lockTTL) items.

Definition ClaimDueJobs (workerID : string) (batchSize : Z) (lockTTL : Duration)
    : M (list Job) :=
  with_tx (claim_body workerID batchSize lockTTL).

(** ** Finalising an execution *)

Definition set_succeeded (now : Time) (r : job_row) : job_row :=
  r <| jr_status := StatusSucceeded |>
    <| jr_completed_at := Some now |>
    <| jr_locked_by := None |>
    <| jr_locked_until := None |>
    <| jr_updated_at := now |>.

Definition set_attempt_succeeded (ms : Z) (res : option string) (now : Time)
    (a : attempt_row) : attempt_row :=
  a <| ar_status := AttemptSucceeded |>
    <| ar_completed_at := Some now |>
    <| ar_execution_duration_ms := Some ms |>
    <| ar_result := res |>.

(** [WHERE id=$1 AND status='RUNNING'] on [job_attempts]. *)
Definition running_attempt (attemptID : UUID) (k : UUID) (a : attempt_row) : bool :=
  bool_decide (k = attemptID) && bool_decide (ar_status a = AttemptRunning).

Definition complete_body (j : Job) (workerID : string) (duration : Duration)
    (res : string) : Tx unit :=
  n ← tx_update_jobs (fun k r =>
        owned_running (j_ID j) workerID k r &&
        bool_decide (jr_tenant_id r = j_TenantID j)) set_succeeded;
  require_rows n ErrConflict;;
  n ← tx_update_attempts (running_attempt (j_ActiveAttemptID j))
        (set_attempt_succeeded (duration_milliseconds duration) (nullableJSON res));
  require_rows n ErrConflict;;
  insertJobEvent j "job.completed" "worker"
    [("worker_id", JStr workerID);
     ("execution_duration_ms", JInt (duration_milliseconds duration))].

Definition CompleteExecution (j : Job) (workerID : string) (duration : Duration)
    (res : string) : M unit :=
  with_tx (complete_body j workerID duration res).

Definition set_attempt_failed (o : ExecutionResult) (ms : Z) (now : Time)
    (a : attempt_row) : attempt_row :=
  a <| ar_status := AttemptFailed |>
    <| ar_failed_at := Some now |>
    <| ar_error_message := Some (er_Message o) |>
    <| ar_error_code := Some (er_ErrorCode o) |>
    <| ar_retryable := Some (er_Retryable o) |>
    <| ar_execution_duration_ms := Some ms |>
    <| ar_result := nullableJSON (er_Metadata o) |>.

(** [SET status='DEAD_LETTERED', retry_count=..., last_error=..., ...]. *)
Definition set_dead_lettered (retryCount : Z) (message : string) (now : Time)
    (r : job_row) : job_row :=
  r <| jr_status := StatusDeadLettered |>
    <| jr_retry_count := retryCount |>
    <| jr_last_error := Some message |>
    <| jr_failed_at := Some now |>
    <| jr_locked_by := None |>
    <| jr_locked_until := None |>
    <| jr_updated_at := now |>.

(** [SET status='RETRY_SCHEDULED', retry_count=..., run_at=..., ...]. *)
Definition set_retry (retryCount : Z) (runAt : Time) (message : string) (now : Time)
    (r : job_row) : job_row :=
  r <| jr_status := StatusRetryScheduled |>
    <| jr_retry_count := retryCount |>
    <| jr_run_at := runAt |>
    <| jr_last_error := Some message |>
    <| jr_failed_at := Some now |>
    <| jr_locked_by := None |>
    <| jr_locked_until := None |>
    <| jr_updated_at := now |>.

Definition fail_body (j : Job) (workerID : string) (duration : Duration)
    (o : ExecutionResult) (nextStatus : Status) (nextRetryCount : Z) (nextRunAt : Time)
    : Tx unit :=
  n ← tx_update_attempts (running_attempt (j_ActiveAttemptID j))
        (set_attempt_failed o (duration_milliseconds duration));
  require_rows n ErrConflict;;
  insertJobEvent j "job.failed" "worker"
    [("worker_id", JStr workerID); ("attempt_number", JInt (j_AttemptNumber j));
     ("error", JStr (er_Message o)); ("error_code", JStr (er_ErrorCode o));
     ("retryable", JBool (er_Retryable o))];;
  tx_lift (int4_params [nextRetryCount]);;
  if bool_decide (nextStatus = StatusDeadLettered)
  then
    n ← tx_update_jobs (owned_running (j_ID j) workerID)
          (set_dead_lettered nextRetryCount (er_Message o));
    require_rows n ErrConflict;;
    insert_dead_letter (j_TenantID j) j (er_Message o) nextRetryCount;;
    insertJobEvent j "job.dead_lettered" "worker"
      [("retry_count", JInt nextRetryCount); ("final_error", JStr (er_Message o))]
  else
    n ← tx_update_jobs (owned_running (j_ID j) workerID)
          (set_retry nextRetryCount nextRunAt (er_Message o));
    require_rows n ErrConflict;;
    insertJobEvent j "job.retry_scheduled" "worker"
      [("retry_count", JInt nextRetryCount); ("next_run_at", JTime nextRunAt)].

Definition FailExecution (j : Job) (workerID : string) (duration : Duration)
    (o : ExecutionResult) (nextStatus : Status) (nextRetryCount : Z) (nextRunAt : Time)
    : M unit :=
  with_tx (fail_body j workerID duration o nextStatus nextRetryCount nextRunAt).

(** ** Leases *)

Definition set_extended (ttlSeconds : Z) (now : Time) (r : job_row) : job_row :=
  r <| jr_locked_until := Some (now + ttlSeconds * Second) |>
    <| jr_updated_at := now |>.

Definition ExtendLease (jobID : UUID) (workerID : string) (ttl : Duration) : M bool :=
  n ← pool_update_jobs (owned_running jobID workerID)
        (set_extended (duration_seconds ttl));
  mret (bool_decide (n = 1%nat)).

Definition set_released (status : Status) (now : Time) (r : job_row) : job_row :=
  r <| jr_status := status |>
    <| jr_locked_by := None |>
    <| jr_locked_until := None |>
    <| jr_updated_at := now |>.

Definition ReleaseClaim (jobID : UUID) (workerID : string) (status : Status) : M unit :=
  n ← pool_update_jobs (owned_running jobID workerID) (set_released status);
  if bool_decide (n = 0%nat) then fail ErrConflict else mret tt.

(** ** Operator transitions *)

Definition set_transition (to : Status) (now : Time) (r : job_row) : job_row :=
  r <| jr_status := to |>
    <| jr_updated_at := now |>
    <| jr_cancelled_at := if bool_decide (to = StatusCancelled) then Some now
                          else jr_cancelled_at r |>
    <| jr_locked_by := None |>
    <| jr_locked_until := None |>.

Definition set_attempt_cancelled (now : Time) (a : attempt_row) : attempt_row :=
  a <| ar_status := AttemptCancelled |>
    <| ar_failed_at := Some now |>
    <| ar_error_message := Some "cancelled by operator" |>
    <| ar_error_code := Some "CANCELLED" |>
    <| ar_retryable := Some false |>.

(** [Job{ID: id, TenantID: tenantID}]: every other field is zero. *)
Definition job_ref (id tenantID : UUID) : Job :=
  {| j_ID := id; j_TenantID := tenantID; j_Name := ""; j_JobType := "";
     j_Payload := ""; j_Status := StatusPending; j_Priority := 0; j_RunAt := zero_time;
     j_LockedUntil := None; j_LockedBy := None; j_RetryCount := 0; j_MaxRetries := 0;
     j_RetryBackoffSeconds := 0; j_TimeoutSeconds := 0; j_LastError := None;
     j_CreatedBy := None; j_CreatedAt := zero_time; j_UpdatedAt := zero_time;
     j_CompletedAt := None; j_FailedAt := None; j_CancelledAt := None;
     j_IdempotencyKey := None; j_RequestHash := None; j_ActiveAttemptID := uuid_Nil;
     j_AttemptNumber := 0 |}.

(** [WHERE job_id=$1 AND status='RUNNING'] on [job_attempts]. *)
Definition running_attempt_of (jobID : UUID) (_ : UUID) (a : attempt_row) : bool :=
  bool_decide (ar_job_id a = jobID) && bool_decide (ar_status a = AttemptRunning).

Definition transition_body (tenantID id : UUID) (from : list Status) (to : Status) : Tx unit :=
  n ← tx_update_jobs (fun k r =>
        bool_decide (jr_tenant_id r = tenantID) && bool_decide (k = id) &&
        bool_decide (jr_status r ∈ from)) (set_transition to);
  require_rows n ErrInvalidTransition;;
  (if bool_decide (to = StatusCancelled)
   then tx_update_attempts (running_attempt_of id) set_attempt_cancelled;; mret tt
   else mret tt);;
  insertJobEvent (job_ref id tenantID) ("job." +:+ ToLower (status_string to))
    "scheduler-api" [("status", JStr (status_string to))].

Definition TransitionJob (tenantID id : UUID) (from : list Status) (to : Status) : M unit :=
  with_tx (transition_body tenantID id from to).

(** ** Recovery of expired leases *)

Definition expired (locked : UUID -> bool) (now : Time) (r : job_row) : bool :=
  bool_decide (jr_status r = StatusRunning) &&
  match jr_locked_until r with None => false | Some t => t <? now end &&
  negb (locked (jr_id r)).

Definition set_attempt_expired (reason : string) (now : Time) (a : attempt_row) : attempt_row :=
  a <| ar_status := AttemptFailed |>
    <| ar_failed_at := Some now |>
    <| ar_error_message := Some reason |>
    <| ar_error_code := Some "LEASE_EXPIRED" |>
    <| ar_retryable := Some true |>.

(** [WHERE id=$1 AND status='RUNNING'] on [jobs]. *)
Definition running_job (id : UUID) (k : UUID) (r : job_row) : bool :=
  bool_decide (k = id) && bool_decide (jr_status r = StatusRunning).

(** One iteration of the recovery loop. *)
Definition recover_one (reason : string) (j : Job) : Tx unit :=
  tx_update_attempts (running_attempt_of (j_ID j)) (set_attempt_expired reason);;
  clock ← tx_time_Now;
  let decision := DecideFailure clock (j_RetryCount j) (j_MaxRetries j)
                    (j_RetryBackoffSeconds j) in
  tx_lift (int4_params [fd_NextRetryCount decision]);;
  if bool_decide (fd_Status decision = StatusDeadLettered)
  then
    tx_update_jobs (running_job (j_ID j))
      (set_dead_lettered (fd_NextRetryCount decision) reason);;
    insert_dead_letter (j_TenantID j) j reason (fd_NextRetryCount decision);;
    insertJobEvent j "job.dead_lettered" "recovery"
      [("reason", JStr reason); ("retry_count", JInt (fd_NextRetryCount decision))]
  else
    tx_update_jobs (running_job (j_ID j))
      (set_retry (fd_NextRetryCount decision) (fd_NextRunAt decision) reason);;
    insertJobEvent j "job.retry_scheduled" "recovery"
      [("reason", JStr reason); ("retry_count", JInt (fd_NextRetryCount decision));
       ("next_run_at", JTime (fd_NextRunAt decision))].

Definition select_expired (locked : UUID -> bool) (rank : UUID -> Z) (now : Time) (d : Db)
    : list Job :=
  scanJobs (order_by (fun r => [rank (jr_id r)])
    (select_where (expired locked now) (jobs d))).

Definition recover_body (reason : string) : Tx Z :=
  items ← tx_query select_expired;
  tx_each (recover_one reason) items;;
  mret (Z.of_nat (length items)).

Definition RecoverExpiredRunningJobs (reason : string) : M Z :=
  with_tx (recover_body reason).

(** ** Requeueing a dead letter *)

Definition requeue_row (id tenantID deadLetterID : UUID) (dl : DeadLetterJob)
    (status : Status) (runAt : Time) (now : Time) : job_row :=
  {| jr_id := id;
     jr_name := dl_Name dl;
     jr_job_type := dl_JobType dl;
     jr_payload := dl_Payload dl;
     jr_status := status;
     jr_priority := 5;
     jr_run_at := runAt;
     jr_locked_until := None;
     jr_locked_by := None;
     jr_retry_count := 0;
     jr_max_retries := 3;
     jr_retry_backoff_seconds := 30;
     jr_timeout_seconds := 300;
     jr_last_error := None;
     jr_created_by := None;
     jr_created_at := now;
     jr_updated_at := now;
     jr_completed_at := None;
     jr_failed_at := None;
     jr_cancelled_at := None;
     jr_tenant_id := tenantID;
     jr_idempotency_key := None;
     jr_request_hash := None;
     jr_source_dead_letter_id := Some deadLetterID |}.

Definition requeue_body (tenantID deadLetterID : UUID) (runAt : Time) : Tx Job :=
  found ← tx_query (fun _ _ now d =>
    select_where (fun dl => bool_decide (dl_TenantID dl = tenantID) &&
                            bool_decide (dl_ID dl = deadLetterID) &&
                            bool_decide (dl_RequeuedAt dl = None)) (dead_letter_jobs d));
  match found with
  | [] => tx_fail ErrNotFound
  | dl :: _ =>
      newID ← tx_uuid_New;
      clock ← tx_time_Now;
      inserted ← tx_insert_job id
        (requeue_row newID tenantID deadLetterID dl (initialStatus runAt clock) runAt);
      tx_exec (fun now d =>
        let '(t, n) := update_where (fun k _ => bool_decide (k = deadLetterID))
          (fun dl => dl <| dl_RequeuedAt := Some now |>
                        <| dl_RequeuedJobID := Some (j_ID inserted) |>)
          (dead_letter_jobs d) in
        Ok (d <| dead_letter_jobs := t |>, n));;
      insertJobEvent inserted "job.requeued" "scheduler-api"
        [("source_dead_letter_id", JUUID deadLetterID)];;
      mret inserted
  end.

Definition RequeueDeadLetter (tenantID deadLetterID : UUID) (runAt : Time) : M Job :=
  with_tx (requeue_body tenantID deadLetterID runAt).

(** ** Compatibility methods *)

Definition CreateAttempt (jobID : UUID) (workerID : string) (attemptNumber : Z) : M Attempt :=
  id ← uuid_New;
  pool_exec (fun now d =>
    match jobs d !! jobID with
    | None => Err ErrNoRows
    | Some r =>
        let row := new_attempt_row id jobID (jr_tenant_id r) workerID attemptNumber now in
        match insert_job_attempts row d with
        | Ok d' => Ok (d', scanAttempt row)
        | Err err => Err err
        end
    end).

Definition CompleteAttempt (attemptID : UUID) (duration : Duration) : M unit :=
  pool_update_attempts (fun k _ => bool_decide (k = attemptID)) (fun now a =>
    a <| ar_status := AttemptSucceeded |>
      <| ar_completed_at := Some now |>
      <| ar_execution_duration_ms := Some (duration_milliseconds duration) |>);;
  mret tt.

Definition FailAttempt (attemptID : UUID) (duration : Duration) (message : string) : M unit :=
  pool_update_attempts (fun k _ => bool_decide (k = attemptID)) (fun now a =>
    a <| ar_status := AttemptFailed |>
      <| ar_failed_at := Some now |>
      <| ar_error_message := Some message |>
      <| ar_execution_duration_ms := Some (duration_milliseconds duration) |>);;
  mret tt.

Definition MarkSucceeded (jobID : UUID) : M unit :=
  pool_update_jobs (fun k _ => bool_decide (k = jobID)) set_succeeded;;
  mret tt.

Definition MarkSucceededByWorker (jobID : UUID) (workerID : string) : M unit :=
  n ← pool_update_jobs (owned_running jobID workerID) set_succeeded;
  if bool_decide (n = 0%nat) then fail ErrConflict else mret tt.

(** [SET retry_count=retry_count+1]: [22003] when the sum leaves [INT]. *)
Definition MarkFailedForRetry (j : Job) (message : string) (nextRunAt : Time) : M unit :=
  pool_exec (fun now d =>
    let hit := fun (k : UUID) (r : job_row) => bool_decide (k = j_ID j) in
    if negb (bool_decide (select_where (fun r => hit (jr_id r) r &&
               negb (int4_ok (jr_retry_count r + 1))) (jobs d) = []))
    then Err (PgError "22003")
    else
      let '(t, n) := update_where hit (fun r =>
        set_retry (jr_retry_count r + 1) nextRunAt message now r) (jobs d) in
      Ok (d <| jobs := t |>, n));;
  mret tt.

Definition MarkFailedForRetryByWorker (j : Job) (workerID message : string)
    (nextRetryCount : Z) (nextRunAt : Time) : M unit :=
  lift_result (int4_params [nextRetryCount]);;
  n ← pool_update_jobs (owned_running (j_ID j) workerID)
        (set_retry nextRetryCount nextRunAt message);
  if bool_decide (n = 0%nat) then fail ErrConflict else mret tt.

Definition MoveToDeadLetter (j : Job) (message : string) : M unit :=
  with_tx (
    tx_update_jobs (fun k _ => bool_decide (k = j_ID j)) (fun now r =>
      r <| jr_status := StatusDeadLettered |>
        <| jr_last_error := Some message |>
        <| jr_failed_at := Some now |>
        <| jr_locked_by := None |>
        <| jr_locked_until := None |>
        <| jr_updated_at := now |>);;
    insert_dead_letter DefaultTenantID j message (j_RetryCount j)).

Definition MoveToDeadLetterByWorker (j : Job) (workerID message : string)
    (finalRetryCount : Z) : M unit :=
  with_tx (
    tx_lift (int4_params [finalRetryCount]);;
    n ← tx_update_jobs (owned_running (j_ID j) workerID)
          (set_dead_lettered finalRetryCount message);
    require_rows n ErrConflict;;
    insert_dead_letter DefaultTenantID j message finalRetryCount).

(** [fmt.Errorf("%s: %w", action, err)]. *)
Definition repositoryError (action : string) (err : option error) : option error :=
  match err with
  | None => None
  | Some e => Some (Wrapped (action +:+ ": " +:+ error_text e) e)
  end.
