(* ===== verification/RepositoryFacts.v ===== *)
(** * What the repository's transactions commit

    One lemma per transaction body: from a run that reaches its end, the
    rows it found, the guards they satisfied and the database it leaves. *)

From S2P Require Import Prelude GoRuntime Engine Sql Schema Effects Json Dto Repository.

Local Open Scope Z_scope.
Local Open Scope go_scope.

(** ** Statements *)

Lemma tx_update_jobs_ok P f e now d n c s' :
  tx_update_jobs P f e now (d, n) = (Ok c, s') ->
  c = (update_where P (f now) (jobs d)).2 /\
  s' = (d <| jobs := (update_where P (f now) (jobs d)).1 |>, S n).
Proof.
  unfold tx_update_jobs. intros H. apply tx_exec_ok in H as [_ (d' & H & ->)].
  destruct (update_where P (f now) (jobs d)). by simplify_eq.
Qed.

Lemma tx_update_attempts_ok P f e now d n c s' :
  tx_update_attempts P f e now (d, n) = (Ok c, s') ->
  c = (update_where P (f now) (job_attempts d)).2 /\
  s' = (d <| job_attempts := (update_where P (f now) (job_attempts d)).1 |>, S n).
Proof.
  unfold tx_update_attempts. intros H. apply tx_exec_ok in H as [_ (d' & H & ->)].
  destruct (update_where P (f now) (job_attempts d)). by simplify_eq.
Qed.

Lemma tx_insert_ok f e now d n u s' :
  tx_insert f e now (d, n) = (Ok u, s') -> exists d', f now d = Ok d' /\ s' = (d', S n).
Proof.
  unfold tx_insert. intros H. apply tx_exec_ok in H as [_ (d' & H & ->)].
  destruct (f now d); simplify_eq. eauto.
Qed.

Lemma require_rows_ok c err e now s u s' :
  require_rows c err e now s = (Ok u, s') -> c <> 0%nat /\ s' = s.
Proof. destruct c; simpl; [discriminate|]. intros H. by apply tx_ret_ok in H as [_ ->]. Qed.

Lemma insertJobEvent_ok j ty src p e now d n u s' :
  insertJobEvent j ty src p e now (d, n) = (Ok u, s') ->
  exists id n', job_events d !! id = None /\ has_tenant d (j_TenantID j) = true /\
    s' = (d <| job_events := <[id := new_event_row id j ty src p now]> (job_events d) |>, n').
Proof.
  unfold insertJobEvent. intros H. tx_inv H. apply tx_insert_ok in H as (d' & H & ->).
  unfold json_marshal in Htx. destruct (forallb _ p); [|discriminate]. simplify_eq.
  apply insert_job_events_ok in H as (H1 & -> & H2). simpl in *. eauto 10.
Qed.

Lemma insert_dead_letter_ok t j m rc e now d n u s' :
  insert_dead_letter t j m rc e now (d, n) = (Ok u, s') ->
  exists id n', dead_letter_jobs d !! id = None /\ has_tenant d t = true /\
    int4_ok rc = true /\
    s' = (d <| dead_letter_jobs :=
               <[id := new_dead_letter_row id t j m rc now]> (dead_letter_jobs d) |>, n').
Proof.
  unfold insert_dead_letter. intros H. tx_inv H. apply tx_insert_ok in H as (d' & H & ->).
  apply insert_dead_letter_jobs_ok in H as (H1 & -> & H2 & H3). simpl in *. eauto 10.
Qed.

Lemma tx_insert_job_ok mark row e now d n j s' :
  tx_insert_job mark row e now (d, n) = (Ok j, s') ->
  exists d', insert_jobs (row now) d = Ok d' /\ j = scanJob (row now) /\ s' = (d', S n).
Proof.
  unfold tx_insert_job. destruct (tx_exec _ e now (d, n)) as [[j'|err] s1] eqn:E;
    [|discriminate].
  intros H. simplify_eq. apply tx_exec_ok in E as [_ (d' & H & ->)].
  destruct (insert_jobs (row now) d); simplify_eq. eauto.
Qed.

Lemma first_row_in {A} (l : list A) x : first_row l = Ok x -> x ∈ l.
Proof. destruct l; intros H; simplify_eq/=. left. Qed.

Lemma int4_params_ok z u : int4_params [z] = Ok u -> int4_ok z = true.
Proof. unfold int4_params. simpl. by destruct (int4_ok z). Qed.

(** Step through a transaction body built from the helpers above. *)
Ltac repo_inv H :=
  tx_inv H;
  repeat match goal with
  | H1 : tx_update_jobs _ _ _ _ _ = (Ok _, _) |- _ =>
      apply tx_update_jobs_ok in H1 as [? ?]; simplify_eq
  | H1 : tx_update_attempts _ _ _ _ _ = (Ok _, _) |- _ =>
      apply tx_update_attempts_ok in H1 as [? ?]; simplify_eq
  | H1 : tx_insert _ _ _ _ = (Ok _, _) |- _ =>
      let d := fresh "d" in apply tx_insert_ok in H1 as (d & H1 & ?); simplify_eq
  | H1 : require_rows _ _ _ _ _ = (Ok _, _) |- _ =>
      apply require_rows_ok in H1 as [? ?]; simplify_eq
  | H1 : insertJobEvent _ _ _ _ _ _ _ = (Ok _, _) |- _ =>
      let id := fresh "evid" in
      let n := fresh "n" in
      let Hf := fresh "Hevfresh" in
      apply insertJobEvent_ok in H1 as (id & n & Hf & ? & ?); simplify_eq
  | H1 : insert_dead_letter _ _ _ _ _ _ _ = (Ok _, _) |- _ =>
      let id := fresh "dlid" in
      let n := fresh "n" in
      let Hf := fresh "Hdlfresh" in
      apply insert_dead_letter_ok in H1 as (id & n & Hf & ? & ? & ?); simplify_eq
  | H1 : int4_params _ = Ok _ |- _ => apply int4_params_ok in H1
  end.

(** A non-zero row count of an update that pins the key names the row. *)
Lemma update_where_pinned {V} (P : UUID -> V -> bool) f (t : gmap UUID V) k :
  (forall k' v', P k' v' = true -> k' = k) ->
  (update_where P f t).2 <> 0%nat ->
  exists v, t !! k = Some v /\ P k v = true /\
            (update_where P f t).1 = <[k := f v]> t.
Proof.
  intros Hpin Hne. destruct (t !! k) as [v|] eqn:Hk.
  - destruct (P k v) eqn:HP.
    + exists v. by rewrite (update_where_key P f t k v).
    + exfalso. apply Hne, update_where_count. intros k' v' Hk'.
      destruct (P k' v') eqn:HP'; [|done]. pose proof (Hpin _ _ HP'). congruence.
  - exfalso. apply Hne, update_where_count. intros k' v' Hk'.
    destruct (P k' v') eqn:HP'; [|done]. pose proof (Hpin _ _ HP'). congruence.
Qed.

Lemma owned_running_pin jobID workerID k (r : job_row) :
  owned_running jobID workerID k r = true -> k = jobID.
Proof. unfold owned_running. intros H. by bool_prop. Qed.

Lemma owned_running_spec jobID workerID k (r : job_row) :
  owned_running jobID workerID k r = true <->
  k = jobID /\ jr_locked_by r = Some workerID /\ jr_status r = StatusRunning.
Proof.
  unfold owned_running. rewrite !andb_true_iff, !bool_decide_eq_true. tauto.
Qed.

Lemma running_attempt_pin id k (a : attempt_row) :
  running_attempt id k a = true -> k = id.
Proof. unfold running_attempt. intros H. by bool_prop. Qed.

Lemma running_attempt_spec id k (a : attempt_row) :
  running_attempt id k a = true <-> k = id /\ ar_status a = AttemptRunning.
Proof. unfold running_attempt. by rewrite andb_true_iff, !bool_decide_eq_true. Qed.

(** ** Bodies *)

(** A finalisation that commits found the job RUNNING under this worker
    and its own attempt RUNNING. *)
Lemma complete_body_ok j w dur res e now d n u d' n' :
  complete_body j w dur res e now (d, n) = (Ok u, (d', n')) ->
  exists r a id,
    jobs d !! j_ID j = Some r /\ jr_locked_by r = Some w /\
    jr_status r = StatusRunning /\ jr_tenant_id r = j_TenantID j /\
    job_attempts d !! j_ActiveAttemptID j = Some a /\ ar_status a = AttemptRunning /\
    job_events d !! id = None /\
    d' = d <| jobs := <[j_ID j := set_succeeded now r]> (jobs d) |>
           <| job_attempts := <[j_ActiveAttemptID j :=
                set_attempt_succeeded (duration_milliseconds dur) (nullableJSON res) now a]>
                (job_attempts d) |>
           <| job_events := <[id := new_event_row id j "job.completed" "worker"
                [("worker_id", JStr w);
                 ("execution_duration_ms", JInt (duration_milliseconds dur))] now]>
                (job_events d) |>.
Proof.
  unfold complete_body. intros H. repo_inv H.
  match goal with H1 : (update_where _ _ (jobs d)).2 <> _ |- _ =>
    apply (update_where_pinned _ _ _ (j_ID j)) in H1 as (r & Hr & HP & Er) end.
  2:{ intros k r Hk. apply andb_true_iff in Hk as [Hk _]. by eapply owned_running_pin. }
  match goal with H1 : (update_where _ _ _).2 <> _ |- _ =>
    apply (update_where_pinned _ _ _ (j_ActiveAttemptID j)) in H1 as (a & Ha & HPa & Ea);
    [|by intros; eapply running_attempt_pin] end.
  apply andb_true_iff in HP as [HP Ht]. apply owned_running_spec in HP as (_ & ? & ?).
  apply running_attempt_spec in HPa as [_ ?]. bool_prop. cbn in *.
  exists r, a, evid. rewrite Er, Ea. split_and!; done.
Qed.

Lemma fail_body_ok j w dur o ns rc ra e now d n u d' n' :
  fail_body j w dur o ns rc ra e now (d, n) = (Ok u, (d', n')) ->
  exists r a id1 id2,
    jobs d !! j_ID j = Some r /\ jr_locked_by r = Some w /\
    jr_status r = StatusRunning /\
    job_attempts d !! j_ActiveAttemptID j = Some a /\ ar_status a = AttemptRunning /\
    int4_ok rc = true /\ job_events d !! id1 = None /\ job_events d !! id2 = None /\
    job_attempts d' = <[j_ActiveAttemptID j :=
      set_attempt_failed o (duration_milliseconds dur) now a]> (job_attempts d) /\
    tenants d' = tenants d /\ api_clients d' = api_clients d /\
    ((ns = StatusDeadLettered /\
      jobs d' = <[j_ID j := set_dead_lettered rc (er_Message o) now r]> (jobs d) /\
      (exists dlid, dead_letter_jobs d !! dlid = None /\
        dead_letter_jobs d' = <[dlid := new_dead_letter_row dlid (j_TenantID j) j
                                 (er_Message o) rc now]> (dead_letter_jobs d)) /\
      (exists p1 p2, job_events d' =
        <[id2 := new_event_row id2 j "job.dead_lettered" "worker" p2 now]>
        (<[id1 := new_event_row id1 j "job.failed" "worker" p1 now]> (job_events d)))) \/
     (ns <> StatusDeadLettered /\
      jobs d' = <[j_ID j := set_retry rc ra (er_Message o) now r]> (jobs d) /\
      dead_letter_jobs d' = dead_letter_jobs d /\
      (exists p1 p2, ("retry_count", JInt rc) ∈ p2 /\ job_events d' =
        <[id2 := new_event_row id2 j "job.retry_scheduled" "worker" p2 now]>
        (<[id1 := new_event_row id1 j "job.failed" "worker" p1 now]> (job_events d))))).
Proof.
  unfold fail_body. intros H. repo_inv H.
  match goal with H1 : (update_where _ _ (job_attempts d)).2 <> _ |- _ =>
    apply (update_where_pinned _ _ _ (j_ActiveAttemptID j)) in H1 as (a & Ha & HPa & Ea);
    [|by intros; eapply running_attempt_pin] end.
  apply running_attempt_spec in HPa as [_ Hrun].
  case_bool_decide as Hns; repo_inv H; cbn in *;
    (match goal with H1 : (update_where _ _ (jobs d)).2 <> _ |- _ =>
       apply (update_where_pinned _ _ _ (j_ID j)) in H1 as (r & Hr & HP & Er);
       [|by intros; eapply owned_running_pin] end);
    apply owned_running_spec in HP as (_ & ? & ?);
    exists r, a, evid, evid0; rewrite Er, Ea;
    match goal with H1 : <[_ := _]> (job_events d) !! _ = None |- _ =>
      apply lookup_insert_None in H1 as [? ?] end;
    split_and!; try done; [left|right]; split_and!; eauto.
  do 2 eexists. split; [|reflexivity]. by left.
Qed.

Lemma transition_body_ok t id from to e now d n u d' n' :
  transition_body t id from to e now (d, n) = (Ok u, (d', n')) ->
  exists r ev,
    jobs d !! id = Some r /\ jr_tenant_id r = t /\ jr_status r ∈ from /\
    job_events d !! ev = None /\
    jobs d' = <[id := set_transition to now r]> (jobs d) /\
    job_attempts d' = (if bool_decide (to = StatusCancelled)
      then (update_where (running_attempt_of id) (set_attempt_cancelled now)
              (job_attempts d)).1
      else job_attempts d) /\
    dead_letter_jobs d' = dead_letter_jobs d /\
    tenants d' = tenants d /\ api_clients d' = api_clients d /\
    job_events d' = <[ev := new_event_row ev (job_ref id t)
      ("job." +:+ ToLower (status_string to)) "scheduler-api"
      [("status", JStr (status_string to))] now]> (job_events d).
Proof.
  unfold transition_body. intros H. repo_inv H.
  match goal with H1 : (update_where _ _ (jobs d)).2 <> _ |- _ =>
    apply (update_where_pinned _ _ _ id) in H1 as (r & Hr & HP & Er) end.
  2:{ intros k v Hk. by bool_prop. }
  bool_prop.
  destruct (bool_decide (to = StatusCancelled)); repo_inv Htx1; cbn in *;
    exists r, evid; rewrite Er; split_and!; done.
Qed.

Lemma create_body_ok j e now d n out d' n' :
  create_body j e now (d, n) = (Ok out, (d', n')) ->
  let r := job_insert_row j now in
  exists ev p,
    out = scanJob r /\ jobs d !! j_ID j = None /\
    has_tenant d (j_TenantID j) = true /\
    idempotency_taken (j_TenantID j) (j_IdempotencyKey j) (jobs d) = false /\
    forallb int4_ok [j_Priority j; j_RetryCount j; j_MaxRetries j;
                     j_RetryBackoffSeconds j; j_TimeoutSeconds j] = true /\
    job_events d !! ev = None /\
    d' = d <| jobs := <[j_ID j := r]> (jobs d) |>
           <| job_events := <[ev := new_event_row ev out "job.created" "scheduler-api"
                                     p now]> (job_events d) |>.
Proof.
  unfold create_body. intros H. tx_inv H.
  apply tx_insert_job_ok in Htx as (dj & Hins & -> & E). simplify_eq.
  apply insert_jobs_ok in Hins as (? & -> & ? & ? & ?). repo_inv Htx0.
  cbn in *. eauto 10.
Qed.

Lemma requeue_body_ok t dlid ra e now d n out d' n' :
  requeue_body t dlid ra e now (d, n) = (Ok out, (d', n')) ->
  exists dl k newID clock ev p,
    let r := requeue_row newID t dlid dl (initialStatus ra clock) ra now in
    dead_letter_jobs d !! k = Some dl /\ dl_ID dl = dlid /\ dl_TenantID dl = t /\
    dl_RequeuedAt dl = None /\ jobs d !! newID = None /\ has_tenant d t = true /\
    job_events d !! ev = None /\ out = scanJob r /\
    jobs d' = <[newID := r]> (jobs d) /\
    job_attempts d' = job_attempts d /\
    dead_letter_jobs d' = (update_where (fun k _ => bool_decide (k = dlid))
      (fun dl => dl <| dl_RequeuedAt := Some now |>
                    <| dl_RequeuedJobID := Some newID |>) (dead_letter_jobs d)).1 /\
    tenants d' = tenants d /\ api_clients d' = api_clients d /\
    job_events d' = <[ev := new_event_row ev out "job.requeued" "scheduler-api" p now]>
                      (job_events d).
Proof.
  unfold requeue_body. intros H. tx_inv H.
  destruct (select_where _ (dead_letter_jobs d)) as [|dl rest] eqn:Esel; [discriminate|].
  assert (Hin : dl ∈ select_where (fun dl => bool_decide (dl_TenantID dl = t) &&
      bool_decide (dl_ID dl = dlid) && bool_decide (dl_RequeuedAt dl = None))
      (dead_letter_jobs d)) by (rewrite Esel; left).
  apply elem_of_select_where in Hin as [HP [k Hk]]. bool_prop.
  tx_inv H.
  apply tx_insert_job_ok in Htx as (dj & Hins & -> & E). simplify_eq.
  apply insert_jobs_ok in Hins as (? & -> & ? & _). cbn in *.
  destruct (update_where _ _ (dead_letter_jobs d)) as [tb c] eqn:Eu. simplify_eq.
  repo_inv Htx0. cbn in *.
  do 6 eexists. rewrite Eu. split_and!; done.
Qed.

(** The in-memory job a claim hands to the worker. *)
Definition claimed_job (w : string) (aid : UUID) (until : Time) (j : Job) : Job :=
  j <| j_Status := StatusRunning |> <| j_LockedBy := Some w |>
    <| j_LockedUntil := Some until |>
    <| j_AttemptNumber := int_add (j_RetryCount j) 1 |>
    <| j_ActiveAttemptID := aid |>.

Lemma claim_one_ok w ttl j e now d n out d' n' :
  claim_one w ttl j e now (d, n) = (Ok out, (d', n')) ->
  exists r aid until ev p,
    jobs d !! j_ID j = Some r /\ out = claimed_job w aid until j /\
    int4_ok (int_add (j_RetryCount j) 1) = true /\
    job_attempts d !! aid = None /\ job_events d !! ev = None /\
    has_tenant d (j_TenantID j) = true /\
    d' = d <| jobs := <[j_ID j := set_claimed w (duration_seconds ttl) now r]> (jobs d) |>
           <| job_attempts := <[aid := new_attempt_row aid (j_ID j) (j_TenantID j) w
                (int_add (j_RetryCount j) 1) now]> (job_attempts d) |>
           <| job_events := <[ev := new_event_row ev out "job.started" "worker" p now]>
                (job_events d) |>.
Proof.
  unfold claim_one. intros H. repo_inv H.
  match goal with H1 : insert_job_attempts _ _ = Ok _ |- _ =>
    apply insert_job_attempts_ok in H1 as (? & -> & Hj & Ht & ?) end.
  repo_inv Htx2. cbn in *.
  destruct (jobs d !! j_ID j) as [r|] eqn:Hr.
  2:{ exfalso. unfold has_job in Hj. apply bool_decide_eq_true in Hj. cbn in Hj.
      rewrite lookup_update_where, Hr in Hj. by destruct Hj. }
  rewrite (update_where_key _ _ _ (j_ID j) r) by
    (first [done | by rewrite bool_decide_eq_true_2 | by intros; bool_prop]).
  do 5 eexists. split_and!; done.
Qed.

Lemma recover_one_ok reason j e now d n u d' n' :
  recover_one reason j e now (d, n) = (Ok u, (d', n')) ->
  exists clock ev,
    let dec := DecideFailure clock (j_RetryCount j) (j_MaxRetries j)
                 (j_RetryBackoffSeconds j) in
    int4_ok (fd_NextRetryCount dec) = true /\ job_events d !! ev = None /\
    job_attempts d' = (update_where (running_attempt_of (j_ID j))
                         (set_attempt_expired reason now) (job_attempts d)).1 /\
    tenants d' = tenants d /\ api_clients d' = api_clients d /\
    ((fd_Status dec = StatusDeadLettered /\
      jobs d' = (update_where (running_job (j_ID j))
        (set_dead_lettered (fd_NextRetryCount dec) reason now) (jobs d)).1 /\
      (exists dlid, dead_letter_jobs d !! dlid = None /\
        dead_letter_jobs d' = <[dlid := new_dead_letter_row dlid (j_TenantID j) j
                    reason (fd_NextRetryCount dec) now]> (dead_letter_jobs d)) /\
      (exists p, job_events d' = <[ev := new_event_row ev j "job.dead_lettered"
                                     "recovery" p now]> (job_events d))) \/
     (fd_Status dec <> StatusDeadLettered /\
      jobs d' = (update_where (running_job (j_ID j))
        (set_retry (fd_NextRetryCount dec) (fd_NextRunAt dec) reason now) (jobs d)).1 /\
      dead_letter_jobs d' = dead_letter_jobs d /\
      (exists p, ("retry_count", JInt (fd_NextRetryCount dec)) ∈ p /\
         job_events d' = <[ev := new_event_row ev j "job.retry_scheduled"
                                     "recovery" p now]> (job_events d)))).
Proof.
  unfold recover_one. intros H. repo_inv H.
  case_bool_decide as Hd; repo_inv H; cbn in *; eexists _, evid; split_and!; try done.
  - left. split_and!; eauto.
  - right. split_and!; eauto. eexists. split; [|reflexivity]. by right; left.
Qed.

(** Induction over a loop of statements: [P pre rest d ys] holds between
    two iterations, [pre] being done with results [ys]. *)
Lemma tx_each_ind {A B} (f : A -> Tx B) (P : list A -> list A -> Db -> list B -> Prop)
    e now :
  (forall pre x l d n y d1 n1 ys, P pre (x :: l) d ys ->
     f x e now (d, n) = (Ok y, (d1, n1)) -> P (pre ++ [x]) l d1 (ys ++ [y])) ->
  forall l pre d n ys out d' n', P pre l d ys ->
    tx_each f l e now (d, n) = (Ok out, (d', n')) -> P (pre ++ l) [] d' (ys ++ out).
Proof.
  intros Hstep. induction l as [|x l IH]; intros pre d n ys out d' n' HP H; cbn in H.
  - tx_inv H. by rewrite !app_nil_r.
  - tx_inv H. rewrite (cons_middle x pre), (app_assoc pre [x]).
    match goal with |- context [ys ++ ?y :: ?l'] =>
      rewrite (cons_middle y ys l'), (app_assoc ys [y]) end.
    eapply IH; eauto.
Qed.

(** [Create] is its transaction, the resolution of a duplicate key, or an
    error. *)
Lemma Create_cases j e w :
  let out := with_tx (create_body j) e w in
  (Create j e w = out /\ exists a, out.1 = Ok a) \/
  (exists key err, j_IdempotencyKey j = Some key /\ out.1 = Err err /\
     Create j e w = resolve_duplicate j key e out.2) \/
  (exists err err', out.1 = Err err /\ Create j e w = (Err err', out.2)).
Proof.
  cbv zeta. unfold Create, mbind, M_bind, try.
  destruct (with_tx (create_body j) e w) as [[a|err] w1]; [left; by eauto|]. cbn [fst snd].
  repeat case_match; right; first [left; by eauto 10 | right; by eauto 10].
Qed.
