(* ===== verification/Invariant.v ===== *)
(** * The database invariant

    [db_ok] says what every committed database satisfies: a job is
    leased exactly while it is RUNNING, its retry count stays within its
    budget, a RUNNING job has a RUNNING attempt of its owner, a job is
    DEAD_LETTERED exactly when it has its one dead-letter row, attempts,
    dead letters and events belong to an existing job of the same tenant,
    and an idempotency key is used once per tenant.  The lemmas here show
    that each transaction body preserves it. *)

From S2P Require Import Prelude GoRuntime Engine Sql Schema Effects Json Dto Repository RepositoryFacts.

Local Open Scope Z_scope.
Local Open Scope go_scope.

(** ** One row of [jobs] *)

Record job_row_ok (r : job_row) : Prop := mk_job_row_ok {
  ok_lock : if bool_decide (jr_status r = StatusRunning)
            then is_Some (jr_locked_by r) /\ is_Some (jr_locked_until r)
            else jr_locked_by r = None /\ jr_locked_until r = None;
  ok_not_failed : jr_status r <> StatusFailed;
  ok_budget : 0 <= jr_retry_count r <= jr_max_retries r + 1;
  ok_live_budget : jr_status r <> StatusDeadLettered ->
                   jr_retry_count r <= jr_max_retries r;
  ok_int4 : jr_max_retries r < 2 ^ 31
}.

(** ** The whole database *)

Record db_ok (d : Db) : Prop := mk_db_ok {
  ok_jobs : forall k r, jobs d !! k = Some r -> jr_id r = k /\ job_row_ok r;
  ok_attempts : forall i a, job_attempts d !! i = Some a ->
    ar_id a = i /\
    exists r, jobs d !! ar_job_id a = Some r /\ jr_tenant_id r = ar_tenant_id a;
  ok_running : forall k r, jobs d !! k = Some r -> jr_status r = StatusRunning ->
    exists i a, job_attempts d !! i = Some a /\ ar_job_id a = k /\
      ar_status a = AttemptRunning /\ jr_locked_by r = Some (ar_worker_id a) /\
      ar_attempt_number a = jr_retry_count r + 1;
  ok_dead : forall i dl, dead_letter_jobs d !! i = Some dl ->
    dl_ID dl = i /\
    exists r, jobs d !! dl_OriginalJobID dl = Some r /\
      jr_status r = StatusDeadLettered /\ jr_tenant_id r = dl_TenantID dl;
  ok_dead_unique : forall i1 i2 dl1 dl2, dead_letter_jobs d !! i1 = Some dl1 ->
    dead_letter_jobs d !! i2 = Some dl2 ->
    dl_OriginalJobID dl1 = dl_OriginalJobID dl2 -> i1 = i2;
  ok_dead_exists : forall k r, jobs d !! k = Some r ->
    jr_status r = StatusDeadLettered ->
    exists i dl, dead_letter_jobs d !! i = Some dl /\ dl_OriginalJobID dl = k;
  ok_events : forall i v, job_events d !! i = Some v ->
    vr_id v = i /\
    exists r, jobs d !! vr_job_id v = Some r /\ jr_tenant_id r = vr_tenant_id v;
  ok_idempotency : forall k1 k2 r1 r2 key, jobs d !! k1 = Some r1 ->
    jobs d !! k2 = Some r2 -> jr_tenant_id r1 = jr_tenant_id r2 ->
    jr_idempotency_key r1 = Some key -> jr_idempotency_key r2 = Some key -> k1 = k2
}.

(** ** In-flight work *)

(** What holds of a job a worker carries from its claim to its
    finalisation, whatever happens to the database in between. *)
Definition in_flight (d : Db) (j : Job) : Prop :=
  exists r a,
    jobs d !! j_ID j = Some r /\ jr_tenant_id r = j_TenantID j /\
    jr_max_retries r = j_MaxRetries j /\ 0 <= j_RetryCount j <= j_MaxRetries j /\
    job_attempts d !! j_ActiveAttemptID j = Some a /\ ar_job_id a = j_ID j.

(** ** How databases evolve *)

Definition same_identity (r r' : job_row) : Prop :=
  jr_id r' = jr_id r /\ jr_tenant_id r' = jr_tenant_id r /\
  jr_idempotency_key r' = jr_idempotency_key r /\ jr_max_retries r' = jr_max_retries r /\
  jr_request_hash r' = jr_request_hash r.

(** An attempt keeps its identity, and once closed its outcome. *)
Definition same_attempt (a a' : attempt_row) : Prop :=
  ar_id a' = ar_id a /\ ar_job_id a' = ar_job_id a /\ ar_tenant_id a' = ar_tenant_id a /\
  (ar_status a <> AttemptRunning -> ar_status a' = ar_status a).

(** A dead letter keeps its tenant, and once requeued never changes. *)
Definition same_dead (dl dl' : DeadLetterJob) : Prop :=
  dl_TenantID dl' = dl_TenantID dl /\ (is_Some (dl_RequeuedAt dl) -> dl' = dl).

(** Rows are never deleted and keep their identity. *)
Record evolves (d d' : Db) : Prop := mk_evolves {
  ev_jobs : forall k r, jobs d !! k = Some r ->
    exists r', jobs d' !! k = Some r' /\ same_identity r r';
  ev_attempts : forall i a, job_attempts d !! i = Some a ->
    exists a', job_attempts d' !! i = Some a' /\ same_attempt a a';
  ev_dead : forall i dl, dead_letter_jobs d !! i = Some dl ->
    exists dl', dead_letter_jobs d' !! i = Some dl' /\ same_dead dl dl'
}.

(** The lifecycle the operations implement.  [FAILED] is no state of it,
    and [SUCCEEDED], [CANCELLED] and [DEAD_LETTERED] have no successor. *)
Inductive life_step : Status -> Status -> Prop :=
| ls_claim_pending : life_step StatusPending StatusRunning
| ls_claim_scheduled : life_step StatusScheduled StatusRunning
| ls_claim_retry : life_step StatusRetryScheduled StatusRunning
| ls_succeed : life_step StatusRunning StatusSucceeded
| ls_retry : life_step StatusRunning StatusRetryScheduled
| ls_dead_letter : life_step StatusRunning StatusDeadLettered
| ls_cancel_pending : life_step StatusPending StatusCancelled
| ls_cancel_scheduled : life_step StatusScheduled StatusCancelled
| ls_cancel_retry : life_step StatusRetryScheduled StatusCancelled
| ls_cancel_running : life_step StatusRunning StatusCancelled
| ls_pause_pending : life_step StatusPending StatusPaused
| ls_pause_scheduled : life_step StatusScheduled StatusPaused
| ls_resume : life_step StatusPaused StatusScheduled.

#[export] Hint Constructors life_step : sched.

(** [jr_status] makes a step of the lifecycle, or the job is new. *)
Definition status_step (d d' : Db) : Prop :=
  (forall k r, jobs d !! k = Some r -> is_Some (jobs d' !! k)) /\
  (forall k r', jobs d' !! k = Some r' ->
     match jobs d !! k with
     | Some r => jr_status r' = jr_status r \/
                 life_step (jr_status r) (jr_status r')
     | None => jr_status r' = StatusPending \/ jr_status r' = StatusScheduled
     end).

(** ** Changing one job row *)

(** The side conditions under which rewriting the row of job [k] from [r]
    to [r'], together with changes of its own attempts, dead letter and
    events, keeps [db_ok]. *)
Record job_change (d d' : Db) (k : UUID) (r r' : job_row) : Prop := mk_job_change {
  jc_old : jobs d !! k = Some r;
  jc_jobs : jobs d' = <[k := r']> (jobs d);
  jc_identity : same_identity r r';
  jc_row : job_row_ok r';
  jc_attempts_old : forall i a, job_attempts d !! i = Some a ->
    exists a', job_attempts d' !! i = Some a' /\ same_attempt a a' /\
      (ar_job_id a <> k -> a' = a);
  jc_attempts_new : forall i a', job_attempts d' !! i = Some a' ->
    job_attempts d !! i = None ->
    ar_id a' = i /\ ar_job_id a' = k /\ ar_tenant_id a' = jr_tenant_id r;
  jc_running : jr_status r' = StatusRunning ->
    exists i a, job_attempts d' !! i = Some a /\ ar_job_id a = k /\
      ar_status a = AttemptRunning /\ jr_locked_by r' = Some (ar_worker_id a) /\
      ar_attempt_number a = jr_retry_count r' + 1;
  jc_dead : jr_status r <> StatusDeadLettered /\
    ((jr_status r' <> StatusDeadLettered /\ dead_letter_jobs d' = dead_letter_jobs d) \/
     (jr_status r' = StatusDeadLettered /\
      exists i dl, dead_letter_jobs d !! i = None /\
        dead_letter_jobs d' = <[i := dl]> (dead_letter_jobs d) /\
        dl_ID dl = i /\ dl_OriginalJobID dl = k /\ dl_TenantID dl = jr_tenant_id r));
  jc_events : forall i v, job_events d' !! i = Some v ->
    job_events d !! i = Some v \/
    (vr_id v = i /\ vr_job_id v = k /\ vr_tenant_id v = jr_tenant_id r)
}.

(** ** Lemmas *)

#[export] Instance same_identity_refl : Reflexive same_identity.
Proof. by intros r. Qed.

#[export] Instance same_attempt_refl : Reflexive same_attempt.
Proof. by intros a. Qed.

#[export] Instance evolves_refl : Reflexive evolves.
Proof. intros d. split; intros ? x ?; exists x; by split. Qed.

#[export] Instance evolves_trans : Transitive evolves.
Proof.
  intros d1 d2 d3 [J1 A1 D1] [J2 A2 D2]. split.
  - intros k r (r' & H1 & S1)%J1. destruct (J2 _ _ H1) as (r'' & H2 & S2).
    exists r''. split; [done|]. unfold same_identity in *. intuition congruence.
  - intros i a (a' & H1 & S1)%A1. destruct (A2 _ _ H1) as (a'' & H2 & S2).
    exists a''. split; [done|]. destruct S1 as (? & ? & ? & C1), S2 as (? & ? & ? & C2).
    split_and!; [congruence..|]. intros Hc. rewrite C2 by (by rewrite C1). by apply C1.
  - intros i dl (dl' & H1 & T1 & S1)%D1. destruct (D2 _ _ H1) as (dl'' & H2 & T2 & S2).
    exists dl''. split; [done|]. split; [congruence|]. intros Hs.
    rewrite S2 by (by rewrite S1). auto.
Qed.

#[export] Instance status_step_refl : Reflexive status_step.
Proof.
  intros d. split; [eauto|]. intros k r' H. rewrite H. by left.
Qed.

Lemma in_flight_evolves d d' j : evolves d d' -> in_flight d j -> in_flight d' j.
Proof.
  intros [EJ EA _] (r & a & Hr & Ht & Hm & Hc & Ha & Hj).
  destruct (EJ _ _ Hr) as (r' & Hr' & _ & Et & _ & Em & _).
  destruct (EA _ _ Ha) as (a' & Ha' & _ & Ej & _ & _).
  exists r', a'. split_and!; congruence || lia.
Qed.

#[export] Hint Resolve in_flight_evolves : sched.

Lemma job_change_evolves d d' k r r' : job_change d d' k r r' -> evolves d d'.
Proof.
  intros C. split.
  - intros k1 r1 H1. rewrite (jc_jobs _ _ _ _ _ C), lookup_insert.
    case_decide as E; subst; [|by exists r1].
    rewrite (jc_old _ _ _ _ _ C) in H1. simplify_eq.
    exists r'. split; [done|]. apply (jc_identity _ _ _ _ _ C).
  - intros i a Ha. destruct (jc_attempts_old _ _ _ _ _ C i a Ha) as (a' & ? & ? & _).
    eauto.
  - intros i dl Hdl. exists dl. split; [|done].
    destruct (jc_dead _ _ _ _ _ C) as [_ [[_ ->]|(_ & i0 & dl0 & Hf & -> & _)]]; [done|].
    rewrite lookup_insert_ne; congruence.
Qed.

Section JobChange.
Context (d d' : Db) (k : UUID) (r r' : job_row).
Context (I : db_ok d) (C : job_change d d' k r r').

Lemma jc_lookup k1 r1 :
  jobs d' !! k1 = Some r1 ->
  (k1 = k /\ r1 = r') \/ (k1 <> k /\ jobs d !! k1 = Some r1).
Proof. rewrite (jc_jobs _ _ _ _ _ C), lookup_insert. case_decide; naive_solver. Qed.

Lemma jc_new_row : jobs d' !! k = Some r' /\ jr_tenant_id r' = jr_tenant_id r.
Proof.
  rewrite (jc_jobs _ _ _ _ _ C), lookup_insert_eq. split; [done|].
  apply (jc_identity _ _ _ _ _ C).
Qed.

Lemma jc_ok_jobs k1 r1 : jobs d' !! k1 = Some r1 -> jr_id r1 = k1 /\ job_row_ok r1.
Proof.
  intros [[-> ->]|[_ H1]]%jc_lookup; [|by apply (ok_jobs _ I)].
  split; [|apply (jc_row _ _ _ _ _ C)].
  destruct (jc_identity _ _ _ _ _ C) as (-> & _).
  by apply (ok_jobs _ I), (jc_old _ _ _ _ _ C).
Qed.

Lemma jc_ok_attempts i a :
  job_attempts d' !! i = Some a ->
  ar_id a = i /\
  exists r1, jobs d' !! ar_job_id a = Some r1 /\ jr_tenant_id r1 = ar_tenant_id a.
Proof.
  intros Ha. destruct (job_attempts d !! i) as [a0|] eqn:E0.
  - destruct (jc_attempts_old _ _ _ _ _ C _ _ E0) as (a' & Ha' & (S1 & S2 & S3 & _) & _).
    simplify_eq. destruct (ok_attempts _ I _ _ E0) as (Hi & r0 & Hr0 & Ht0).
    destruct (ev_jobs _ _ (job_change_evolves _ _ _ _ _ C) _ _ Hr0)
      as (r1 & Hr1 & _ & Et & _).
    split; [congruence|]. exists r1. rewrite S2. split; congruence.
  - destruct (jc_attempts_new _ _ _ _ _ C _ _ Ha E0) as (? & -> & Ht). split; [done|].
    destruct jc_new_row as [? E]. exists r'. split; congruence.
Qed.

Lemma jc_ok_running k1 r1 :
  jobs d' !! k1 = Some r1 -> jr_status r1 = StatusRunning ->
  exists i a, job_attempts d' !! i = Some a /\ ar_job_id a = k1 /\
    ar_status a = AttemptRunning /\ jr_locked_by r1 = Some (ar_worker_id a) /\
    ar_attempt_number a = jr_retry_count r1 + 1.
Proof.
  intros [[-> ->]|[Hne H1]]%jc_lookup Hs; [by apply (jc_running _ _ _ _ _ C)|].
  destruct (ok_running _ I _ _ H1 Hs) as (i & a & Ha & Hja & ? & ? & ?).
  destruct (jc_attempts_old _ _ _ _ _ C _ _ Ha) as (a' & Ha' & _ & Hkeep).
  rewrite Hkeep in Ha' by congruence. eauto 10.
Qed.

(** No dead letter of [d] is about [k]. *)
Lemma jc_dead_free i dl : dead_letter_jobs d !! i = Some dl -> dl_OriginalJobID dl <> k.
Proof.
  intros H Eo. destruct (ok_dead _ I _ _ H) as (_ & r0 & Hr0 & Hs0 & _).
  pose proof (jc_old _ _ _ _ _ C). destruct (jc_dead _ _ _ _ _ C). congruence.
Qed.

Lemma jc_ok_dead i dl :
  dead_letter_jobs d' !! i = Some dl ->
  dl_ID dl = i /\
  exists r1, jobs d' !! dl_OriginalJobID dl = Some r1 /\
    jr_status r1 = StatusDeadLettered /\ jr_tenant_id r1 = dl_TenantID dl.
Proof.
  intros Hdl.
  assert (Hold : dead_letter_jobs d !! i = Some dl -> dl_ID dl = i /\
            exists r1, jobs d' !! dl_OriginalJobID dl = Some r1 /\
            jr_status r1 = StatusDeadLettered /\ jr_tenant_id r1 = dl_TenantID dl).
  { intros H. destruct (ok_dead _ I _ _ H) as (? & r0 & Hr0 & Hs0 & Ht0).
    split; [done|]. exists r0. rewrite (jc_jobs _ _ _ _ _ C).
    rewrite lookup_insert_ne; [done|]. by apply not_eq_sym, (jc_dead_free i). }
  destruct (jc_dead _ _ _ _ _ C) as
    [_ [[_ E]|(Hs' & i0 & dl0 & Hf & E & ? & Ho & Ht)]]; rewrite E in Hdl; [auto|].
  apply lookup_insert_Some in Hdl as [[<- <-]|[_ ?]]; [|auto].
  destruct jc_new_row. split; [done|]. exists r'. rewrite Ho. split_and!; congruence.
Qed.

Lemma jc_ok_dead_unique i1 i2 dl1 dl2 :
  dead_letter_jobs d' !! i1 = Some dl1 -> dead_letter_jobs d' !! i2 = Some dl2 ->
  dl_OriginalJobID dl1 = dl_OriginalJobID dl2 -> i1 = i2.
Proof.
  destruct (jc_dead _ _ _ _ _ C) as
    [_ [[_ ->]|(Hs' & i0 & dl0 & Hf & -> & ? & Ho & Ht)]]; [apply (ok_dead_unique _ I)|].
  intros [[<- <-]|[_ H1]]%lookup_insert_Some [[<- <-]|[_ H2]]%lookup_insert_Some Heq;
    try done.
  - exfalso. apply (jc_dead_free _ _ H2). congruence.
  - exfalso. apply (jc_dead_free _ _ H1). congruence.
  - by eapply (ok_dead_unique _ I).
Qed.

Lemma jc_ok_dead_exists k1 r1 :
  jobs d' !! k1 = Some r1 -> jr_status r1 = StatusDeadLettered ->
  exists i dl, dead_letter_jobs d' !! i = Some dl /\ dl_OriginalJobID dl = k1.
Proof.
  destruct (jc_dead _ _ _ _ _ C) as [_ Hdead].
  intros [[-> ->]|[Hne H1]]%jc_lookup Hs.
  - destruct Hdead as [[? _]|(Hs' & i0 & dl0 & Hf & -> & ? & Ho & Ht)]; [done|].
    exists i0, dl0. by rewrite lookup_insert_eq.
  - destruct (ok_dead_exists _ I _ _ H1 Hs) as (i & dl & Hi & Ho).
    exists i, dl. split; [|done].
    destruct Hdead as [[_ ->]|(Hs' & i0 & dl0 & Hf & -> & _)]; [done|].
    rewrite lookup_insert_ne; congruence.
Qed.

Lemma jc_ok_events i v :
  job_events d' !! i = Some v ->
  vr_id v = i /\
  exists r1, jobs d' !! vr_job_id v = Some r1 /\ jr_tenant_id r1 = vr_tenant_id v.
Proof.
  intros Hv. destruct (jc_events _ _ _ _ _ C _ _ Hv) as [H|(? & -> & Ht)].
  - destruct (ok_events _ I _ _ H) as (? & r0 & Hr0 & Ht0). split; [done|].
    destruct (ev_jobs _ _ (job_change_evolves _ _ _ _ _ C) _ _ Hr0)
      as (r1 & Hr1 & _ & Et & _).
    exists r1. split; congruence.
  - destruct jc_new_row. split; [done|]. exists r'. split; congruence.
Qed.

Lemma jc_ok_idempotency k1 k2 r1 r2 key :
  jobs d' !! k1 = Some r1 -> jobs d' !! k2 = Some r2 ->
  jr_tenant_id r1 = jr_tenant_id r2 ->
  jr_idempotency_key r1 = Some key -> jr_idempotency_key r2 = Some key -> k1 = k2.
Proof.
  destruct (jc_identity _ _ _ _ _ C) as (_ & Et & Ek & _).
  pose proof (jc_old _ _ _ _ _ C) as Hk.
  intros [[-> ->]|[_ H1]]%jc_lookup [[-> ->]|[_ H2]]%jc_lookup Ht K1 K2; try done.
  - eapply (ok_idempotency _ I k k2 r r2 key); congruence.
  - eapply (ok_idempotency _ I k1 k r1 r key); congruence.
  - by eapply (ok_idempotency _ I).
Qed.

Lemma job_change_ok : db_ok d'.
Proof.
  split; [exact jc_ok_jobs | exact jc_ok_attempts | exact jc_ok_running
    | exact jc_ok_dead | exact jc_ok_dead_unique | exact jc_ok_dead_exists
    | exact jc_ok_events | exact jc_ok_idempotency].
Qed.

Lemma job_change_status :
  jr_status r' = jr_status r \/ life_step (jr_status r) (jr_status r') ->
  status_step d d'.
Proof.
  intros Hs. split.
  - intros k1 r1 H1. destruct (ev_jobs _ _ (job_change_evolves _ _ _ _ _ C) _ _ H1)
      as (r2 & -> & _). eauto.
  - intros k1 r1 [[-> ->]|[_ ->]]%jc_lookup; [|by left].
    by rewrite (jc_old _ _ _ _ _ C).
Qed.

End JobChange.

(** ** Inserting a job row *)

Record job_create (d d' : Db) (r : job_row) : Prop := mk_job_create {
  jn_fresh : jobs d !! jr_id r = None;
  jn_jobs : jobs d' = <[jr_id r := r]> (jobs d);
  jn_row : job_row_ok r;
  jn_status : jr_status r = StatusPending \/ jr_status r = StatusScheduled;
  jn_attempts : job_attempts d' = job_attempts d;
  jn_dead : forall i, (fun dl => (dl_ID dl, dl_OriginalJobID dl, dl_TenantID dl)) <$>
                        dead_letter_jobs d' !! i =
                      (fun dl => (dl_ID dl, dl_OriginalJobID dl, dl_TenantID dl)) <$>
                        dead_letter_jobs d !! i;
  jn_requeued : forall i dl, dead_letter_jobs d !! i = Some dl ->
    is_Some (dl_RequeuedAt dl) -> dead_letter_jobs d' !! i = Some dl;
  jn_events : forall i v, job_events d' !! i = Some v ->
    job_events d !! i = Some v \/
    (vr_id v = i /\ vr_job_id v = jr_id r /\ vr_tenant_id v = jr_tenant_id r);
  jn_key : forall k r1 key, jobs d !! k = Some r1 -> jr_tenant_id r1 = jr_tenant_id r ->
    jr_idempotency_key r1 = Some key -> jr_idempotency_key r = Some key -> False
}.

Section JobCreate.
Context (d d' : Db) (r : job_row).
Context (I : db_ok d) (C : job_create d d' r).

Lemma jn_lookup k1 r1 :
  jobs d' !! k1 = Some r1 ->
  (k1 = jr_id r /\ r1 = r) \/ (k1 <> jr_id r /\ jobs d !! k1 = Some r1).
Proof. rewrite (jn_jobs _ _ _ C), lookup_insert. case_decide; naive_solver. Qed.

Lemma jn_keep k1 r1 : jobs d !! k1 = Some r1 -> jobs d' !! k1 = Some r1.
Proof.
  intros H. rewrite (jn_jobs _ _ _ C), lookup_insert_ne; [done|].
  pose proof (jn_fresh _ _ _ C). congruence.
Qed.

Lemma job_create_evolves : evolves d d'.
Proof.
  split.
  - intros k1 r1 H%jn_keep. by exists r1.
  - intros i a Ha. exists a. by rewrite (jn_attempts _ _ _ C).
  - intros i dl Hdl. pose proof (jn_dead _ _ _ C i) as E. rewrite Hdl in E.
    destruct (dead_letter_jobs d' !! i) as [dl'|] eqn:E'; simplify_eq/=.
    exists dl'. split; [done|]. split; [congruence|]. intros Hs.
    pose proof (jn_requeued _ _ _ C _ _ Hdl Hs). congruence.
Qed.

Lemma jn_dead_old i dl :
  dead_letter_jobs d' !! i = Some dl ->
  exists dl0, dead_letter_jobs d !! i = Some dl0 /\ dl_ID dl0 = dl_ID dl /\
    dl_OriginalJobID dl0 = dl_OriginalJobID dl /\ dl_TenantID dl0 = dl_TenantID dl.
Proof.
  intros H. pose proof (jn_dead _ _ _ C i) as E. rewrite H in E. simpl in E.
  destruct (dead_letter_jobs d !! i) as [dl0|]; simplify_eq/=. exists dl0.
  split_and!; congruence.
Qed.

Lemma job_create_ok : db_ok d'.
Proof.
  pose proof (jn_status _ _ _ C) as Hst. split.
  - intros k1 r1 [[-> ->]|[_ H1]]%jn_lookup; [|by apply (ok_jobs _ I)].
    split; [done|]. apply (jn_row _ _ _ C).
  - intros i a. rewrite (jn_attempts _ _ _ C). intros Ha.
    destruct (ok_attempts _ I _ _ Ha) as (? & r0 & ?%jn_keep & ?). eauto.
  - intros k1 r1 [[-> ->]|[_ H1]]%jn_lookup Hs; [destruct Hst; congruence|].
    rewrite (jn_attempts _ _ _ C). by eapply (ok_running _ I).
  - intros i dl (dl0 & H0 & <- & <- & <-)%jn_dead_old.
    destruct (ok_dead _ I _ _ H0) as (? & r0 & ?%jn_keep & ? & ?). eauto 10.
  - intros i1 i2 dl1 dl2 (dl1' & H1 & _ & <- & _)%jn_dead_old
      (dl2' & H2 & _ & <- & _)%jn_dead_old. by eapply (ok_dead_unique _ I).
  - intros k1 r1 [[-> ->]|[_ H1]]%jn_lookup Hs; [destruct Hst; congruence|].
    destruct (ok_dead_exists _ I _ _ H1 Hs) as (i & dl & Hi & Ho).
    pose proof (jn_dead _ _ _ C i) as E. rewrite Hi in E.
    destruct (dead_letter_jobs d' !! i) as [dl'|] eqn:E'; simplify_eq/=.
    exists i, dl'. split; congruence.
  - intros i v Hv. destruct (jn_events _ _ _ C _ _ Hv) as [H|(? & -> & ?)].
    + destruct (ok_events _ I _ _ H) as (? & r0 & ?%jn_keep & ?). eauto.
    + split; [done|]. exists r. by rewrite (jn_jobs _ _ _ C), lookup_insert_eq.
  - intros k1 k2 r1 r2 key [[-> ->]|[_ H1]]%jn_lookup [[-> ->]|[_ H2]]%jn_lookup Ht K1 K2;
      try done.
    + exfalso. eapply (jn_key _ _ _ C); eauto.
    + exfalso. eapply (jn_key _ _ _ C); eauto.
    + by eapply (ok_idempotency _ I).
Qed.

Lemma job_create_status : status_step d d'.
Proof.
  split; [by eauto using jn_keep|]. intros k1 r1 [[-> ->]|[_ ->]]%jn_lookup; [|by left].
  rewrite (jn_fresh _ _ _ C). apply (jn_status _ _ _ C).
Qed.

End JobCreate.

(** ** The attempts of one job *)

Lemma attempts_set (m : gmap UUID attempt_row) i a a' k :
  m !! i = Some a -> ar_job_id a = k -> same_attempt a a' ->
  forall i0 a0, m !! i0 = Some a0 ->
  exists a1, <[i := a']> m !! i0 = Some a1 /\ same_attempt a0 a1 /\
             (ar_job_id a0 <> k -> a1 = a0).
Proof.
  intros Hi Hk Hs i0 a0 H0. rewrite lookup_insert. case_decide; simplify_eq.
  - exists a'. split_and!; done.
  - exists a0. split_and!; done.
Qed.

Lemma attempts_update (m : gmap UUID attempt_row) k f :
  (forall a, ar_status a = AttemptRunning -> same_attempt a (f a)) ->
  forall i0 a0, m !! i0 = Some a0 ->
  exists a1, (update_where (running_attempt_of k) f m).1 !! i0 = Some a1 /\
             same_attempt a0 a1 /\ (ar_job_id a0 <> k -> a1 = a0).
Proof.
  intros Hf i0 a0 H0. rewrite lookup_update_where, H0. simpl. eexists. split; [done|].
  unfold running_attempt_of. repeat case_bool_decide; simpl; split_and!; auto; done.
Qed.

(** An update that closes a RUNNING attempt keeps its identity. *)
Lemma same_attempt_close a a' :
  ar_status a = AttemptRunning -> ar_id a' = ar_id a -> ar_job_id a' = ar_job_id a ->
  ar_tenant_id a' = ar_tenant_id a -> same_attempt a a'.
Proof. intros. split_and!; done. Qed.

#[export] Hint Resolve same_attempt_close : sched.

Lemma update_where_no_new {V} (P : UUID -> V -> bool) f (m : gmap UUID V) i v :
  (update_where P f m).1 !! i = Some v -> m !! i = None -> False.
Proof. rewrite lookup_update_where. intros H1 H2. by rewrite H2 in H1. Qed.

Lemma insert_no_new {V} (m : gmap UUID V) i a a' i0 v :
  m !! i = Some a -> <[i := a']> m !! i0 = Some v -> m !! i0 = None -> False.
Proof. rewrite lookup_insert. case_decide; congruence. Qed.

(** New rows of a table of events are either old or the inserted one. *)
Lemma event_insert (m : gmap UUID event_row) id row :
  forall i v, <[id := row]> m !! i = Some v -> m !! i = Some v \/ (i = id /\ v = row).
Proof. intros i v. rewrite lookup_insert. case_decide; naive_solver. Qed.

(** The entries of the central table no operation uses. *)
Definition unused_transitions : list (Status * Status) :=
  [(StatusRunning, StatusFailed); (StatusFailed, StatusRetryScheduled);
   (StatusFailed, StatusDeadLettered); (StatusRetryScheduled, StatusDeadLettered);
   (StatusDeadLettered, StatusRetryScheduled)].

(** The implemented lifecycle refines the central transition table:
    every step an operation takes is allowed by [CanTransition], and the
    table allows nothing else but the five entries around FAILED and out
    of DEAD_LETTERED that no operation uses. *)
Theorem lifecycle_refines_table s t :
  CanTransition (status_string s) (status_string t) = true <->
  life_step s t \/ (s, t) ∈ unused_transitions.
Proof.
  split.
  - intros H. destruct (decide ((s, t) ∈ unused_transitions)) as [?|Hn]; [by right|left].
    destruct s, t; vm_compute in H; try discriminate; try (by constructor);
      exfalso; apply Hn; unfold unused_transitions; set_solver.
  - intros [H|H]; [by destruct H|].
    unfold unused_transitions in H.
    repeat (apply elem_of_cons in H as [H|H]; [simplify_eq; by vm_compute|]).
    by apply not_elem_of_nil in H.
Qed.
