(* ===== verification/Preservation.v ===== *)
(** * Every transaction preserves the invariant

    Each committed body is a [job_change] of one job (or a [job_create]),
    hence keeps [db_ok], deletes nothing ([evolves]) and moves statuses
    along the lifecycle ([status_step]). *)

From S2P Require Import Prelude GoRuntime Engine Sql Schema Effects Json Dto Repository RepositoryFacts Invariant.

Local Open Scope Z_scope.
Local Open Scope go_scope.

(** The three guarantees of a committed transaction. *)
Record sound (d d' : Db) : Prop := mk_sound {
  so_ok : db_ok d';
  so_evolves : evolves d d';
  so_status : status_step d d'
}.

(** Rows of the operator's transitions: the pairs [Cancel], [Pause],
    [Resume] and [Retry] of internal/job/service.go pass on. *)
Definition operator_transition (from : list Status) (to : Status) : Prop :=
  (to = StatusCancelled /\
   from = [StatusPending; StatusScheduled; StatusRetryScheduled; StatusRunning]) \/
  (to = StatusPaused /\ from = [StatusPending; StatusScheduled]) \/
  (to = StatusScheduled /\ from = [StatusPaused]) \/
  (to = StatusRetryScheduled /\ from = [StatusFailed]).

Lemma job_change_sound d d' k r r' :
  db_ok d -> job_change d d' k r r' ->
  jr_status r' = jr_status r \/ life_step (jr_status r) (jr_status r') ->
  sound d d'.
Proof.
  intros I C Hs. split; [by eapply job_change_ok | by eapply job_change_evolves
    | by eapply job_change_status].
Qed.

Lemma job_create_sound d d' r : db_ok d -> job_create d d' r -> sound d d'.
Proof.
  intros I C. split; [by eapply job_create_ok | by eapply job_create_evolves
    | by eapply job_create_status].
Qed.

Lemma sound_refl d : db_ok d -> sound d d.
Proof. by split. Qed.

#[export] Hint Resolve job_change_sound job_create_sound sound_refl : sched.

(** Discharge the membership obligations of the event and attempt tables. *)
Ltac table_cases :=
  repeat match goal with
  | |- forall i v, <[_ := _]> _ !! i = Some v -> _ =>
      let H := fresh "Hins" in intros ? ? H; apply event_insert in H
  | H : _ \/ (_ = _ /\ _ = _) |- _ => destruct H as [H|[-> ->]]; [eauto|eauto]
  | H : <[_ := _]> _ !! _ = Some _ |- _ => apply event_insert in H
  end.

Section Finalise.
Context (d : Db) (j : Job) (I : db_ok d) (F : in_flight d j).

Lemma complete_sound w dur res e now n u d' n' :
  complete_body j w dur res e now (d, n) = (Ok u, (d', n')) -> sound d d'.
Proof.
  intros (r & a & id & Hr & Hw & Hs & Ht & Ha & Har & Hid & ->)%complete_body_ok.
  destruct F as (r0 & a0 & Hr0 & Ht0 & Hm0 & Hc0 & Ha0 & Hj0). simplify_eq.
  destruct (ok_jobs _ I _ _ Hr) as [_ [_ _ Hb Hlb Hi]].
  eapply (job_change_sound _ _ _ r (set_succeeded now r)); [done| |].
  - split; cbn; try done.
    + split; cbn; try done. intros _. apply Hlb. congruence.
    + eapply attempts_set; eauto with sched.
    + intros i a' H1 H2. exfalso. eauto using insert_no_new.
    + rewrite Hs. split; [done|]. by left.
    + table_cases.
  - right. cbn. rewrite Hs. auto with sched.
Qed.

(** A failure is finalised with the count and status [DecideFailure]
    allows: never past the budget unless it dead-letters. *)
Lemma fail_sound w dur o ns ra e now n u d' n' :
  (ns <> StatusDeadLettered -> j_RetryCount j + 1 <= j_MaxRetries j) ->
  fail_body j w dur o ns (j_RetryCount j + 1) ra e now (d, n) = (Ok u, (d', n')) ->
  sound d d'.
Proof.
  intros Hns (r & a & id1 & id2 & Hr & Hw & Hs & Ha & Har & Hrc & Hid1 & Hid2 & HA & HT
    & HC & Hbr)%fail_body_ok.
  destruct F as (r0 & a0 & Hr0 & Ht0 & Hm0 & Hc0 & Ha0 & Hj0). simplify_eq.
  destruct (ok_jobs _ I _ _ Hr) as [_ [_ _ Hb Hlb Hi]].
  destruct Hbr as [(-> & HJ & (dlid & Hdl & HD) & p1 & p2 & HE)|
                   (Hne & HJ & HD & p1 & p2 & _ & HE)];
    (eapply job_change_sound;
     [exact I
     |split; [exact Hr|exact HJ|done|..]; rewrite ?HA, ?HD, ?HE; cbn; try done
     |right; cbn; rewrite Hs; auto with sched]).
  - split; cbn; try done; lia.
  - eapply attempts_set; eauto with sched.
  - intros; exfalso; eauto using insert_no_new.
  - rewrite Hs. split; [done|]. right. split; [done|]. by exists dlid; eauto 10.
  - table_cases.
  - split; cbn; try done; [lia|]. intros _. rewrite Hm0. auto.
  - eapply attempts_set; eauto with sched.
  - intros; exfalso; eauto using insert_no_new.
  - rewrite Hs. by split; [|left].
  - table_cases.
Qed.
End Finalise.

(** ** Operator transitions *)

Lemma transition_sound t id from to e now d n u d' n' :
  db_ok d -> operator_transition from to ->
  transition_body t id from to e now (d, n) = (Ok u, (d', n')) -> sound d d'.
Proof.
  intros I Hop (r & ev & Hr & Ht & Hfrom & Hev & HJ & HA & HD & HT & HC & HE)
    %transition_body_ok.
  destruct (ok_jobs _ I _ _ Hr) as [_ [_ Hnf Hb Hlb Hi]].
  assert (Hcan : life_step (jr_status r) to /\
                 jr_status r <> StatusDeadLettered /\ to <> StatusRunning /\
                 to <> StatusDeadLettered /\ to <> StatusFailed).
  { destruct Hop as [[-> ->]|[[-> ->]|[[-> ->]|[-> ->]]]];
      repeat (apply elem_of_cons in Hfrom as [E|Hfrom];
              [rewrite E in *; split_and!; done || auto with sched|]);
      by apply not_elem_of_nil in Hfrom. }
  destruct Hcan as (Hcan & Hnd & Hnr & Hntd & Hntf).
  eapply (job_change_sound _ _ _ r (set_transition to now r)); [exact I| |by right].
  split; [exact Hr|exact HJ|done|..]; rewrite ?HA, ?HD, ?HE; cbn; try done.
  - split; cbn; try done; [by rewrite bool_decide_eq_false_2|auto].
  - case_bool_decide; [by apply attempts_update|]. intros i0 a0 ?. by exists a0.
  - intros i a' H1 H2. exfalso. case_bool_decide; [|congruence].
    by eapply update_where_no_new.
  - split; [done|]. by left.
  - table_cases.
Qed.

(** ** Leases *)

(** A statement [UPDATE jobs ... WHERE P] on the pool, as a function. *)
Definition jobs_stmt (P : UUID -> job_row -> bool) (f : Time -> job_row -> job_row)
    (now : Time) (d : Db) : result (Db * nat) :=
  let '(t, n) := update_where P (f now) (jobs d) in Ok (d <| jobs := t |>, n).

Lemma jobs_stmt_owned jobID w f now d d' c :
  jobs_stmt (owned_running jobID w) f now d = Ok (d', c) ->
  (c = 0%nat /\ d' = d) \/
  (c = 1%nat /\ exists r, jobs d !! jobID = Some r /\ jr_locked_by r = Some w /\
     jr_status r = StatusRunning /\ d' = d <| jobs := <[jobID := f now r]> (jobs d) |>).
Proof.
  unfold jobs_stmt. intros H.
  destruct (decide ((update_where (owned_running jobID w) (f now) (jobs d)).2 = 0%nat))
    as [Hz|Hz].
  - left. pose proof (proj1 (update_where_count _ _ _) Hz) as Hn.
    rewrite (update_where_none _ _ _ Hn) in H. simplify_eq. split; [done|]. by destruct d.
  - right. apply (update_where_pinned _ _ _ jobID) in Hz as (r & Hr & HP & _);
      [|by intros; eapply owned_running_pin].
    rewrite (update_where_key _ _ _ _ _ Hr HP) in H by
      (by intros; eapply owned_running_pin).
    simplify_eq. split; [done|]. apply owned_running_spec in HP as (_ & ? & ?). eauto.
Qed.

(** Rewriting a RUNNING row of [jobs] alone. *)
Lemma job_only_change d k r r' :
  db_ok d -> jobs d !! k = Some r -> jr_status r = StatusRunning ->
  same_identity r r' -> job_row_ok r' ->
  (jr_status r' = StatusRunning -> jr_locked_by r' = jr_locked_by r /\
                                   jr_retry_count r' = jr_retry_count r) ->
  jr_status r' <> StatusDeadLettered ->
  job_change d (d <| jobs := <[k := r']> (jobs d) |>) k r r'.
Proof.
  intros I Hr Hs Hid Hok Hrun Hnd. split; cbn; try done.
  - intros i a Ha. by exists a.
  - intros i a' H1 H2. congruence.
  - intros Hs'. destruct (Hrun Hs') as [-> ->]. by apply (ok_running _ I).
  - rewrite Hs. by split; [|left].
  - auto.
Qed.

Lemma release_sound jobID w now d d' c :
  db_ok d ->
  jobs_stmt (owned_running jobID w) (set_released StatusRetryScheduled) now d = Ok (d', c) ->
  sound d d'.
Proof.
  intros I [[_ ->]|(_ & r & Hr & Hw & Hs & ->)]%jobs_stmt_owned; [by apply sound_refl|].
  destruct (ok_jobs _ I _ _ Hr) as [_ [_ _ Hb Hlb Hi]].
  eapply (job_change_sound _ _ _ r); [done|apply job_only_change; cbn; try done|].
  - split; cbn; try done. intros _. apply Hlb. congruence.
  - right. cbn. rewrite Hs. auto with sched.
Qed.

Lemma extend_sound jobID w ttl now d d' c :
  db_ok d ->
  jobs_stmt (owned_running jobID w) (set_extended ttl) now d = Ok (d', c) -> sound d d'.
Proof.
  intros I [[_ ->]|(_ & r & Hr & Hw & Hs & ->)]%jobs_stmt_owned; [by apply sound_refl|].
  destruct (ok_jobs _ I _ _ Hr) as [_ [Hl Hn Hb Hlb Hi]].
  rewrite Hs in Hl. cbn in Hl. destruct Hl as [Hl1 Hl2].
  eapply (job_change_sound _ _ _ r); [done|apply job_only_change; cbn; try done|by left].
  - split; cbn; try done. rewrite Hs, bool_decide_eq_true_2 by done. eauto.
  - cbn. congruence.
Qed.

(** ** Claiming *)

Lemma claimable_status_spec s :
  claimable_status s = true <->
  s = StatusPending \/ s = StatusScheduled \/ s = StatusRetryScheduled.
Proof.
  unfold claimable_status. rewrite bool_decide_eq_true, !elem_of_cons, elem_of_nil. tauto.
Qed.

Lemma claimable_to_running s :
  claimable_status s = true -> life_step s StatusRunning.
Proof. rewrite claimable_status_spec. intros [->|[->| ->]]; auto with sched. Qed.

(** A live row has room for one more attempt. *)
Lemma next_count_small r :
  job_row_ok r -> jr_status r <> StatusDeadLettered ->
  int_add (jr_retry_count r) 1 = jr_retry_count r + 1.
Proof. intros [_ _ Hb Hlb Hi] Hs. apply int_add_small. specialize (Hlb Hs). lia. Qed.

Lemma claim_one_change w ttl j r e now d n out d' n' :
  db_ok d -> jobs d !! j_ID j = Some r -> j = scanJob r ->
  claimable_status (jr_status r) = true ->
  claim_one w ttl j e now (d, n) = (Ok out, (d', n')) ->
  job_change d d' (j_ID j) r (set_claimed w (duration_seconds ttl) now r).
Proof.
  intros I Hr Hj Hc (r0 & aid & until & ev & p & Hr0 & -> & Hi4 & Ha & Hev & Ht & ->)
    %claim_one_ok.
  simplify_eq. destruct (ok_jobs _ I _ _ Hr) as [Hid Hok].
  assert (Hnd : jr_status r <> StatusDeadLettered).
  { apply claimable_status_spec in Hc. by destruct Hc as [->|[->| ->]]. }
  pose proof (next_count_small _ Hok Hnd) as Hn. destruct Hok as [_ _ Hb Hlb Hi].
  split; cbn in *; try done.
  - split; cbn; try done. auto.
  - intros i a Hia. exists a. rewrite lookup_insert_ne by congruence. by split_and!.
  - intros i a' H1 H2. apply lookup_insert_Some in H1 as [[<- <-]|[_ H1]]; [|congruence].
    done.
  - intros _. exists aid. eexists. rewrite lookup_insert_eq. by split_and!.
  - split; [done|]. by left.
  - table_cases.
Qed.

(** Between two iterations of the claim loop: [pre] is claimed, [rest]
    still as selected, [done] what the worker will receive. *)
Record claim_state (w : string) (ttl now : Z) (d0 : Db)
    (pre rest : list Job) (d : Db) (done : list Job) : Prop := mk_claim_state {
  cs_ok : db_ok d;
  cs_evolves : evolves d0 d;
  cs_nodup : NoDup (j_ID <$> pre ++ rest);
  cs_rest : forall j, j ∈ rest -> exists r, jobs d0 !! j_ID j = Some r /\
    j = scanJob r /\ claimable_status (jr_status r) = true;
  cs_jobs : forall k, jobs d !! k =
    if decide (k ∈ j_ID <$> pre)
    then set_claimed w (duration_seconds ttl) now <$> jobs d0 !! k else jobs d0 !! k;
  cs_done : Forall2 (fun j j' => exists r until,
    jobs d0 !! j_ID j = Some r /\ j = scanJob r /\
    claimable_status (jr_status r) = true /\
    j' = claimed_job w (j_ActiveAttemptID j') until j /\
    job_attempts d !! j_ActiveAttemptID j' =
      Some (new_attempt_row (j_ActiveAttemptID j') (j_ID j) (j_TenantID j) w
              (jr_retry_count r + 1) now)) pre done;
  cs_dead : dead_letter_jobs d = dead_letter_jobs d0
}.

Lemma claim_state_step w ttl e now d0 pre x l d n y d1 n1 ys :
  claim_state w ttl now d0 pre (x :: l) d ys ->
  claim_one w ttl x e now (d, n) = (Ok y, (d1, n1)) ->
  claim_state w ttl now d0 (pre ++ [x]) l d1 (ys ++ [y]).
Proof.
  intros [I E N R J D DL] H.
  destruct (R x) as (r & Hr0 & Hx & Hc); [by left|].
  assert (Hnin : j_ID x ∉ j_ID <$> pre).
  { rewrite fmap_app, fmap_cons in N. apply NoDup_app in N as (_ & N & _).
    intros Hin. apply (N _ Hin). by left. }
  assert (Hr : jobs d !! j_ID x = Some r) by (rewrite J, decide_False; done).
  pose proof (claim_one_change _ _ _ _ _ _ _ _ _ _ _ I Hr Hx Hc H) as C.
  apply claim_one_ok in H as (r1 & aid & until & ev & p & Hr1 & -> & Hi4 & Ha & Hev & Ht & ->).
  rewrite Hr in Hr1. injection Hr1 as <-. subst x. cbn [j_ID scanJob jobs] in *.
  assert (Hcnt : int_add (jr_retry_count r) 1 = jr_retry_count r + 1).
  { apply next_count_small; [by apply (ok_jobs _ I _ _ Hr)|].
    apply claimable_status_spec in Hc. by destruct Hc as [->|[->| ->]]. }
  split.
  - by eapply job_change_ok.
  - etrans; [done|]. by eapply job_change_evolves.
  - by rewrite <- app_assoc.
  - intros j Hj. apply R. by right.
  - intros k. cbn. rewrite lookup_insert, fmap_app. case_decide as Ek; subst.
    + rewrite decide_True by set_solver. by rewrite Hr0.
    + rewrite J. cbn. repeat case_decide; set_solver.
  - apply Forall2_app.
    + eapply Forall2_impl; [exact D|]. intros j j' (r' & u' & ? & ? & ? & ? & Hat).
      exists r', u'. split_and!; try done. cbn.
      rewrite lookup_insert_ne; [done|]. congruence.
    + constructor; [|constructor]. exists r, until. cbn. rewrite Hcnt in *.
      rewrite lookup_insert_eq. split_and!; try done.
  - done.
Qed.

Lemma select_due_spec b locked now d j :
  db_ok d -> j ∈ select_due b locked now d ->
  exists r, jobs d !! j_ID j = Some r /\ j = scanJob r /\ claimable locked now r = true.
Proof.
  intros I. unfold select_due, scanJobs. rewrite list_elem_of_fmap. intros (r & -> & Hr).
  eapply elem_of_submseteq in Hr; [|apply sublist_submseteq, limit_offset_sublist].
  rewrite elem_of_order_by, elem_of_select_where in Hr. destruct Hr as [Hc [k Hk]].
  exists r. destruct (ok_jobs _ I _ _ Hk) as [E _]. cbn. by rewrite E.
Qed.

Lemma select_due_nodup b locked now d :
  db_ok d -> NoDup (j_ID <$> select_due b locked now d).
Proof.
  intros I. unfold select_due, scanJobs. rewrite <- list_fmap_compose.
  eapply sublist_NoDup; [|apply fmap_sublist, limit_offset_sublist].
  rewrite order_by_perm. apply select_where_nodup. intros k r Hr.
  by apply (ok_jobs _ I).
Qed.

Lemma claim_state_start w b ttl locked now d :
  db_ok d -> claim_state w ttl now d [] (select_due b locked now d) d [].
Proof.
  intros I. split; try done.
  - by apply select_due_nodup.
  - intros j Hj. destruct (select_due_spec _ _ _ _ _ I Hj) as (r & ? & ? & Hc).
    exists r. unfold claimable in Hc. by bool_prop.
Qed.

(** The whole claim: what was selected, what became of it. *)
Lemma claim_body_state w b ttl e now d n out d' n' :
  db_ok d -> claim_body w b ttl e now (d, n) = (Ok out, (d', n')) ->
  0 <= b /\ claim_state w ttl now d (select_due b (e_locked e n) now d) [] d' out.
Proof.
  intros I. unfold claim_body. destruct (Z.ltb_spec b 0) as [|Hb]; [discriminate|]. intros H.
  tx_inv H. split; [done|].
  apply (tx_each_ind _ (claim_state w ttl now d) _ _
    (fun pre x l d1 n1 y d2 n2 ys => claim_state_step w ttl e now d pre x l d1 n1 y d2 n2 ys)
    _ [] _ _ [] _ _ _) in H; [by rewrite app_nil_l in H|]. by apply claim_state_start.
Qed.

Lemma claim_state_status w ttl now d items d' out :
  claim_state w ttl now d items [] d' out ->
  (forall j, j ∈ items -> exists r, jobs d !! j_ID j = Some r /\
     claimable_status (jr_status r) = true) ->
  status_step d d'.
Proof.
  intros C Hit. split.
  - intros k r Hk. rewrite (cs_jobs _ _ _ _ _ _ _ _ C). rewrite Hk. case_decide; eauto.
  - intros k r'. rewrite (cs_jobs _ _ _ _ _ _ _ _ C).
    destruct (jobs d !! k) as [r|] eqn:Hk; [|by case_decide].
    case_decide as Hin; intros ?; simplify_eq/=; [|by left]. right.
    apply list_elem_of_fmap in Hin as (j & -> & Hj).
    destruct (Hit _ Hj) as (r1 & ? & ?). simplify_eq. by apply claimable_to_running.
Qed.

Lemma claim_sound w b ttl e now d n out d' n' :
  db_ok d -> claim_body w b ttl e now (d, n) = (Ok out, (d', n')) -> sound d d'.
Proof.
  intros I H. destruct (claim_body_state _ _ _ _ _ _ _ _ _ _ I H) as [_ C].
  split; [apply C | apply C |]. eapply claim_state_status; [done|].
  intros j Hj. destruct (select_due_spec _ _ _ _ _ I Hj) as (r & ? & ? & Hc).
  exists r. unfold claimable in Hc. by bool_prop.
Qed.

(** Every job a claim returns is in flight. *)
Lemma claim_in_flight w b ttl e now d n out d' n' j :
  db_ok d -> claim_body w b ttl e now (d, n) = (Ok out, (d', n')) -> j ∈ out ->
  in_flight d' j.
Proof.
  intros I H Hj. destruct (claim_body_state _ _ _ _ _ _ _ _ _ _ I H) as [_ C].
  destruct (Forall2_elem_of_r _ _ _ _ (cs_done _ _ _ _ _ _ _ _ C) Hj)
    as (j0 & Hj0 & r & u & Hr & -> & Hc & E & Ha).
  destruct (ok_jobs _ I _ _ Hr) as [_ Hok].
  exists (set_claimed w (duration_seconds ttl) now r), (new_attempt_row
    (j_ActiveAttemptID j) (jr_id r) (jr_tenant_id r) w (jr_retry_count r + 1) now).
  assert (Hf : j_ID j = jr_id r /\ j_TenantID j = jr_tenant_id r /\
               j_MaxRetries j = jr_max_retries r /\ j_RetryCount j = jr_retry_count r)
    by (rewrite E; done).
  destruct Hf as (-> & -> & -> & ->). cbn [j_ID scanJob] in Hr.
  rewrite (cs_jobs _ _ _ _ _ _ _ _ C), Hr.
  rewrite decide_True by (apply list_elem_of_fmap; by exists (scanJob r)).
  split_and!; try done; [apply Hok|].
  apply (ok_live_budget _ Hok). apply claimable_status_spec in Hc.
  by destruct Hc as [->|[->| ->]].
Qed.

(** ** Recovery of expired leases *)

(** What recovery makes of a RUNNING row: the retry budget decides. *)
Definition recovered_row (r r' : job_row) : Prop :=
  jr_retry_count r' = jr_retry_count r + 1 /\
  jr_status r' = (if jr_max_retries r <=? jr_retry_count r
                  then StatusDeadLettered else StatusRetryScheduled) /\
  jr_locked_by r' = None /\ jr_locked_until r' = None.

(** No attempt of the job is RUNNING. *)
Definition no_running_attempt (d : Db) (k : UUID) : Prop :=
  forall i a, job_attempts d !! i = Some a -> ar_job_id a = k ->
              ar_status a <> AttemptRunning.

Lemma update_running_job k f (t : gmap UUID job_row) r :
  t !! k = Some r -> jr_status r = StatusRunning ->
  update_where (running_job k) f t = (<[k := f r]> t, 1%nat).
Proof.
  intros Hr Hs. apply update_where_key; [done|..].
  - unfold running_job. by rewrite !bool_decide_eq_true_2.
  - unfold running_job. intros; by bool_prop.
Qed.

Lemma expire_attempts_closed k reason now (m : gmap UUID attempt_row) i a :
  (update_where (running_attempt_of k) (set_attempt_expired reason now) m).1 !! i = Some a ->
  ar_job_id a = k -> ar_status a <> AttemptRunning.
Proof.
  rewrite lookup_update_where. destruct (m !! i) as [a0|]; [|done]. simpl.
  unfold running_attempt_of. intros ?; simplify_eq.
  repeat case_bool_decide; simpl; done.
Qed.

(** Closing every RUNNING attempt of a RUNNING job while moving it to a
    state in which it is not leased. *)
Lemma closing_change d d' k r r' reason now ev row :
  db_ok d -> jobs d !! k = Some r -> jr_status r = StatusRunning ->
  same_identity r r' -> job_row_ok r' -> jr_status r' <> StatusRunning ->
  jobs d' = <[k := r']> (jobs d) ->
  job_attempts d' = (update_where (running_attempt_of k) (set_attempt_expired reason now)
                       (job_attempts d)).1 ->
  ((jr_status r' <> StatusDeadLettered /\ dead_letter_jobs d' = dead_letter_jobs d) \/
   (jr_status r' = StatusDeadLettered /\ exists i dl, dead_letter_jobs d !! i = None /\
      dead_letter_jobs d' = <[i := dl]> (dead_letter_jobs d) /\
      dl_ID dl = i /\ dl_OriginalJobID dl = k /\ dl_TenantID dl = jr_tenant_id r)) ->
  job_events d' = <[ev := row]> (job_events d) ->
  vr_id row = ev -> vr_job_id row = k -> vr_tenant_id row = jr_tenant_id r ->
  job_change d d' k r r'.
Proof.
  intros I Hr Hs Hid Hok Hnr HJ HA HD HE V1 V2 V3.
  split; rewrite ?HA, ?HE; try done.
  - by apply attempts_update.
  - intros i a' H1 H2. exfalso. by eapply update_where_no_new.
  - by rewrite Hs.
  - table_cases.
Qed.

Lemma recover_one_change reason r e now d n u d' n' :
  db_ok d -> jobs d !! jr_id r = Some r -> jr_status r = StatusRunning ->
  recover_one reason (scanJob r) e now (d, n) = (Ok u, (d', n')) ->
  exists r', job_change d d' (jr_id r) r r' /\ recovered_row r r' /\
             no_running_attempt d' (jr_id r).
Proof.
  intros I Hr Hs (clock & ev & Hi4 & Hev & HA & HT & HC & Hbr)%recover_one_ok.
  destruct (ok_jobs _ I _ _ Hr) as [_ [_ _ Hb Hlb Hi]].
  assert (Hrc : 0 <= jr_retry_count r < 2 ^ 63 - 1) by lia.
  cbn [scanJob j_ID j_RetryCount j_MaxRetries j_RetryBackoffSeconds j_TenantID] in *.
  rewrite (DecideFailure_count _ _ _ _ Hrc), (DecideFailure_status _ _ _ _ Hrc) in *.
  assert (Hcl : no_running_attempt d' (jr_id r)).
  { intros i a. rewrite HA. apply expire_attempts_closed. }
  specialize (Hlb ltac:(congruence)). unfold recovered_row.
  destruct Hbr as [(Hd & HJ & (dlid & Hdl & HD) & p & HE)|(Hd & HJ & HD & p & _ & HE)];
    rewrite (update_running_job _ _ _ _ Hr Hs) in HJ; cbn [fst] in HJ;
    destruct (Z.leb_spec (jr_max_retries r) (jr_retry_count r)) as [Hle|Hlt]; try done.
  - eexists; split_and!; [eapply (closing_change _ _ _ r); eauto|..]; cbn; try done.
    + split; cbn; try done; lia.
    + right. split; [done|]. by exists dlid; eauto 10.
  - eexists; split_and!; [eapply (closing_change _ _ _ r); eauto|..]; cbn; try done.
    split; cbn; try done; lia.
Qed.

(** A change of job [k] leaves the attempts of the others alone. *)
Lemma no_running_attempt_other d d' k r r' k0 :
  job_change d d' k r r' -> k0 <> k ->
  no_running_attempt d k0 -> no_running_attempt d' k0.
Proof.
  intros C Hne H i a' Ha' Hk. destruct (job_attempts d !! i) as [a|] eqn:Ha.
  - destruct (jc_attempts_old _ _ _ _ _ C _ _ Ha) as (a1 & Ha1 & (_ & Ej & _ & _) & Hkeep).
    simplify_eq. rewrite Hkeep by congruence. apply (H _ _ Ha). congruence.
  - destruct (jc_attempts_new _ _ _ _ _ C _ _ Ha' Ha) as (_ & ? & _). congruence.
Qed.

(** Between two iterations of the recovery loop. *)
Record recover_state (d0 : Db) (pre rest : list Job) (d : Db) (us : list unit) : Prop :=
  mk_recover_state {
  rs_ok : db_ok d;
  rs_evolves : evolves d0 d;
  rs_nodup : NoDup (j_ID <$> pre ++ rest);
  rs_rest : forall j, j ∈ rest -> exists r, jobs d0 !! j_ID j = Some r /\
    j = scanJob r /\ jr_status r = StatusRunning;
  rs_other : forall k, k ∉ j_ID <$> pre -> jobs d !! k = jobs d0 !! k;
  rs_pre : forall j, j ∈ pre -> exists r r', jobs d0 !! j_ID j = Some r /\
    jr_status r = StatusRunning /\ jobs d !! j_ID j = Some r' /\ recovered_row r r' /\
    no_running_attempt d (j_ID j)
}.

Lemma recover_state_step reason e now d0 pre x l d n u d1 n1 us :
  recover_state d0 pre (x :: l) d us ->
  recover_one reason x e now (d, n) = (Ok u, (d1, n1)) ->
  recover_state d0 (pre ++ [x]) l d1 (us ++ [u]).
Proof.
  intros [I E N R O P] H.
  destruct (R x) as (r & Hr0 & Hx & Hs); [by left|].
  assert (Hnin : j_ID x ∉ j_ID <$> pre).
  { rewrite fmap_app, fmap_cons in N. apply NoDup_app in N as (_ & N & _).
    intros Hin. apply (N _ Hin). by left. }
  assert (Hr : jobs d !! j_ID x = Some r) by (by rewrite O).
  assert (Hid : j_ID x = jr_id r) by (by subst x).
  rewrite Hid in Hr. rewrite Hx in H.
  destruct (recover_one_change _ _ _ _ _ _ _ _ _ I Hr Hs H) as (r' & C & Hrec & Hno).
  rewrite <- Hid in *. split.
  - by eapply job_change_ok.
  - etrans; [done|]. by eapply job_change_evolves.
  - by rewrite <- app_assoc.
  - intros j Hj. apply R. by right.
  - intros k Hk. rewrite (jc_jobs _ _ _ _ _ C), lookup_insert_ne; [apply O|];
      rewrite fmap_app in Hk; set_solver.
  - intros j [Hj|Hj]%elem_of_app.
    + destruct (P _ Hj) as (r1 & r1' & ? & ? & ? & ? & ?).
      assert (Hne : j_ID j <> j_ID x).
      { intros Heq. apply Hnin. rewrite <- Heq. by apply list_elem_of_fmap_2. }
      exists r1, r1'. rewrite (jc_jobs _ _ _ _ _ C), lookup_insert_ne by done.
      split_and!; try done. by eapply no_running_attempt_other.
    + apply list_elem_of_singleton in Hj as ->. exists r, r'.
      rewrite (jc_jobs _ _ _ _ _ C), lookup_insert_eq. by split_and!.
Qed.

Lemma select_expired_spec locked rank now d j :
  db_ok d ->
  j ∈ select_expired locked rank now d <->
  exists r, jobs d !! j_ID j = Some r /\ j = scanJob r /\ expired locked now r = true.
Proof.
  intros I. unfold select_expired, scanJobs. rewrite list_elem_of_fmap. split.
  - intros (r & -> & Hr). rewrite elem_of_order_by, elem_of_select_where in Hr.
    destruct Hr as [Hc [k Hk]]. exists r. destruct (ok_jobs _ I _ _ Hk) as [E _].
    cbn. by rewrite E.
  - intros (r & Hr & -> & Hx). exists r. split; [done|].
    rewrite elem_of_order_by, elem_of_select_where. eauto.
Qed.

Lemma select_expired_nodup locked rank now d :
  db_ok d -> NoDup (j_ID <$> select_expired locked rank now d).
Proof.
  intros I. unfold select_expired, scanJobs. rewrite <- list_fmap_compose, order_by_perm.
  apply select_where_nodup. intros k r Hr. by apply (ok_jobs _ I).
Qed.

Lemma recover_state_start locked rank now d :
  db_ok d -> recover_state d [] (select_expired locked rank now d) d [].
Proof.
  intros I. split; try done.
  - by apply select_expired_nodup.
  - intros j Hj. apply (select_expired_spec _ _ _ _ _ I) in Hj as (r & ? & ? & Hx).
    exists r. unfold expired in Hx. bool_prop. done.
  - intros j Hj. by apply not_elem_of_nil in Hj.
Qed.

Lemma recover_body_state reason e now d n out d' n' :
  db_ok d -> recover_body reason e now (d, n) = (Ok out, (d', n')) ->
  let items := select_expired (e_locked e n) (e_rank e n) now d in
  out = Z.of_nat (length items) /\ exists us, recover_state d items [] d' us.
Proof.
  intros I. unfold recover_body. intros H. tx_inv H. split; [done|].
  match goal with H1 : tx_each _ _ _ _ _ = (Ok ?us, _) |- _ => exists us;
    apply (tx_each_ind _ (recover_state d) _ _
      (fun pre x l d1 n1 y d2 n2 us => recover_state_step reason e now d pre x l d1 n1 y d2 n2 us)
      _ [] _ _ [] _ _ _) in H1; [by rewrite app_nil_l in H1|] end.
  by apply recover_state_start.
Qed.

Lemma recover_sound reason e now d n out d' n' :
  db_ok d -> recover_body reason e now (d, n) = (Ok out, (d', n')) -> sound d d'.
Proof.
  intros I H. destruct (recover_body_state _ _ _ _ _ _ _ _ I H) as [_ [us S]].
  split; [apply S|apply S|]. split.
  - intros k r Hk. destruct (ev_jobs _ _ (rs_evolves _ _ _ _ _ S) _ _ Hk) as (? & -> & _).
    eauto.
  - intros k r' Hk'. destruct (decide (k ∈ j_ID <$> select_expired
      (e_locked e n) (e_rank e n) now d)) as [Hin|Hout].
    + apply list_elem_of_fmap in Hin as (j & -> & Hj).
      destruct (rs_pre _ _ _ _ _ S _ Hj) as (r & r1 & -> & Hs & Hk1 & (_ & Hst & _) & _).
      simplify_eq. right. rewrite Hs, Hst. case_match; auto with sched.
    + rewrite <- (rs_other _ _ _ _ _ S) by done. rewrite Hk'. by left.
Qed.

(** ** Creation and requeueing *)

(** What [Service.Create] guarantees of a job it hands to the
    repository. *)
Definition creatable (j : Job) : Prop :=
  (j_Status j = StatusPending \/ j_Status j = StatusScheduled) /\
  j_RetryCount j = 0 /\ 0 <= j_MaxRetries j.

Lemma create_sound j e now d n out d' n' :
  db_ok d -> creatable j ->
  create_body j e now (d, n) = (Ok out, (d', n')) -> sound d d'.
Proof.
  intros I (Hs & Hrc & Hm)
    (ev & p & -> & Hfresh & Ht & Hkey & Hi4 & Hev & ->)%create_body_ok.
  assert (Hmx : int4_ok (j_MaxRetries j) = true) by (cbn in Hi4; by bool_prop).
  apply int4_ok_spec in Hmx.
  eapply (job_create_sound _ _ (job_insert_row j now)); [done|].
  split; cbn; try done.
  - split; cbn; try lia.
    + by destruct Hs as [->| ->].
    + by destruct Hs as [->| ->].
  - intros i v [?|[-> ->]]%event_insert; auto.
  - intros k r1 key Hk Ht1 K1 K2. rewrite K2 in Hkey.
    assert (Htk : idempotency_taken (j_TenantID j) (Some key) (jobs d) = true).
    { apply idempotency_taken_spec. eauto. }
    congruence.
Qed.

(** Marking a dead letter as requeued keeps what identifies it. *)
Lemma requeue_mark_same dlid now newID (m : gmap UUID DeadLetterJob) i :
  let key := fun dl => (dl_ID dl, dl_OriginalJobID dl, dl_TenantID dl) in
  key <$> (update_where (fun k _ => bool_decide (k = dlid))
     (fun dl => dl <| dl_RequeuedAt := Some now |> <| dl_RequeuedJobID := Some newID |>)
     m).1 !! i = key <$> m !! i.
Proof.
  cbn. rewrite lookup_update_where. destruct (m !! i); [|done]. cbn. by case_bool_decide.
Qed.

Lemma initialStatus_cases ra now :
  initialStatus ra now = StatusPending \/ initialStatus ra now = StatusScheduled.
Proof. unfold initialStatus. case_match; auto. Qed.

Lemma requeue_sound t dlid ra e now d n out d' n' :
  db_ok d -> requeue_body t dlid ra e now (d, n) = (Ok out, (d', n')) -> sound d d'.
Proof.
  intros I (dl & k & newID & clock & ev & p & Hk & Hid & Ht & Hrq & Hfresh & Hten & Hev &
    -> & HJ & HA & HD & HT & HC & HE)%requeue_body_ok.
  eapply (job_create_sound _ _ (requeue_row newID t dlid dl (initialStatus ra clock) ra now));
    [done|].
  pose proof (initialStatus_cases ra clock) as Hini.
  split; rewrite ?HJ, ?HE, ?HD; cbn; try done.
  - split; cbn; try lia; by destruct Hini as [->| ->].
  - intros i. by apply requeue_mark_same.
  - intros i dl1 Hi Hs. rewrite lookup_update_where, Hi. cbn.
    destruct (ok_dead _ I _ _ Hk) as [Ek _]. rewrite bool_decide_eq_false_2; [done|].
    intros ->. rewrite Hid in Ek. subst. rewrite Hk in Hi. simplify_eq.
    rewrite Hrq in Hs. by destruct Hs.
  - intros i v [?|[-> ->]]%event_insert; auto.
Qed.
