(* ===== verification/Auth.v ===== *)
(** * API clients and roles: internal/auth/auth.go

    Principals, the role order, and the PostgreSQL store of API clients.
    SHA-256 and the random source are parameters; the hexadecimal and
    base64 encodings around them are written out. *)

From S2P Require Import Prelude GoRuntime Engine Sql Schema Effects Json Dto Repository.

Local Open Scope Z_scope.
Local Open Scope go_scope.

(** ** Principals *)

Record Principal := mkPrincipal {
  pr_ClientID : UUID;
  pr_TenantID : UUID;
  pr_TenantSlug : string;
  pr_ClientName : string;
  pr_Role : Role
}.

(** The request context carries at most one principal. *)
Abbreviation Ctx := (option Principal).

Definition WithPrincipal (_ : Ctx) (p : Principal) : Ctx := Some p.

Definition FromContext (ctx : Ctx) : option Principal := ctx.

Definition PrincipalOrDefault (ctx : Ctx) : Principal :=
  match FromContext ctx with
  | Some p => p
  | None => {| pr_ClientID := uuid_Nil; pr_TenantID := DefaultTenantID;
               pr_TenantSlug := "default"; pr_ClientName := "system";
               pr_Role := RoleAdmin |}
  end.

(** The map [rank]. *)
Definition role_rank (r : Role) : Z :=
  match r with RoleViewer => 1 | RoleOperator => 2 | RoleAdmin => 3 end.

Definition Allows (p : Principal) (required : Role) : bool :=
  role_rank required <=? role_rank (pr_Role p).

(** ** Encodings *)

Definition nth_char (alphabet : string) (n : nat) : Ascii.ascii :=
  default Ascii.zero (String.get n alphabet).

(** [hex.EncodeToString]. *)
Fixpoint hex_EncodeToString (s : string) : string :=
  match s with
  | EmptyString => EmptyString
  | String c s' =>
      let n := Ascii.nat_of_ascii c in
      String (nth_char "0123456789abcdef" (n / 16)%nat)
        (String (nth_char "0123456789abcdef" (n mod 16)%nat) (hex_EncodeToString s'))
  end.

Definition base64url_char (n : Z) : Ascii.ascii :=
  nth_char "ABCDEFGHIJKLMNOPQRSTUVWXYZabcdefghijklmnopqrstuvwxyz0123456789-_"
    (Z.to_nat (Z.land n 63)).

Definition char_Z (c : Ascii.ascii) : Z := Z.of_nat (Ascii.nat_of_ascii c).

(** [base64.RawURLEncoding.EncodeToString]: no padding. *)
Fixpoint base64_RawURL (s : string) : string :=
  match s with
  | String a (String b (String c s')) =>
      let v := Z.lor (Z.shiftl (char_Z a) 16) (Z.lor (Z.shiftl (char_Z b) 8) (char_Z c)) in
      String (base64url_char (Z.shiftr v 18))
        (String (base64url_char (Z.shiftr v 12))
          (String (base64url_char (Z.shiftr v 6))
            (String (base64url_char v) (base64_RawURL s'))))
  | String a (String b EmptyString) =>
      let v := Z.lor (Z.shiftl (char_Z a) 16) (Z.shiftl (char_Z b) 8) in
      String (base64url_char (Z.shiftr v 18))
        (String (base64url_char (Z.shiftr v 12))
          (String (base64url_char (Z.shiftr v 6)) EmptyString))
  | String a EmptyString =>
      let v := Z.shiftl (char_Z a) 16 in
      String (base64url_char (Z.shiftr v 18))
        (String (base64url_char (Z.shiftr v 12)) EmptyString)
  | EmptyString => EmptyString
  end.

(** ** The store *)

(** [INSERT INTO api_clients]: [key_hash] is unique. *)
Definition insert_api_clients (r : client_row) (d : Db) : result Db :=
  if negb (bool_decide (select_where (fun r' =>
       bool_decide (cr_key_hash r' = cr_key_hash r)) (api_clients d) = []))
  then Err err_unique
  else match insert_row (cr_id r) r (api_clients d) with
       | Err e => Err e
       | Ok t => if has_tenant d (cr_tenant_id r)
                 then Ok (d <| api_clients := t |>) else Err err_foreign_key
       end.

(** [api_clients c JOIN tenants t ON t.id=c.tenant_id], as a principal
    with the stored hash. *)
Definition join_tenant (d : Db) (c : client_row) : option (Principal * string) :=
  t ← tenants d !! cr_tenant_id c;
  Some ({| pr_ClientID := cr_id c; pr_TenantID := cr_tenant_id c;
           pr_TenantSlug := tr_slug t; pr_ClientName := cr_name c;
           pr_Role := cr_role c |}, cr_key_hash c).

#[export] Instance eta_client_row : Eta client_row := fun r =>
  mkclient_row (cr_id r) (cr_tenant_id r) (cr_name r) (cr_key_prefix r) (cr_key_hash r)
    (cr_role r) (cr_enabled r) (cr_created_at r) (cr_last_used_at r) (cr_revoked_at r).
#[export] Instance upd_cr_enabled : Upd cr_enabled := ltac:(mk_upd cr_enabled).
#[export] Instance upd_cr_last_used_at : Upd cr_last_used_at :=
  ltac:(mk_upd cr_last_used_at).
#[export] Instance upd_cr_revoked_at : Upd cr_revoked_at := ltac:(mk_upd cr_revoked_at).

Definition new_client_row (id tenantID : UUID) (name prefix hash : string) (role : Role)
    (now : Time) : client_row :=
  {| cr_id := id; cr_tenant_id := tenantID; cr_name := name; cr_key_prefix := prefix;
     cr_key_hash := hash; cr_role := role; cr_enabled := true; cr_created_at := now;
     cr_last_used_at := None; cr_revoked_at := None |}.

Definition pool_update_clients (P : UUID -> client_row -> bool)
    (f : Time -> client_row -> client_row) : M nat :=
  pool_exec (fun now d =>
    let '(t, n) := update_where P (f now) (api_clients d) in
    Ok (d <| api_clients := t |>, n)).

Section Store.
(** [sha256.Sum256] and [rand.Read] of 32 bytes. *)
Context (Sum256 : string -> string) (rand_Read : nat -> result string).

Definition HashKey (key : string) : string := hex_EncodeToString (Sum256 key).

Definition GenerateKey : M string := fun e w =>
  match rand_Read (w_tick w) with
  | Ok raw => (Ok ("djs_" +:+ base64_RawURL raw), w <| w_tick := S (w_tick w) |>)
  | Err err => (Err err, w <| w_tick := S (w_tick w) |>)
  end.

(** [WHERE c.key_hash=$1 AND c.enabled=true AND c.revoked_at IS NULL]. *)
Definition active_client (hash : string) (c : client_row) : bool :=
  bool_decide (cr_key_hash c = hash) && cr_enabled c &&
  bool_decide (cr_revoked_at c = None).

Definition find_active (hash : string) (rank : UUID -> Z) (now : Time) (d : Db)
    : result (Principal * string) :=
  first_row (omap (join_tenant d) (order_by (fun c => [rank (cr_id c)])
    (select_where (active_client hash) (api_clients d)))).

Definition Authenticate (apiKey : string) : M Principal :=
  let hash := HashKey (TrimSpace apiKey) in
  r ← try (pool_query (find_active hash));
  match r with
  | Err err => if errors_Is err ErrNoRows then fail ErrInvalidAPIKey else fail err
  | Ok (principal, storedHash) =>
      if negb (bool_decide (storedHash = hash)) then fail ErrInvalidAPIKey
      else
        now ← time_Now;
        try (pool_update_clients (fun k _ => bool_decide (k = pr_ClientID principal))
               (fun _ c => c <| cr_last_used_at := Some now |>));;
        mret principal
  end.

Definition CreateClient (tenantID : UUID) (name : string) (role : Role)
    (suppliedKey : string) : M (UUID * string) :=
  let trimmed := TrimSpace suppliedKey in
  key ← (if bool_decide (trimmed = "") then GenerateKey else mret trimmed);
  id ← uuid_New;
  let prefix := if 14 <? string_len key then string_take 14 key else key in
  r ← try (pool_exec (fun now d =>
        match insert_api_clients
                (new_client_row id tenantID name prefix (HashKey key) role now) d with
        | Ok d' => Ok (d', tt)
        | Err err => Err err
        end));
  match r with
  | Ok _ => mret (id, key)
  | Err err =>
      if bool_decide (as_PgError err = Some "23505") && negb (bool_decide (suppliedKey = ""))
      then
        existing ← pool_query (fun rank now d =>
          first_row (cr_id <$> order_by (fun c => [rank (cr_id c)])
            (select_where (fun c => bool_decide (cr_key_hash c = HashKey key))
               (api_clients d))));
        mret (existing, key)
      else fail err
  end.

Definition RevokeClient (id : UUID) : M unit :=
  n ← pool_update_clients (fun k _ => bool_decide (k = id))
        (fun now c => c <| cr_enabled := false |> <| cr_revoked_at := Some now |>);
  if bool_decide (n = 0%nat) then fail ErrNoRows else mret tt.
End Store.
