(* ===== verification/Service.v ===== *)
(** * The job service: internal/job/service.go

    Tenant context, defaults, validation, idempotency hashing and the
    operator's transitions, on top of the repository.  The JSON encoder
    of the hashed request and SHA-256 are parameters. *)

From S2P Require Import Prelude GoRuntime Engine Sql Schema Effects Json Dto Repository Auth.

Local Open Scope Z_scope.
Local Open Scope go_scope.

(** ** Recorders *)

(** [observability.Recorder]: where metric calls go. *)
Abbreviation Recorder := (metric -> M unit).

Definition NoopRecorder : Recorder := fun _ => mret tt.

(** ** The service *)

Record Service := mkService {
  sv_defaultRetries : Z;
  sv_defaultBackoffSec : Z;
  sv_defaultTimeoutSec : Z;
  sv_metrics : Recorder
}.

#[export] Instance eta_Service : Eta Service := fun s =>
  mkService (sv_defaultRetries s) (sv_defaultBackoffSec s) (sv_defaultTimeoutSec s)
    (sv_metrics s).
#[export] Instance upd_sv_metrics : Upd sv_metrics := ltac:(mk_upd sv_metrics).

Definition NewService (defaultRetries defaultBackoffSec defaultTimeoutSec : Z) : Service :=
  {| sv_defaultRetries := defaultRetries;
     sv_defaultBackoffSec := defaultBackoffSec;
     sv_defaultTimeoutSec := defaultTimeoutSec;
     sv_metrics := NoopRecorder |}.

Definition WithMetrics (s : Service) (metrics : option Recorder) : Service :=
  match metrics with None => s | Some m => s <| sv_metrics := m |> end.

(** [fmt.Errorf("%w: " + suffix, base)]. *)
Definition errorf_w (base : error) (suffix : string) : error :=
  Wrapped (error_text base +:+ ": " +:+ suffix) base.

Definition withDefaults (s : Service) (req : CreateRequest) : CreateRequest :=
  let req := if cq_Priority req =? 0 then req <| cq_Priority := 5 |> else req in
  let req := if cq_MaxRetries req =? 0
             then req <| cq_MaxRetries := sv_defaultRetries s |> else req in
  let req := if cq_RetryBackoffSeconds req =? 0
             then req <| cq_RetryBackoffSeconds := sv_defaultBackoffSec s |> else req in
  if cq_TimeoutSeconds req =? 0
  then req <| cq_TimeoutSeconds := sv_defaultTimeoutSec s |> else req.

(** The request as [Create] sees it after defaulting and trimming. *)
Definition prepared (s : Service) (req : CreateRequest) : CreateRequest :=
  let req := withDefaults s req in
  req <| cq_IdempotencyKey := TrimSpace (cq_IdempotencyKey req) |>.

(** The checks of [Create] before anything is stored. *)
Definition create_check (req : CreateRequest) : option error :=
  if 255 <? string_len (cq_IdempotencyKey req)
  then Some (errorf_w ErrInvalidInput "Idempotency-Key exceeds 255 characters")
  else match validateCreate req with
       | Some msg => Some (errorf_w ErrInvalidInput msg)
       | None => None
       end.

(** ** Creation *)

Section Create.
(** [json.Marshal] of the hashed struct and [sha256.Sum256]. *)
Context (marshal_request : CreateRequest -> result string) (Sum256 : string -> string).

(** The marshal error is discarded: no bytes are hashed then. *)
Definition request_hash (req : CreateRequest) : string :=
  let requestBytes := match marshal_request req with Ok b => b | Err _ => "" end in
  hex_EncodeToString (Sum256 requestBytes).

Definition new_job (id : UUID) (p : Principal) (req : CreateRequest) (now : Time) : Job :=
  {| j_ID := id;
     j_TenantID := pr_TenantID p;
     j_Name := cq_Name req;
     j_JobType := cq_JobType req;
     j_Payload := cq_Payload req;
     j_Status := initialStatus (cq_RunAt req) now;
     j_Priority := cq_Priority req;
     j_RunAt := cq_RunAt req;
     j_LockedUntil := None;
     j_LockedBy := None;
     j_RetryCount := 0;
     j_MaxRetries := cq_MaxRetries req;
     j_RetryBackoffSeconds := cq_RetryBackoffSeconds req;
     j_TimeoutSeconds := cq_TimeoutSeconds req;
     j_LastError := None;
     j_CreatedBy := Some (pr_ClientName p);
     j_CreatedAt := zero_time;
     j_UpdatedAt := zero_time;
     j_CompletedAt := None;
     j_FailedAt := None;
     j_CancelledAt := None;
     j_IdempotencyKey := if bool_decide (cq_IdempotencyKey req = "") then None
                         else Some (cq_IdempotencyKey req);
     j_RequestHash := Some (request_hash req);
     j_ActiveAttemptID := uuid_Nil;
     j_AttemptNumber := 0 |}.

Definition Create (s : Service) (ctx : Ctx) (req : CreateRequest) : M CreateResponse :=
  let req := prepared s req in
  match create_check req with
  | Some err => fail err
  | None =>
      let principal := PrincipalOrDefault ctx in
      id ← uuid_New;
      now ← time_Now;
      let j := new_job id principal req now in
      inserted ← Repository.Create j;
      sv_metrics s (JobCreated (j_JobType inserted));;
      mret {| cp_JobID := j_ID inserted;
              cp_Status := j_Status inserted;
              cp_Replayed := negb (bool_decide (j_ID inserted = j_ID j)) |}
  end.
End Create.

(** ** Reads *)

(** The checks of [List], and the filter with its defaults. *)
Definition list_check (filter : ListFilter) : result ListFilter :=
  if negb (bool_decide (lf_Status filter = "")) && negb (isKnownStatus (lf_Status filter))
  then Err (errorf_w ErrInvalidInput "unsupported status filter")
  else if negb (bool_decide (lf_JobType filter = "")) &&
          negb (isSupportedJobType (lf_JobType filter))
  then Err (errorf_w ErrInvalidInput "unsupported job_type filter")
  else
    let filter := if bool_decide (lf_Sort filter = "")
                  then filter <| lf_Sort := "created_at" |> else filter in
    let filter := if bool_decide (lf_Order filter = "")
                  then filter <| lf_Order := "desc" |> else filter in
    if negb (bool_decide (lf_Sort filter ∈ ["created_at"; "run_at"; "priority"]))
    then Err (errorf_w ErrInvalidInput "unsupported sort")
    else if negb (bool_decide (lf_Order filter ∈ ["asc"; "desc"]))
    then Err (errorf_w ErrInvalidInput "unsupported order")
    else match lf_CreatedAfter filter, lf_CreatedBefore filter with
         | Some a, Some b =>
             if b <? a
             then Err (errorf_w ErrInvalidInput
                         "created_after must not be after created_before")
             else Ok filter
         | _, _ => Ok filter
         end.

Definition List (ctx : Ctx) (filter : ListFilter) : M Page :=
  filter ← lift_result (list_check filter);
  Repository.List (pr_TenantID (PrincipalOrDefault ctx)) filter.

Definition Get (ctx : Ctx) (id : UUID) : M Job :=
  GetByID (pr_TenantID (PrincipalOrDefault ctx)) id.

Definition Attempts (ctx : Ctx) (id : UUID) : M (list Attempt) :=
  ListAttempts (pr_TenantID (PrincipalOrDefault ctx)) id.

Definition Events (ctx : Ctx) (id : UUID) : M (list Event) :=
  ListEvents (pr_TenantID (PrincipalOrDefault ctx)) id.

Definition ListDeadLetters (ctx : Ctx) (page pageSize : Z) : M (list DeadLetterJob) :=
  Repository.ListDeadLetters (pr_TenantID (PrincipalOrDefault ctx)) page pageSize.

Definition RequeueDeadLetter (ctx : Ctx) (deadLetterID : UUID) : M Job :=
  now ← time_Now;
  Repository.RequeueDeadLetter (pr_TenantID (PrincipalOrDefault ctx)) deadLetterID now.

(** ** Transitions *)

Definition transition (ctx : Ctx) (id : UUID) (to : Status) (allowedFrom : list Status)
    : M unit :=
  let tenantID := pr_TenantID (PrincipalOrDefault ctx) in
  current ← GetByID tenantID id;
  let allowed := bool_decide (j_Status current ∈ allowedFrom) in
  if negb allowed ||
     negb (CanTransition (status_string (j_Status current)) (status_string to))
  then fail (errorf_w ErrInvalidTransition
               ("cannot transition " +:+ status_string (j_Status current) +:+ " to " +:+
                status_string to))
  else TransitionJob tenantID id allowedFrom to.

Definition Cancel (ctx : Ctx) (id : UUID) : M unit :=
  transition ctx id StatusCancelled
    [StatusPending; StatusScheduled; StatusRetryScheduled; StatusRunning].

Definition Pause (ctx : Ctx) (id : UUID) : M unit :=
  transition ctx id StatusPaused [StatusPending; StatusScheduled].

Definition Resume (ctx : Ctx) (id : UUID) : M unit :=
  transition ctx id StatusScheduled [StatusPaused].

Definition Retry (ctx : Ctx) (id : UUID) : M unit :=
  transition ctx id StatusRetryScheduled [StatusFailed].

(** ** Lemmas *)

Lemma sort_column_known s :
  s ∈ ["created_at"; "run_at"; "priority"] -> is_Some (sort_column s).
Proof.
  rewrite !elem_of_cons, elem_of_nil. intros [->|[->|[->|[]]]]; vm_compute; eauto.
Qed.

Lemma sort_direction_known s : s ∈ ["asc"; "desc"] -> is_Some (sort_direction s).
Proof. rewrite !elem_of_cons, elem_of_nil. intros [->|[->|[]]]; vm_compute; eauto. Qed.

(** A filter that passes the checks can be spliced into the query. *)
Lemma list_check_sort filter f :
  list_check filter = Ok f ->
  is_Some (sort_column (lf_Sort f)) /\ is_Some (sort_direction (lf_Order f)).
Proof.
  unfold list_check. do 2 (case_match; [discriminate|]). simpl.
  generalize (if bool_decide (lf_Sort filter = "")
              then filter <| lf_Sort := "created_at" |> else filter). intros f1.
  generalize (if bool_decide (lf_Order f1 = "")
              then f1 <| lf_Order := "desc" |> else f1). intros f2.
  destruct (bool_decide (_ ∈ ["created_at"; _; _])) eqn:E1; [|discriminate].
  destruct (bool_decide (_ ∈ ["asc"; _])) eqn:E2; [|discriminate].
  apply bool_decide_eq_true_1, sort_column_known in E1.
  apply bool_decide_eq_true_1, sort_direction_known in E2.
  intros Hf. cbn [negb] in Hf. repeat case_match; by simplify_eq.
Qed.

(** What passes the checks can be stored. *)
Lemma create_check_ok req :
  create_check req = None ->
  validateCreate req = None /\ string_len (cq_IdempotencyKey req) <= 255.
Proof.
  unfold create_check. intros H. repeat case_match; simplify_eq. split; [done|].
  by bool_prop.
Qed.

Lemma validateCreate_ok req :
  validateCreate req = None ->
  TrimSpace (cq_Name req) <> "" /\ cq_JobType req = "CALL_WEBHOOK" /\
  json_Valid (cq_Payload req) = true /\ cq_Payload req <> "null" /\
  cq_RunAt req <> zero_time /\ 0 <= cq_Priority req <= 10 /\ 0 <= cq_MaxRetries req /\
  0 <= cq_RetryBackoffSeconds req /\ 0 <= cq_TimeoutSeconds req.
Proof.
  unfold validateCreate. intros H. repeat case_match; simplify_eq.
  repeat match goal with
  | H : _ || _ = false |- _ => apply orb_false_iff in H as [? ?]
  | H : bool_decide _ = false |- _ => apply bool_decide_eq_false in H
  | H : negb _ = false |- _ => apply negb_false_iff in H
  | H : (_ <? _) = false |- _ => apply Z.ltb_ge in H
  | H : (_ =? _) = false |- _ => apply Z.eqb_neq in H
  | H : isSupportedJobType _ = true |- _ => apply bool_decide_eq_true in H
  end.
  split_and!; try done || lia. set_solver.
Qed.
