(* ===== verification/Executor.v ===== *)
(** * The webhook executor: internal/worker/executor.go

    Error classification, the network policy, the header rules and the
    webhook call.  JSON decoding of the payload, [url.Parse], the
    resolver and the HTTP client are parameters; the address classes of
    [net.IP] and the header canonicalisation are written out. *)

From S2P Require Import Prelude GoRuntime Engine Sql Schema Effects Json Dto Repository.

Local Open Scope Z_scope.
Local Open Scope go_scope.

(** ** Classification *)

Definition ClassifyError (err : error) : ExecutionResult :=
  match as_ExecutionError err with
  | Some x => {| er_Metadata := ee_Metadata x; er_ErrorCode := ee_Code x;
                 er_Retryable := ee_Retryable x; er_Message := ee_Message x |}
  | None =>
      let code := if errors_Is err ContextDeadlineExceeded then "TIMEOUT"
                  else if errors_Is err ContextCanceled then "CANCELLED"
                  else "HANDLER_ERROR" in
      {| er_Metadata := ""; er_ErrorCode := code; er_Retryable := true;
         er_Message := error_text err |}
  end.

Definition retryAfter (err : error) : Duration :=
  match as_ExecutionError err with
  | Some x => ee_RetryAfter x
  | None => 0
  end.

Definition parseRetryAfter (value : string) : Duration :=
  match Atoi (TrimSpace value) with
  | None => 0
  | Some seconds =>
      if seconds <? 0 then 0
      else
        let duration := int_mul seconds Second in
        if 15 * Minute <? duration then 15 * Minute else duration
  end.

(** ** Addresses *)

(** [net.IP] in its 16-byte form, as a 128-bit number. *)
Abbreviation IP := Z (only parsing).

(** Byte [i] of the address, from the front. *)
Definition ip_byte (ip : IP) (i : Z) : Z := Z.land (Z.shiftr ip (8 * (15 - i))) 255.

(** [ip.To4() != nil]: the address is [::ffff:a.b.c.d]. *)
Definition is_v4 (ip : IP) : bool := Z.shiftr ip 32 =? 65535.

Definition IsLoopback (ip : IP) : bool :=
  if is_v4 ip then ip_byte ip 12 =? 127 else ip =? 1.

Definition IsPrivate (ip : IP) : bool :=
  if is_v4 ip
  then (ip_byte ip 12 =? 10) ||
       ((ip_byte ip 12 =? 172) && (Z.land (ip_byte ip 13) 240 =? 16)) ||
       ((ip_byte ip 12 =? 192) && (ip_byte ip 13 =? 168))
  else Z.land (ip_byte ip 0) 254 =? 252.

Definition IsLinkLocalMulticast (ip : IP) : bool :=
  if is_v4 ip
  then (ip_byte ip 12 =? 224) && (ip_byte ip 13 =? 0) && (ip_byte ip 14 =? 0)
  else (ip_byte ip 0 =? 255) && (Z.land (ip_byte ip 1) 15 =? 2).

Definition IsLinkLocalUnicast (ip : IP) : bool :=
  if is_v4 ip
  then (ip_byte ip 12 =? 169) && (ip_byte ip 13 =? 254)
  else (ip_byte ip 0 =? 254) && (Z.land (ip_byte ip 1) 192 =? 128).

(** [0.0.0.0] or [::]. *)
Definition IsUnspecified (ip : IP) : bool := (ip =? 65535 * 2 ^ 32) || (ip =? 0).

(** The five tests of [validateHost]. *)
Definition local_address (ip : IP) : bool :=
  IsLoopback ip || IsPrivate ip || IsLinkLocalMulticast ip || IsLinkLocalUnicast ip ||
  IsUnspecified ip.

(** ** Headers *)

Definition isReservedHeader (key : string) : bool :=
  bool_decide (key ∈ ["Host"; "Content-Length"; "X-Scheduler-Job-Id";
                      "X-Scheduler-Attempt"; "Idempotency-Key"]).

Definition is_lower (n : nat) : bool := (97 <=? n)%nat && (n <=? 122)%nat.
Definition is_upper (n : nat) : bool := (65 <=? n)%nat && (n <=? 90)%nat.

(** A token character of RFC 7230. *)
Definition validHeaderFieldByte (c : Ascii.ascii) : bool :=
  let n := Ascii.nat_of_ascii c in
  is_lower n || is_upper n || ((48 <=? n)%nat && (n <=? 57)%nat) ||
  bool_decide (n ∈ [33; 35; 36; 37; 38; 39; 42; 43; 45; 46; 94; 95; 96; 124; 126]%nat).

(** Upper case at the start and after a dash, lower case elsewhere. *)
Definition canonical_char (upper : bool) (c : Ascii.ascii) : Ascii.ascii :=
  let n := Ascii.nat_of_ascii c in
  if upper && is_lower n then Ascii.ascii_of_nat (n - 32)
  else if negb upper && is_upper n then Ascii.ascii_of_nat (n + 32)
  else c.

Fixpoint canonical_from (upper : bool) (s : string) : string :=
  match s with
  | EmptyString => EmptyString
  | String c s' =>
      String (canonical_char upper c)
        (canonical_from (Nat.eqb (Ascii.nat_of_ascii c) 45) s')
  end.

(** [http.CanonicalHeaderKey]. *)
Definition CanonicalHeaderKey (s : string) : string :=
  if forallb validHeaderFieldByte (String.list_ascii_of_string s)
  then canonical_from true s else s.

(** [req.Header.Set]. *)
Definition header_Set (key value : string) (h : gmap string string) : gmap string string :=
  <[CanonicalHeaderKey key := value]> h.

(** [for key, value := range payload.Headers], in the order of iteration. *)
Fixpoint set_headers (l : list (string * string)) (h : gmap string string)
    : gmap string string :=
  match l with
  | [] => h
  | (key, value) :: l' =>
      let canonical := CanonicalHeaderKey key in
      set_headers l'
        (if isReservedHeader canonical then h else header_Set canonical value h)
  end.

(** ** The handler *)

Record ExecutorOptions := mkExecutorOptions {
  eo_AllowedHosts : list string;
  eo_AllowPrivateNetworks : bool
}.

Record webhookPayload := mkwebhookPayload {
  wp_URL : string;
  wp_Method : string;
  wp_Headers : list (string * string);
  wp_Body : string
}.

(** The fields of [url.URL] the handler reads. *)
Record URL := mkURL {
  url_Scheme : string;
  url_User : bool;
  url_Hostname : string;
  url_String : string
}.

Record HttpRequest := mkHttpRequest {
  hq_Method : string;
  hq_URL : string;
  hq_Header : gmap string string;
  hq_Body : option string
}.

(** A response; [hp_ReadErr] is the error of reading its first bytes. *)
Record HttpResponse := mkHttpResponse {
  hp_StatusCode : Z;
  hp_RetryAfter : string;
  hp_Body : string;
  hp_ReadErr : option error
}.

(** [strings.EqualFold] on ASCII letters. *)
Definition EqualFold (a b : string) : bool := bool_decide (ToLower a = ToLower b).

(** [strings.ToUpper]: ASCII letters, and the two other runes whose upper
    case is an ASCII letter (dotless i, long s). *)
Fixpoint ToUpper (s : string) : string :=
  match s with
  | EmptyString => EmptyString
  | String c s' =>
      let n := Ascii.nat_of_ascii c in
      match n, s' with
      | 196%nat, String c2 s2 =>
          if Nat.eqb (Ascii.nat_of_ascii c2) 177
          then String (Ascii.ascii_of_nat 73) (ToUpper s2) else String c (ToUpper s')
      | 197%nat, String c2 s2 =>
          if Nat.eqb (Ascii.nat_of_ascii c2) 191
          then String (Ascii.ascii_of_nat 83) (ToUpper s2) else String c (ToUpper s')
      | _, _ => String (if is_lower n then Ascii.ascii_of_nat (n - 32) else c) (ToUpper s')
      end
  end.

Definition exec_error (code message : string) (retryable : bool) : error :=
  ExecErr {| ee_Code := code; ee_Message := message; ee_Retryable := retryable;
             ee_RetryAfter := 0; ee_Metadata := "" |}.

Section Webhook.
(** [json.Unmarshal] into [webhookPayload], [url.Parse], the resolver,
    [http.Client.Do] and [json.Marshal] of the metadata map. *)
Context (json_Unmarshal : string -> option webhookPayload)
        (url_Parse : string -> result URL)
        (LookupIPAddr : nat -> string -> result (list IP))
        (http_Do : nat -> HttpRequest -> result HttpResponse)
        (marshal_metadata : Z -> Z -> string -> bool -> string).
Context (options : ExecutorOptions).

Definition validateHost (host : string) : M unit := fun e w =>
  if existsb (fun allowed => EqualFold (TrimSpace allowed) host) (eo_AllowedHosts options)
  then (Ok tt, w)
  else
    let w' := w <| w_tick := S (w_tick w) |> in
    match LookupIPAddr (w_tick w) host with
    | Err err => (Err (Wrapped ("resolve webhook host: " +:+ error_text err) err), w')
    | Ok addresses =>
        if eo_AllowPrivateNetworks options then (Ok tt, w')
        else if existsb local_address addresses
        then (Err (ErrorString "webhook target resolves to a private or local address"), w')
        else (Ok tt, w')
    end.

Definition validateURL (target : URL) : M unit :=
  if negb (bool_decide (url_Scheme target = "http")) &&
     negb (bool_decide (url_Scheme target = "https"))
  then fail (ErrorString "webhook URL must use http or https")
  else if url_User target
  then fail (ErrorString "webhook URL must not contain credentials")
  else if bool_decide (url_Hostname target = "")
  then fail (ErrorString "webhook URL requires a host")
  else validateHost (url_Hostname target).

(** The [CheckRedirect] hook: [via] counts the requests made so far. *)
Definition CheckRedirect (via : nat) (target : URL) : M unit :=
  if (3 <=? via)%nat then fail (ErrorString "too many redirects") else validateURL target.

Definition webhook_method (payload : webhookPayload) : option string :=
  let method := ToUpper (TrimSpace (wp_Method payload)) in
  let method := if bool_decide (method = "") then "POST" else method in
  if bool_decide (method ∈ ["GET"; "POST"; "PUT"; "PATCH"; "DELETE"])
  then Some method else None.

Definition webhook_request (j : Job) (payload : webhookPayload) (method url : string)
    : HttpRequest :=
  let h := header_Set "Content-Type" "application/json" ∅ in
  let h := header_Set "X-Scheduler-Job-ID" (uuid_String (j_ID j)) h in
  let h := header_Set "X-Scheduler-Attempt" (Itoa (j_AttemptNumber j)) h in
  let h := header_Set "Idempotency-Key" (uuid_String (j_ID j)) h in
  {| hq_Method := method;
     hq_URL := url;
     hq_Header := set_headers (wp_Headers payload) h;
     hq_Body := if bool_decide (wp_Body payload = "") then None
                else Some (wp_Body payload) |}.

Definition retryable_status (code : Z) : bool :=
  (code =? 408) || (code =? 429) || (500 <=? code).

(** What becomes of a response. *)
Definition webhook_outcome (resp : HttpResponse) (started finished : Time) : result string :=
  match hp_ReadErr resp with
  | Some err => Err (exec_error "WEBHOOK_READ_ERROR" (error_text err) true)
  | None =>
      let excerpt := string_take 4097 (hp_Body resp) in
      let truncated := 4096 <? string_len excerpt in
      let excerpt := if truncated then string_take 4096 excerpt else excerpt in
      let metadata := marshal_metadata (hp_StatusCode resp)
                        (duration_milliseconds (time_Sub finished started)) excerpt truncated in
      if (200 <=? hp_StatusCode resp) && (hp_StatusCode resp <? 300)
      then Ok metadata
      else Err (ExecErr {| ee_Code := "WEBHOOK_HTTP_ERROR";
                           ee_Message := "webhook returned HTTP " +:+
                                         Itoa (hp_StatusCode resp);
                           ee_Retryable := retryable_status (hp_StatusCode resp);
                           ee_RetryAfter := parseRetryAfter (hp_RetryAfter resp);
                           ee_Metadata := metadata |})
  end.

Definition client_Do (req : HttpRequest) : M (result HttpResponse) := fun e w =>
  (Ok (http_Do (w_tick w) req), w <| w_tick := S (w_tick w) |>).

Definition webhook_Execute (j : Job) : M string :=
  match json_Unmarshal (j_Payload j) with
  | None => fail (exec_error "INVALID_PAYLOAD" "webhook payload must be valid JSON" false)
  | Some payload =>
      match url_Parse (wp_URL payload) with
      | Err _ => fail (exec_error "INVALID_URL" "webhook URL is invalid" false)
      | Ok parsed =>
          v ← try (validateURL parsed);
          match v with
          | Err err => fail (exec_error "UNSAFE_WEBHOOK_TARGET" (error_text err) false)
          | Ok _ =>
              match webhook_method payload with
              | None => fail (exec_error "INVALID_METHOD" "unsupported webhook method" false)
              | Some method =>
                  match url_Parse (url_String parsed) with
                  | Err err =>
                      fail (exec_error "REQUEST_BUILD_FAILED" (error_text err) false)
                  | Ok _ =>
                      started ← time_Now;
                      resp ← client_Do (webhook_request j payload method
                                          (url_String parsed));
                      match resp with
                      | Err err =>
                          fail (exec_error "WEBHOOK_NETWORK_ERROR" (error_text err) true)
                      | Ok resp =>
                          finished ← time_Now;
                          lift_result (webhook_outcome resp started finished)
                      end
                  end
              end
          end
      end
  end.

(** The dispatcher: one handler is registered. *)
Definition Execute (j : Job) : M string :=
  if bool_decide (j_JobType j = "CALL_WEBHOOK") then webhook_Execute j
  else fail (exec_error "UNSUPPORTED_JOB_TYPE" ("unsupported job type " +:+ j_JobType j)
               false).
End Webhook.

(** ** Addresses as ranges *)

Lemma land_ones_mod a n : 0 <= n -> Z.land a (2 ^ n - 1) = a mod 2 ^ n.
Proof. intros Hn. rewrite <- Z.land_ones by done. f_equal. rewrite Z.ones_equiv. lia. Qed.

Lemma ip_byte_div ip i : 0 <= i <= 15 -> ip_byte ip i = (ip / 2 ^ (8 * (15 - i))) mod 256.
Proof.
  intros Hi. unfold ip_byte. rewrite Z.shiftr_div_pow2 by lia.
  apply (land_ones_mod _ 8). lia.
Qed.

Lemma is_v4_range ip : is_v4 ip = true <-> 65535 * 2 ^ 32 <= ip < 65536 * 2 ^ 32.
Proof.
  unfold is_v4. rewrite Z.eqb_eq, Z.shiftr_div_pow2 by lia. split; intros H.
  - pose proof (Z.div_mod ip (2 ^ 32)). pose proof (Z.mod_pos_bound ip (2 ^ 32)). lia.
  - symmetry. apply Z.div_unique with (r := ip - 65535 * 2 ^ 32); lia.
Qed.

(** The 16-byte form of [a.b.c.d]. *)
Definition ipv4 (a b c d : Z) : IP :=
  65535 * 2 ^ 32 + a * 2 ^ 24 + b * 2 ^ 16 + c * 2 ^ 8 + d.

Lemma ipv4_bytes a b c d :
  0 <= a < 256 -> 0 <= b < 256 -> 0 <= c < 256 -> 0 <= d < 256 ->
  is_v4 (ipv4 a b c d) = true /\ ip_byte (ipv4 a b c d) 12 = a /\
  ip_byte (ipv4 a b c d) 13 = b.
Proof.
  intros Ha Hb Hc Hd. unfold ipv4. split_and!.
  - apply is_v4_range. lia.
  - rewrite ip_byte_div by lia. cbn [Z.sub Z.mul Z.opp Z.add Z.pos_sub].
    assert (E : (65535 * 2 ^ 32 + a * 2 ^ 24 + b * 2 ^ 16 + c * 2 ^ 8 + d) / 2 ^ (8 * (15 - 12))
                = 65535 * 256 + a).
    { symmetry. apply Z.div_unique with (r := b * 2 ^ 16 + c * 2 ^ 8 + d); lia. }
    rewrite E. symmetry. apply Z.mod_unique with (q := 65535); lia.
  - rewrite ip_byte_div by lia.
    assert (E : (65535 * 2 ^ 32 + a * 2 ^ 24 + b * 2 ^ 16 + c * 2 ^ 8 + d) / 2 ^ (8 * (15 - 13))
                = (65535 * 256 + a) * 256 + b).
    { symmetry. apply Z.div_unique with (r := c * 2 ^ 8 + d); lia. }
    rewrite E. symmetry. apply Z.mod_unique with (q := 65535 * 256 + a); lia.
Qed.

(** ** Headers *)

Lemma canonical_char_facts u c :
  canonical_char u (canonical_char u c) = canonical_char u c /\
  Nat.eqb (Ascii.nat_of_ascii (canonical_char u c)) 45 =
    Nat.eqb (Ascii.nat_of_ascii c) 45 /\
  validHeaderFieldByte (canonical_char u c) = validHeaderFieldByte c.
Proof.
  assert (H : forallb (fun c => forallb (fun u =>
      bool_decide (canonical_char u (canonical_char u c) = canonical_char u c) &&
      Bool.eqb (Nat.eqb (Ascii.nat_of_ascii (canonical_char u c)) 45)
        (Nat.eqb (Ascii.nat_of_ascii c) 45) &&
      Bool.eqb (validHeaderFieldByte (canonical_char u c)) (validHeaderFieldByte c))
      [true; false]) (Ascii.ascii_of_nat <$> seq 0 256) = true) by (vm_compute; reflexivity).
  rewrite forallb_forall in H. specialize (H c). rewrite forallb_forall in H.
  assert (Hu : In u [true; false]) by (destruct u; cbn; auto).
  apply H in Hu.
  - bool_prop. split_and!; [done|by apply eqb_prop..].
  - apply list_elem_of_In, list_elem_of_fmap. exists (Ascii.nat_of_ascii c).
    split; [by rewrite Ascii.ascii_nat_embedding|]. apply elem_of_seq.
    pose proof (Ascii.nat_ascii_bounded c). lia.
Qed.

Lemma canonical_from_idem s u : canonical_from u (canonical_from u s) = canonical_from u s.
Proof.
  revert u. induction s as [|c s IH]; intros u; [done|]. cbn.
  destruct (canonical_char_facts u c) as (-> & -> & _). by rewrite IH.
Qed.

Lemma canonical_from_valid s u :
  forallb validHeaderFieldByte (String.list_ascii_of_string (canonical_from u s)) =
  forallb validHeaderFieldByte (String.list_ascii_of_string s).
Proof.
  revert u. induction s as [|c s IH]; intros u; [done|]. cbn.
  destruct (canonical_char_facts u c) as (_ & _ & ->). by rewrite IH.
Qed.

Lemma CanonicalHeaderKey_idem s :
  CanonicalHeaderKey (CanonicalHeaderKey s) = CanonicalHeaderKey s.
Proof.
  unfold CanonicalHeaderKey.
  destruct (forallb validHeaderFieldByte (String.list_ascii_of_string s)) eqn:E.
  - by rewrite canonical_from_valid, E, canonical_from_idem.
  - by rewrite E.
Qed.

(** Payload headers cannot touch a reserved one. *)
Lemma set_headers_reserved l h key :
  isReservedHeader key = true -> set_headers l h !! key = h !! key.
Proof.
  intros Hr. revert h. induction l as [|[k v] l IH]; intros h; [done|]. cbn.
  rewrite IH. destruct (isReservedHeader (CanonicalHeaderKey k)) eqn:E; [done|].
  unfold header_Set. rewrite CanonicalHeaderKey_idem, lookup_insert_ne; [done|]. congruence.
Qed.

(** Whatever headers the payload supplies, in whatever spelling and
    order, the request carries the scheduler's own job id, attempt number
    and idempotency key, and no payload-chosen Host or Content-Length. *)
Theorem scheduler_headers_kept j payload method url :
  let h := hq_Header (webhook_request j payload method url) in
  h !! "X-Scheduler-Job-Id" = Some (uuid_String (j_ID j)) /\
  h !! "X-Scheduler-Attempt" = Some (Itoa (j_AttemptNumber j)) /\
  h !! "Idempotency-Key" = Some (uuid_String (j_ID j)) /\
  h !! "Host" = None /\ h !! "Content-Length" = None.
Proof.
  cbn [webhook_request hq_Header]. rewrite !set_headers_reserved by (by vm_compute).
  unfold header_Set.
  change (CanonicalHeaderKey "Content-Type") with "Content-Type".
  change (CanonicalHeaderKey "X-Scheduler-Job-ID") with "X-Scheduler-Job-Id".
  change (CanonicalHeaderKey "X-Scheduler-Attempt") with "X-Scheduler-Attempt".
  change (CanonicalHeaderKey "Idempotency-Key") with "Idempotency-Key".
  split_and!; repeat first [rewrite lookup_insert_eq; done | rewrite lookup_insert_ne by done];
    done.
Qed.

(** ** The network policy *)

(** The IPv4 blocks the policy refuses. *)
Definition refused_v4 (a b c d : Z) : Prop :=
  a = 127 \/ a = 10 \/ (a = 172 /\ 16 <= b <= 31) \/ (a = 192 /\ b = 168) \/
  (a = 169 /\ b = 254) \/ (a = 224 /\ b = 0 /\ c = 0) \/
  (a = 0 /\ b = 0 /\ c = 0 /\ d = 0).

Lemma forall_byte (P : Z -> bool) :
  forallb P (Z.of_nat <$> seq 0 256) = true -> forall b, 0 <= b < 256 -> P b = true.
Proof.
  intros H b Hb. rewrite forallb_forall in H. apply H.
  apply list_elem_of_In, list_elem_of_fmap. exists (Z.to_nat b).
  split; [lia|]. apply elem_of_seq. lia.
Qed.

Lemma mask_172 b : 0 <= b < 256 -> (Z.land b 240 =? 16) = ((16 <=? b) && (b <=? 31)).
Proof.
  intros Hb. apply eqb_prop.
  apply (forall_byte (fun b => Bool.eqb (Z.land b 240 =? 16) ((16 <=? b) && (b <=? 31))));
    [vm_compute; reflexivity|done].
Qed.

Lemma ipv4_byte14 a b c d :
  0 <= a < 256 -> 0 <= b < 256 -> 0 <= c < 256 -> 0 <= d < 256 ->
  ip_byte (ipv4 a b c d) 14 = c.
Proof.
  intros Ha Hb Hc Hd. unfold ipv4. rewrite ip_byte_div by lia.
  assert (E : (65535 * 2 ^ 32 + a * 2 ^ 24 + b * 2 ^ 16 + c * 2 ^ 8 + d) / 2 ^ (8 * (15 - 14))
              = ((65535 * 256 + a) * 256 + b) * 256 + c).
  { symmetry. apply Z.div_unique with (r := d); lia. }
  rewrite E. symmetry. apply Z.mod_unique with (q := (65535 * 256 + a) * 256 + b); lia.
Qed.

Lemma ipv4_zero a b c d :
  0 <= a < 256 -> 0 <= b < 256 -> 0 <= c < 256 -> 0 <= d < 256 ->
  (ipv4 a b c d =? 65535 * 2 ^ 32) || (ipv4 a b c d =? 0) =
  (a =? 0) && ((b =? 0) && ((c =? 0) && (d =? 0))).
Proof.
  intros Ha Hb Hc Hd. apply eq_true_iff_eq.
  rewrite !orb_true_iff, !andb_true_iff, !Z.eqb_eq. unfold ipv4. lia.
Qed.

(** The bit tests on an IPv4 address are the CIDR blocks. *)
Lemma local_address_v4 a b c d :
  0 <= a < 256 -> 0 <= b < 256 -> 0 <= c < 256 -> 0 <= d < 256 ->
  local_address (ipv4 a b c d) = true <-> refused_v4 a b c d.
Proof.
  intros Ha Hb Hc Hd. destruct (ipv4_bytes a b c d Ha Hb Hc Hd) as (Hv & H12 & H13).
  pose proof (ipv4_byte14 a b c d Ha Hb Hc Hd) as H14.
  unfold local_address, IsLoopback, IsPrivate, IsLinkLocalMulticast, IsLinkLocalUnicast,
    IsUnspecified, refused_v4.
  rewrite Hv, H12, H13, H14, (mask_172 b Hb), ipv4_zero by done.
  rewrite !orb_true_iff, !andb_true_iff, !Z.eqb_eq, !Z.leb_le. tauto.
Qed.

Section Policy.
Context (Lookup : nat -> string -> result (list IP)) (options : ExecutorOptions).

(** A webhook target that passes validation uses http or https, carries
    no credentials and names a host; unless that host is on the allow list
    or private networks are allowed, the resolver answered and none of the
    addresses it returned, not even one among public ones, is loopback,
    private, link-local or unspecified; for IPv4 these are the blocks
    127/8, 10/8, 172.16/12, 192.168/16, 169.254/16, 224.0.0/24, 0.0.0.0. *)
Theorem validated_target_is_public target e w w' :
  validateURL Lookup options target e w = (Ok tt, w') ->
  (url_Scheme target = "http" \/ url_Scheme target = "https") /\
  url_User target = false /\ url_Hostname target <> "" /\
  (existsb (fun allowed => EqualFold (TrimSpace allowed) (url_Hostname target))
     (eo_AllowedHosts options) = true \/
   exists addresses, Lookup (w_tick w) (url_Hostname target) = Ok addresses /\
     (eo_AllowPrivateNetworks options = true \/
      forall ip, ip ∈ addresses -> local_address ip = false /\
        (forall a b c d, 0 <= a < 256 -> 0 <= b < 256 -> 0 <= c < 256 -> 0 <= d < 256 ->
           ip = ipv4 a b c d -> ~ refused_v4 a b c d))).
Proof.
  unfold validateURL. intros H.
  destruct (negb _ && negb _) eqn:Hs; [discriminate|].
  destruct (url_User target); [discriminate|].
  destruct (bool_decide (url_Hostname target = "")) eqn:Hh; [discriminate|].
  apply bool_decide_eq_false in Hh.
  split_and!; try done.
  { apply andb_false_iff in Hs. rewrite !negb_false_iff, !bool_decide_eq_true in Hs. tauto. }
  unfold validateHost in H.
  destruct (existsb (fun allowed => _) _) eqn:Ha; [by left|right].
  destruct (Lookup _ _) as [addresses|]; [|discriminate]. exists addresses. split; [done|].
  destruct (eo_AllowPrivateNetworks options); [by left|right].
  destruct (existsb local_address addresses) eqn:Hl; [discriminate|].
  intros ip Hip. assert (E : local_address ip = false).
  { destruct (local_address ip) eqn:E; [|done]. exfalso.
    assert (existsb local_address addresses = true); [|congruence].
    apply existsb_exists. exists ip. split; [by apply list_elem_of_In|done]. }
  split; [done|]. intros a b c d ? ? ? ? -> Href.
  apply local_address_v4 in Href; [congruence|done..].
Qed.
End Policy.

Lemma validated_target_is_public_witness :
  exists addresses, Ok [ipv4 93 184 216 34] = Ok addresses /\
    (forall ip, ip ∈ addresses -> local_address ip = false /\
       (forall a b c d, 0 <= a < 256 -> 0 <= b < 256 -> 0 <= c < 256 -> 0 <= d < 256 ->
          ip = ipv4 a b c d -> ~ refused_v4 a b c d)).
Proof.
  pose (lookup := fun (_ : nat) (_ : string) => Ok [ipv4 93 184 216 34]).
  pose (opts := mkExecutorOptions [] false).
  pose (w := empty_world). pose (e := quiet_env).
  assert (H : validateURL lookup opts (mkURL "https" false "example.com" "") e w =
              (Ok tt, w <| w_tick := 1%nat |>)) by (vm_compute; reflexivity).
  destruct (validated_target_is_public lookup opts _ e w _ H) as (_ & _ & _ & [Hx|Hx]).
  - discriminate Hx.
  - destruct Hx as (l & Hl & [Hp|Hp]); [discriminate Hp|]. exists l. exact (conj Hl Hp).
Defined.

(** ** Outcomes *)

Section Outcomes.
Context (json_Unmarshal : string -> option webhookPayload)
        (url_Parse : string -> result URL)
        (Lookup : nat -> string -> result (list IP))
        (http_Do : nat -> HttpRequest -> result HttpResponse)
        (marshal_metadata : Z -> Z -> string -> bool -> string)
        (options : ExecutorOptions).
Let execute := Execute json_Unmarshal url_Parse Lookup http_Do marshal_metadata options.

(** The codes of the handler, and whether each may be retried. *)
Definition permanent_codes : list string :=
  ["UNSUPPORTED_JOB_TYPE"; "INVALID_PAYLOAD"; "INVALID_URL"; "UNSAFE_WEBHOOK_TARGET";
   "INVALID_METHOD"; "REQUEST_BUILD_FAILED"].

Definition well_classified (x : ExecutionError) : Prop :=
  (ee_Code x ∈ permanent_codes /\ ee_Retryable x = false) \/
  (ee_Code x ∈ ["WEBHOOK_NETWORK_ERROR"; "WEBHOOK_READ_ERROR"] /\ ee_Retryable x = true) \/
  (ee_Code x = "WEBHOOK_HTTP_ERROR" /\ exists code, ~ (200 <= code < 300) /\
     ee_Retryable x = retryable_status code).

Lemma webhook_outcome_error resp t1 t2 err :
  webhook_outcome marshal_metadata resp t1 t2 = Err err ->
  exists x, err = ExecErr x /\ well_classified x.
Proof.
  unfold webhook_outcome. intros H. destruct (hp_ReadErr resp).
  - simplify_eq. eexists. split; [done|]. right. left. cbn. split; [set_solver|done].
  - destruct ((200 <=? hp_StatusCode resp) && (hp_StatusCode resp <? 300)) eqn:E;
      [discriminate|]. simplify_eq. eexists. split; [done|]. right. right. cbn.
    split; [done|]. exists (hp_StatusCode resp). split; [|done].
    rewrite andb_false_iff, Z.leb_gt, Z.ltb_ge in E. lia.
Qed.

(** Every error the executor reports is an [ExecutionError] with one of
    its documented codes: what is wrong with the job itself is permanent,
    network and read errors are retryable, and an HTTP status outside
    200-299 is retryable exactly for 408, 429 and 500 upwards.  It is never
    a context error, so a cancelled webhook is not recognised as such. *)
Theorem executor_errors_classified j e w err w' :
  execute j e w = (Err err, w') ->
  (exists x, err = ExecErr x /\ well_classified x) /\
  errors_Is err ContextCanceled = false.
Proof.
  intros H. assert (Hx : exists x, err = ExecErr x /\ well_classified x).
  { unfold execute, Execute, webhook_Execute, fail, lift_result in H.
    assert (Hp : forall code msg, code ∈ permanent_codes ->
      exists x, exec_error code msg false = ExecErr x /\ well_classified x).
    { intros code msg Hc. eexists. split; [done|]. by left. }
    case_bool_decide; [|simplify_eq; apply Hp; unfold permanent_codes; set_solver].
    destruct (json_Unmarshal _) as [payload|];
      [|simplify_eq; apply Hp; unfold permanent_codes; set_solver].
    destruct (url_Parse (wp_URL payload)) as [parsed|];
      [|simplify_eq; apply Hp; unfold permanent_codes; set_solver].
    unfold mbind, M_bind, try in H.
    destruct (validateURL _ _ _ e w) as [[u|verr] w1];
      [|simplify_eq; apply Hp; unfold permanent_codes; set_solver].
    destruct (webhook_method payload) as [method|];
      [|simplify_eq; apply Hp; unfold permanent_codes; set_solver].
    destruct (url_Parse (url_String parsed));
      [|simplify_eq; apply Hp; unfold permanent_codes; set_solver].
    unfold time_Now, client_Do in H. destruct (http_Do _ _) as [resp|herr].
    - destruct (webhook_outcome _ resp _ _) eqn:E; simplify_eq.
      by eapply webhook_outcome_error.
    - simplify_eq. eexists. split; [done|]. right. left. cbn. split; [set_solver|done]. }
  split; [done|]. destruct Hx as (x & -> & _). by vm_compute.
Qed.
Lemma webhook_outcome_success resp t1 t2 meta :
  webhook_outcome marshal_metadata resp t1 t2 = Ok meta ->
  200 <= hp_StatusCode resp < 300 /\
  exists excerpt ms, string_len excerpt <= 4096 /\
    String.prefix excerpt (hp_Body resp) = true /\
    meta = marshal_metadata (hp_StatusCode resp) ms excerpt
             (4096 <? string_len (hp_Body resp)).
Proof.
  unfold webhook_outcome. intros H. destruct (hp_ReadErr resp); [discriminate|].
  destruct ((200 <=? hp_StatusCode resp) && (hp_StatusCode resp <? 300)) eqn:E;
    [|discriminate]. bool_prop. split; [lia|].
  simplify_eq. set (body := hp_Body resp).
  rewrite string_take_length by lia.
  destruct (Z.ltb_spec 4096 (Z.min 4097 (string_len body))) as [Hl|Hl].
  - rewrite string_take_take by lia. exists (string_take 4096 body). eexists.
    split_and!; [|by apply string_take_prefix|].
    + rewrite string_take_length; lia.
    + f_equal. symmetry. apply Z.ltb_lt. lia.
  - exists (string_take 4097 body). eexists. split_and!; [|by apply string_take_prefix|].
    + rewrite string_take_length; lia.
    + f_equal. symmetry. apply Z.ltb_ge. lia.
Qed.

(** The executor reports success only for a webhook that was decoded,
    whose target passed validation, whose method is one of the five
    supported, and whose answer to the built request had a status in
    200-299; the stored metadata quotes at most the first 4096 bytes of
    the answer and says whether it was cut. *)
Theorem executor_success j e w meta w' :
  execute j e w = (Ok meta, w') ->
  exists payload parsed method resp n excerpt ms,
    json_Unmarshal (j_Payload j) = Some payload /\ url_Parse (wp_URL payload) = Ok parsed /\
    (validateURL Lookup options parsed e w).1 = Ok tt /\
    method ∈ ["GET"; "POST"; "PUT"; "PATCH"; "DELETE"] /\
    http_Do n (webhook_request j payload method (url_String parsed)) = Ok resp /\
    200 <= hp_StatusCode resp < 300 /\ string_len excerpt <= 4096 /\
    String.prefix excerpt (hp_Body resp) = true /\
    meta = marshal_metadata (hp_StatusCode resp) ms excerpt
             (4096 <? string_len (hp_Body resp)).
Proof.
  unfold execute, Execute, webhook_Execute, fail, lift_result. intros H.
  case_bool_decide; [|discriminate].
  destruct (json_Unmarshal _) as [payload|] eqn:Hp; [|discriminate].
  destruct (url_Parse (wp_URL payload)) as [parsed|] eqn:Hu; [|discriminate].
  unfold mbind, M_bind, try in H.
  destruct (validateURL _ _ _ e w) as [[[]|verr] w1] eqn:Hv; [|discriminate].
  destruct (webhook_method payload) as [method|] eqn:Hm; [|discriminate].
  destruct (url_Parse (url_String parsed)); [|discriminate].
  unfold time_Now, client_Do in H. destruct (http_Do _ _) as [resp|] eqn:Hd; [|discriminate].
  destruct (webhook_outcome _ resp _ _) eqn:Ho; simplify_eq.
  apply webhook_outcome_success in Ho as (Hs & excerpt & ms & Hl & Hpre & ->).
  exists payload, parsed, method, resp. eexists. exists excerpt, ms.
  split_and!; try done; try lia; [by rewrite Hv|].
  unfold webhook_method in Hm. case_match; simplify_eq. by bool_prop.
Qed.
End Outcomes.

(** A webhook job whose target answers with a given status. *)
Definition demo_job : Job :=
  {| j_ID := 7%N; j_TenantID := 1%N; j_Name := "demo"; j_JobType := "CALL_WEBHOOK";
     j_Payload := "{}"; j_Status := StatusRunning; j_Priority := 5; j_RunAt := 0;
     j_LockedUntil := None; j_LockedBy := None; j_RetryCount := 0; j_MaxRetries := 3;
     j_RetryBackoffSeconds := 30; j_TimeoutSeconds := 300; j_LastError := None;
     j_CreatedBy := None; j_CreatedAt := 0; j_UpdatedAt := 0; j_CompletedAt := None;
     j_FailedAt := None; j_CancelledAt := None; j_IdempotencyKey := None;
     j_RequestHash := None; j_ActiveAttemptID := 8%N; j_AttemptNumber := 1 |}.

Definition demo_decode (_ : string) : option webhookPayload :=
  Some (mkwebhookPayload "https://example.com/" "" [] "{}").
Definition demo_parse (u : string) : result URL :=
  Ok (mkURL "https" false "example.com" u).
Definition demo_lookup (_ : nat) (_ : string) : result (list IP) :=
  Ok [ipv4 93 184 216 34].
Definition demo_do (status : Z) (_ : nat) (_ : HttpRequest) : result HttpResponse :=
  Ok (mkHttpResponse status "" "fine" None).
Definition demo_meta (_ _ : Z) (excerpt : string) (_ : bool) : string := excerpt.
Definition demo_execute (status : Z) : M string :=
  Execute demo_decode demo_parse demo_lookup (demo_do status) demo_meta
    (mkExecutorOptions [] false) demo_job.

Lemma executor_errors_classified_witness :
  exists err w', demo_execute 503 quiet_env empty_world = (Err err, w') /\
    (exists x, err = ExecErr x /\ well_classified x) /\
    errors_Is err ContextCanceled = false.
Proof.
  do 2 eexists. split; [vm_compute; reflexivity|].
  eapply (executor_errors_classified demo_decode demo_parse demo_lookup (demo_do 503)
    demo_meta (mkExecutorOptions [] false) demo_job quiet_env empty_world).
  vm_compute. reflexivity.
Defined.

Lemma executor_success_witness :
  exists resp n payload, demo_do 200 n (webhook_request demo_job payload "POST"
    "https://example.com/") = Ok resp /\ 200 <= hp_StatusCode resp < 300.
Proof.
  destruct (executor_success demo_decode demo_parse demo_lookup (demo_do 200) demo_meta
    (mkExecutorOptions [] false) demo_job quiet_env empty_world "fine"
    (empty_world <| w_tick := 4%nat |>))
    as (payload & parsed & method & resp & n & excerpt & ms & H).
  - vm_compute. reflexivity.
  - destruct H as (_ & _ & _ & _ & Hd & Hs & _).
    exists resp, n, payload. exact (conj Hd Hs).
Defined.

(** ** Retry-After *)

(** A Retry-After header is honoured up to fifteen minutes: a delay in
    seconds that fits the clock arithmetic gives that delay or the cap,
    anything that is not a non-negative integer gives none, and no header
    gives more than the cap. *)
Theorem parseRetryAfter_spec value :
  parseRetryAfter value <= 15 * Minute /\
  match Atoi (TrimSpace value) with
  | None => parseRetryAfter value = 0
  | Some s => (s < 0 -> parseRetryAfter value = 0) /\
              (0 <= s < 9223372036 -> parseRetryAfter value = Z.min (s * Second) (15 * Minute))
  end.
Proof.
  unfold parseRetryAfter. destruct (Atoi (TrimSpace value)) as [s|].
  - destruct (Z.ltb_spec s 0).
    + split_and!; unfold Minute, Second; [lia|done|lia].
    + assert (Hcap : (if 15 * Minute <? int_mul s Second then 15 * Minute
                      else int_mul s Second) <= 15 * Minute).
      { destruct (Z.ltb_spec (15 * Minute) (int_mul s Second)); lia. }
      split_and!; [done|lia|]. intros Hs. unfold int_mul.
      rewrite wrap64_id by (unfold Second; lia).
      destruct (Z.ltb_spec (15 * Minute) (s * Second)); lia.
  - split; [unfold Minute, Second; lia|done].
Qed.

(** Past 2^63 nanoseconds the conversion wraps: a server that asks for
    18446744074 seconds is called again after 0.29 seconds. *)
Theorem parseRetryAfter_wraps : parseRetryAfter "18446744074" = 290448384.
Proof. vm_compute. reflexivity. Qed.
