(* ===== verification/Lock.v ===== *)
(** * The distributed lock: internal/lock/redis_lock.go

    [worker.LockManager] as a record of operations, what its clients may
    assume of it as a class, and its two implementations: the Redis lock
    and the no-op lock of internal/worker/service.go. *)

From S2P Require Import Prelude GoRuntime Engine Sql Schema Effects.

Local Open Scope Z_scope.
Local Open Scope go_scope.

(** ** The interface *)

Record LockManager := mkLockManager {
  lm_Acquire : string -> string -> Duration -> M bool;
  lm_Release : string -> string -> M bool;
  (** [renewableLockManager], where the implementation has it. *)
  lm_Extend : option (string -> string -> Duration -> M bool)
}.

(** A computation that leaves the database alone. *)
Definition db_frame {A} (m : M A) : Prop := forall e w, w_db (m e w).2 = w_db w.

(** What the worker relies on: a lock manager keeps out of PostgreSQL. *)
Class LockLaws (L : LockManager) : Prop := {
  acquire_frame : forall key owner ttl, db_frame (lm_Acquire L key owner ttl);
  release_frame : forall key owner, db_frame (lm_Release L key owner);
  extend_frame : forall ext key owner ttl, lm_Extend L = Some ext ->
                   db_frame (ext key owner ttl)
}.

(** ** Redis *)

(** The value of a key that has not expired. *)
Definition redis_get (now : Time) (r : Redis) (key : string) : option string :=
  match rd_strings r !! key with
  | Some (v, None) => Some v
  | Some (v, Some t) => if now <? t then Some v else None
  | None => None
  end.

(** The milliseconds of [PX], at least one. *)
Definition ttl_millis (ttl : Duration) : Z := Z.max 1 (duration_milliseconds ttl).

(** [SET key value NX PX ttl]; a zero [ttl] means no expiry, a negative
    one is refused by the server. *)
Definition redis_set_nx (key value : string) (ttl : Duration) (now : Time) (r : Redis)
    : result (Redis * bool) :=
  if ttl <? 0 then Err (ErrorString "ERR invalid expire time in 'set' command")
  else match redis_get now r key with
       | Some _ => Ok (r, false)
       | None =>
           let expiry := if ttl =? 0 then None
                         else Some (now + ttl_millis ttl * Millisecond) in
           Ok (r <| rd_strings := <[key := (value, expiry)]> (rd_strings r) |>, true)
       end.

(** The compare-and-delete script of [Release]. *)
Definition redis_release (key owner : string) (now : Time) (r : Redis)
    : result (Redis * Z) :=
  if bool_decide (redis_get now r key = Some owner)
  then Ok (r <| rd_strings := delete key (rd_strings r) |>, 1)
  else Ok (r, 0).

(** The compare-and-expire script of [Extend]; [PEXPIRE] with a
    non-positive time deletes the key. *)
Definition redis_extend (key owner : string) (millis : Z) (now : Time) (r : Redis)
    : result (Redis * Z) :=
  if bool_decide (redis_get now r key = Some owner)
  then Ok (r <| rd_strings :=
               if millis <=? 0 then delete key (rd_strings r)
               else <[key := (owner, Some (now + millis * Millisecond))]> (rd_strings r) |>,
           1)
  else Ok (r, 0).

(** ** [RedisLock] *)

Definition Acquire (key owner : string) (ttl : Duration) : M bool :=
  redis_exec (redis_set_nx key owner ttl).

Definition Release (key owner : string) : M bool :=
  result ← redis_exec (redis_release key owner);
  mret (result =? 1).

Definition Extend (key owner : string) (ttl : Duration) : M bool :=
  result ← redis_exec (redis_extend key owner (duration_milliseconds ttl));
  mret (result =? 1).

Definition RedisLock : LockManager :=
  {| lm_Acquire := Acquire; lm_Release := Release; lm_Extend := Some Extend |}.

(** ** [noopLockManager] *)

Definition noopLockManager : LockManager :=
  {| lm_Acquire := fun _ _ _ => mret true;
     lm_Release := fun _ _ => mret true;
     lm_Extend := None |}.

(** ** Lemmas *)

Lemma db_frame_ret {A} (a : A) : db_frame (mret a : M A).
Proof. done. Qed.

Lemma db_frame_redis {A} (f : Time -> Redis -> result (Redis * A)) :
  db_frame (redis_exec f).
Proof. intros e w. apply redis_exec_frame. Qed.

Lemma db_frame_bind {A B} (m : M A) (k : A -> M B) :
  db_frame m -> (forall a, db_frame (k a)) -> db_frame (m ≫= k).
Proof.
  intros Hm Hk e w. specialize (Hm e w). unfold mbind, M_bind.
  destruct (m e w) as [[a|err] w1]; simpl in *; [by rewrite Hk | done].
Qed.

#[export] Hint Resolve db_frame_ret db_frame_redis db_frame_bind : sched.

#[export] Instance RedisLock_laws : LockLaws RedisLock.
Proof.
  split; cbn; intros; simplify_eq; unfold Acquire, Release, Extend; auto with sched.
Qed.

#[export] Instance noopLockManager_laws : LockLaws noopLockManager.
Proof. by split. Qed.

(** ** The lease as a state machine *)

(** A lease call by some owner, at some time of the server's clock. *)
Inductive lock_op :=
| OpAcquire (key owner : string) (ttl : Duration)
| OpRelease (key owner : string)
| OpExtend (key owner : string) (ttl : Duration).

Definition lock_apply (op : lock_op) (now : Time) (r : Redis) : Redis * bool :=
  match op with
  | OpAcquire key owner ttl =>
      match redis_set_nx key owner ttl now r with
      | Ok (r', b) => (r', b) | Err _ => (r, false) end
  | OpRelease key owner =>
      match redis_release key owner now r with
      | Ok (r', z) => (r', z =? 1) | Err _ => (r, false) end
  | OpExtend key owner ttl =>
      match redis_extend key owner (duration_milliseconds ttl) now r with
      | Ok (r', z) => (r', z =? 1) | Err _ => (r, false) end
  end.

Lemma redis_get_insert now r key v t k :
  redis_get now (r <| rd_strings := <[key := (v, t)]> (rd_strings r) |>) k =
  if decide (k = key)
  then match t with None => Some v | Some u => if now <? u then Some v else None end
  else redis_get now r k.
Proof.
  unfold redis_get. cbn. destruct (decide (k = key)) as [->|].
  - rewrite lookup_insert_eq. by destruct t.
  - by rewrite lookup_insert_ne.
Qed.

Lemma redis_get_delete now r key k :
  redis_get now (r <| rd_strings := delete key (rd_strings r) |>) k =
  if decide (k = key) then None else redis_get now r k.
Proof.
  unfold redis_get. cbn. destruct (decide (k = key)) as [->|].
  - by rewrite lookup_delete_eq.
  - by rewrite lookup_delete_ne.
Qed.

(** A live lease stays live earlier, and expires for good. *)
Lemma redis_get_mono now now' r k v :
  now <= now' -> redis_get now' r k = Some v -> redis_get now r k = Some v.
Proof.
  unfold redis_get. intros Hle. destruct (rd_strings r !! k) as [[v' [t|]]|]; try done.
  destruct (Z.ltb_spec now' t), (Z.ltb_spec now t); done || lia.
Qed.

(** A schedule of lease calls, each at its own time. *)
Fixpoint lock_run (ops : list (Time * lock_op)) (r : Redis) : Redis :=
  match ops with
  | [] => r
  | (now, op) :: ops' => lock_run ops' (lock_apply op now r).1
  end.

(** The call is a release or renewal by this owner of this key. *)
Definition own_call (key owner : string) (op : lock_op) : bool :=
  match op with
  | OpAcquire _ _ _ => false
  | OpRelease k o | OpExtend k o _ => bool_decide (k = key) && bool_decide (o = owner)
  end.

(** The key holds this owner's lease, with this expiry. *)
Definition holds (key owner : string) (expiry : Time) (r : Redis) : Prop :=
  rd_strings r !! key = Some (owner, Some expiry).

Lemma holds_get key owner expiry now r :
  holds key owner expiry r -> now < expiry -> redis_get now r key = Some owner.
Proof.
  unfold holds, redis_get. intros -> Hlt. by apply Z.ltb_lt in Hlt as ->.
Qed.

(** Nobody else's call touches a live lease. *)
Lemma holds_step key owner expiry now op r :
  holds key owner expiry r -> now < expiry -> own_call key owner op = false ->
  holds key owner expiry (lock_apply op now r).1.
Proof.
  intros H Hlt Hown. pose proof (holds_get _ _ _ _ _ H Hlt) as Hg.
  unfold holds in *. destruct op as [k o ttl|k o|k o ttl]; cbn in *.
  - unfold redis_set_nx. destruct (ttl <? 0); [done|].
    destruct (redis_get now r k) eqn:Hk; [done|]. cbn.
    rewrite lookup_insert_ne; [done|]. congruence.
  - unfold redis_release. destruct (decide (redis_get now r k = Some o)) as [Ho|Ho];
      [rewrite bool_decide_eq_true_2 by done|by rewrite bool_decide_eq_false_2]. cbn.
    apply andb_false_iff in Hown. rewrite !bool_decide_eq_false in Hown.
    rewrite lookup_delete_ne; [done|]. intros ->. destruct Hown; congruence.
  - unfold redis_extend. destruct (decide (redis_get now r k = Some o)) as [Ho|Ho];
      [rewrite bool_decide_eq_true_2 by done|by rewrite bool_decide_eq_false_2]. cbn.
    apply andb_false_iff in Hown. rewrite !bool_decide_eq_false in Hown.
    assert (k <> key) by (intros ->; destruct Hown; congruence).
    case_match; [by rewrite lookup_delete_ne|by rewrite lookup_insert_ne].
Qed.

Lemma holds_run key owner expiry ops r :
  holds key owner expiry r ->
  Forall (fun '(now, op) => now < expiry /\ own_call key owner op = false) ops ->
  holds key owner expiry (lock_run ops r).
Proof.
  intros H Hops. revert r H. induction Hops as [|[now op] ops [Hlt Ho] _ IH]; [done|].
  intros r H. cbn. apply IH. by apply holds_step.
Qed.

(** An acquisition with a positive time to live takes hold. *)
Lemma acquire_holds key owner ttl now r :
  0 < ttl -> (lock_apply (OpAcquire key owner ttl) now r).2 = true ->
  holds key owner (now + ttl_millis ttl * Millisecond)
    (lock_apply (OpAcquire key owner ttl) now r).1.
Proof.
  intros Httl. unfold lock_apply, redis_set_nx, holds.
  destruct (Z.ltb_spec ttl 0); [lia|]. destruct (redis_get now r key); [discriminate|].
  destruct (Z.eqb_spec ttl 0); [lia|]. intros _. cbn. by rewrite lookup_insert_eq.
Qed.

(** A lease taken with a positive time to live is exclusive until it expires:
    whatever acquisitions, releases and renewals other owners issue
    meanwhile, in any order, the key keeps its owner and every other
    acquisition of it is refused. *)
Theorem lease_exclusive key owner ttl t0 r ops now other ttl' :
  0 < ttl ->
  (lock_apply (OpAcquire key owner ttl) t0 r).2 = true ->
  let expiry := t0 + ttl_millis ttl * Millisecond in
  Forall (fun '(t, op) => t < expiry /\ own_call key owner op = false) ops ->
  now < expiry ->
  let r' := lock_run ops (lock_apply (OpAcquire key owner ttl) t0 r).1 in
  redis_get now r' key = Some owner /\
  (lock_apply (OpAcquire key other ttl') now r').2 = false.
Proof.
  intros Httl Hacq expiry Hops Hnow r'.
  assert (Hg : redis_get now r' key = Some owner).
  { eapply holds_get; [|exact Hnow]. by apply holds_run, Hops; apply acquire_holds. }
  split; [done|]. cbn. unfold redis_set_nx. rewrite Hg. by destruct (ttl' <? 0).
Qed.

(** The scenario the scripts guard against: worker b tries to release and
    to renew worker a's lease, then to take it. *)
Lemma lease_exclusive_witness :
  let r := mkRedis ∅ ∅ ∅ in
  let ops := [(5, OpRelease "k" "b"); (6, OpExtend "k" "b" Second);
              (7, OpAcquire "k" "b" Second)] in
  let r' := lock_run ops (lock_apply (OpAcquire "k" "a" Second) 0 r).1 in
  redis_get 8 r' "k" = Some "a" /\ (lock_apply (OpAcquire "k" "b" Second) 8 r').2 = false.
Proof.
  cbv zeta. apply (lease_exclusive "k" "a" Second 0 (mkRedis ∅ ∅ ∅)).
  - done.
  - vm_compute. reflexivity.
  - repeat constructor; vm_compute; reflexivity.
  - vm_compute. reflexivity.
Defined.
