(* ===== verification/Rfc3339.v ===== *)
(** * Timestamps: the RFC 3339 text of package time

    [t.UTC().Format(time.RFC3339Nano)] and the RFC 3339 path of
    [time.Parse], on the proleptic Gregorian calendar.  A heartbeat is
    stored in this form by internal/worker/registry.go and read back by
    the API, so the two have to be inverse. *)

From S2P Require Import Prelude GoRuntime Strings Engine Sql Schema.
From Stdlib Require Import Strings.Ascii.

Local Open Scope Z_scope.

(** ** The calendar *)

Definition isLeap (year : Z) : bool :=
  (year mod 4 =? 0) && (negb (year mod 100 =? 0) || (year mod 400 =? 0)).

(** [daysIn(month, year)]. *)
Definition daysIn (year month : Z) : Z :=
  if month =? 2 then if isLeap year then 29 else 28
  else 30 + Z.land (month + Z.shiftr month 3) 1.

Definition month_lengths (year : Z) : list Z :=
  daysIn year <$> [1; 2; 3; 4; 5; 6; 7; 8; 9; 10; 11; 12].

(** Days from 1 January of year 1 to 1 January of [year]. *)
Definition days_before_year (year : Z) : Z :=
  let p := year - 1 in 365 * p + p / 4 - p / 100 + p / 400.

Definition days_before_month (year month : Z) : Z :=
  foldr Z.add 0 (take (Z.to_nat (month - 1)) (month_lengths year)).

(** [time.Date(year, month, day, hour, min, sec, nsec, time.UTC)] for
    values in their ranges. *)
Definition time_Date (year month day hour min sec nsec : Z) : Time :=
  let days := days_before_year year + days_before_month year month + (day - 1) in
  zero_time + (days * 86400 + hour * 3600 + min * 60 + sec) * Second + nsec.

(** The year and the day in it, for a number of days after 1 January of
    year 1: whole 400-, 100- and 4-year cycles, then years. *)
Definition year_day (n : Z) : Z * Z :=
  let c := n / 146097 in
  let n := n mod 146097 in
  let h := Z.min 3 (n / 36524) in
  let n := n - 36524 * h in
  let q := n / 1461 in
  let n := n mod 1461 in
  let y := Z.min 3 (n / 365) in
  (1 + 400 * c + 100 * h + 4 * q + y, n - 365 * y).

(** Month and day of the month, for a day of the year. *)
Fixpoint month_day (lengths : list Z) (month day : Z) : Z * Z :=
  match lengths with
  | [] => (month, day + 1)
  | l :: lengths' =>
      if day <? l then (month, day + 1) else month_day lengths' (month + 1) (day - l)
  end.

Record civil := mkcivil {
  c_year : Z; c_month : Z; c_day : Z;
  c_hour : Z; c_min : Z; c_sec : Z; c_nsec : Z
}.

Definition civil_of (t : Time) : civil :=
  let ns := t - zero_time in
  let secs := ns / Second in
  let days := secs / 86400 in
  let s := secs mod 86400 in
  let '(year, yday) := year_day days in
  let '(month, day) := month_day (month_lengths year) 1 yday in
  {| c_year := year; c_month := month; c_day := day;
     c_hour := s / 3600; c_min := s / 60 mod 60; c_sec := s mod 60;
     c_nsec := ns mod Second |}.

(** ** Format *)

Definition digit_char (d : Z) : Ascii.ascii := Ascii.ascii_of_nat (48 + Z.to_nat d).

(** The [width] decimal digits of [n], which is below [10^width]. *)
Fixpoint pad (width : nat) (n : Z) : string :=
  match width with
  | O => ""
  | S w => String (digit_char (n / 10 ^ Z.of_nat w)) (pad w (n mod 10 ^ Z.of_nat w))
  end.

(** [appendInt(b, x, width)]. *)
Definition appendInt (x : Z) (width : nat) : string :=
  let sign := if x <? 0 then "-" else "" in
  let u := Z.abs x in
  sign +:+ (if u <? 10 ^ Z.of_nat width then pad width u else pretty u).

(** The digits of the fraction [n / 10^width] without trailing zeros. *)
Fixpoint fraction (width : nat) (n : Z) : string :=
  match width with
  | O => ""
  | S w => if n =? 0 then ""
           else String (digit_char (n / 10 ^ Z.of_nat w))
                  (fraction w (n mod 10 ^ Z.of_nat w))
  end.

Definition format_civil (c : civil) : string :=
  appendInt (c_year c) 4 +:+ "-" +:+ appendInt (c_month c) 2 +:+ "-" +:+
  appendInt (c_day c) 2 +:+ "T" +:+ appendInt (c_hour c) 2 +:+ ":" +:+
  appendInt (c_min c) 2 +:+ ":" +:+ appendInt (c_sec c) 2 +:+
  (if c_nsec c =? 0 then "" else "." +:+ fraction 9 (c_nsec c)) +:+ "Z".

(** [t.UTC().Format(time.RFC3339Nano)]. *)
Definition time_Format (t : Time) : string := format_civil (civil_of t).

(** ** Parse *)

(** [parseUint] of a slice of [width] bytes. *)
Fixpoint read_digits (width : nat) (acc : Z) (s : string) : option (Z * string) :=
  match width with
  | O => Some (acc, s)
  | S w => match s with
           | String c s' => d ← digit c; read_digits w (10 * acc + d) s'
           | EmptyString => None
           end
  end.

Definition parseUint (width : nat) (lo hi : Z) (s : string) : option (Z * string) :=
  '(x, s') ← read_digits width 0 s;
  if (x <? lo) || (hi <? x) then None else Some (x, s').

Definition expect (c : Ascii.ascii) (s : string) : option string :=
  match s with
  | String c' s' => if Ascii.eqb c c' then Some s' else None
  | EmptyString => None
  end.

Fixpoint span_digits (s : string) : string * string :=
  match s with
  | String c s' =>
      match digit c with
      | Some _ => let '(d, r) := span_digits s' in (String c d, r)
      | None => (EmptyString, s)
      end
  | EmptyString => (EmptyString, EmptyString)
  end.

(** [parseNanoseconds]: nine digits count, further ones are dropped. *)
Fixpoint nanos (width : nat) (s : string) : Z :=
  match width, s with
  | S w, String c s' => default 0 (digit c) * 10 ^ Z.of_nat w + nanos w s'
  | _, _ => 0
  end.

Definition parse_fraction (s : string) : Z * string :=
  match s with
  | String "."%char s' =>
      let '(d, r) := span_digits s' in
      if bool_decide (d = "") then (0, s) else (nanos 9 d, r)
  | _ => (0, s)
  end.

(** The zone: [Z], or an offset in hours and minutes. *)
Definition parse_zone (s : string) : option Duration :=
  match s with
  | String "Z"%char EmptyString => Some 0
  | String sign s' =>
      '(hr, s1) ← parseUint 2 0 23 s';
      s2 ← expect ":" s1;
      '(mm, s3) ← parseUint 2 0 59 s2;
      if negb (bool_decide (s3 = "")) then None
      else if Ascii.eqb sign "+" then Some ((hr * 60 + mm) * 60 * Second)
      else if Ascii.eqb sign "-" then Some (- ((hr * 60 + mm) * 60) * Second)
      else None
  | EmptyString => None
  end.

(** [parseRFC3339]. *)
Definition parseRFC3339 (s : string) : option Time :=
  '(year, s) ← parseUint 4 0 9999 s;
  s ← expect "-" s;
  '(month, s) ← parseUint 2 1 12 s;
  s ← expect "-" s;
  '(day, s) ← parseUint 2 1 (daysIn year month) s;
  s ← expect "T" s;
  '(hour, s) ← parseUint 2 0 23 s;
  s ← expect ":" s;
  '(min, s) ← parseUint 2 0 59 s;
  s ← expect ":" s;
  '(sec, s) ← parseUint 2 0 59 s;
  let '(nsec, s) := parse_fraction s in
  zone ← parse_zone s;
  Some (time_Date year month day hour min sec nsec - zone).

(** [time.Parse] with the layout RFC3339 or RFC3339Nano: the RFC 3339
    path first; what it refuses goes to the general layout parser, a
    parameter. *)
Definition time_Parse (general : string -> option Time) (s : string) : option Time :=
  match parseRFC3339 s with
  | Some t => Some t
  | None => general s
  end.

(** ** The calendar is a bijection *)

Lemma days_before_year_succ y :
  days_before_year (y + 1) = days_before_year y + (if isLeap y then 366 else 365).
Proof.
  unfold days_before_year, isLeap.
  destruct (Z.eqb_spec (y mod 4) 0), (Z.eqb_spec (y mod 100) 0), (Z.eqb_spec (y mod 400) 0);
    cbn [negb andb orb]; Z.to_euclidean_division_equations; lia.
Qed.

Lemma days_before_year_mono a b : a <= b -> days_before_year a <= days_before_year b.
Proof. unfold days_before_year. intros H. Z.to_euclidean_division_equations. lia. Qed.

Lemma year_day_spec n :
  let '(year, yday) := year_day n in
  days_before_year year + yday = n /\ 0 <= yday < (if isLeap year then 366 else 365).
Proof.
  unfold year_day.
  pose proof (Z.div_mod n 146097 ltac:(lia)) as E0.
  pose proof (Z.mod_pos_bound n 146097 ltac:(lia)) as B0.
  set (c := n / 146097) in *. set (n1 := n mod 146097) in *.
  assert (Hh : exists h, Z.min 3 (n1 / 36524) = h /\ 0 <= h <= 3 /\
    0 <= n1 - 36524 * h <= 36524 /\ (h < 3 -> n1 - 36524 * h < 36524)).
  { eexists. split; [reflexivity|]. Z.to_euclidean_division_equations. lia. }
  destruct Hh as (h & -> & Bh & B1 & L1). set (n2 := n1 - 36524 * h) in *.
  pose proof (Z.div_mod n2 1461 ltac:(lia)) as E2.
  pose proof (Z.mod_pos_bound n2 1461 ltac:(lia)) as B2.
  assert (Bq : 0 <= n2 / 1461 <= 24 /\ (n2 / 1461 = 24 -> h < 3 -> n2 mod 1461 < 1460)).
  { split; [Z.to_euclidean_division_equations; lia|]. intros Hq Hh. specialize (L1 Hh). lia. }
  set (q := n2 / 1461) in *. set (n3 := n2 mod 1461) in *.
  assert (Hy : exists y, Z.min 3 (n3 / 365) = y /\ 0 <= y <= 3 /\
    0 <= n3 - 365 * y <= 365 /\ (y < 3 -> n3 - 365 * y < 365)).
  { eexists. split; [reflexivity|]. Z.to_euclidean_division_equations. lia. }
  destruct Hy as (y & -> & By & B3 & L3). cbv beta iota zeta.
  assert (Y4 : (400 * c + 100 * h + 4 * q + y) / 4 = 100 * c + 25 * h + q)
    by (symmetry; apply (Z.div_unique _ 4 _ y); lia).
  assert (Y100 : (400 * c + 100 * h + 4 * q + y) / 100 = 4 * c + h)
    by (symmetry; apply (Z.div_unique _ 100 _ (4 * q + y)); lia).
  assert (Y400 : (400 * c + 100 * h + 4 * q + y) / 400 = c)
    by (symmetry; apply (Z.div_unique _ 400 _ (100 * h + 4 * q + y)); lia).
  split.
  { unfold days_before_year.
    replace (1 + 400 * c + 100 * h + 4 * q + y - 1) with (400 * c + 100 * h + 4 * q + y) by lia.
    rewrite Y4, Y100, Y400. lia. }
  split; [lia|]. unfold isLeap.
  destruct (Z.ltb_spec y 3) as [Hy|Hy]; [case_match; lia|]. assert (y = 3) as -> by lia.
  destruct (Z.eqb_spec ((1 + 400 * c + 100 * h + 4 * q + 3) mod 4) 0) as [_|N4];
    [|exfalso; Z.to_euclidean_division_equations; lia].
  destruct (Z.eqb_spec ((1 + 400 * c + 100 * h + 4 * q + 3) mod 100) 0) as [H100|_]; [|cbn; lia].
  assert (q = 24) as -> by (Z.to_euclidean_division_equations; lia).
  destruct (Z.eqb_spec ((1 + 400 * c + 100 * h + 4 * 24 + 3) mod 400) 0) as [_|N400]; [cbn; lia|].
  cbn [negb andb orb]. assert (h < 3) by (Z.to_euclidean_division_equations; lia). lia.
Qed.

Lemma daysIn_range year month : 28 <= daysIn year month <= 31.
Proof.
  unfold daysIn. destruct (month =? 2), (isLeap year); try lia.
  all: change 1 with (Z.ones 1); rewrite Z.land_ones by lia;
    pose proof (Z.mod_pos_bound (month + Z.shiftr month 3) (2 ^ 1)); lia.
Qed.

Lemma month_lengths_sum year :
  foldr Z.add 0 (month_lengths year) = if isLeap year then 366 else 365.
Proof. unfold month_lengths, daysIn. cbn. by destruct (isLeap year). Qed.

(** The search stops in the month that holds the day. *)
Lemma month_day_spec lengths m0 day :
  0 <= day < foldr Z.add 0 lengths ->
  let '(m, d) := month_day lengths m0 day in
  exists i, m = m0 + Z.of_nat i /\ (i < length lengths)%nat /\
    foldr Z.add 0 (take i lengths) + (d - 1) = day /\
    1 <= d <= default 0 (lengths !! i).
Proof.
  revert m0 day. induction lengths as [|l lengths IH]; intros m0 day H; cbn in *; [lia|].
  destruct (Z.ltb_spec day l).
  - exists 0%nat. cbn. split_and!; lia.
  - specialize (IH (m0 + 1) (day - l) ltac:(lia)).
    destruct (month_day lengths (m0 + 1) (day - l)) as [m d].
    destruct IH as (i & -> & Hi & Hs & Hd). exists (S i).
    rewrite Nat2Z.inj_succ. cbn -[Z.add Z.of_nat Z.sub]. split_and!; lia || apply Hd.
Qed.

Lemma month_lengths_lookup year i :
  (i < 12)%nat -> default 0 (month_lengths year !! i) = daysIn year (1 + Z.of_nat i).
Proof. intros H. do 12 (destruct i as [|i]; [done|]). lia. Qed.

(** The fields of an instant are in their ranges and give it back. *)
Record civil_ok (c : civil) : Prop := mk_civil_ok {
  ok_month : 1 <= c_month c <= 12;
  ok_day : 1 <= c_day c <= daysIn (c_year c) (c_month c);
  ok_hour : 0 <= c_hour c <= 23;
  ok_min : 0 <= c_min c <= 59;
  ok_sec : 0 <= c_sec c <= 59;
  ok_nsec : 0 <= c_nsec c < 10 ^ 9
}.

Definition of_civil (c : civil) : Time :=
  time_Date (c_year c) (c_month c) (c_day c) (c_hour c) (c_min c) (c_sec c) (c_nsec c).

Lemma civil_of_spec t : civil_ok (civil_of t) /\ of_civil (civil_of t) = t.
Proof.
  unfold civil_of. set (ns := t - zero_time).
  pose proof (year_day_spec (ns / Second / 86400)) as Hy.
  destruct (year_day (ns / Second / 86400)) as [year yday]. destruct Hy as [Hy Hb].
  rewrite <- month_lengths_sum in Hb.
  pose proof (month_day_spec (month_lengths year) 1 yday Hb) as Hm.
  destruct (month_day (month_lengths year) 1 yday) as [month day].
  destruct Hm as (i & -> & Hi & Hs & Hd). cbn in Hi. rewrite month_lengths_lookup in Hd by done.
  unfold of_civil, time_Date, days_before_month. cbn -[Z.mul Z.div Z.modulo month_lengths].
  replace (Z.to_nat (1 + Z.of_nat i - 1)) with i by lia.
  unfold Second in *. split.
  - split; cbn -[Z.div Z.modulo]; try lia; Z.to_euclidean_division_equations; lia.
  - set (m := foldr Z.add 0 (take i (month_lengths year))) in *.
    replace (days_before_year year + m + (day - 1)) with (ns / 1000000000 / 86400) by lia.
    unfold ns. clear. Z.to_euclidean_division_equations. lia.
Qed.

(** The year of an instant in the range of JSON timestamps. *)
Lemma civil_year t : json_year_ok t = true -> 0 <= c_year (civil_of t) <= 9999.
Proof.
  unfold json_year_ok, civil_of. rewrite andb_true_iff, Z.leb_le, Z.ltb_lt. intros H.
  pose proof (year_day_spec ((t - zero_time) / Second / 86400)) as Hy.
  destruct (year_day _) as [year yday]. destruct (month_day _ _ _) as [m d]. cbn.
  destruct Hy as [Hy Hb].
  assert (Hn : -366 <= (t - zero_time) / Second / 86400 <= 3652058).
  { unfold zero_time, Second in *. clear -H.
    split; [do 2 (apply Z.div_le_lower_bound; [lia|])|
            apply Z.lt_succ_r; do 2 (apply Z.div_lt_upper_bound; [lia|])]; lia. }
  pose proof (days_before_year_succ year) as Hn1. split.
  - destruct (Z.le_gt_cases 0 year) as [|Hneg]; [done|].
    pose proof (days_before_year_mono (year + 1) 0 ltac:(lia)) as Hm.
    change (days_before_year 0) with (-366) in Hm. lia.
  - destruct (Z.le_gt_cases year 9999) as [|Hbig]; [done|].
    pose proof (days_before_year_mono 10000 year ltac:(lia)) as Hm.
    change (days_before_year 10000) with 3652059 in Hm. lia.
Qed.

(** ** Printing and reading back *)

Lemma digit_digit_char d : 0 <= d <= 9 -> digit (digit_char d) = Some d.
Proof.
  intros H. unfold digit, digit_char. rewrite Ascii.nat_ascii_embedding by lia.
  rewrite (proj2 (Nat.leb_le 48 _)), (proj2 (Nat.leb_le _ 57)) by lia. cbn. f_equal. lia.
Qed.

Lemma read_digits_pad w acc n s :
  0 <= n < 10 ^ Z.of_nat w ->
  read_digits w acc (pad w n +:+ s) = Some (acc * 10 ^ Z.of_nat w + n, s).
Proof.
  revert acc n. induction w as [|w IH]; intros acc n Hn.
  { cbn in *. f_equal. f_equal. lia. }
  pose proof (Z.pow_pos_nonneg 10 (Z.of_nat w) ltac:(lia) ltac:(lia)) as Hp.
  rewrite Nat2Z.inj_succ, Z.pow_succ_r in Hn by lia.
  assert (Hd : 0 <= n / 10 ^ Z.of_nat w < 10)
    by (split; [apply Z.div_pos|apply Z.div_lt_upper_bound]; lia).
  cbn [pad]. rewrite app_cons. cbn [read_digits].
  rewrite digit_digit_char by lia. cbn [mbind option_bind].
  rewrite IH by (apply Z.mod_pos_bound; lia). do 2 f_equal.
  rewrite Nat2Z.inj_succ, Z.pow_succ_r by lia.
  pose proof (Z.div_mod n (10 ^ Z.of_nat w)). nia.
Qed.

Lemma parseUint_appendInt w lo hi n s :
  0 <= n < 10 ^ Z.of_nat w -> lo <= n <= hi ->
  parseUint w lo hi (appendInt n w +:+ s) = Some (n, s).
Proof.
  intros Hn Hr. unfold parseUint, appendInt.
  rewrite (proj2 (Z.ltb_ge n 0)), Z.abs_eq, (proj2 (Z.ltb_lt _ _)) by lia.
  change ("" +:+ pad w n) with (pad w n).
  rewrite read_digits_pad by done. cbn [mbind option_bind].
  rewrite (proj2 (Z.ltb_ge _ lo)), (proj2 (Z.ltb_ge hi _)) by lia. do 2 f_equal.
Qed.

Lemma leading_digit w n : 0 <= n < 10 ^ Z.of_nat (S w) -> 0 <= n / 10 ^ Z.of_nat w <= 9.
Proof.
  pose proof (Z.pow_pos_nonneg 10 (Z.of_nat w) ltac:(lia) ltac:(lia)) as Hp.
  rewrite Nat2Z.inj_succ, Z.pow_succ_r by lia. intros Hn.
  split; [apply Z.div_pos; lia|]. apply Z.lt_succ_r, Z.div_lt_upper_bound; lia.
Qed.

Lemma rest_range w n : 0 <= n mod 10 ^ Z.of_nat w < 10 ^ Z.of_nat w.
Proof. apply Z.mod_pos_bound, Z.pow_pos_nonneg; lia. Qed.

Lemma span_digits_fraction w n c s :
  0 <= n < 10 ^ Z.of_nat w -> digit c = None ->
  span_digits (fraction w n +:+ String c s) = (fraction w n, String c s).
Proof.
  intros Hn Hc. revert n Hn. induction w as [|w IH]; intros n Hn.
  { cbn [fraction]. rewrite app_nil_string. cbn [span_digits]. by rewrite Hc. }
  cbn [fraction]. destruct (n =? 0).
  { rewrite app_nil_string. cbn [span_digits]. by rewrite Hc. }
  rewrite app_cons. cbn [span_digits].
  rewrite digit_digit_char by (by apply leading_digit).
  by rewrite IH by (apply rest_range).
Qed.

Lemma nanos_fraction w n : 0 <= n < 10 ^ Z.of_nat w -> nanos w (fraction w n) = n.
Proof.
  revert n. induction w as [|w IH]; intros n Hn; [cbn in *; lia|].
  cbn [fraction]. destruct (Z.eqb_spec n 0) as [->|H0]; [done|]. cbn [nanos].
  rewrite digit_digit_char by (by apply leading_digit).
  rewrite IH by (apply rest_range). cbn [default].
  pose proof (Z.pow_pos_nonneg 10 (Z.of_nat w) ltac:(lia) ltac:(lia)).
  pose proof (Z.div_mod n (10 ^ Z.of_nat w)). unfold id. lia.
Qed.

Lemma parse_fraction_format n :
  0 <= n < 10 ^ 9 ->
  parse_fraction ((if n =? 0 then "" else "." +:+ fraction 9 n) +:+ "Z") = (n, "Z").
Proof.
  intros Hn. destruct (Z.eqb_spec n 0) as [->|H0]; [done|].
  rewrite !app_cons, app_nil_string. cbn [parse_fraction].
  rewrite span_digits_fraction by done. rewrite bool_decide_eq_false_2.
  - by rewrite nanos_fraction.
  - cbn [fraction]. by rewrite (proj2 (Z.eqb_neq n 0)).
Qed.

Lemma bind_some {A B} (x : option A) a (k : A -> option B) : x = Some a -> x ≫= k = k a.
Proof. by intros ->. Qed.

(** A number and the separator behind it. *)
Lemma read_field {A} w lo hi n c s (k : Z -> string -> option A) :
  0 <= n < 10 ^ Z.of_nat w -> lo <= n <= hi ->
  ('(x, s') ← parseUint w lo hi (appendInt n w +:+ String c "" +:+ s);
   s'' ← expect c s'; k x s'') = k n s.
Proof.
  intros Hn Hr. rewrite parseUint_appendInt by done. rewrite app_cons, app_nil_string.
  cbn [mbind option_bind expect]. by rewrite Ascii.eqb_refl.
Qed.

Lemma parse_format_civil c :
  civil_ok c -> 0 <= c_year c <= 9999 -> parseRFC3339 (format_civil c) = Some (of_civil c).
Proof.
  intros [Hm Hd Hh Hmin Hs Hns] Hy. pose proof (daysIn_range (c_year c) (c_month c)) as Hdays.
  unfold parseRFC3339, format_civil.
  do 5 (erewrite read_field by lia; cbv beta).
  erewrite bind_some by (by apply parseUint_appendInt; lia). cbv beta iota.
  rewrite parse_fraction_format by done. cbv beta iota.
  erewrite bind_some by reflexivity. by rewrite Z.sub_0_r.
Qed.

(** A timestamp survives its text: the RFC 3339 rendering of an instant
    of the years 0 to 9999, with its nanoseconds and whatever trailing
    zeros are dropped, parses back to the same instant, whatever the
    general layout parser does. *)
Lemma time_Parse_Format general t :
  json_year_ok t = true -> time_Parse general (time_Format t) = Some t.
Proof.
  intros Hok. destruct (civil_of_spec t) as [Hc Ht]. unfold time_Parse, time_Format.
  by rewrite parse_format_civil, Ht by (done || by apply civil_year).
Qed.

(** A quarter of a second past a minute, and the leap day of the year 2000. *)
Example timestamps :
  time_Format 1794807540250000000 = "2026-11-16T05:39:00.25Z" /\
  parseRFC3339 "2000-02-29T12:00:00+05:30" = Some 951805800000000000 /\
  parseRFC3339 "1900-02-29T12:00:00Z" = None.
Proof. by vm_compute. Qed.
