(* ===== verification/Registry.v ===== *)
(** * Worker heartbeats: internal/worker/registry.go

    A worker refreshes an expiring Redis key and its entry of the set
    [workers:active]; the API lists the members whose key is alive and
    drops the others from the set. *)

From S2P Require Import Prelude GoRuntime Strings Engine Sql Schema Effects Lock Rfc3339.

Local Open Scope Z_scope.
Local Open Scope go_scope.

(** ** The interface *)

Record Info := mkInfo {
  wi_WorkerID : string;
  wi_Status : string;
  wi_LastHeartbeat : Time
}.

Record Registry := mkRegistry {
  rg_Heartbeat : string -> Duration -> M unit;
  rg_ActiveWorkers : M (list Info)
}.

(** What the worker and the API rely on: a registry keeps out of
    PostgreSQL. *)
Class RegistryLaws (R : Registry) : Prop := {
  heartbeat_frame : forall id ttl, db_frame (rg_Heartbeat R id ttl);
  active_frame : db_frame (rg_ActiveWorkers R)
}.

(** ** Redis *)

Definition active_set : string := "workers:active".

(** [SET key value] with an expiration: a positive one becomes [PX] or
    [EX], [redis.KeepTTL] (-1) keeps the old expiry, any other none. *)
Definition redis_set (key value : string) (ttl : Duration) (now : Time) (r : Redis) : Redis :=
  let expiry :=
    if 0 <? ttl then Some (now + ttl_millis ttl * Millisecond)
    else if ttl =? -1
    then match redis_get now r key, rd_strings r !! key with
         | Some _, Some (_, old) => old
         | _, _ => None
         end
    else None in
  r <| rd_strings := <[key := (value, expiry)]> (rd_strings r) |>.

Definition members (key : string) (r : Redis) : gset string := default ∅ (rd_sets r !! key).

Definition redis_sadd (key member : string) (r : Redis) : Redis :=
  r <| rd_sets := <[key := {[ member ]} ∪ members key r]> (rd_sets r) |>.

Definition redis_srem (key member : string) (r : Redis) : Redis :=
  r <| rd_sets := <[key := members key r ∖ {[ member ]}]> (rd_sets r) |>.

(** [SMEMBERS] answers in an order of the server's choice. *)
Definition SMembers (key : string) : M (list string) := fun e w =>
  redis_exec (fun _ r => Ok (r,
    order_by (fun id => [e_rank e (w_tick w) (N.pos (encode id))]) (elements (members key r))))
    e w.

(** [None] is [redis.Nil]. *)
Definition redis_Get (key : string) : M (option string) :=
  redis_exec (fun now r => Ok (r, redis_get now r key)).

Definition SRem (key member : string) : M unit :=
  redis_exec (fun _ r => Ok (redis_srem key member r, tt)).

(** ** [RedisRegistry] *)

Definition heartbeatKey (workerID : string) : string :=
  "worker:" +:+ TrimSpace workerID +:+ ":heartbeat".

(** The two commands of the [MULTI]/[EXEC] pipeline run as one. *)
Definition Heartbeat (workerID : string) (ttl : Duration) : M unit :=
  now ← time_Now;
  redis_exec (fun rnow r =>
    Ok (redis_sadd active_set workerID
          (redis_set (heartbeatKey workerID) (time_Format now) ttl rnow r), tt)).

Section Active.
(** The general layout parser behind [time.Parse]. *)
Context (general : string -> option Time).

Definition worker_info (id value : string) : Info :=
  {| wi_WorkerID := id; wi_Status := "active";
     wi_LastHeartbeat := default zero_time (time_Parse general value) |}.

(** The loop over the members. *)
Fixpoint active_loop (ids : list string) : M (list Info) :=
  match ids with
  | [] => mret []
  | id :: ids' =>
      r ← try (redis_Get (heartbeatKey id));
      match r with
      | Ok None => try (SRem active_set id);; active_loop ids'
      | Err err => fail err
      | Ok (Some value) =>
          workers ← active_loop ids';
          mret (worker_info id value :: workers)
      end
  end.

Definition ActiveWorkers : M (list Info) :=
  ids ← SMembers active_set;
  active_loop ids.

Definition RedisRegistry : Registry :=
  {| rg_Heartbeat := Heartbeat; rg_ActiveWorkers := ActiveWorkers |}.
End Active.

(** ** [NoopRegistry] *)

Definition NoopRegistry : Registry :=
  {| rg_Heartbeat := fun _ _ => mret tt; rg_ActiveWorkers := mret [] |}.

(** ** Lemmas *)

Lemma db_frame_try {A} (m : M A) : db_frame m -> db_frame (try m).
Proof. intros F e w. specialize (F e w). unfold try. by destruct (m e w). Qed.

Lemma db_frame_fail {A} err : db_frame (fail err : M A).
Proof. done. Qed.

#[export] Hint Resolve db_frame_try db_frame_fail : sched.

Lemma db_frame_active_loop general ids : db_frame (active_loop general ids).
Proof.
  induction ids as [|id ids IH]; cbn; [auto with sched|].
  apply db_frame_bind; [unfold redis_Get; auto with sched|].
  intros [[v|]|err]; unfold SRem; auto with sched.
Qed.

#[export] Instance RedisRegistry_laws general : RegistryLaws (RedisRegistry general).
Proof.
  split; cbn.
  - intros id ttl. apply db_frame_bind; [done|]. intros now. apply db_frame_redis.
  - apply db_frame_bind; [intros e w; apply redis_exec_frame|].
    apply db_frame_active_loop.
Qed.

#[export] Instance NoopRegistry_laws : RegistryLaws NoopRegistry.
Proof. by split. Qed.

Lemma members_srem key x r : members key (redis_srem key x r) = members key r ∖ {[ x ]}.
Proof. unfold members at 1, redis_srem. cbn. by rewrite lookup_insert_eq. Qed.

Lemma members_sadd key x r : members key (redis_sadd key x r) = {[ x ]} ∪ members key r.
Proof. unfold members at 1, redis_sadd. cbn. by rewrite lookup_insert_eq. Qed.

(** The server's clock does not run backwards. *)
Definition redis_clock (e : env) : Prop :=
  forall n m, (n <= m)%nat -> e_redisnow e n <= e_redisnow e m.

Section Listing.
Context (general : string -> option Time) (e : env) (He : healthy e) (Hc : redis_clock e).

(** What the loop over [ids] finds, between its first and last tick. *)
Record listing (ids : list string) (w w' : world) (infos : list Info) : Prop := mk_listing {
  li_tick : (w_tick w <= w_tick w')%nat;
  li_strings : rd_strings (w_redis w') = rd_strings (w_redis w);
  li_hashes : rd_hashes (w_redis w') = rd_hashes (w_redis w);
  li_members : forall id, id ∈ members active_set (w_redis w') <->
    id ∈ members active_set (w_redis w) /\ (id ∈ ids -> id ∈ wi_WorkerID <$> infos);
  li_sound : forall i, i ∈ infos -> wi_WorkerID i ∈ ids /\ exists v,
    redis_get (e_redisnow e (w_tick w)) (w_redis w) (heartbeatKey (wi_WorkerID i)) = Some v /\
    i = worker_info general (wi_WorkerID i) v;
  li_complete : forall id v, id ∈ ids ->
    redis_get (e_redisnow e (w_tick w')) (w_redis w) (heartbeatKey id) = Some v ->
    id ∈ wi_WorkerID <$> infos
}.

Lemma redis_get_strings now r r' k :
  rd_strings r' = rd_strings r -> redis_get now r' k = redis_get now r k.
Proof. unfold redis_get. by intros ->. Qed.

Lemma active_loop_listing ids w :
  NoDup ids -> exists infos w', active_loop general ids e w = (Ok infos, w') /\
    listing ids w w' infos /\ w_db w' = w_db w /\ NoDup (wi_WorkerID <$> infos).
Proof.
  revert w. induction ids as [|id ids IH]; intros w Hnd.
  { exists [], w. split; [done|]. split; [|split; [done|constructor]].
    split; try done; set_solver. }
  apply NoDup_cons in Hnd as [Hid Hnd]. cbn [active_loop].
  unfold mbind at 1, M_bind at 1, try at 1, redis_Get.
  rewrite (redis_exec_healthy _ He). cbn [mbind].
  set (now := e_redisnow e (w_tick w)).
  destruct (redis_get now (w_redis w) (heartbeatKey id)) as [v|] eqn:Hg.
  - unfold mbind, M_bind. set (w1 := upd w_tick _ _).
    destruct (IH w1 Hnd) as (infos & w' & -> & L & Hdb & Hn).
    do 2 eexists. split; [reflexivity|]. destruct L as [T S H M So C]. cbn in *.
    split; [|split; [done|]].
    + split; try done; [lia|..].
      * intros id'. rewrite M. set_solver.
      * intros i [->|Hi]%elem_of_cons; cbn.
        { split; [left|]. by exists v. }
        destruct (So i Hi) as (? & v' & Hv' & E). split; [by right|]. exists v'. split; [|done].
        eapply redis_get_mono; [|exact Hv']. apply Hc. lia.
      * intros id' v' [->|Hi]%elem_of_cons Hv'; [left|]. right. by eapply C.
    + constructor; [|done]. intros (i & Hi & Hin)%list_elem_of_fmap.
      apply So in Hin as [Hin _]. congruence.
  - unfold SRem, try, mbind, M_bind. rewrite (redis_exec_healthy _ He).
    set (w1 := upd w_tick _ _). destruct (IH w1 Hnd) as (infos & w' & -> & L & Hdb & Hn).
    do 2 eexists. split; [reflexivity|]. destruct L as [T S H M So C]. cbn in *.
    split; [|by split]. split; try done; [lia|..].
    + intros id'. rewrite M, members_srem.
      assert (id ∉ wi_WorkerID <$> infos); [|set_solver].
      intros (i & -> & Hi)%list_elem_of_fmap. by apply So in Hi as [Hi _].
    + intros i Hi. destruct (So i Hi) as (? & v' & Hv' & E). split; [by right|].
      exists v'. split; [|done]. eapply redis_get_mono; [apply Hc|exact Hv']. lia.
    + intros id' v' [->|Hi]%elem_of_cons Hv'; [|by eapply C].
      exfalso. eapply (redis_get_mono now) in Hv'; [congruence|]. apply Hc. lia.
Qed.
End Listing.

(** ** Correctness *)

Section Correct.
Context (general : string -> option Time) (e : env) (He : healthy e) (Hc : redis_clock e).

Lemma ActiveWorkers_listing w : exists infos w',
  ActiveWorkers general e w = (Ok infos, w') /\ w_db w' = w_db w /\
  NoDup (wi_WorkerID <$> infos) /\
  listing general e (elements (members active_set (w_redis w))) w w' infos.
Proof.
  unfold ActiveWorkers, mbind, M_bind, SMembers. rewrite (redis_exec_healthy _ He).
  set (ids := order_by _ _). set (w1 := upd w_tick _ _).
  assert (P : ids ≡ₚ elements (members active_set (w_redis w))) by apply order_by_perm.
  destruct (active_loop_listing general e He Hc ids w1) as (infos & w' & -> & L & Hdb & Hn).
  { rewrite P. apply NoDup_elements. }
  exists infos, w'. split_and!; try done. destruct L as [T S H M So C]. cbn in *.
  split; try done; [lia|..].
  - intros id. by rewrite M, P.
  - intros i Hi. destruct (So i Hi) as (Hin & v & Hv & E). rewrite P in Hin.
    split; [done|]. exists v. split; [|done].
    eapply redis_get_mono; [apply Hc|exact Hv]. lia.
  - intros id v Hin. rewrite <- P in Hin. by apply C.
Qed.

(** Listing the live workers, in a healthy environment whose Redis
    clock does not run backwards: every listed worker is a member whose
    heartbeat was alive when the listing began, with the time it stored;
    every member whose heartbeat is alive when it ends is listed, once;
    afterwards the set holds exactly the listed workers, and no heartbeat,
    lock or rate-limit bucket was touched. *)
Theorem ActiveWorkers_spec w : exists infos w',
  ActiveWorkers general e w = (Ok infos, w') /\ NoDup (wi_WorkerID <$> infos) /\
  (forall i, i ∈ infos -> wi_WorkerID i ∈ members active_set (w_redis w) /\
     exists v, redis_get (e_redisnow e (w_tick w)) (w_redis w)
                 (heartbeatKey (wi_WorkerID i)) = Some v /\
               i = worker_info general (wi_WorkerID i) v) /\
  (forall id, id ∈ members active_set (w_redis w) ->
     is_Some (redis_get (e_redisnow e (w_tick w')) (w_redis w) (heartbeatKey id)) ->
     id ∈ wi_WorkerID <$> infos) /\
  (forall id, id ∈ members active_set (w_redis w') <-> id ∈ wi_WorkerID <$> infos) /\
  rd_strings (w_redis w') = rd_strings (w_redis w) /\
  rd_hashes (w_redis w') = rd_hashes (w_redis w) /\ w_db w' = w_db w.
Proof.
  destruct (ActiveWorkers_listing w) as (infos & w' & E & Hdb & Hn & [T S H M So C]).
  exists infos, w'. split_and!; try done.
  - intros i Hi. destruct (So i Hi) as [Hin ?]. by rewrite elem_of_elements in Hin.
  - intros id Hin [v Hv]. eapply C; [|exact Hv]. by rewrite elem_of_elements.
  - intros id. rewrite M, elem_of_elements. split; [tauto|]. intros Hid. split; [|done].
    apply list_elem_of_fmap in Hid as (i & -> & Hi). apply So in Hi as [Hin _].
    by rewrite elem_of_elements in Hin.
Qed.

(** A heartbeat is what the API shows.  After a heartbeat with a
    positive time to live, and whatever others do meanwhile that leaves
    the worker's key and its membership alone, a listing that ends before
    the key expires shows the worker as active with the very instant of
    its heartbeat; a listing that begins after the expiry shows it no
    more and drops it from the set. *)
Theorem heartbeat_roundtrip id ttl w w2 :
  0 < ttl -> json_year_ok (e_time e (w_tick w)) = true ->
  let w1 := (Heartbeat id ttl e w).2 in
  rd_strings (w_redis w2) !! heartbeatKey id = rd_strings (w_redis w1) !! heartbeatKey id ->
  id ∈ members active_set (w_redis w2) ->
  let expiry := e_redisnow e (S (w_tick w)) + ttl_millis ttl * Millisecond in
  (Heartbeat id ttl e w).1 = Ok tt /\
  exists infos w', ActiveWorkers general e w2 = (Ok infos, w') /\
    (e_redisnow e (w_tick w') < expiry ->
       mkInfo id "active" (e_time e (w_tick w)) ∈ infos) /\
    (expiry <= e_redisnow e (w_tick w2) ->
       id ∉ wi_WorkerID <$> infos /\ id ∉ members active_set (w_redis w')).
Proof.
  intros Httl Hyear w1 Hkey Hmem expiry.
  assert (E1 : (Heartbeat id ttl e w).1 = Ok tt /\ rd_strings (w_redis w1) !! heartbeatKey id =
    Some (time_Format (e_time e (w_tick w)), Some expiry)).
  { subst w1. unfold Heartbeat. rewrite time_Now_bind, (redis_exec_healthy _ He).
    split; [done|]. cbn. rewrite (proj2 (Z.ltb_lt 0 ttl) Httl). cbn.
    by rewrite lookup_insert_eq. }
  destruct E1 as [E1 E2]. split; [done|]. rewrite E2 in Hkey.
  destruct (ActiveWorkers_listing w2) as (infos & w' & E & _ & _ & [T S H M So C]).
  exists infos, w'. split; [done|]. split; intros Ht.
  - assert (Hl : id ∈ wi_WorkerID <$> infos).
    { eapply C; [by rewrite elem_of_elements|]. unfold redis_get.
      rewrite Hkey, (proj2 (Z.ltb_lt _ _) Ht). done. }
    apply list_elem_of_fmap in Hl as (i & -> & Hi).
    destruct (So i Hi) as (_ & v & Hv & Ei). unfold redis_get in Hv. rewrite Hkey in Hv.
    case_match; [|done]. injection Hv as <-. unfold worker_info in Ei.
    rewrite time_Parse_Format in Ei by done. cbn in Ei. rewrite <- Ei. done.
  - assert (Hl : id ∉ wi_WorkerID <$> infos).
    { intros (i & -> & Hi)%list_elem_of_fmap. destruct (So i Hi) as (_ & v & Hv & _).
      unfold redis_get in Hv. rewrite Hkey in Hv.
      by rewrite (proj2 (Z.ltb_ge _ _) Ht) in Hv. }
    split; [done|]. rewrite M, elem_of_elements. intros [_ Hin]. by apply Hl, Hin.
Qed.
End Correct.

(** ** Witnesses *)

(** Clocks that advance a second per tick. *)
Definition env_seconds : env :=
  {| e_uuid := N.of_nat; e_time := fun n => Z.of_nat n * Second;
     e_pgnow := fun n => Z.of_nat n * Second; e_redisnow := fun n => Z.of_nat n * Second;
     e_outcome := fun _ => Applied; e_others := fun _ d => d; e_redis_others := fun _ r => r;
     e_renewals := fun _ => 0%nat; e_locked := fun _ _ => false; e_rank := fun _ _ => 0;
     e_rows := fun _ => 0%nat |}.

Lemma env_seconds_healthy : healthy env_seconds.
Proof. by split. Qed.

Lemma env_seconds_clock : redis_clock env_seconds.
Proof. intros n m H. cbn. unfold Second. lia. Qed.

(** Worker a beats for ten seconds, worker b for one. *)
Definition two_beats : world :=
  (Heartbeat "b" Second env_seconds (Heartbeat "a" (10 * Second) env_seconds empty_world).2).2.

Lemma ActiveWorkers_spec_witness : exists infos w',
  ActiveWorkers (fun _ => None) env_seconds two_beats = (Ok infos, w') /\
  infos = [mkInfo "a" "active" 0] /\ members active_set (w_redis w') = {["a"]}.
Proof.
  destruct (ActiveWorkers_spec (fun _ => None) env_seconds env_seconds_healthy
              env_seconds_clock two_beats) as (infos & w' & E & _).
  exists infos, w'. split; [exact E|]. vm_compute in E. injection E as <- <-. by vm_compute.
Defined.

Lemma heartbeat_roundtrip_witness : exists infos w',
  ActiveWorkers (fun _ => None) env_seconds two_beats = (Ok infos, w') /\
  mkInfo "a" "active" 0 ∈ infos.
Proof.
  destruct (heartbeat_roundtrip (fun _ => None) env_seconds env_seconds_healthy
    env_seconds_clock "a" (10 * Second) empty_world two_beats) as (_ & infos & w' & E & H & _).
  - by vm_compute.
  - by vm_compute.
  - by vm_compute.
  - by apply (bool_decide_unpack _); vm_compute.
  - exists infos, w'. split; [exact E|]. apply H. vm_compute in E. injection E as _ <-.
    by vm_compute.
Defined.
