(* ===== verification/Worker.v ===== *)
(** * The worker: internal/worker/service.go

    [ProcessJob] and the polling loop.  The renewal goroutine and the
    handler run side by side in the source; only the renewals touch shared
    state, so they are placed before the handler, whose answer may depend
    on whether a renewal cancelled it.  How many renewals happen is up to
    the environment.  [Pool] has the same code with all its goroutines at
    work at once. *)

From S2P Require Import Prelude GoRuntime Engine Sql Schema Effects Json Dto Repository Auth Service Executor Lock Rfc3339 Registry.

Local Open Scope Z_scope.
Local Open Scope go_scope.

(** ** The service *)

(** The context handed to the executor. *)
Record ExecCtx := mkExecCtx {
  xc_Timeout : Duration;
  xc_Cancelled : bool
}.

(** [ExecutorInterface]. *)
Abbreviation ExecutorInterface := (ExecCtx -> Job -> M string).

Record Worker := mkWorker {
  wk_executor : ExecutorInterface;
  wk_workerID : string;
  wk_concurrency : Z;
  wk_batchSize : Z;
  wk_pollInterval : Duration;
  wk_lockTTL : Duration;
  wk_lockManager : LockManager;
  wk_metrics : Recorder;
  wk_registry : Registry;
  wk_heartbeatTTL : Duration;
  wk_heartbeatInterval : Duration
}.

#[export] Instance eta_Worker : Eta Worker := fun s =>
  mkWorker (wk_executor s) (wk_workerID s) (wk_concurrency s) (wk_batchSize s)
    (wk_pollInterval s) (wk_lockTTL s) (wk_lockManager s) (wk_metrics s)
    (wk_registry s) (wk_heartbeatTTL s) (wk_heartbeatInterval s).
#[export] Instance upd_wk_lockManager : Upd wk_lockManager := ltac:(mk_upd wk_lockManager).
#[export] Instance upd_wk_metrics : Upd wk_metrics := ltac:(mk_upd wk_metrics).
#[export] Instance upd_wk_registry : Upd wk_registry := ltac:(mk_upd wk_registry).
#[export] Instance upd_wk_heartbeatTTL : Upd wk_heartbeatTTL :=
  ltac:(mk_upd wk_heartbeatTTL).
#[export] Instance upd_wk_heartbeatInterval : Upd wk_heartbeatInterval :=
  ltac:(mk_upd wk_heartbeatInterval).

Definition NewService (executor : ExecutorInterface) (workerID : string)
    (concurrency batchSize : Z) (pollInterval lockTTL : Duration) : M Worker :=
  workerID ← (if bool_decide (workerID = "")
              then id ← uuid_New; mret ("worker-" +:+ uuid_String id)
              else mret workerID);
  mret {| wk_executor := executor;
          wk_workerID := workerID;
          wk_concurrency := if concurrency <? 1 then 1 else concurrency;
          wk_batchSize := if batchSize <? 1 then 1 else batchSize;
          wk_pollInterval := pollInterval;
          wk_lockTTL := lockTTL;
          wk_lockManager := noopLockManager;
          wk_metrics := NoopRecorder;
          wk_registry := NoopRegistry;
          wk_heartbeatTTL := 30 * Second;
          wk_heartbeatInterval := 10 * Second |}.

Definition WithLockManager (s : Worker) (lockManager : option LockManager) : Worker :=
  match lockManager with None => s | Some l => s <| wk_lockManager := l |> end.

Definition WithMetrics (s : Worker) (metrics : option Recorder) : Worker :=
  match metrics with None => s | Some m => s <| wk_metrics := m |> end.

Definition WithRegistry (s : Worker) (registry : option Registry)
    (ttl interval : Duration) : Worker :=
  let s := match registry with None => s | Some g => s <| wk_registry := g |> end in
  let s := if 0 <? ttl then s <| wk_heartbeatTTL := ttl |> else s in
  if 0 <? interval then s <| wk_heartbeatInterval := interval |> else s.

(** ** One job *)

(** [fmt.Errorf(action + ": %w", err)]. *)
Definition errorf (action : string) (err : error) : error :=
  Wrapped (action +:+ ": " +:+ error_text err) err.

(** [if err := m; err != nil { return fmt.Errorf(action + ": %w", err) }]. *)
Definition check {A} (action : string) (m : M A) : M A := fun e w =>
  match m e w with
  | (Err err, w') => (Err (errorf action err), w')
  | ok => ok
  end.

Definition lock_key (j : Job) : string := "lock:job:" +:+ uuid_String (j_ID j).

Definition lease_ttl (s : Worker) (j : Job) : Duration :=
  if wk_lockTTL s <=? 0 then int_mul (int_add (j_TimeoutSeconds j) 60) Second
  else wk_lockTTL s.

Definition exec_timeout (j : Job) : Duration :=
  let timeout := int_mul (j_TimeoutSeconds j) Second in
  if timeout <=? 0 then 300 * Second else timeout.

Definition renew_interval (ttl : Duration) : Duration :=
  let interval := Z.quot ttl 3 in
  let interval := if interval <? Second then Second else interval in
  if 5 * Second <? interval then 5 * Second else interval.

(** [ticks] firings of the renewal ticker; [true] when a lost lease
    cancelled the execution. *)
Fixpoint renewLease (ticks : nat) (s : Worker) (lockKey : string) (jobID : UUID)
    (ttl : Duration) : M bool :=
  match ticks with
  | O => mret false
  | S ticks' =>
      r ← try (ExtendLease jobID (wk_workerID s) ttl);
      match r with
      | Ok true =>
          match lm_Extend (wk_lockManager s) with
          | None => renewLease ticks' s lockKey jobID ttl
          | Some extend =>
              r ← try (extend lockKey (wk_workerID s) ttl);
              match r with
              | Ok true => renewLease ticks' s lockKey jobID ttl
              | _ => mret true
              end
          end
      | _ => mret true
      end
  end.

Definition renewals : M nat := fun e w =>
  (Ok (e_renewals e (w_tick w)), w <| w_tick := S (w_tick w) |>).

(** The attempt of a job that was not claimed by [ClaimDueJobs]. *)
Definition ensure_attempt (s : Worker) (j : Job) : M Job :=
  if bool_decide (j_ActiveAttemptID j = uuid_Nil)
  then
    attempt ← check "create attempt"
      (CreateAttempt (j_ID j) (wk_workerID s) (int_add (j_RetryCount j) 1));
    mret (j <| j_ActiveAttemptID := a_ID attempt |>
            <| j_AttemptNumber := int_add (j_RetryCount j) 1 |>)
  else mret j.

(** The decision taken for a failed execution. *)
Definition next_status (decision : FailureDecision) (outcome : ExecutionResult) : Status :=
  if bool_decide (fd_Status decision = StatusDeadLettered) || negb (er_Retryable outcome)
  then StatusDeadLettered else StatusRetryScheduled.

Definition next_run_at (decision : FailureDecision) (err : error) : M Time :=
  if 0 <? retryAfter err
  then now ← time_Now; mret (time_add now (retryAfter err))
  else mret (fd_NextRunAt decision).

Definition finalize_failure (s : Worker) (j : Job) (duration : Duration) (err : error)
    : M unit :=
  let outcome := ClassifyError err in
  wk_metrics s (JobFailed (j_JobType j));;
  now ← time_Now;
  let decision := DecideFailure now (j_RetryCount j) (j_MaxRetries j)
                    (j_RetryBackoffSeconds j) in
  nextRunAt ← next_run_at decision err;
  let nextStatus := next_status decision outcome in
  r ← try (FailExecution j (wk_workerID s) duration outcome nextStatus
             (fd_NextRetryCount decision) nextRunAt);
  match r with
  | Err failErr =>
      if errors_Is err ContextCanceled && errors_Is failErr ErrConflict then mret tt
      else fail (errorf "finalize failed execution" failErr)
  | Ok _ =>
      if bool_decide (nextStatus = StatusDeadLettered)
      then wk_metrics s (JobDeadLettered (j_JobType j)) else mret tt
  end.

(** [ProcessJob] once the lock is held. *)
Definition process_locked (s : Worker) (j : Job) : M unit :=
  j ← ensure_attempt s j;
  started ← time_Now;
  ticks ← renewals;
  cancelled ← renewLease ticks s (lock_key j) (j_ID j) (lease_ttl s j);
  r ← try (wk_executor s {| xc_Timeout := exec_timeout j; xc_Cancelled := cancelled |} j);
  finished ← time_Now;
  let duration := time_Sub finished started in
  match r with
  | Ok result =>
      check "mark succeeded" (CompleteExecution j (wk_workerID s) duration result);;
      wk_metrics s (JobCompleted (j_JobType j) duration)
  | Err err => finalize_failure s j duration err
  end.

Definition ProcessJob (s : Worker) (j : Job) : M unit :=
  acquired ← check "acquire redis lock"
    (lm_Acquire (wk_lockManager s) (lock_key j) (wk_workerID s) (lease_ttl s j));
  if negb acquired
  then check "release claim after lock miss"
         (ReleaseClaim (j_ID j) (wk_workerID s) StatusRetryScheduled)
  else deferred (process_locked s j)
         (lm_Release (wk_lockManager s) (lock_key j) (wk_workerID s);; mret tt).

(** ** The loop *)

(** One tick of [Run]: recovery, whose error is only logged, then the
    claim; the result goes to the worker slots. *)
Definition poll (s : Worker) : M (list Job) :=
  try (RecoverExpiredRunningJobs "worker lease expired before completion");;
  claimed ← ClaimDueJobs (wk_workerID s) (wk_batchSize s) (wk_lockTTL s);
  wk_metrics s (WorkerClaimed (Z.of_nat (length claimed)));;
  mret claimed.

(** What a slot does with the jobs it receives; errors are logged. *)
Fixpoint consume (s : Worker) (items : list Job) : M unit :=
  match items with
  | [] => mret tt
  | j :: items' => try (ProcessJob s j);; consume s items'
  end.

(** At most [ticks] rounds of the loop of [Run].  A failed claim skips to the next
    tick; [cut] says whether cancellation ends a round's dispatch after
    some jobs, and with it the loop. *)
Fixpoint run_loop (ticks : nat) (cut : nat -> option nat) (s : Worker) : M unit :=
  match ticks with
  | O => mret tt
  | S ticks' =>
      r ← try (poll s);
      match r with
      | Err _ => run_loop ticks' cut s
      | Ok claimed =>
          match cut ticks' with
          | Some k => consume s (take k claimed)
          | None => consume s claimed;; run_loop ticks' cut s
          end
      end
  end.

Definition Run (ticks : nat) (cut : nat -> option nat) (s : Worker) : M unit :=
  time_NewTicker (wk_pollInterval s);; run_loop ticks cut s.

(** One turn of [heartbeatLoop]. *)
Definition heartbeat_turn (s : Worker) : M unit :=
  try (rg_Heartbeat (wk_registry s) (wk_workerID s) (wk_heartbeatTTL s));; mret tt.
