(* ===== verification/Scenario.v ===== *)
(** * A concrete run

    One tenant, one webhook job, one worker and a healthy environment:
    the states after creating, claiming, completing and failing the job.
    The witnesses of the theorems evaluate on them. *)

From S2P Require Import Prelude GoRuntime Engine Sql Schema Effects Json Dto Repository Auth Service Executor Lock Rfc3339 Registry Worker.

Local Open Scope Z_scope.
Local Open Scope go_scope.

(** The clocks advance one second per tick; ids count up. *)
Definition clock0 (n : nat) : Time := (1000000 + Z.of_nat n) * Second.

Definition env0 : env :=
  {| e_uuid := fun n => N.of_nat (100 + n);
     e_time := clock0;
     e_pgnow := clock0;
     e_redisnow := clock0;
     e_outcome := fun _ => Applied;
     e_others := fun _ d => d;
     e_redis_others := fun _ r => r;
     e_renewals := fun _ => 1%nat;
     e_locked := fun _ _ => false;
     e_rank := fun _ u => Z.of_N u;
     e_rows := fun _ => 0%nat |}.

Definition db0 : Db :=
  {| jobs := ∅; job_attempts := ∅; dead_letter_jobs := ∅; job_events := ∅;
     tenants := {[ DefaultTenantID := mktenant_row "default" "Default" ]};
     api_clients := ∅ |}.

Definition world0 : world :=
  {| w_db := db0; w_redis := mkRedis ∅ ∅ ∅; w_bus := []; w_metrics := []; w_prom := [];
     w_tick := 0 |}.

Definition svc0 : Service := Service.NewService 3 30 300.

Definition req0 : CreateRequest :=
  {| cq_Name := "nightly"; cq_JobType := "CALL_WEBHOOK"; cq_Payload := "{}";
     cq_RunAt := 5 * Second; cq_Priority := 7; cq_MaxRetries := 1;
     cq_RetryBackoffSeconds := 30; cq_TimeoutSeconds := 60;
     cq_IdempotencyKey := "key-1" |}.

(** Stand-ins for the encoder and the hash. *)
Definition marshal0 (r : CreateRequest) : result string := Ok (cq_Name r).
Definition sum0 (s : string) : string := s.

(** The result of a computation that succeeds, with a default. *)
Definition value {A} (dflt : A) (r : result A * world) : A :=
  match r.1 with Ok a => a | Err _ => dflt end.

Definition new0 : Job := new_job marshal0 sum0 100%N (PrincipalOrDefault None)
  (prepared svc0 req0) (clock0 1).

(** After [Repository.Create]. *)
Definition created : world := (Repository.Create new0 env0 world0).2.

(** A second, less urgent job beside it. *)
Definition req2 : CreateRequest :=
  req0 <| cq_Priority := 3 |> <| cq_IdempotencyKey := "" |>.
Definition new2 : Job := new_job marshal0 sum0 200%N (PrincipalOrDefault None)
  (prepared svc0 req2) (clock0 1).
Definition created2 : world := (Repository.Create new2 env0 created).2.
Definition row2 : job_row := default (job_insert_row new2 0) (jobs (w_db created2) !! 200%N).

Definition ttl0 : Duration := 360 * Second.

(** After the claim by worker w1; [job1] is what it received. *)
Definition claim1 : result (list Job) * world := ClaimDueJobs "w1" 10 ttl0 env0 created.
Definition claimed : world := claim1.2.
Definition job1 : Job := default new0 (head (value [] claim1)).

(** A claim of one job only, with both due. *)
Definition claim2 : result (list Job) * world := ClaimDueJobs "w1" 1 ttl0 env0 created2.
Definition claimed2 : world := claim2.2.

Definition result0 : ExecutionResult :=
  {| er_Metadata := ""; er_ErrorCode := "HANDLER_ERROR"; er_Retryable := true;
     er_Message := "boom" |}.

(** The same environment, an hour later. *)
Definition clock_later (n : nat) : Time := clock0 n + 3600 * Second.
Definition env_later : env :=
  {| e_uuid := fun n => N.of_nat (100 + n);
     e_time := clock_later;
     e_pgnow := clock_later;
     e_redisnow := clock_later;
     e_outcome := fun _ => Applied;
     e_others := fun _ d => d;
     e_redis_others := fun _ r => r;
     e_renewals := fun _ => 1%nat;
     e_locked := fun _ _ => false;
     e_rank := fun _ u => Z.of_N u;
     e_rows := fun _ => 0%nat |}.

(** After w1 failed the attempt; then w2 claims the retry. *)
Definition failed1 : world :=
  (FailExecution job1 "w1" Second result0 StatusRetryScheduled 1 0 env0 claimed).2.
Definition claim_again : result (list Job) * world :=
  ClaimDueJobs "w2" 10 ttl0 env_later failed1.
Definition job2 : Job := default new0 (head (value [] claim_again)).

(** After the attempt dead-lettered the job instead. *)
Definition dead1 : world :=
  (FailExecution job1 "w1" Second result0 StatusDeadLettered 1 0 env0 claimed).2.
Definition dlid1 : UUID := default 0%N (head (map_to_list (dead_letter_jobs (w_db dead1))).*1).

(** After recovery found the lease of w1 expired. *)
Definition recovered : world := (RecoverExpiredRunningJobs "late" env_later claimed).2.

(** An executor that succeeds, and a worker around it. *)
Definition executor_ok : ExecutorInterface := fun _ _ => mret "{}".
Definition executor_err : ExecutorInterface := fun _ _ => fail (ErrorString "boom").

Definition worker_with (x : ExecutorInterface) (l : LockManager) : Worker :=
  {| wk_executor := x; wk_workerID := "w1"; wk_concurrency := 5; wk_batchSize := 10;
     wk_pollInterval := 5 * Second; wk_lockTTL := ttl0; wk_lockManager := l;
     wk_metrics := record_metric; wk_registry := NoopRegistry;
     wk_heartbeatTTL := 30 * Second; wk_heartbeatInterval := 10 * Second |}.

Definition worker0 : Worker := worker_with executor_ok RedisLock.
Definition worker_failing : Worker := worker_with executor_err RedisLock.

(** Every id in use is below [b]. *)
Definition ids_below (b : N) (d : Db) : bool :=
  forallb (fun k => N.ltb k b)
    ((map_to_list (job_events d)).*1 ++ (map_to_list (dead_letter_jobs d)).*1 ++
     (map_to_list (job_attempts d)).*1 ++ (map_to_list (jobs d)).*1).

Lemma env0_healthy : healthy env0.
Proof. by split. Qed.

(** The scenario does what it says. *)
Example scenario_claimed :
  length (value [] claim1) = 1%nat /\ j_ID job1 = 100%N /\ j_AttemptNumber job1 = 1.
Proof. vm_compute. by split_and!. Qed.

Example scenario_processed :
  let w := (ProcessJob worker0 job1 env0 claimed).2 in
  (jr_status <$> jobs (w_db w) !! 100%N) = Some StatusSucceeded /\
  (ProcessJob worker0 job1 env0 claimed).1 = Ok tt.
Proof. vm_compute. by split. Qed.

Example scenario_failed :
  let w := (ProcessJob worker_failing job1 env0 claimed).2 in
  (jr_status <$> jobs (w_db w) !! 100%N) = Some StatusRetryScheduled.
Proof. vm_compute. done. Qed.
