(* ===== verification/Webhook.v ===== *)
(** * Webhook payloads and response metadata on the wire

    [json.Unmarshal] of a job's payload into [webhookPayload] and
    [json.Marshal] of the metadata map of internal/worker/executor.go, with
    what they mean for the webhook call: the request carries exactly what
    the payload says, and what is stored of the response is bounded and can
    be read back. *)

From S2P Require Import Prelude GoRuntime Strings Engine Sql Schema Effects Json JsonText JsonRaw JsonDecode JsonScan Dto Repository Auth Service Executor Lock Rfc3339 Registry Worker Scenario.

Local Open Scope Z_scope.
Local Open Scope go_scope.

(** ** Decoding the payload *)

Inductive webhook_field := WURL | WMethod | WHeaders | WBody.

Definition webhook_fields : list (string * webhook_field) :=
  [("url", WURL); ("method", WMethod); ("headers", WHeaders); ("body", WBody)].

(** [webhookPayload] as it is decoded: the headers are a map. *)
Record payload_map := mkpayload_map {
  pm_URL : string;
  pm_Method : string;
  pm_Headers : gmap string string;
  pm_Body : string
}.

#[export] Instance eta_payload_map : Eta payload_map := fun p =>
  mkpayload_map (pm_URL p) (pm_Method p) (pm_Headers p) (pm_Body p).
#[export] Instance upd_pm_URL : Upd pm_URL := ltac:(mk_upd pm_URL).
#[export] Instance upd_pm_Method : Upd pm_Method := ltac:(mk_upd pm_Method).
#[export] Instance upd_pm_Headers : Upd pm_Headers := ltac:(mk_upd pm_Headers).
#[export] Instance upd_pm_Body : Upd pm_Body := ltac:(mk_upd pm_Body).

Definition zero_payload : payload_map := mkpayload_map "" "" ∅ "".

(** An element of [map[string]string]: [null] is the empty string. *)
Definition set_header_value (m : gmap string string) (key raw : list N)
    : option (gmap string string) :=
  s ← decode_string "" raw; Some (<[text key := s]> m).

(** [null] makes the map nil; an object is added to what is there. *)
Definition decode_headers (old : gmap string string) (raw : list N)
    : option (gmap string string) :=
  if is_null raw then Some ∅
  else fs ← object_fields raw; decode_fields set_header_value old fs.

(** A member that is no field is skipped. *)
Definition set_webhook_field (p : payload_map) (key raw : list N) : option payload_map :=
  match match_field webhook_fields key with
  | None => Some p
  | Some WURL => s ← decode_string (pm_URL p) raw; Some (p <| pm_URL := s |>)
  | Some WMethod => s ← decode_string (pm_Method p) raw; Some (p <| pm_Method := s |>)
  | Some WHeaders => m ← decode_headers (pm_Headers p) raw; Some (p <| pm_Headers := m |>)
  | Some WBody => Some (p <| pm_Body := text raw |>)
  end.

(** [json.Unmarshal]: one value and nothing after it. *)
Definition unmarshal_payload (data : string) : option payload_map :=
  if json_Valid data
  then fs ← object_fields (codes data); decode_fields set_webhook_field zero_payload fs
  else None.

(** The handler ranges over the headers in an order of the runtime's choice. *)
Definition Unmarshal (range : gmap string string -> list (string * string)) (data : string)
    : option webhookPayload :=
  p ← unmarshal_payload data;
  Some {| wp_URL := pm_URL p; wp_Method := pm_Method p;
          wp_Headers := range (pm_Headers p); wp_Body := pm_Body p |}.

(** ** Encoding the metadata *)

Definition print_bool (b : bool) : list N := if b then codes "true" else codes "false".

(** [json.Marshal] of the map: the keys in order. *)
Definition metadata_members (status_code duration_ms : Z) (excerpt : string)
    (truncated : bool) : list (string * list N) :=
  [("duration_ms", print_int duration_ms);
   ("response_excerpt", quote (codes excerpt));
   ("response_truncated", print_bool truncated);
   ("status_code", print_int status_code)].

Definition marshal_metadata (status_code duration_ms : Z) (excerpt : string)
    (truncated : bool) : string :=
  text (print_object (metadata_members status_code duration_ms excerpt truncated)).

(** ** A printed object is a value *)

Lemma print_object_text d ms :
  (d + 1 <= max_nesting_depth)%N -> Forall (fun m => value_text (d + 1) m.2) ms ->
  value_text d (print_object ms).
Proof.
  intros Hd Hall. split; [done|].
  destruct ms as [|m ms].
  { change (print_object []) with [123%N; 125%N]. cbn [length Nat.mul Nat.add json_value skip_ws].
    change (skip_ws [123%N; 125%N]) with [123%N; 125%N]. cbn [N.eqb Pos.eqb].
    by rewrite (proj2 (N.ltb_ge max_nesting_depth (d + 1))). }
  pose proof (print_object_app (m :: ms) []) as E. rewrite app_nil_r in E. rewrite E.
  set (n := length _). assert (Hn : (length (print_members (m :: ms)) + 2 <= n)%nat).
  { subst n. cbn [length]. rewrite length_app. cbn [length]. lia. }
  destruct (fields_print (d + 1) (m :: ms) (2 * n + 1) [] ltac:(done) Hall ltac:(lia)) as [_ H2].
  replace (2 * n + 2)%nat with (S (2 * n + 1)) by lia. cbn [json_value].
  change (skip_ws (123%N :: print_members (m :: ms) ++ [125%N])) with
    (123%N :: print_members (m :: ms) ++ [125%N]). cbn [N.eqb Pos.eqb].
  rewrite (proj2 (N.ltb_ge max_nesting_depth (d + 1))) by done.
  by rewrite (json_members_first _ _ _ _ H2).
Qed.

Lemma print_bool_text d b : value_text d (print_bool b).
Proof. by destruct b. Qed.

Lemma object_fields_print_nil t : object_fields (print_object [] ++ t) = Some [].
Proof. done. Qed.

Lemma object_fields_printed ms :
  Forall (fun m => value_text 1 m.2) ms -> object_fields (print_object ms) = Some (seen <$> ms).
Proof.
  intros Hall. rewrite <- (app_nil_r (print_object ms)). destruct ms as [|m ms]; [done|].
  by apply object_fields_print.
Qed.

Lemma print_object_valid ms :
  Forall (fun m => value_text 1 m.2) ms -> Forall (fun m => byte_list m.2) ms ->
  json_Valid (text (print_object ms)) = true /\ codes (text (print_object ms)) = print_object ms.
Proof.
  intros Hall Hb. assert (Hc : codes (text (print_object ms)) = print_object ms)
    by (by apply codes_text, print_object_bytes).
  split; [|done]. unfold json_Valid. rewrite Hc.
  destruct (print_object_text 0 ms) as [_ ->]; [done|done|]. done.
Qed.

(** ** A payload as a client prints it *)

(** Header values as the members of an object. *)
Definition header_members (headers : list (string * string)) : list (string * list N) :=
  (fun h => (h.1, quote (codes h.2))) <$> headers.

Definition payload_members (url method : string) (headers : list (string * string))
    (body : list N) : list (string * list N) :=
  [("url", quote (codes url)); ("method", quote (codes method));
   ("headers", print_object (header_members headers)); ("body", body)].

Definition payload_text (url method : string) (headers : list (string * string))
    (body : string) : string :=
  text (print_object (payload_members url method headers (codes body))).

Lemma header_members_text d headers :
  Forall (fun m => value_text d m.2) (header_members headers).
Proof. apply Forall_fmap, Forall_true. intros h. apply quote_text. Qed.

Lemma payload_members_text url method headers body :
  value_text 1 body -> Forall (fun m => value_text 1 m.2) (payload_members url method headers body).
Proof.
  intros Hb. repeat (apply Forall_cons_2); try apply Forall_nil_2; cbn [snd];
    [apply quote_text..| |done]. apply print_object_text; [done|apply header_members_text].
Qed.

Lemma header_members_bytes headers : Forall (fun m => byte_list m.2) (header_members headers).
Proof. apply Forall_fmap, Forall_true. intros h. apply quote_bytes, codes_bytes. Qed.

Lemma payload_members_bytes url method headers body :
  Forall (fun m => byte_list m.2) (payload_members url method headers (codes body)).
Proof.
  unfold payload_members.
  repeat match goal with
  | |- Forall _ (_ :: _) => apply Forall_cons_2; cbn [snd]
  | |- Forall _ [] => apply Forall_nil_2
  end; auto using quote_bytes, codes_bytes, print_object_bytes, header_members_bytes.
Qed.

Definition utf8 (s : string) : Prop := utf8_Valid (codes s) = true.

Lemma utf8_text s : utf8 s -> text (to_valid (codes s)) = s.
Proof. intros Hs. by rewrite to_valid_id, text_codes. Qed.

(** The headers are read into a map, later ones over earlier ones. *)
Lemma decode_header_members headers m :
  Forall (fun h => utf8 h.1 /\ utf8 h.2) headers ->
  decode_fields set_header_value m (seen <$> header_members headers) =
    Some (foldl (fun m h => <[h.1 := h.2]> m) m headers).
Proof.
  intros Hh. revert m. induction Hh as [|[k v] headers [Hk Hv] _ IH]; intros m; [done|].
  cbn [header_members fmap list_fmap seen decode_fields fst snd]. unfold set_header_value.
  rewrite decode_quote. cbn [mbind option_bind]. rewrite !utf8_text by done. apply IH.
Qed.

Lemma print_object_not_null ms : is_null (print_object ms) = false.
Proof. unfold is_null. by apply bool_decide_eq_false_2. Qed.

(** One printed member is stored in its field. *)
Lemma payload_field p name f raw :
  match_field webhook_fields (to_valid (codes name)) = Some f ->
  set_webhook_field p (to_valid (codes name)) raw =
  match f with
  | WURL => s ← decode_string (pm_URL p) raw; Some (p <| pm_URL := s |>)
  | WMethod => s ← decode_string (pm_Method p) raw; Some (p <| pm_Method := s |>)
  | WHeaders => m ← decode_headers (pm_Headers p) raw; Some (p <| pm_Headers := m |>)
  | WBody => Some (p <| pm_Body := text raw |>)
  end.
Proof. intros H. unfold set_webhook_field. rewrite H. by destruct f. Qed.

Ltac payload_step name f tac :=
  erewrite decode_fields_cons;
    [|rewrite (payload_field _ name f) by (vm_compute; reflexivity); tac; reflexivity].

Lemma unmarshal_payload_text url method headers body :
  utf8 url -> utf8 method -> Forall (fun h => utf8 h.1 /\ utf8 h.2) headers ->
  value_text 1 (codes body) ->
  unmarshal_payload (payload_text url method headers body) =
    Some (mkpayload_map url method (foldl (fun m h => <[h.1 := h.2]> m) ∅ headers) body).
Proof.
  intros Hu Hm Hh Hb. unfold unmarshal_payload, payload_text.
  pose proof (payload_members_text url method headers _ Hb) as Ht.
  destruct (print_object_valid _ Ht (payload_members_bytes url method headers body)) as [-> ->].
  rewrite object_fields_printed by done. cbn [mbind option_bind].
  unfold payload_members. cbn [fmap list_fmap]. unfold seen. cbn [fst snd].
  payload_step "url" WURL ltac:(rewrite decode_quote, utf8_text by done).
  payload_step "method" WMethod ltac:(rewrite decode_quote, utf8_text by done).
  payload_step "headers" WHeaders ltac:(unfold decode_headers; rewrite print_object_not_null,
    object_fields_printed by (apply header_members_text); cbn [mbind option_bind];
    rewrite decode_header_members by done).
  payload_step "body" WBody ltac:(rewrite text_codes). done.
Qed.

(** ** The headers of the request *)

Definition canonical_names (l : list (string * string)) : list string :=
  CanonicalHeaderKey <$> l.*1.

Lemma set_headers_other l h c : c ∉ canonical_names l -> set_headers l h !! c = h !! c.
Proof.
  revert h. induction l as [|[k v] l IH]; intros h Hc; [done|]. cbn [set_headers].
  cbn in Hc. apply not_elem_of_cons in Hc as [Hne Hc]. rewrite IH by done.
  case_match; [done|]. unfold header_Set. by rewrite CanonicalHeaderKey_idem, lookup_insert_ne.
Qed.

Lemma set_headers_lookup l h k v :
  NoDup (canonical_names l) -> (k, v) ∈ l -> isReservedHeader (CanonicalHeaderKey k) = false ->
  set_headers l h !! CanonicalHeaderKey k = Some v.
Proof.
  intros Hnd Hin Hr. revert h. induction l as [|[k' v'] l IH]; intros h.
  { by apply not_elem_of_nil in Hin. }
  cbn in Hnd. apply NoDup_cons in Hnd as [Hout Hnd]. cbn [set_headers].
  apply elem_of_cons in Hin as [[= <- <-]|Hin]; [|by apply IH].
  rewrite set_headers_other, Hr by done. unfold header_Set.
  by rewrite CanonicalHeaderKey_idem, lookup_insert_eq.
Qed.

(** The decoded map holds the headers. *)
Definition header_map (headers : list (string * string)) : gmap string string :=
  foldl (fun m h => <[h.1 := h.2]> m) ∅ headers.

Lemma header_map_from (m : gmap string string) headers :
  NoDup headers.*1 -> (forall k, k ∈ headers.*1 -> m !! k = None) ->
  map_to_list (foldl (fun m h => <[h.1 := h.2]> m) m headers) ≡ₚ map_to_list m ++ headers.
Proof.
  revert m. induction headers as [|[k v] headers IH]; intros m Hnd Hm; cbn [foldl fst snd].
  { by rewrite app_nil_r. }
  cbn in Hnd. apply NoDup_cons in Hnd as [Hout Hnd]. rewrite IH; [|done|].
  - rewrite map_to_list_insert by (apply Hm; by left). cbn. apply Permutation_middle.
  - intros k' Hk'. rewrite lookup_insert_ne by (by intros <-). apply Hm. by right.
Qed.

Lemma header_map_perm headers :
  NoDup (canonical_names headers) -> map_to_list (header_map headers) ≡ₚ headers.
Proof.
  intros Hnd. unfold header_map. rewrite header_map_from; [by rewrite map_to_list_empty| |].
  - unfold canonical_names in Hnd. by apply NoDup_fmap_1 in Hnd.
  - intros k _. apply lookup_empty.
Qed.

(** The headers the handler sets itself. *)
Definition own_headers (j : Job) : gmap string string :=
  header_Set "Idempotency-Key" (uuid_String (j_ID j))
    (header_Set "X-Scheduler-Attempt" (Itoa (j_AttemptNumber j))
      (header_Set "X-Scheduler-Job-ID" (uuid_String (j_ID j))
        (header_Set "Content-Type" "application/json" ∅))).

(** The request for a decoded payload, header by header: a reserved name
    keeps the scheduler's value, any other name that the payload uses has
    the payload's value, and there is nothing else. *)
Lemma webhook_request_headers range j url method headers body target :
  (forall m, range m ≡ₚ map_to_list m) -> NoDup (canonical_names headers) ->
  let p := {| wp_URL := url; wp_Method := method; wp_Headers := range (header_map headers);
              wp_Body := body |} in
  let h := hq_Header (webhook_request j p method target) in
  (forall c, isReservedHeader c = true -> h !! c = own_headers j !! c) /\
  (forall k v, (k, v) ∈ headers -> isReservedHeader (CanonicalHeaderKey k) = false ->
     h !! CanonicalHeaderKey k = Some v) /\
  (forall c, c ∉ canonical_names headers -> h !! c = own_headers j !! c).
Proof.
  intros Hrange Hnd. cbv zeta. cbn [webhook_request hq_Header wp_Headers].
  pose proof (Hrange (header_map headers)) as Hp. rewrite header_map_perm in Hp by done.
  assert (Hnd' : NoDup (canonical_names (range (header_map headers)))).
  { unfold canonical_names in *. by rewrite Hp. }
  split_and!.
  - intros c Hc. by apply set_headers_reserved.
  - intros k v Hkv Hr. apply set_headers_lookup; [done| |done]. by rewrite Hp.
  - intros c Hc. apply set_headers_other. unfold canonical_names in *. by rewrite Hp.
Qed.

(** ** What is kept of a response *)

Definition rune_width (r : rune) : nat :=
  match r with RAscii _ => 1 | RMulti bs => length bs | RBad _ => 1 end.

Lemma runes_width l : sum_list_with rune_width (runes l) = length l.
Proof.
  remember (length l) as n eqn:Hn. revert l Hn.
  induction (lt_wf n) as [n _ IH]; intros [|c1 l1] ->; [done|].
  assert (Hgo : forall l', (length l' < length (c1 :: l1))%nat ->
    sum_list_with rune_width (runes l') = length l') by (intros; by eapply IH).
  cbn [runes]. destruct (c1 <? 128)%N.
  { cbn [sum_list_with rune_width]. rewrite Hgo by (cbn; lia). done. }
  assert (Hbad : sum_list_with rune_width (RBad c1 :: runes l1) = length (c1 :: l1)).
  { cbn [sum_list_with rune_width]. rewrite Hgo by (cbn; lia). done. }
  destruct l1 as [|c2 l2]; [done|]. destruct (rune2 c1 c2).
  { cbn [sum_list_with rune_width length]. rewrite Hgo by (cbn; lia). done. }
  destruct l2 as [|c3 l3]; [done|]. destruct (rune3 c1 c2 c3).
  { cbn [sum_list_with rune_width length]. rewrite Hgo by (cbn; lia). done. }
  destruct l3 as [|c4 l4]; [done|]. destruct (rune4 c1 c2 c3 c4); [|done].
  cbn [sum_list_with rune_width length]. rewrite Hgo by (cbn; lia). done.
Qed.

(** Escaping makes at most six bytes of one. *)
Lemma quote_length l : (length (quote l) <= 6 * length l + 2)%nat.
Proof.
  unfold quote. rewrite !length_app. cbn [length]. rewrite <- (runes_width l).
  unfold quote_body. pose proof (runes_wf l) as Hw. induction Hw as [|r rs Hr _ IH]; [done|].
  cbn [mbind list_bind sum_list_with]. rewrite length_app.
  assert (Hle : (length (escape_rune r) <= 6 * rune_width r)%nat).
  { destruct r as [c|bs|c]; cbn [escape_rune rune_width rune_wf] in *; [| |done].
    - unfold escape_ascii. repeat case_match; cbn; lia.
    - unfold escape_multi. destruct bs as [|c1 [|c2 [|c3 [|c4 [|]]]]]; try done;
        repeat case_bool_decide; cbn; lia. }
  cbn [mbind list_bind] in IH. lia.
Qed.

Lemma digits_value_bound a ds : (a * 10 ^ N.of_nat (length ds) <= digits_value a ds)%N.
Proof.
  revert a. induction ds as [|d ds IH]; intros a; cbn [length].
  { unfold digits_value. cbn. lia. }
  change (digits_value a (d :: ds)) with (digits_value (10 * a + (d - 48)) ds).
  etrans; [|apply IH]. rewrite Nat2N.inj_succ, N.pow_succ_r'. nia.
Qed.

Lemma print_int_length z : int64_ok z = true -> (length (print_int z) <= 20)%nat.
Proof.
  intros Hz. rewrite print_int_sign.
  destruct (int_digits_spec z) as (c & ds & -> & H0 & Hds & Hv).
  assert (Hle : (length ds <= 18)%nat).
  { destruct (N.eq_dec c 48) as [->|Hc]; [rewrite (H0 eq_refl); cbn; lia|].
    inversion Hds as [|? ? Hd _]. apply is_digit_range in Hd.
    pose proof (digits_value_bound (c - 48) ds) as Hb.
    change (digits_value 0 (c :: ds)) with (digits_value (10 * 0 + (c - 48)) ds) in Hv.
    rewrite N.mul_0_r, N.add_0_l in Hv. rewrite Hv in Hb.
    unfold int64_ok in Hz. apply andb_true_iff in Hz as [Hlo%Z.leb_le Hhi%Z.ltb_lt].
    destruct (le_lt_dec (length ds) 18) as [|Hlt]; [done|exfalso].
    pose proof (N.pow_le_mono_r 10 19 (N.of_nat (length ds)) ltac:(lia) ltac:(lia)) as Hp.
    change (10 ^ 19)%N with 10000000000000000000%N in Hp. nia. }
  rewrite length_app. destruct (z <? 0); cbn [length]; lia.
Qed.

Lemma milliseconds_range t u : int64_ok (duration_milliseconds (time_Sub t u)) = true.
Proof.
  unfold duration_milliseconds, time_Sub, int64_ok, Millisecond.
  set (d := Z.max _ _). assert (Hd : - 2 ^ 63 <= d <= 2 ^ 63 - 1) by (subst d; lia).
  clearbody d. rewrite andb_true_iff, Z.leb_le, Z.ltb_lt.
  pose proof (Z.quot_rem' d 1000000) as Hq. pose proof (Z.rem_bound_abs d 1000000 ltac:(lia)).
  pose proof (Z.quot_abs_l d 1000000). nia.
Qed.

Lemma metadata_members_text status ms excerpt truncated :
  Forall (fun m => value_text 1 m.2) (metadata_members status ms excerpt truncated).
Proof.
  unfold metadata_members. repeat apply Forall_cons_2; try apply Forall_nil_2; cbn [snd];
    auto using quote_text, print_int_text, print_bool_text.
Qed.

Lemma metadata_members_bytes status ms excerpt truncated :
  Forall (fun m => byte_list m.2) (metadata_members status ms excerpt truncated).
Proof.
  unfold metadata_members.
  repeat match goal with
  | |- Forall _ (_ :: _) => apply Forall_cons_2; cbn [snd]
  | |- Forall _ [] => apply Forall_nil_2
  end; try apply codes_bytes; [apply quote_bytes, codes_bytes|].
  destruct truncated; apply codes_bytes.
Qed.

Lemma string_len_codes s : string_len s = Z.of_nat (length (codes s)).
Proof.
  unfold string_len, codes. rewrite length_fmap. f_equal.
  induction s as [|c s IH]; [done|]. cbn. by rewrite IH.
Qed.

Lemma string_take_all n s : string_len s <= n -> string_take n s = s.
Proof.
  unfold string_len, string_take. intros Hn. assert (Hle : (String.length s <= Z.to_nat n)%nat) by lia.
  revert Hle. generalize (Z.to_nat n). clear Hn. induction s as [|c s IH]; intros [|m] Hle; cbn in *;
    try done; try lia. by rewrite IH by lia.
Qed.

Lemma metadata_length status ms excerpt truncated :
  int64_ok status = true -> int64_ok ms = true -> string_len excerpt <= 4096 ->
  string_len (marshal_metadata status ms excerpt truncated) <= 24696.
Proof.
  intros Hs Hm He. unfold marshal_metadata. rewrite string_len_codes.
  destruct (print_object_valid _ (metadata_members_text status ms excerpt truncated)
    (metadata_members_bytes status ms excerpt truncated)) as [_ ->].
  apply print_int_length in Hs, Hm. rewrite string_len_codes in He.
  pose proof (quote_length (codes excerpt)) as Hq.
  assert (Hb : (length (print_bool truncated) <= 5)%nat) by (destruct truncated; cbn; lia).
  unfold print_object, metadata_members, print_members, print_member. cbn [fst snd].
  rewrite !length_app.
  change (length (quote (codes "duration_ms"))) with 13%nat.
  change (length (quote (codes "response_excerpt"))) with 18%nat.
  change (length (quote (codes "response_truncated"))) with 20%nat.
  change (length (quote (codes "status_code"))) with 13%nat. cbn [length]. lia.
Qed.

(** What is kept of a response: one JSON object of at most 24696 bytes with
    the status code, the elapsed milliseconds, the first 4096 bytes of the
    body (with U+FFFD for what is not UTF-8) and whether that was all. *)
Definition describes (resp : HttpResponse) (started finished : Time) (meta : string) : Prop :=
  json_Valid meta = true /\ string_len meta <= 24696 /\
  exists r1 r2 r3 r4,
    object_fields (codes meta) = Some [(codes "duration_ms", r1); (codes "response_excerpt", r2);
      (codes "response_truncated", r3); (codes "status_code", r4)] /\
    decode_int 0 r1 = Some (duration_milliseconds (time_Sub finished started)) /\
    decode_string "" r2 = Some (text (to_valid (codes (string_take 4096 (hp_Body resp))))) /\
    r3 = (if 4096 <? string_len (hp_Body resp) then codes "true" else codes "false") /\
    decode_int 0 r4 = Some (hp_StatusCode resp).

Lemma metadata_describes resp started finished :
  int64_ok (hp_StatusCode resp) = true ->
  describes resp started finished
    (marshal_metadata (hp_StatusCode resp) (duration_milliseconds (time_Sub finished started))
       (string_take 4096 (hp_Body resp)) (4096 <? string_len (hp_Body resp))).
Proof.
  intros Hs. set (excerpt := string_take 4096 (hp_Body resp)). set (ms := duration_milliseconds _).
  pose proof (milliseconds_range finished started : int64_ok ms = true) as Hms.
  set (tr := 4096 <? string_len (hp_Body resp)). unfold describes. fold ms excerpt tr. split_and!.
  - by apply print_object_valid; [apply metadata_members_text|apply metadata_members_bytes].
  - apply metadata_length; [done|done|]. subst excerpt. rewrite string_take_length by lia. lia.
  - unfold marshal_metadata.
    destruct (print_object_valid _ (metadata_members_text (hp_StatusCode resp) ms excerpt tr)
      (metadata_members_bytes (hp_StatusCode resp) ms excerpt tr)) as [_ ->].
    rewrite object_fields_printed by apply metadata_members_text.
    exists (print_int ms), (quote (codes excerpt)), (print_bool tr), (print_int (hp_StatusCode resp)).
    split_and!; [by vm_compute|by apply decode_print_int|apply decode_quote|done|by apply decode_print_int].
Qed.

(** The excerpt of [webhook_outcome] and its mark. *)
Lemma excerpt_taken body :
  (4096 <? string_len (string_take 4097 body)) = (4096 <? string_len body) /\
  (if 4096 <? string_len body then string_take 4096 (string_take 4097 body)
   else string_take 4097 body) = string_take 4096 body.
Proof.
  split.
  - rewrite string_take_length by lia.
    destruct (Z.ltb_spec 4096 (string_len body)); [apply Z.ltb_lt|apply Z.ltb_ge]; lia.
  - destruct (Z.ltb_spec 4096 (string_len body)).
    + by apply string_take_take.
    + by rewrite !string_take_all by lia.
Qed.

(** The delay a Retry-After header asks for, in seconds up to fifteen
    minutes; anything but a number asks for nothing. *)
Definition asks_for (header : string) (delay : Duration) : Prop :=
  match Atoi (TrimSpace header) with
  | Some seconds =>
      (seconds < 0 -> delay = 0) /\
      (0 <= seconds < 2 ^ 33 -> delay = Z.min seconds 900 * 10 ^ 9)
  | None => delay = 0
  end.

Lemma parseRetryAfter_asks header : asks_for header (parseRetryAfter header).
Proof.
  unfold asks_for, parseRetryAfter. destruct (Atoi _) as [n|]; [|done].
  destruct (Z.ltb_spec n 0); (split; [lia || done|]); intros Hn; [lia|].
  unfold int_mul, Second, Minute. rewrite wrap64_id by (unfold Second; lia).
  unfold Second. destruct (Z.ltb_spec (15 * (60 * 1000000000)) (n * 1000000000)); lia.
Qed.

(** ** The outcome *)

(** What a job's execution comes to, by the answer of [client.Do]. *)
Definition call_outcome (answer : result HttpResponse) (started finished : Time)
    (out : result string) : Prop :=
  match answer with
  | Err err => out = Err (exec_error "WEBHOOK_NETWORK_ERROR" (error_text err) true)
  | Ok resp =>
      match hp_ReadErr resp with
      | Some err => out = Err (exec_error "WEBHOOK_READ_ERROR" (error_text err) true)
      | None => exists meta, describes resp started finished meta /\
          (200 <= hp_StatusCode resp < 300 -> out = Ok meta) /\
          (~ 200 <= hp_StatusCode resp < 300 -> exists x, out = Err (ExecErr x) /\
             ee_Code x = "WEBHOOK_HTTP_ERROR" /\ ee_Metadata x = meta /\
             ee_Message x = "webhook returned HTTP " +:+ Itoa (hp_StatusCode resp) /\
             (ee_Retryable x = true <-> hp_StatusCode resp = 408 \/ hp_StatusCode resp = 429 \/
                                        500 <= hp_StatusCode resp) /\
             asks_for (hp_RetryAfter resp) (ee_RetryAfter x))
      end
  end.

Lemma webhook_outcome_ok resp started finished :
  int64_ok (hp_StatusCode resp) = true ->
  call_outcome (Ok resp) started finished (webhook_outcome marshal_metadata resp started finished).
Proof.
  intros Hs. unfold call_outcome, webhook_outcome. destruct (hp_ReadErr resp); [done|].
  destruct (excerpt_taken (hp_Body resp)) as [-> ->].
  generalize (metadata_describes resp started finished Hs).
  generalize (marshal_metadata (hp_StatusCode resp)
    (duration_milliseconds (time_Sub finished started)) (string_take 4096 (hp_Body resp))
    (4096 <? string_len (hp_Body resp))).
  intros meta Hmeta. exists meta. split; [exact Hmeta|]. clear Hmeta.
  assert (Hr : retryable_status (hp_StatusCode resp) = true <->
    hp_StatusCode resp = 408 \/ hp_StatusCode resp = 429 \/ 500 <= hp_StatusCode resp).
  { unfold retryable_status. rewrite !orb_true_iff, !Z.eqb_eq, Z.leb_le. tauto. }
  pose proof (parseRetryAfter_asks (hp_RetryAfter resp)) as Ha.
  destruct (decide (200 <= hp_StatusCode resp < 300)) as [Hin|Hout].
  - rewrite (proj2 (Z.leb_le _ _)), (proj2 (Z.ltb_lt _ _)) by lia. by split.
  - assert (E : (200 <=? hp_StatusCode resp) && (hp_StatusCode resp <? 300) = false).
    { apply andb_false_iff. rewrite Z.leb_gt, Z.ltb_ge. lia. }
    rewrite E. split; [by intros|]. intros _. eexists. split; [reflexivity|].
    split_and!; [reflexivity..|exact Hr|exact Ha].
Qed.

(** ** The call *)

(** The names a payload cannot set. *)
Definition reserved_names : list string :=
  ["Host"; "Content-Length"; "X-Scheduler-Job-Id"; "X-Scheduler-Attempt"; "Idempotency-Key"].

Lemma reserved_spec c : isReservedHeader c = true <-> c ∈ reserved_names.
Proof. unfold isReservedHeader. apply bool_decide_eq_true. Qed.

Lemma own_headers_spec j c :
  own_headers j !! c =
    if bool_decide (c = "Idempotency-Key") then Some (uuid_String (j_ID j))
    else if bool_decide (c = "X-Scheduler-Attempt") then Some (Itoa (j_AttemptNumber j))
    else if bool_decide (c = "X-Scheduler-Job-Id") then Some (uuid_String (j_ID j))
    else if bool_decide (c = "Content-Type") then Some "application/json" else None.
Proof.
  unfold own_headers, header_Set.
  change (CanonicalHeaderKey "Content-Type") with "Content-Type".
  change (CanonicalHeaderKey "X-Scheduler-Job-ID") with "X-Scheduler-Job-Id".
  change (CanonicalHeaderKey "X-Scheduler-Attempt") with "X-Scheduler-Attempt".
  change (CanonicalHeaderKey "Idempotency-Key") with "Idempotency-Key".
  repeat (case_bool_decide; [by subst; rewrite lookup_insert_eq|];
          rewrite lookup_insert_ne by congruence). apply lookup_empty.
Qed.

(** C39. A webhook job calls what its payload says.  Let the payload be the
    JSON text of a URL, a method, headers whose canonical names differ, and
    a body; let the method, trimmed and in upper case (POST if empty), be
    GET, POST, PUT, PATCH or DELETE, the URL one that parses and passes the
    network policy.  Then one request goes to [client.Do] (redirects
    included), with that method, the parsed URL as it prints and the body
    as given.  Job id, attempt number and idempotency key are the
    scheduler's, Host and Content-Length are not set; every other header of
    the payload is sent as given; the content type is application/json
    unless the payload has its own; there is nothing else.  The result is
    the response's metadata for a status from 200 to 299 and else an error
    with it, retryable for 408, 429 and from 500 on, with the delay of
    Retry-After (if below 2^33 seconds) capped at 15 minutes; a call
    without a response, or with a body that cannot be read, is a retryable
    error. *)
Theorem webhook_call_exact range url_Parse LookupIPAddr http_Do options j
    url method headers body parsed parsed2 m e w w1 :
  (forall m, range m ≡ₚ map_to_list m) ->
  (forall n req resp, http_Do n req = Ok resp -> int64_ok (hp_StatusCode resp) = true) ->
  utf8 url -> utf8 method -> Forall (fun h => utf8 h.1 /\ utf8 h.2) headers ->
  NoDup (canonical_names headers) -> value_text 1 (codes body) ->
  j_Payload j = payload_text url method headers body ->
  url_Parse url = Ok parsed -> url_Parse (url_String parsed) = Ok parsed2 ->
  m = (if bool_decide (ToUpper (TrimSpace method) = "") then "POST"
       else ToUpper (TrimSpace method)) ->
  m ∈ ["GET"; "POST"; "PUT"; "PATCH"; "DELETE"] ->
  validateURL LookupIPAddr options parsed e w = (Ok tt, w1) ->
  exists req,
    call_outcome (http_Do (S (w_tick w1)) req) (e_time e (w_tick w1))
      (e_time e (S (S (w_tick w1))))
      (webhook_Execute (Unmarshal range) url_Parse LookupIPAddr http_Do marshal_metadata options j
         e w).1 /\
    hq_Method req = m /\ hq_URL req = url_String parsed /\ hq_Body req = Some body /\
    hq_Header req !! "X-Scheduler-Job-Id" = Some (uuid_String (j_ID j)) /\
    hq_Header req !! "X-Scheduler-Attempt" = Some (Itoa (j_AttemptNumber j)) /\
    hq_Header req !! "Idempotency-Key" = Some (uuid_String (j_ID j)) /\
    hq_Header req !! "Host" = None /\ hq_Header req !! "Content-Length" = None /\
    (forall k v, (k, v) ∈ headers ->
       CanonicalHeaderKey k ∉ ["Host"; "Content-Length"; "X-Scheduler-Job-Id";
                               "X-Scheduler-Attempt"; "Idempotency-Key"] ->
       hq_Header req !! CanonicalHeaderKey k = Some v) /\
    ("Content-Type" ∉ canonical_names headers ->
       hq_Header req !! "Content-Type" = Some "application/json") /\
    (forall c, c ∉ canonical_names headers ->
       c ∉ ["Content-Type"; "X-Scheduler-Job-Id"; "X-Scheduler-Attempt"; "Idempotency-Key"] ->
       hq_Header req !! c = None).
Proof.
  intros Hrange Hint Hu Hm Hh Hnd Hb Hj Hp Hp2 Em Hin Hv.
  set (p := {| wp_URL := url; wp_Method := method; wp_Headers := range (header_map headers);
               wp_Body := body |}).
  exists (webhook_request j p m (url_String parsed)).
  assert (Hd : Unmarshal range (j_Payload j) = Some p).
  { unfold Unmarshal. by rewrite Hj, unmarshal_payload_text. }
  assert (Hmeth : webhook_method p = Some m).
  { unfold webhook_method. cbn [wp_Method p]. rewrite <- Em. by rewrite bool_decide_eq_true_2. }
  assert (Hne : body <> "").
  { intros ->. by apply value_text_nonempty in Hb. }
  destruct (webhook_request_headers range j url m headers body (url_String parsed) Hrange Hnd)
    as (H1 & H2 & H3). split; [|split_and!].
  - unfold webhook_Execute. rewrite Hd. cbn [wp_URL p]. rewrite Hp.
    unfold mbind, M_bind, try. rewrite Hv. fold p. rewrite Hmeth, Hp2.
    unfold time_Now, client_Do. cbn [w_tick upd upd_w_tick].
    destruct (http_Do _ _) as [resp|err] eqn:E; [|done]. cbn.
    apply webhook_outcome_ok. by eapply Hint.
  - done.
  - done.
  - cbn [webhook_request hq_Body wp_Body p]. by rewrite bool_decide_eq_false_2.
  - etrans; [by apply (H1 "X-Scheduler-Job-Id")|]. by rewrite own_headers_spec.
  - etrans; [by apply (H1 "X-Scheduler-Attempt")|]. by rewrite own_headers_spec.
  - etrans; [by apply (H1 "Idempotency-Key")|]. by rewrite own_headers_spec.
  - etrans; [by apply (H1 "Host")|]. by rewrite own_headers_spec.
  - etrans; [by apply (H1 "Content-Length")|]. by rewrite own_headers_spec.
  - intros k v Hkv Hr. apply (H2 k v Hkv). apply not_true_is_false. by rewrite reserved_spec.
  - intros Hc. etrans; [by apply (H3 "Content-Type")|]. by rewrite own_headers_spec.
  - intros c Hc Hc'. etrans; [by apply (H3 c)|]. rewrite own_headers_spec.
    rewrite !not_elem_of_cons in Hc'. destruct Hc' as (N1 & N2 & N3 & N4 & _).
    by rewrite !bool_decide_eq_false_2.
Qed.

(** ** A webhook on the wire *)

Definition hook_headers : list (string * string) := [("x-team", "core"); ("Host", "evil")].

Definition hook_target : URL :=
  {| url_Scheme := "https"; url_User := false; url_Hostname := "example.com";
     url_String := "https://example.com/hook" |}.

#[export] Instance upd_j_Payload : Upd j_Payload := ltac:(mk_upd j_Payload).

Definition hook_job : Job :=
  new0 <| j_Payload := payload_text "https://example.com/hook" " put " hook_headers "[1, 2]" |>.

Definition hook_response : HttpResponse :=
  {| hp_StatusCode := 200; hp_RetryAfter := ""; hp_Body := "ok"; hp_ReadErr := None |}.

Definition hook_run : result string * world :=
  webhook_Execute (Unmarshal map_to_list) (fun _ => Ok hook_target)
    (fun _ _ => Ok [ipv4 93 184 216 34]) (fun _ _ => Ok hook_response) marshal_metadata
    (mkExecutorOptions [] false) hook_job env0 world0.

(** The stored metadata. *)
Example hook_metadata :
  hook_run.1 = Ok (text (print_object [("duration_ms", codes "2000");
    ("response_excerpt", quote (codes "ok")); ("response_truncated", codes "false");
    ("status_code", codes "200")])).
Proof. vm_compute. reflexivity. Qed.

Lemma webhook_call_exact_witness :
  exists req, call_outcome (Ok hook_response) (clock0 1) (clock0 3) hook_run.1 /\
    hq_Method req = "PUT" /\ hq_Body req = Some "[1, 2]" /\
    hq_Header req !! "X-Team" = Some "core" /\ hq_Header req !! "Host" = None.
Proof.
  destruct (webhook_call_exact map_to_list (fun _ => Ok hook_target)
    (fun _ _ => Ok [ipv4 93 184 216 34]) (fun _ _ => Ok hook_response) (mkExecutorOptions [] false)
    hook_job "https://example.com/hook" " put " hook_headers "[1, 2]" hook_target hook_target "PUT"
    env0 world0 (world0 <| w_tick := 1%nat |>))
    as (req & Hrun & Hm & _ & Hb & _ & _ & _ & Hhost & _ & Hhdr & _);
    [done|by intros n req resp [= <-]|by vm_compute|by vm_compute|by repeat constructor; vm_compute|
     by apply (bool_decide_unpack _); vm_compute|by split; vm_compute|done|done|done|
     by vm_compute|by apply (bool_decide_unpack _); vm_compute|by vm_compute|].
  exists req. split_and!; [exact Hrun|exact Hm|exact Hb| |exact Hhost].
  apply (Hhdr "x-team" "core"); [by left|]. apply (bool_decide_unpack _). by vm_compute.
Defined.

(** A zero byte in the answer is stored as an escape that the JSONB column
    of the attempt does not accept. *)
Example zero_byte_metadata :
  webhook_outcome marshal_metadata
    (mkHttpResponse 200 "" (String Ascii.zero "") None) 0 0 =
  Ok (text (print_object [("duration_ms", codes "0");
    ("response_excerpt", [34%N] ++ codes "\u0000" ++ [34%N]);
    ("response_truncated", codes "false"); ("status_code", codes "200")])).
Proof. vm_compute. reflexivity. Qed.
