(* ===== verification/AuthFacts.v ===== *)
(** * What the client store promises

    The invariant of [api_clients], the accounts that keep it, and the
    life of a key: it authenticates from its creation to its revocation
    and never after. *)

From S2P Require Import Prelude GoRuntime Strings Engine Sql Schema Effects Json Dto Repository RepositoryFacts Auth Service Executor Lock Rfc3339 Registry Worker Scenario.

Local Open Scope Z_scope.
Local Open Scope go_scope.

(** ** The invariant *)

(** Rows are stored under their id, belong to a tenant, and no two share
    a key hash. *)
Record clients_ok (d : Db) : Prop := {
  client_key : forall k c, api_clients d !! k = Some c -> cr_id c = k;
  client_tenant : forall k c, api_clients d !! k = Some c ->
    is_Some (tenants d !! cr_tenant_id c);
  client_hash : forall k1 k2 c1 c2, api_clients d !! k1 = Some c1 ->
    api_clients d !! k2 = Some c2 -> cr_key_hash c1 = cr_key_hash c2 -> k1 = k2
}.

(** A client keeps its identity, and once out of service stays so. *)
Definition inactive (c : client_row) : Prop :=
  cr_enabled c = false \/ is_Some (cr_revoked_at c).

Definition same_client (c c' : client_row) : Prop :=
  cr_id c' = cr_id c /\ cr_tenant_id c' = cr_tenant_id c /\ cr_name c' = cr_name c /\
  cr_key_hash c' = cr_key_hash c /\ cr_role c' = cr_role c /\
  (inactive c -> inactive c').

(** Some transaction: the invariant is kept and no client is lost. *)
Definition keeps_clients (d d' : Db) : Prop :=
  clients_ok d ->
  clients_ok d' /\
  forall k c, api_clients d !! k = Some c ->
    exists c', api_clients d' !! k = Some c' /\ same_client c c'.

#[export] Instance keeps_clients_refl : Reflexive keeps_clients.
Proof. intros d I. split; [done|]. intros k c H. exists c. by unfold same_client. Qed.

#[export] Instance keeps_clients_trans : Transitive keeps_clients.
Proof.
  intros d1 d2 d3 H12 H23 I1. destruct (H12 I1) as [I2 E2]. destruct (H23 I2) as [I3 E3].
  split; [done|]. intros k c H. destruct (E2 _ _ H) as (c2 & H2 & S2).
  destruct (E3 _ _ H2) as (c3 & H3 & S3). exists c3. unfold same_client in *.
  intuition congruence.
Qed.

(** What the other processes may do to the clients. *)
Definition clients_rely (e : env) : Prop := forall n d, keeps_clients d (e_others e n d).

Definition clients_safe {A} (m : M A) : Prop :=
  forall e w, clients_rely e -> keeps_clients (w_db w) (w_db (m e w).2).

(** ** Statements *)

Lemma update_clients_keeps P f :
  (forall now c, same_client c (f now c)) ->
  stmt_rel keeps_clients (fun now d =>
    let '(t, n) := update_where P (f now) (api_clients d) in
    Ok (d <| api_clients := t |>, n)).
Proof.
  intros Hf now d d' n [= <- <-] I.
  assert (E : forall k, (api_clients (d <| api_clients :=
    (update_where P (f now) (api_clients d)).1 |>)) !! k =
    (fun c => if P k c then f now c else c) <$> api_clients d !! k)
    by (intros k; apply lookup_update_where).
  assert (S : forall k c, same_client c (if P k c then f now c else c)).
  { intros k c. destruct (P k c); [apply Hf | by unfold same_client]. }
  assert (Hback : forall k c', (fun c => if P k c then f now c else c) <$> api_clients d !! k
    = Some c' -> exists c, api_clients d !! k = Some c /\ same_client c c').
  { intros k c' (c & Hc & ->)%fmap_Some. eauto. }
  split; [split|].
  - intros k c'. rewrite E. intros (c & Hc & Sc)%Hback.
    destruct Sc as (-> & _). by apply (client_key d).
  - intros k c'. rewrite E. intros (c & Hc & Sc)%Hback.
    destruct Sc as (_ & -> & _). by apply (client_tenant d I k).
  - intros k1 k2 c1 c2. rewrite !E.
    intros (c1' & H1 & (_ & _ & _ & -> & _))%Hback (c2' & H2 & (_ & _ & _ & -> & _))%Hback.
    by apply (client_hash d).
  - intros k c Hc. rewrite E, Hc. eauto.
Qed.

Lemma insert_api_clients_ok r d d' :
  insert_api_clients r d = Ok d' ->
  (forall k c, api_clients d !! k = Some c -> cr_key_hash c <> cr_key_hash r) /\
  api_clients d !! cr_id r = None /\ has_tenant d (cr_tenant_id r) = true /\
  d' = d <| api_clients := <[cr_id r := r]> (api_clients d) |>.
Proof.
  unfold insert_api_clients, insert_row. case_bool_decide as Hs; [|done]. simpl.
  destruct (api_clients d !! cr_id r) eqn:Hk; [done|].
  destruct (has_tenant d (cr_tenant_id r)) eqn:Ht; [|done]. intros [= <-].
  split_and!; try done. intros k c Hc Heq.
  assert (c ∈ select_where (fun r' => bool_decide (cr_key_hash r' = cr_key_hash r))
                (api_clients d)) as Hin.
  { apply elem_of_select_where. rewrite bool_decide_eq_true. eauto. }
  rewrite Hs in Hin. set_solver.
Qed.

Lemma insert_client_keeps (row : Time -> client_row) :
  stmt_rel keeps_clients (fun now d =>
    match insert_api_clients (row now) d with
    | Ok d' => Ok (d', tt)
    | Err err => Err err
    end).
Proof.
  intros now d d' [] H I. destruct (insert_api_clients (row now) d) as [d1|] eqn:E;
    simplify_eq. apply insert_api_clients_ok in E as (Hhash & Hid & Ht & ->).
  apply bool_decide_eq_true in Ht. revert Hhash Hid Ht. generalize (row now). clear row now.
  intros r Hhash Hid Ht. split; [split; cbn|].
  - intros k c [[<- <-]|[_ Hc]]%lookup_insert_Some; [done|]. by apply (client_key d).
  - intros k c [[<- <-]|[_ Hc]]%lookup_insert_Some; [done|]. by apply (client_tenant d I k).
  - intros k1 k2 c1 c2 [[<- <-]|[_ H1]]%lookup_insert_Some
      [[<- <-]|[_ H2]]%lookup_insert_Some Heq; [done|..].
    + by destruct (Hhash _ _ H2).
    + by destruct (Hhash _ _ H1).
    + by apply (client_hash d I _ _ c1 c2).
  - intros k c Hc. exists c. split; [|by unfold same_client]. cbn.
    rewrite lookup_insert_ne by congruence. done.
Qed.

(** ** The store keeps the invariant *)

Lemma clients_safe_ret {A} (a : A) : clients_safe (mret a : M A).
Proof. intros e w _. by cbn. Qed.

Lemma clients_safe_fail {A} (err : error) : clients_safe (fail err : M A).
Proof. intros e w _. by cbn. Qed.

Lemma clients_safe_bind {A B} (m : M A) (k : A -> M B) :
  clients_safe m -> (forall a, clients_safe (k a)) -> clients_safe (m ≫= k).
Proof.
  intros Hm Hk e w He. specialize (Hm e w He). unfold mbind, M_bind.
  destruct (m e w) as [[a|err] w1]; cbn in *; [|done].
  etrans; [exact Hm | by apply Hk].
Qed.

Lemma clients_safe_try {A} (m : M A) : clients_safe m -> clients_safe (try m).
Proof.
  intros Hm e w He. specialize (Hm e w He). unfold try. by destruct (m e w).
Qed.

Lemma clients_safe_exec {A} (f : Time -> Db -> result (Db * A)) :
  stmt_rel keeps_clients f -> clients_safe (pool_exec f).
Proof.
  intros Hf e w He. etrans; [apply (He (w_tick w))|].
  by apply (pool_exec_rel keeps_clients).
Qed.

Lemma clients_safe_query {A} (f : (UUID -> Z) -> Time -> Db -> result A) :
  clients_safe (pool_query f).
Proof. intros e w He. rewrite pool_query_db. apply He. Qed.

Lemma clients_safe_uuid : clients_safe uuid_New.
Proof. intros e w _. by cbn. Qed.

Lemma clients_safe_time : clients_safe time_Now.
Proof. intros e w _. by cbn. Qed.

#[export] Hint Resolve clients_safe_ret clients_safe_fail clients_safe_bind
  clients_safe_try clients_safe_exec clients_safe_query clients_safe_uuid
  clients_safe_time insert_client_keeps : sched.

Section Store.
Context (Sum256 : string -> string) (rand_Read : nat -> result string).

Lemma Authenticate_keeps key : clients_safe (Authenticate Sum256 key).
Proof.
  unfold Authenticate. apply clients_safe_bind; [auto with sched|].
  intros [[p h]|err]; case_match; auto with sched.
  repeat (apply clients_safe_bind; [|intros ?]); auto with sched.
  apply clients_safe_try, clients_safe_exec, update_clients_keeps. by unfold same_client.
Qed.

Lemma CreateClient_keeps tenantID name role key :
  clients_safe (CreateClient Sum256 rand_Read tenantID name role key).
Proof.
  unfold CreateClient. apply clients_safe_bind.
  { case_match; [|auto with sched]. intros e w _. unfold GenerateKey. by case_match. }
  intros k. apply clients_safe_bind; [auto with sched|]. intros id.
  apply clients_safe_bind; [auto with sched|].
  intros [[]|err]; [auto with sched|]. case_match; auto with sched.
Qed.

Lemma RevokeClient_keeps id : clients_safe (RevokeClient id).
Proof.
  unfold RevokeClient. apply clients_safe_bind; [|intros n; case_match; auto with sched].
  apply clients_safe_exec, update_clients_keeps. intros now c.
  unfold same_client, inactive; cbn. naive_solver.
Qed.

(** A run of calls, whatever they answer. *)
Inductive auth_op :=
| OpCreateClient (tenantID : UUID) (name : string) (role : Role) (key : string)
| OpAuthenticate (key : string)
| OpRevokeClient (id : UUID).

Fixpoint auth_run (ops : list auth_op) : M unit :=
  match ops with
  | [] => mret tt
  | OpCreateClient t n r k :: ops' =>
      try (CreateClient Sum256 rand_Read t n r k);; auth_run ops'
  | OpAuthenticate k :: ops' => try (Authenticate Sum256 k);; auth_run ops'
  | OpRevokeClient id :: ops' => try (RevokeClient id);; auth_run ops'
  end.

Lemma auth_run_keeps ops : clients_safe (auth_run ops).
Proof.
  induction ops as [|[] ops IH]; cbn; [auto with sched|..];
    apply clients_safe_bind; try done; apply clients_safe_try;
    auto using CreateClient_keeps, Authenticate_keeps, RevokeClient_keeps.
Qed.
End Store.

(** ** Looking a key up *)

(** The principal of a client. *)
Definition principal_of (c : client_row) (slug : string) : Principal :=
  {| pr_ClientID := cr_id c; pr_TenantID := cr_tenant_id c; pr_TenantSlug := slug;
     pr_ClientName := cr_name c; pr_Role := cr_role c |}.

Lemma find_active_ok hash rank now d p h :
  clients_ok d -> find_active hash rank now d = Ok (p, h) ->
  exists c t, api_clients d !! cr_id c = Some c /\ active_client hash c = true /\
    tenants d !! cr_tenant_id c = Some t /\ p = principal_of c (tr_slug t) /\ h = hash.
Proof.
  intros I (c & Hc & Hj)%first_row_in%list_elem_of_omap.
  rewrite elem_of_order_by in Hc. apply elem_of_select_where in Hc as [Ha [k Hk]].
  unfold join_tenant in Hj. apply bind_Some in Hj as (t & Ht & [= <- <-]).
  pose proof (client_key d I _ _ Hk) as <-.
  assert (cr_key_hash c = hash) as Hh by (unfold active_client in Ha; by bool_prop).
  exists c, t. by split_and!.
Qed.

Lemma find_active_only hash rank now d c t :
  clients_ok d -> api_clients d !! cr_id c = Some c -> active_client hash c = true ->
  tenants d !! cr_tenant_id c = Some t ->
  find_active hash rank now d = Ok (principal_of c (tr_slug t), hash).
Proof.
  intros I Hc Ha Ht. unfold find_active.
  assert (Hin : forall c', c' ∈ order_by (fun c => [rank (cr_id c)])
    (select_where (active_client hash) (api_clients d)) -> c' = c).
  { intros c'. rewrite elem_of_order_by. intros [Ha' [k Hk]]%elem_of_select_where.
    unfold active_client in Ha, Ha'. bool_prop.
    assert (k = cr_id c) by (apply (client_hash d I _ _ c' c Hk Hc); congruence).
    congruence. }
  assert (Hc' : c ∈ order_by (fun c => [rank (cr_id c)])
    (select_where (active_client hash) (api_clients d))).
  { rewrite elem_of_order_by, elem_of_select_where. eauto. }
  destruct (order_by _ _) as [|c' l]; [set_solver|].
  assert (c' = c) as -> by (apply Hin; left).
  cbn. unfold join_tenant. rewrite Ht. cbn. f_equal. f_equal.
  unfold active_client in Ha. by bool_prop.
Qed.

Lemma find_active_none hash rank now d :
  (forall k c, api_clients d !! k = Some c -> active_client hash c = false) ->
  find_active hash rank now d = Err ErrNoRows.
Proof.
  intros Hno. unfold find_active.
  destruct (omap _ _) as [|[p h] l] eqn:E; [done|].
  assert (Hin : (p, h) ∈ (p, h) :: l) by left. rewrite <- E in Hin.
  apply list_elem_of_omap in Hin as (c & Hc & _).
  rewrite elem_of_order_by in Hc. apply elem_of_select_where in Hc as [Ha [k Hk]].
  by rewrite (Hno _ _ Hk) in Ha.
Qed.

Section Keys.
Context (Sum256 : string -> string) (rand_Read : nat -> result string).

(** Authentication is decided by the lookup. *)
Lemma Authenticate_found key e w p h :
  healthy e ->
  find_active (HashKey Sum256 (TrimSpace key)) (e_rank e (w_tick w)) (e_pgnow e (w_tick w))
    (w_db w) = Ok (p, h) ->
  h = HashKey Sum256 (TrimSpace key) -> (Authenticate Sum256 key e w).1 = Ok p.
Proof.
  intros He Hf ->. unfold Authenticate, mbind, M_bind, try at 1.
  rewrite (pool_query_healthy _ He), Hf. rewrite bool_decide_eq_true_2 by done. cbn.
  unfold try. by destruct (pool_update_clients _ _ _ _) as [[n|err] w'].
Qed.

Lemma Authenticate_missing key e w :
  healthy e ->
  find_active (HashKey Sum256 (TrimSpace key)) (e_rank e (w_tick w)) (e_pgnow e (w_tick w))
    (w_db w) = Err ErrNoRows ->
  (Authenticate Sum256 key e w).1 = Err ErrInvalidAPIKey.
Proof.
  intros He Hf. unfold Authenticate, mbind, M_bind, try at 1.
  by rewrite (pool_query_healthy _ He), Hf.
Qed.

(** Authentication in a healthy environment: a key, with any white
    space around it, resolves to a principal exactly when a client in
    service carries its hash, and then to the tenant, name and role of
    that client; every other key is refused as invalid. *)
Theorem Authenticate_spec key e w :
  healthy e -> clients_ok (w_db w) ->
  let d := w_db w in
  let hash := HashKey Sum256 (TrimSpace key) in
  (forall p, (Authenticate Sum256 key e w).1 = Ok p <->
     exists c t, api_clients d !! cr_id c = Some c /\ active_client hash c = true /\
       tenants d !! cr_tenant_id c = Some t /\ p = principal_of c (tr_slug t)) /\
  ((forall k c, api_clients d !! k = Some c -> active_client hash c = false) ->
   (Authenticate Sum256 key e w).1 = Err ErrInvalidAPIKey).
Proof.
  intros He I. split; [intros p; split|].
  - intros H. destruct (find_active (HashKey Sum256 (TrimSpace key)) (e_rank e (w_tick w))
      (e_pgnow e (w_tick w)) (w_db w)) as [[p' h]|err] eqn:Hf.
    + destruct (find_active_ok _ _ _ _ _ _ I Hf) as (c & t & ? & ? & ? & -> & ->).
      rewrite (Authenticate_found _ _ _ _ _ He Hf eq_refl) in H. simplify_eq. eauto 10.
    + revert H. unfold Authenticate, mbind, M_bind, try at 1.
      rewrite (pool_query_healthy _ He), Hf. by destruct (errors_Is err ErrNoRows).
  - intros (c & t & Hc & Ha & Ht & ->).
    by apply (Authenticate_found _ _ _ _ _ He (find_active_only _ _ _ _ _ _ I Hc Ha Ht)).
  - intros Hno. by apply Authenticate_missing, find_active_none.
Qed.

Lemma RevokeClient_revokes id e w w1 c :
  RevokeClient id e w = (Ok tt, w1) -> api_clients (w_db w1) !! id = Some c -> inactive c.
Proof.
  intros (n & w2 & Hu & Hret)%M_bind_ok Hc. apply pool_exec_ok in Hu as [Hu _].
  assert (w2 = w1) as -> by (revert Hret; case_bool_decide; by intros [= ->]).
  injection Hu as Hd _. rewrite <- Hd in Hc. cbn [api_clients] in Hc.
  setoid_rewrite lookup_update_where in Hc. apply fmap_Some in Hc as (c0 & _ & ->).
  rewrite bool_decide_eq_true_2 by done. by left.
Qed.

(** C27. A revoked key never authenticates again: after a revocation has
    been acknowledged, any sequence of creations, authentications and
    revocations by this process, mixed with what the others do to the
    clients, leaves every presentation of the key refused, whatever faults
    occur. *)
Theorem revoked_never_authenticates key id c ops e w w1 :
  clients_rely e -> clients_ok (w_db w) ->
  RevokeClient id e w = (Ok tt, w1) ->
  api_clients (w_db w1) !! id = Some c -> cr_key_hash c = HashKey Sum256 (TrimSpace key) ->
  exists err,
    (Authenticate Sum256 key e (auth_run Sum256 rand_Read ops e w1).2).1 = Err err.
Proof.
  intros He I Hr Hc Hh.
  assert (I1 : clients_ok (w_db w1)).
  { pose proof (RevokeClient_keeps id e w He I) as [I1 _]. by rewrite Hr in I1. }
  pose proof (RevokeClient_revokes _ _ _ _ _ Hr Hc) as Hin.
  set (w2 := (auth_run _ _ ops e w1).2).
  destruct (auth_run_keeps Sum256 rand_Read ops e w1 He I1) as [I2 E2]. fold w2 in I2, E2.
  destruct (He (w_tick w2) (w_db w2) I2) as [I3 E3].
  destruct (E2 _ _ Hc) as (c2 & Hc2 & S2). destruct (E3 _ _ Hc2) as (c3 & Hc3 & S3).
  destruct (Authenticate Sum256 key e w2) as [[p|err] w'] eqn:HA; [|eauto]. exfalso.
  apply M_bind_ok in HA as (r & w3 & Hq & Hk). unfold try in Hq.
  destruct (pool_query _ e w2) as [[[p' h]|err] w4] eqn:Eq; simplify_eq;
    [|by destruct (errors_Is err ErrNoRows)].
  apply pool_query_ok in Eq as [Hf _].
  destruct (find_active_ok _ _ _ _ _ _ I3 Hf) as (c' & t & Hc' & Ha & _ & _ & _).
  unfold active_client in Ha. bool_prop. unfold same_client, inactive in *.
  assert (cr_id c' = id) by (apply (client_hash _ I3 _ _ c' c3 Hc' Hc3); intuition congruence).
  assert (c' = c3) as -> by congruence.
  destruct S2 as (_ & _ & _ & _ & _ & S2), S3 as (_ & _ & _ & _ & _ & S3).
  destruct (S3 (S2 Hin)) as [?|[? ?]]; congruence.
Qed.

(** ** From creation to authentication *)

(** A string that starts with none of the words' first bytes. *)
Definition starts_none (ws : list string) (c : Ascii.ascii) : bool :=
  forallb (fun w => match w with String c' _ => negb (bool_decide (c' = c)) | _ => false end)
    ws.

Lemma strip_one_start ws c s : starts_none ws c = true -> strip_one ws (String c s) = None.
Proof.
  intros H. pose proof (strip_one_spec ws (String c s)) as Hs.
  destruct (strip_one _ _) as [s'|]; [|done]. destruct Hs as (w & Hw & E).
  unfold starts_none in H. rewrite forallb_forall in H. apply list_elem_of_In, H in Hw.
  destruct w as [|c' w]; [done|]. rewrite app_cons in E. simplify_eq.
  by rewrite bool_decide_eq_true_2 in Hw.
Qed.

(** A byte that neither begins nor ends a white-space rune. *)
Definition plain_byte (c : Ascii.ascii) : bool :=
  starts_none space_runes c && starts_none (string_rev <$> space_runes) c.

Definition plain (s : string) : Prop :=
  Forall (fun c => plain_byte c = true) (String.list_ascii_of_string s).

Lemma plain_trim s : plain s -> TrimSpace s = s.
Proof.
  intros Hs. destruct s as [|c s]; [done|]. apply TrimSpace_id.
  - apply Forall_cons in Hs as [[Hc _]%andb_prop _]. by apply strip_one_start.
  - assert (Hr : Forall (fun c => plain_byte c = true)
      (rev (String.list_ascii_of_string (String c s)))) by by apply Forall_rev.
    unfold string_rev at 2.
    destruct (rev (String.list_ascii_of_string (String c s))) as [|c' l]; [done|].
    apply Forall_cons in Hr as [[_ Hc]%andb_prop _]. by apply strip_one_start.
Qed.

Lemma base64url_plain n : plain_byte (base64url_char n) = true.
Proof.
  assert (H : forallb (fun k => plain_byte (base64url_char (Z.of_nat k))) (seq 0 64) = true)
    by by vm_compute.
  rewrite forallb_forall in H. specialize (H (Z.to_nat (Z.land n 63))).
  change 63 with (Z.ones 6) in *. rewrite Z.land_ones in * by lia.
  pose proof (Z.mod_pos_bound n (2 ^ 6) ltac:(lia)).
  rewrite Z2Nat.id in H by lia. unfold base64url_char in *.
  change 63 with (Z.ones 6) in *. rewrite Z.land_ones in * by lia.
  rewrite Zmod_mod in H. apply H. apply in_seq. lia.
Qed.

Lemma base64_plain s : plain (base64_RawURL s).
Proof.
  remember (String.length s) as n eqn:Hn. revert s Hn.
  induction (lt_wf n) as [n _ IH]; intros [|a [|b [|c s]]] ->; cbn -[base64url_char];
    repeat (apply Forall_cons_2; [apply base64url_plain|]); try apply Forall_nil_2.
  apply (IH (String.length s)); [simpl; lia | done].
Qed.

Lemma GenerateKey_trimmed e w key w' :
  GenerateKey rand_Read e w = (Ok key, w') -> TrimSpace key = key.
Proof.
  unfold GenerateKey. case_match; intros [= <- _]. apply plain_trim.
  repeat (apply Forall_cons_2; [by vm_compute|]). apply base64_plain.
Qed.

(** The key that [CreateClient] goes on with: trimmed or generated. *)
Lemma chosen_key_trimmed supplied e w key w1 :
  (if bool_decide (TrimSpace supplied = "") then GenerateKey rand_Read
   else mret (TrimSpace supplied)) e w = (Ok key, w1) ->
  TrimSpace key = key /\ w_db w1 = w_db w.
Proof.
  case_bool_decide.
  - intros Hg. split; [by eapply GenerateKey_trimmed|].
    revert Hg. unfold GenerateKey. case_match; by intros [= _ <-].
  - intros [= <- <-]. by rewrite TrimSpace_idem.
Qed.

Lemma hashed_rows d (hash : string) rank :
  (forall k c, api_clients d !! k = Some c -> cr_key_hash c <> hash) ->
  first_row (cr_id <$> order_by (fun c => [rank (cr_id c)])
    (select_where (fun c => bool_decide (cr_key_hash c = hash)) (api_clients d)))
  = Err ErrNoRows.
Proof.
  intros Hno. destruct (cr_id <$> _) as [|k l] eqn:E; [done|]. exfalso.
  assert (Hin : k ∈ k :: l) by left. rewrite <- E in Hin.
  apply list_elem_of_fmap in Hin as (c & _ & Hc). rewrite elem_of_order_by in Hc.
  apply elem_of_select_where in Hc as [Hb [k' Hk]]. bool_prop. by apply Hno in Hk.
Qed.

Lemma hashed_row d c (hash : string) {rank} :
  clients_ok d -> api_clients d !! cr_id c = Some c -> cr_key_hash c = hash ->
  first_row (cr_id <$> order_by (fun c => [rank (cr_id c)])
    (select_where (fun c => bool_decide (cr_key_hash c = hash)) (api_clients d)))
  = Ok (cr_id c).
Proof.
  intros I Hc Hh. set (l := order_by _ _).
  assert (Hl : forall c', c' ∈ l <-> c' = c).
  { intros c'. unfold l. rewrite elem_of_order_by, elem_of_select_where, bool_decide_eq_true.
    split; [|intros ->; eauto]. intros [Hh' [k Hk]].
    assert (k = cr_id c) by (apply (client_hash _ I _ _ c' c Hk Hc); congruence).
    congruence. }
  destruct l as [|c' l]; [exfalso; by apply (not_elem_of_nil c), Hl|].
  assert (c' = c) as -> by (apply Hl; left). done.
Qed.

(** A successful creation of a client with a new key stores its row. *)
Lemma CreateClient_stores tenantID name role supplied e w id key w1 :
  healthy e ->
  (forall k c, api_clients (w_db w) !! k = Some c -> cr_key_hash c <> HashKey Sum256 key) ->
  CreateClient Sum256 rand_Read tenantID name role supplied e w = (Ok (id, key), w1) ->
  TrimSpace key = key /\ has_tenant (w_db w) tenantID = true /\
  exists prefix now, w_db w1 = (w_db w) <| api_clients :=
    <[id := new_client_row id tenantID name prefix (HashKey Sum256 key) role now]>
      (api_clients (w_db w)) |>.
Proof.
  intros He Hno (key' & w2 & Hkey & H)%M_bind_ok.
  apply chosen_key_trimmed in Hkey as [Ht Hd]. rewrite <- Hd in *.
  rewrite uuid_New_bind in H. cbv zeta in H.
  apply M_bind_ok in H as (r & w3 & Hins & H). unfold try in Hins.
  rewrite (pool_exec_healthy _ He) in Hins.
  set (row := new_client_row _ _ _ _ _ _ _) in Hins.
  change (w_db (w2 <| w_tick := S (w_tick w2) |>)) with (w_db w2) in Hins.
  destruct (insert_api_clients row (w_db w2)) as [d'|err] eqn:E;
    injection Hins as <- <-; cbn in H.
  - apply insert_api_clients_ok in E as (_ & _ & Htn & ->). injection H as <- <- <-.
    split; [done|]. split; [exact Htn|]. by do 2 eexists.
  - exfalso. case_match; [|done]. apply M_bind_ok in H as (k & w4 & Hq & H).
    rewrite (pool_query_healthy _ He) in Hq. injection Hq as Hq _.
    injection H as -> -> _. rewrite hashed_rows in Hq; done.
Qed.

Lemma CreateClient_authenticates tenantID name role supplied e w id key w1 presented e2 :
  healthy e -> healthy e2 -> clients_ok (w_db w) ->
  CreateClient Sum256 rand_Read tenantID name role supplied e w = (Ok (id, key), w1) ->
  (forall k c, api_clients (w_db w) !! k = Some c -> cr_key_hash c <> HashKey Sum256 key) ->
  TrimSpace presented = key ->
  exists slug, (Authenticate Sum256 presented e2 w1).1 =
    Ok {| pr_ClientID := id; pr_TenantID := tenantID; pr_TenantSlug := slug;
          pr_ClientName := name; pr_Role := role |}.
Proof.
  intros He He2 I Hc Hno Hp.
  destruct (CreateClient_keeps Sum256 rand_Read tenantID name role supplied e w) as [I1 _];
    [intros n d; by rewrite (h_others _ He)|done|]. rewrite Hc in I1. cbn in I1.
  destruct (CreateClient_stores _ _ _ _ _ _ _ _ _ He Hno Hc) as (_ & Ht & pre & now & Hd).
  apply bool_decide_eq_true in Ht as [t Ht].
  set (row := new_client_row _ _ _ _ _ _ _) in Hd. exists (tr_slug t).
  assert (Hrow : api_clients (w_db w1) !! cr_id row = Some row)
    by (rewrite Hd; apply lookup_insert_eq).
  assert (Ha : active_client (HashKey Sum256 key) row = true)
    by (unfold active_client; by rewrite !bool_decide_eq_true_2).
  assert (Ht1 : tenants (w_db w1) !! cr_tenant_id row = Some t) by by rewrite Hd.
  apply (Authenticate_found _ _ _ (principal_of row (tr_slug t)) (HashKey Sum256 key) He2);
    [|by rewrite Hp]. rewrite Hp. by apply find_active_only.
Qed.

(** The key handed out for a new client authenticates as that client:
    with the tenant, name and role it was created with, and with any white
    space a caller puts around it. *)
Theorem CreateClient_roundtrip tenantID name role supplied e w id key w1 presented e2 :
  healthy e -> healthy e2 -> clients_ok (w_db w) ->
  CreateClient Sum256 rand_Read tenantID name role supplied e w = (Ok (id, key), w1) ->
  (forall k c, api_clients (w_db w) !! k = Some c -> cr_key_hash c <> HashKey Sum256 key) ->
  TrimSpace presented = key ->
  exists slug, (Authenticate Sum256 presented e2 w1).1 =
    Ok {| pr_ClientID := id; pr_TenantID := tenantID; pr_TenantSlug := slug;
          pr_ClientName := name; pr_Role := role |}.
Proof. apply CreateClient_authenticates. Qed.

(** Creating a client with a key that a revoked client already carries
    reports success, with that client's id and the key, whatever tenant,
    name and role were asked for; but the key does not authenticate. *)
Theorem CreateClient_revoked_key tenantID name role supplied c e w :
  healthy e -> clients_ok (w_db w) -> TrimSpace supplied <> "" ->
  api_clients (w_db w) !! cr_id c = Some c -> inactive c ->
  cr_key_hash c = HashKey Sum256 (TrimSpace supplied) ->
  let out := CreateClient Sum256 rand_Read tenantID name role supplied e w in
  out.1 = Ok (cr_id c, TrimSpace supplied) /\
  (Authenticate Sum256 (TrimSpace supplied) e out.2).1 = Err ErrInvalidAPIKey.
Proof.
  intros He I Hs Hc Hin Hh out.
  assert (E : exists w1, out = (Ok (cr_id c, TrimSpace supplied), w1) /\ w_db w1 = w_db w).
  { unfold out, CreateClient.
    rewrite (bool_decide_eq_false_2 (TrimSpace supplied = "")) by done.
    unfold mbind at 1, M_bind at 1. cbn [mret M_ret]. rewrite uuid_New_bind. cbv zeta.
    unfold mbind at 1, M_bind at 1, try. rewrite (pool_exec_healthy _ He).
    set (w0 := w <| w_tick := S (w_tick w) |>). change (w_db w0) with (w_db w).
    assert (Hin' : c ∈ select_where (fun c => bool_decide (cr_key_hash c =
      HashKey Sum256 (TrimSpace supplied))) (api_clients (w_db w))).
    { apply elem_of_select_where. rewrite bool_decide_eq_true. eauto. }
    unfold insert_api_clients at 1. cbn [cr_key_hash new_client_row].
    rewrite (bool_decide_eq_false_2 (select_where _ _ = []))
      by (intros E0; rewrite E0 in Hin'; set_solver). cbn [negb].
    rewrite (bool_decide_eq_true_2 (as_PgError err_unique = Some "23505")) by done.
    rewrite (bool_decide_eq_false_2 (supplied = "")) by (intros ->; by apply Hs).
    cbn [andb negb]. unfold mbind, M_bind. rewrite (pool_query_healthy _ He).
    change (w_db (w0 <| w_tick := S (w_tick w0) |>)) with (w_db w).
    rewrite (hashed_row _ _ _ I Hc Hh). by eexists. }
  destruct E as (w1 & -> & Hd). split; [done|]. cbn.
  apply Authenticate_missing, find_active_none; [done|]. rewrite TrimSpace_idem, Hd.
  intros k c' Hk. apply not_true_is_false. unfold active_client. intros Ha. bool_prop.
  assert (k = cr_id c) as -> by (apply (client_hash _ I _ _ c' c Hk Hc); congruence).
  simplify_eq. destruct Hin as [?|[? ?]]; congruence.
Qed.
End Keys.

(** ** A concrete client *)

Definition rand0 (n : nat) : result string := Ok "0123456789abcdef".
Definition client0 : result (UUID * string) * world :=
  CreateClient sum0 rand0 DefaultTenantID "ops" RoleOperator "" env0 world0.
Definition key0 : string := (value (0%N, "") client0).2.
Definition id0 : UUID := (value (0%N, "") client0).1.
Definition row0 : client_row :=
  default (new_client_row 0 0 "" "" "" RoleViewer 0) (api_clients (w_db client0.2) !! id0).

Lemma clients_rely0 : clients_rely env0.
Proof. intros n d. reflexivity. Qed.

Lemma clients_ok0 : clients_ok db0.
Proof.
  assert (H : forall k, api_clients db0 !! k = None) by (intros k; apply lookup_empty).
  split; intros *; by rewrite H.
Qed.

Lemma clients_ok1 : clients_ok (w_db client0.2).
Proof.
  exact (proj1 (CreateClient_keeps sum0 rand0 DefaultTenantID "ops" RoleOperator ""
                  env0 world0 clients_rely0 clients_ok0)).
Qed.

Lemma client0_ok : client0 = (Ok (id0, key0), client0.2).
Proof.
  assert (E : client0.1 = Ok (id0, key0)) by by vm_compute.
  rewrite <- E. apply surjective_pairing.
Qed.

Lemma Authenticate_spec_witness :
  exists p, (Authenticate sum0 (" " +:+ key0) env0 client0.2).1 = Ok p /\
            pr_Role p = RoleOperator.
Proof.
  exists (principal_of row0 "default"). split; [|by vm_compute].
  apply (proj1 (Authenticate_spec sum0 (" " +:+ key0) env0 client0.2 env0_healthy clients_ok1)).
  exists row0, (mktenant_row "default" "Default").
  split; [by vm_compute|]. split; [by vm_compute|]. split; [by vm_compute|done].
Defined.

Lemma CreateClient_roundtrip_witness :
  exists slug, (Authenticate sum0 (key0 +:+ " ") env0 client0.2).1 =
    Ok (mkPrincipal id0 DefaultTenantID slug "ops" RoleOperator).
Proof.
  apply (CreateClient_roundtrip sum0 rand0 DefaultTenantID "ops" RoleOperator "" env0 world0
           id0 key0 client0.2 (key0 +:+ " ") env0 env0_healthy env0_healthy clients_ok0
           client0_ok); [|by vm_compute].
  intros k c Hc. exfalso. exact (lookup_empty_Some (M := gmap UUID) k c Hc).
Defined.

Definition revoked0 : world := (RevokeClient id0 env0 client0.2).2.
Definition revoked_row0 : client_row :=
  default row0 (api_clients (w_db revoked0) !! id0).

Lemma revoked_never_authenticates_witness :
  exists err, (Authenticate sum0 key0 env0
    (auth_run sum0 rand0 [OpAuthenticate key0; OpCreateClient DefaultTenantID "ops"
       RoleAdmin key0] env0 revoked0).2).1 = Err err.
Proof.
  apply (revoked_never_authenticates sum0 rand0 key0 id0 revoked_row0 _ env0 client0.2 revoked0
           clients_rely0 clients_ok1); by vm_compute.
Defined.

Lemma revoked_ok0 : clients_ok (w_db revoked0).
Proof. exact (proj1 (RevokeClient_keeps id0 env0 client0.2 clients_rely0 clients_ok1)). Qed.

Lemma CreateClient_revoked_key_witness :
  let out := CreateClient sum0 rand0 DefaultTenantID "new" RoleAdmin key0 env0 revoked0 in
  out.1 = Ok (id0, key0) /\
  (Authenticate sum0 key0 env0 out.2).1 = Err ErrInvalidAPIKey.
Proof.
  apply (CreateClient_revoked_key sum0 rand0 DefaultTenantID "new" RoleAdmin key0 revoked_row0
           env0 revoked0 env0_healthy revoked_ok0);
    [by vm_compute | by vm_compute | left; by vm_compute | by vm_compute].
Defined.
