(* ===== verification/Safety.v ===== *)
(** * Rely and guarantee

    Processes interleave between their statements and transactions.  A
    computation is judged in any environment whose other sessions keep
    [db_ok] and only [reaches] onward ([rely]); it is [safe] when it does
    the same and establishes its postcondition.  Since every process of
    the system is safe, each is a legitimate environment of the others. *)

From S2P Require Import Prelude GoRuntime Engine Sql Schema Effects Json Dto Repository RepositoryFacts Invariant Preservation Auth Service Executor Lock Rfc3339 Registry Worker.

Local Open Scope Z_scope.
Local Open Scope go_scope.

(** ** The guarantee *)

(** Every job walked along the lifecycle, new ones from a start state. *)
Definition lifecycle (d d' : Db) : Prop :=
  forall k r', jobs d' !! k = Some r' ->
    match jobs d !! k with
    | Some r => rtc life_step (jr_status r) (jr_status r')
    | None => exists s0, (s0 = StatusPending \/ s0 = StatusScheduled) /\
                         rtc life_step s0 (jr_status r')
    end.

Record reaches (d d' : Db) : Prop := mk_reaches {
  re_ok : db_ok d';
  re_evolves : evolves d d';
  re_lifecycle : lifecycle d d'
}.

Definition rely (e : env) : Prop :=
  forall n d, db_ok d -> reaches d (e_others e n d).

(** A condition the other sessions cannot break. *)
Class Stable (P : Db -> Prop) : Prop :=
  stable : forall d d', reaches d d' -> P d -> P d'.

Definition safe {A} (P : Db -> Prop) (m : M A) (Q : A -> Db -> Prop) : Prop :=
  forall e w, rely e -> db_ok (w_db w) -> P (w_db w) ->
    reaches (w_db w) (w_db (m e w).2) /\
    (forall a, (m e w).1 = Ok a -> Q a (w_db (m e w).2)).

Definition anything {A} (_ : A) (_ : Db) : Prop := True.
Definition always (_ : Db) : Prop := True.

(** ** Closure properties *)

Lemma lifecycle_refl d : lifecycle d d.
Proof. intros k r' H. rewrite H. apply rtc_refl. Qed.

Lemma lifecycle_trans d1 d2 d3 :
  evolves d1 d2 -> lifecycle d1 d2 -> lifecycle d2 d3 -> lifecycle d1 d3.
Proof.
  intros E L1 L2 k r3 H3. specialize (L2 _ _ H3).
  destruct (jobs d2 !! k) as [r2|] eqn:H2.
  - specialize (L1 _ _ H2). destruct (jobs d1 !! k); [by etrans|].
    destruct L1 as (s0 & ? & ?). exists s0. split; [done|]. by etrans.
  - destruct (jobs d1 !! k) as [r1|] eqn:H1; [|done].
    destruct (ev_jobs _ _ E _ _ H1) as (r2 & ? & _). congruence.
Qed.

Lemma reaches_refl d : db_ok d -> reaches d d.
Proof. intros I. split; [done|done|apply lifecycle_refl]. Qed.

#[export] Instance reaches_trans : Transitive reaches.
Proof.
  intros d1 d2 d3 [O1 E1 L1] [O2 E2 L2]. split; [done|by etrans|].
  by eapply lifecycle_trans.
Qed.

Lemma sound_reaches d d' : sound d d' -> reaches d d'.
Proof.
  intros [O E [_ S]]. split; [done|done|]. intros k r' H. specialize (S _ _ H).
  destruct (jobs d !! k).
  - destruct S as [-> | S]; [apply rtc_refl|by apply rtc_once].
  - eauto using rtc_refl.
Qed.

#[export] Instance always_stable : Stable always.
Proof. done. Qed.

#[export] Instance in_flight_stable j : Stable (fun d => in_flight d j).
Proof. intros d d' [_ E _]. by apply in_flight_evolves. Qed.

#[export] Instance all_in_flight_stable l : Stable (fun d => Forall (in_flight d) l).
Proof.
  intros d d' R H. eapply Forall_impl; [exact H|]. intros j. by apply in_flight_stable.
Qed.

#[export] Hint Resolve reaches_refl sound_reaches : sched.

(** ** Rules *)

Lemma safe_ret {A} P (a : A) (Q : A -> Db -> Prop) :
  (forall d, P d -> Q a d) -> safe P (mret a) Q.
Proof.
  intros H e w He I HP. cbn. split; [by apply reaches_refl|]. intros ? [= <-]. auto.
Qed.

Lemma safe_fail {A} P err (Q : A -> Db -> Prop) : safe P (fail err) Q.
Proof. intros e w He I HP. by split; [apply reaches_refl|]. Qed.

Lemma safe_bind {A B} P (m : M A) (k : A -> M B) Q R :
  safe P m Q -> (forall a, safe (Q a) (k a) R) -> safe P (m ≫= k) R.
Proof.
  intros Hm Hk e w He I HP. destruct (Hm e w He I HP) as [R1 Q1].
  unfold mbind, M_bind. destruct (m e w) as [[a|err] w1]; cbn in *; [|done].
  destruct (Hk a e w1 He (re_ok _ _ R1) (Q1 _ eq_refl)) as [R2 Q2].
  split; [by etrans|done].
Qed.

Lemma safe_try {A} P (m : M A) (Q : A -> Db -> Prop) :
  safe P m Q -> safe P (try m) (fun r d => match r with Ok a => Q a d | Err _ => True end).
Proof.
  intros Hm e w He I HP. destruct (Hm e w He I HP) as [R1 Q1]. unfold try.
  destruct (m e w) as [r w1]; cbn in *. split; [done|]. intros ? [= <-].
  destruct r; auto.
Qed.

Lemma safe_check {A} P action (m : M A) Q : safe P m Q -> safe P (check action m) Q.
Proof.
  intros Hm e w He I HP. destruct (Hm e w He I HP) as [R1 Q1]. unfold check.
  by destruct (m e w) as [[a|err] w1].
Qed.

Lemma safe_frame {A} P `{!Stable P} (m : M A) :
  db_frame m -> safe P m (fun _ d => P d).
Proof.
  intros F e w He I HP. rewrite F. split; [by apply reaches_refl|]. intros a _. by rewrite F.
Qed.

Lemma safe_conseq {A} (P P' : Db -> Prop) (m : M A) (Q Q' : A -> Db -> Prop) :
  (forall d, P' d -> P d) -> (forall a d, Q a d -> Q' a d) -> safe P m Q -> safe P' m Q'.
Proof.
  intros HP HQ Hm e w He I H. destruct (Hm e w He I (HP _ H)) as [R1 Q1]. auto.
Qed.

(** Framing a stable condition around a computation. *)
Lemma safe_keep {A} (P : Db -> Prop) `{!Stable P} (m : M A) (Q : A -> Db -> Prop) :
  safe P m Q -> safe P m (fun a d => Q a d /\ P d).
Proof.
  intros Hm e w He I HP. destruct (Hm e w He I HP) as [R1 Q1]. split; [done|].
  intros a Ha. split; [auto|by eapply stable].
Qed.

Lemma safe_deferred {A} P (m : M A) cleanup (Q : A -> Db -> Prop) :
  safe P m Q -> db_frame cleanup -> safe P (deferred m cleanup) Q.
Proof.
  intros Hm F e w He I HP. destruct (Hm e w He I HP) as [R1 Q1]. unfold deferred.
  destruct (m e w) as [r w1]; cbn in *. rewrite F. split; [done|]. intros a Ha. rewrite F. auto.
Qed.

(** A transaction whose committed effect is sound. *)
Lemma safe_tx {A} P `{!Stable P} (body : Tx A) (Q : A -> Db -> Prop) :
  (forall e now d n a d' n', db_ok d -> P d ->
     body e now (d, n) = (Ok a, (d', n')) -> sound d d' /\ Q a d') ->
  safe P (with_tx body) Q.
Proof.
  intros Hb e w He I HP. pose proof (He (w_tick w) _ I) as R0.
  destruct (with_tx_cases body e w) as (_ & _ & _ & [[Hd [err Herr]]|H]).
  - rewrite Hd, Herr. by split.
  - destruct H as (a & n' & Hrun & Hout).
    apply Hb in Hrun as [S HQ]; [|apply R0|by eapply stable].
    split; [etrans; [done|by apply sound_reaches]|].
    intros a' Ha. destruct Hout as [E|[ft E]]; rewrite E in Ha; by simplify_eq.
Qed.

Lemma safe_pool {A} P `{!Stable P} (f : Time -> Db -> result (Db * A))
    (Q : A -> Db -> Prop) :
  (forall now d d' a, db_ok d -> P d -> f now d = Ok (d', a) -> sound d d' /\ Q a d') ->
  safe P (pool_exec f) Q.
Proof.
  intros Hf e w He I HP. pose proof (He (w_tick w) _ I) as R0.
  assert (HP0 : P (e_others e (w_tick w) (w_db w))) by (by eapply stable).
  unfold pool_exec.
  destruct (f (e_pgnow e (w_tick w)) (e_others e (w_tick w) (w_db w)))
    as [[d' a1]|err] eqn:E.
  - apply Hf in E as [S HQ]; [|apply R0|done]. apply sound_reaches in S.
    destruct (e_outcome e (w_tick w)); cbn; split; try done; try (by etrans).
    by intros ? [= <-].
  - by destruct (e_outcome e (w_tick w)).
Qed.

Lemma safe_query {A} P `{!Stable P} (f : (UUID -> Z) -> Time -> Db -> result A) :
  safe P (pool_query f) (fun _ d => P d).
Proof.
  intros e w He I HP. rewrite pool_query_db. pose proof (He (w_tick w) _ I) as R0.
  split; [done|]. intros _ _. by eapply stable.
Qed.

Lemma safe_lift {A} P `{!Stable P} (r : result A) : safe P (lift_result r) (fun _ d => P d).
Proof. by apply safe_frame. Qed.

Lemma db_frame_uuid : db_frame uuid_New.
Proof. done. Qed.

Lemma db_frame_time : db_frame time_Now.
Proof. done. Qed.

Lemma db_frame_renewals : db_frame renewals.
Proof. done. Qed.

Lemma db_frame_collect c : db_frame (collect c).
Proof. done. Qed.

Lemma db_frame_since t : db_frame (time_Since t).
Proof. done. Qed.

Lemma db_frame_ticker d : db_frame (time_NewTicker d).
Proof. intros e w. unfold time_NewTicker. by case_match. Qed.

#[export] Hint Resolve db_frame_uuid db_frame_time db_frame_renewals db_frame_collect
  db_frame_since db_frame_ticker : sched.

(** A step outside PostgreSQL before a safe computation. *)
Lemma safe_after_frame {A B} P `{!Stable P} (m : M A) (k : A -> M B) Q :
  db_frame m -> (forall a, safe P (k a) Q) -> safe P (m ≫= k) Q.
Proof. intros Hm Hk. eapply safe_bind; [by apply (safe_frame P)|]. exact Hk. Qed.

(** ** The repository *)

(** What a worker knows of an in-flight job's numbers. *)
Lemma in_flight_budget d j :
  db_ok d -> in_flight d j -> 0 <= j_RetryCount j <= j_MaxRetries j /\ j_MaxRetries j < 2 ^ 31.
Proof.
  intros I (r & a & Hr & _ & <- & Hc & _). destruct (ok_jobs _ I _ _ Hr) as [_ [_ _ _ _ Hi]].
  lia.
Qed.

Lemma CompleteExecution_safe j w dur res :
  safe (fun d => in_flight d j) (CompleteExecution j w dur res) anything.
Proof.
  apply (safe_tx _). intros e now d n a d' n' I F H. split; [|done].
  by eapply complete_sound.
Qed.

Lemma FailExecution_safe j w dur o ns rc ra :
  rc = j_RetryCount j + 1 ->
  (ns <> StatusDeadLettered -> j_RetryCount j + 1 <= j_MaxRetries j) ->
  safe (fun d => in_flight d j) (FailExecution j w dur o ns rc ra) anything.
Proof.
  intros -> Hns. apply (safe_tx _). intros e now d n a d' n' I F H. split; [|done].
  by eapply fail_sound.
Qed.

Lemma jobs_stmt_safe P `{!Stable P} pred f :
  (forall now d d' c, db_ok d -> jobs_stmt pred f now d = Ok (d', c) -> sound d d') ->
  safe P (pool_update_jobs pred f) (fun _ d => P d).
Proof.
  intros H. eapply safe_conseq; [done| |apply (safe_keep P _ anything)].
  - by intros a d [_ ?].
  - apply (safe_pool _). intros now d d' a I _ Hs. split; [|done]. by eapply H.
Qed.

Lemma ReleaseClaim_safe jobID w :
  safe always (ReleaseClaim jobID w StatusRetryScheduled) anything.
Proof.
  eapply safe_bind.
  - apply (jobs_stmt_safe _). intros. by eapply release_sound.
  - intros n. cbn. case_bool_decide; [apply safe_fail|by apply safe_ret].
Qed.

Lemma ExtendLease_safe P `{!Stable P} jobID w ttl :
  safe P (ExtendLease jobID w ttl) (fun _ d => P d).
Proof.
  eapply safe_bind.
  - apply (jobs_stmt_safe _). intros. by eapply extend_sound.
  - intros n. cbn. by apply safe_ret.
Qed.

Lemma TransitionJob_safe t id from to :
  operator_transition from to -> safe always (TransitionJob t id from to) anything.
Proof.
  intros Hop. apply (safe_tx _). intros. split; [|done]. by eapply transition_sound.
Qed.

Lemma RecoverExpiredRunningJobs_safe reason :
  safe always (RecoverExpiredRunningJobs reason) anything.
Proof. apply (safe_tx _). intros. split; [|done]. by eapply recover_sound. Qed.

Lemma ClaimDueJobs_safe w b ttl :
  safe always (ClaimDueJobs w b ttl) (fun out d => Forall (in_flight d) out).
Proof.
  apply (safe_tx _). intros e now d n out d' n' I _ H. split; [by eapply claim_sound|].
  apply Forall_forall. intros j Hj. by eapply claim_in_flight.
Qed.

Lemma RequeueDeadLetter_safe t id ra :
  safe always (Repository.RequeueDeadLetter t id ra) anything.
Proof. apply (safe_tx _). intros. split; [|done]. by eapply requeue_sound. Qed.

Lemma resolve_duplicate_safe j key : safe always (resolve_duplicate j key) anything.
Proof.
  unfold resolve_duplicate. eapply safe_bind; [apply (safe_query always)|].
  intros existing. cbn. case_match; [by apply safe_ret|apply safe_fail].
Qed.

Lemma Create_safe j : creatable j -> safe always (Repository.Create j) anything.
Proof.
  intros Hc. assert (Ht : safe always (with_tx (create_body j)) anything).
  { apply (safe_tx _). intros. split; [|done]. by eapply create_sound. }
  intros e w He I _. split; [|done]. destruct (Ht e w He I Logic.I) as [R _].
  destruct (Create_cases j e w) as [[-> _]|[(key & err & _ & _ & ->)|(err & err' & _ & ->)]];
    [done| |done].
  etrans; [exact R|]. by apply (resolve_duplicate_safe j key e _ He (re_ok _ _ R)).
Qed.

(** Adding a fresh attempt to an existing job of the same tenant. *)
Lemma attempt_insert_sound d id a r :
  db_ok d -> job_attempts d !! id = None -> ar_id a = id ->
  jobs d !! ar_job_id a = Some r -> jr_tenant_id r = ar_tenant_id a ->
  sound d (d <| job_attempts := <[id := a]> (job_attempts d) |>).
Proof.
  intros I Hf Hid Hr Ht. split.
  - destruct I as [IJ IA IR ID IU IE IV IK]. split; cbn; try done.
    + intros i a0 [[<- <-]|[_ ?]]%lookup_insert_Some; eauto.
    + intros k r0 Hk Hs. destruct (IR _ _ Hk Hs) as (i & a0 & Ha0 & Hrest).
      exists i, a0. rewrite lookup_insert_ne by congruence. done.
  - split; cbn; intros k x Hx; exists x; [done| |done].
    rewrite lookup_insert_ne by congruence. done.
  - split; cbn; [by eauto|]. intros k r' ->. by left.
Qed.

Lemma CreateAttempt_safe jobID w n :
  safe always (CreateAttempt jobID w n)
    (fun att d => exists a, job_attempts d !! a_ID att = Some a /\ ar_job_id a = jobID).
Proof.
  eapply safe_bind; [apply (safe_frame _); auto with sched|]. intros id. cbn.
  apply (safe_pool _). intros now d d' att I _ H.
  destruct (jobs d !! jobID) as [r|] eqn:Hr; [|discriminate].
  destruct (insert_job_attempts _ _) eqn:Hins; [|discriminate]. simplify_eq.
  apply insert_job_attempts_ok in Hins as (Hf & -> & _). cbn in *. split.
  - by eapply attempt_insert_sound.
  - eexists. by rewrite lookup_insert_eq.
Qed.

(** ** The worker *)

(** What the worker may assume of its parts: the lock manager, the
    recorder, the executor and the registry keep out of PostgreSQL. *)
Class WorkerLaws (s : Worker) : Prop := {
  wl_lock :: LockLaws (wk_lockManager s);
  wl_metrics : forall m, db_frame (wk_metrics s m);
  wl_executor : forall x j, db_frame (wk_executor s x j);
  wl_registry :: RegistryLaws (wk_registry s)
}.

#[export] Hint Resolve wl_metrics wl_executor heartbeat_frame acquire_frame release_frame
  : sched.

Section WorkerSafety.
Context (s : Worker) `{!WorkerLaws s}.

Lemma renewLease_safe P `{!Stable P} ticks key id ttl :
  safe P (renewLease ticks s key id ttl) (fun _ d => P d).
Proof.
  induction ticks as [|ticks IH]; cbn; [by apply safe_ret|].
  eapply safe_bind; [apply safe_keep; [done|]; apply safe_try, (ExtendLease_safe P)|].
  intros r. cbn. apply (safe_conseq P _ _ (fun _ d => P d)); [by intros d [_ ?]|done|].
  destruct r as [[|]|]; try by apply safe_ret.
  destruct (lm_Extend (wk_lockManager s)) as [ext|] eqn:E; [|done].
  eapply safe_bind; [apply safe_keep; [done|]; apply safe_try, (safe_frame P)|].
  - by apply (extend_frame (L := wk_lockManager s)).
  - intros r. cbn. apply (safe_conseq P _ _ (fun _ d => P d)); [by intros d [_ ?]|done|].
    destruct r as [[|]|]; [done|by apply safe_ret..].
Qed.

Lemma ensure_attempt_safe j :
  safe (fun d => in_flight d j) (ensure_attempt s j)
    (fun j' d => in_flight d j' /\ j_ID j' = j_ID j).
Proof.
  unfold ensure_attempt. case_bool_decide; [|by apply safe_ret].
  eapply safe_bind.
  - apply (safe_keep (fun d => in_flight d j)).
    eapply safe_conseq; [by intros; exact Logic.I|done|]. apply safe_check, CreateAttempt_safe.
  - intros att. cbn. apply safe_ret.
    intros d [(a & Ha & Hj) (r & a0 & Hr & Ht & Hm & Hc & _)]. split; [|done].
    exists r, a. cbn. split_and!; done || lia.
Qed.

Lemma next_run_at_safe P `{!Stable P} dec err :
  safe P (next_run_at dec err) (fun _ d => P d).
Proof.
  unfold next_run_at. case_match; [|by apply safe_ret].
  eapply safe_bind; [apply (safe_frame P); auto with sched|]. intros now. cbn.
  by apply safe_ret.
Qed.

(** The decision a worker takes respects the budget. *)
Lemma next_status_budget now j outcome :
  0 <= j_RetryCount j < 2 ^ 63 - 1 ->
  next_status (DecideFailure now (j_RetryCount j) (j_MaxRetries j)
                 (j_RetryBackoffSeconds j)) outcome <> StatusDeadLettered ->
  j_RetryCount j + 1 <= j_MaxRetries j.
Proof.
  intros Hrc. unfold next_status. rewrite DecideFailure_status by done.
  destruct (Z.leb_spec (j_MaxRetries j) (j_RetryCount j)); [done|]. lia.
Qed.

Lemma metrics_safe P `{!Stable P} m : safe P (wk_metrics s m) (fun _ d => P d).
Proof. apply (safe_frame P), wl_metrics. Qed.

Lemma FailExecution_decided_safe wid now j dur o ra :
  safe (fun d => in_flight d j)
    (FailExecution j wid dur o
       (next_status (DecideFailure now (j_RetryCount j) (j_MaxRetries j)
                       (j_RetryBackoffSeconds j)) o)
       (fd_NextRetryCount (DecideFailure now (j_RetryCount j) (j_MaxRetries j)
                             (j_RetryBackoffSeconds j))) ra) anything.
Proof.
  intros e w He I F. destruct (in_flight_budget _ _ I F) as [Hb Hm].
  assert (Hrc : 0 <= j_RetryCount j < 2 ^ 63 - 1) by lia.
  apply FailExecution_safe; try done.
  - by apply DecideFailure_count.
  - by apply next_status_budget.
Qed.

Lemma finalize_failure_safe j dur err :
  safe (fun d => in_flight d j) (finalize_failure s j dur err) anything.
Proof.
  unfold finalize_failure.
  eapply safe_bind; [apply (metrics_safe _)|]. intros ?. cbn.
  eapply safe_bind; [apply (safe_frame _); auto with sched|]. intros now. cbn.
  eapply safe_bind; [apply (next_run_at_safe _)|]. intros ra. cbn.
  eapply safe_bind; [apply safe_try, FailExecution_decided_safe|].
  intros [u|failErr]; cbn.
  - case_match; [|by apply safe_ret]. eapply safe_conseq; [done|done|].
    apply (metrics_safe always).
  - case_match; [by apply safe_ret|apply safe_fail].
Qed.

Lemma process_locked_safe j :
  safe (fun d => in_flight d j) (process_locked s j) anything.
Proof.
  unfold process_locked.
  eapply safe_bind; [apply ensure_attempt_safe|]. intros j'. cbn.
  apply (safe_conseq (fun d => in_flight d j') _ _ anything); [by intros d [? _]|done|].
  eapply safe_bind; [apply (safe_frame _); auto with sched|]. intros started. cbn.
  eapply safe_bind; [apply (safe_frame _); auto with sched|]. intros ticks. cbn.
  eapply safe_bind; [apply (renewLease_safe _)|]. intros cancelled. cbn.
  eapply safe_bind.
  { apply (safe_keep (fun d => in_flight d j')), safe_try, (safe_frame _), wl_executor. }
  intros r. cbn. apply (safe_conseq (fun d => in_flight d j') _ _ anything);
    [by intros d [_ ?]|done|].
  eapply safe_bind; [apply (safe_frame _); auto with sched|]. intros finished. cbn.
  destruct r as [res|err]; [|apply finalize_failure_safe].
  eapply safe_bind; [apply safe_check, CompleteExecution_safe|]. intros ?. cbn.
  eapply safe_conseq; [done|done|]. apply (metrics_safe always).
Qed.

Lemma ProcessJob_safe j :
  safe (fun d => in_flight d j) (ProcessJob s j) anything.
Proof.
  unfold ProcessJob. eapply safe_bind.
  { apply safe_check, (safe_frame _), acquire_frame. }
  intros acquired. cbn. destruct acquired; cbn.
  - apply safe_deferred; [apply process_locked_safe|]. apply db_frame_bind; [|done].
    apply release_frame.
  - eapply safe_conseq; [by intros; exact Logic.I|done|].
    apply safe_check, ReleaseClaim_safe.
Qed.

Lemma poll_safe : safe always (poll s) (fun out d => Forall (in_flight d) out).
Proof.
  unfold poll. eapply safe_bind.
  { apply safe_try, RecoverExpiredRunningJobs_safe. }
  intros r. cbn. eapply safe_bind.
  { eapply safe_conseq; [by intros; exact Logic.I|done|]. apply ClaimDueJobs_safe. }
  intros claimed. cbn. eapply safe_bind; [apply (metrics_safe _)|]. intros ?. cbn.
  by apply safe_ret.
Qed.

Lemma consume_safe items :
  safe (fun d => Forall (in_flight d) items) (consume s items) anything.
Proof.
  induction items as [|j items IH]; cbn; [by apply safe_ret|].
  eapply safe_bind.
  - apply (safe_keep (fun d => Forall (in_flight d) (j :: items))).
    eapply safe_conseq; [|done|apply safe_try, (ProcessJob_safe j)].
    by intros d [? _]%Forall_cons.
  - intros r. cbn. eapply safe_conseq; [|done|exact IH].
    by intros d [_ [_ ?]%Forall_cons].
Qed.

Lemma run_loop_safe ticks cut : safe always (run_loop ticks cut s) anything.
Proof.
  induction ticks as [|ticks IH]; cbn; [by apply safe_ret|].
  eapply safe_bind; [apply safe_try, poll_safe|]. intros [claimed|err]; cbn.
  - destruct (cut ticks) as [k|].
    + eapply safe_conseq; [|done|apply consume_safe].
      intros d. apply Forall_take.
    + eapply safe_bind; [apply consume_safe|]. intros ?. cbn. exact IH.
  - exact IH.
Qed.

Lemma Run_safe ticks cut : safe always (Run ticks cut s) anything.
Proof. apply safe_after_frame; [apply _|auto with sched|]. intros _. apply run_loop_safe. Qed.
End WorkerSafety.
