(* ===== verification/Outbox.v ===== *)
(** * The transactional outbox: internal/outbox/outbox.go

    Events are rows of [job_events], written in the transaction of the
    change they report.  A relay leases a batch of unpublished rows,
    hands each to a publisher and records the outcome.   The publisher is
    an interface ([events.Publisher]). *)

From S2P Require Import Prelude GoRuntime Engine Sql Schema Effects Json Dto Repository Auth Service Executor Lock Rfc3339 Registry Worker.

Local Open Scope Z_scope.
Local Open Scope go_scope.

(** ** The store *)

(** A statement that reads under [FOR UPDATE SKIP LOCKED] and returns
    rows in the order the server happens to produce. *)
Definition pool_returning {A}
    (f : (UUID -> bool) -> (UUID -> Z) -> Time -> Db -> result (Db * A)) : M A :=
  fun e w => pool_exec (f (e_locked e (w_tick w)) (e_rank e (w_tick w))) e w.

(** [WHERE published_at IS NULL AND next_publish_at <= now() AND
    (claimed_until IS NULL OR claimed_until < now())]. *)
Definition publishable (locked : UUID -> bool) (now : Time) (r : event_row) : bool :=
  bool_decide (vr_published_at r = None) && (vr_next_publish_at r <=? now) &&
  match vr_claimed_until r with None => true | Some t => t <? now end &&
  negb (locked (vr_id r)).

(** [ORDER BY created_at ASC, id ASC LIMIT $1]. *)
Definition pending (batch : Z) (locked : UUID -> bool) (now : Time) (d : Db)
    : list event_row :=
  limit_offset batch 0
    (order_by (fun r => [vr_created_at r; Z.of_N (vr_id r)])
       (select_where (publishable locked now) (job_events d))).

(** [SET claimed_by=$2, claimed_until=now()+$3*interval '1 second']. *)
Definition set_leased (relayID : string) (seconds : Z) (now : Time) (r : event_row)
    : event_row :=
  r <| vr_claimed_by := Some relayID |>
    <| vr_claimed_until := Some (now + seconds * Second) |>.

(** [rows.Scan] into the envelope; [coalesce(e.correlation_id,'')]. *)
Definition scanOutboxEvent (r : event_row) : OutboxEvent :=
  {| oe_EventID := vr_id r;
     oe_SchemaVersion := vr_schema_version r;
     oe_TenantID := vr_tenant_id r;
     oe_EventType := vr_event_type r;
     oe_Source := vr_source r;
     oe_EntityType := "job";
     oe_EntityID := uuid_String (vr_job_id r);
     oe_OccurredAt := vr_created_at r;
     oe_CorrelationID := default "" (vr_correlation_id r);
     oe_CausationID := vr_causation_id r;
     oe_Payload := vr_payload r;
     oe_PublishAttempts := vr_publish_attempts r |}.

Definition Claim (relayID : string) (batch : Z) (lease : Duration) : M (list OutboxEvent) :=
  let batch := if batch <? 1 then 50 else batch in
  pool_returning (fun locked rank now d =>
    let rows := pending batch locked now d in
    let '(t, _) := update_where (fun k _ => bool_decide (k ∈ vr_id <$> rows))
                     (set_leased relayID (duration_seconds lease) now) (job_events d) in
    Ok (d <| job_events := t |>,
        scanOutboxEvent <$> order_by (fun r => [rank (vr_id r)]) rows)).

(** [WHERE id=$1 AND claimed_by=$2]. *)
Definition leased_by (id : UUID) (relayID : string) (k : UUID) (r : event_row) : bool :=
  bool_decide (k = id) && bool_decide (vr_claimed_by r = Some relayID).

(** An update that sets [publish_attempts=publish_attempts+1]: [22003]
    when the sum of some row leaves [INT]. *)
Definition update_counting (P : UUID -> event_row -> bool)
    (f : Time -> event_row -> event_row) : M nat :=
  pool_exec (fun now d =>
    if negb (bool_decide (select_where (fun r => P (vr_id r) r &&
               negb (int4_ok (vr_publish_attempts r + 1))) (job_events d) = []))
    then Err (PgError "22003")
    else
      let '(t, n) := update_where P (f now) (job_events d) in
      Ok (d <| job_events := t |>, n)).

Definition set_published (now : Time) (r : event_row) : event_row :=
  r <| vr_published_at := Some now |>
    <| vr_publish_attempts := vr_publish_attempts r + 1 |>
    <| vr_last_publish_error := None |>
    <| vr_claimed_by := None |>
    <| vr_claimed_until := None |>.

Definition err_lease_lost : error := ErrorString "outbox lease lost".

Definition MarkPublished (id : UUID) (relayID : string) : M unit :=
  n ← update_counting (leased_by id relayID) set_published;
  if bool_decide (n = 0%nat) then fail err_lease_lost else mret tt.

(** [time.Duration(math.Min(300, math.Pow(2, float64(attempts))))]:
    powers of two are exact in [float64], a negative exponent gives a
    fraction that truncates to zero. *)
Definition backoff_seconds (attempts : Z) : Z :=
  if attempts <? 0 then 0 else Z.min 300 (2 ^ attempts).

Definition set_publish_failed (message : string) (seconds : Z) (now : Time) (r : event_row)
    : event_row :=
  r <| vr_publish_attempts := vr_publish_attempts r + 1 |>
    <| vr_last_publish_error := Some message |>
    <| vr_next_publish_at := now + seconds * Second |>
    <| vr_claimed_by := None |>
    <| vr_claimed_until := None |>.

Definition MarkFailed (id : UUID) (relayID : string) (attempts : Z) (message : string)
    : M unit :=
  let delay := int_mul (backoff_seconds attempts) Second in
  update_counting (leased_by id relayID)
    (set_publish_failed message (duration_seconds delay));;
  mret tt.

Definition set_replayed (now : Time) (r : event_row) : event_row :=
  r <| vr_published_at := None |>
    <| vr_next_publish_at := now |>
    <| vr_last_publish_error := None |>
    <| vr_claimed_by := None |>
    <| vr_claimed_until := None |>.

Definition pool_update_events (P : UUID -> event_row -> bool)
    (f : Time -> event_row -> event_row) : M nat :=
  pool_exec (fun now d =>
    let '(t, n) := update_where P (f now) (job_events d) in
    Ok (d <| job_events := t |>, n)).

Definition Replay (tenantID id : UUID) : M unit :=
  n ← pool_update_events (fun k r => bool_decide (vr_tenant_id r = tenantID) &&
                                     bool_decide (k = id)) set_replayed;
  if bool_decide (n = 0%nat) then fail ErrNoRows else mret tt.

(** Both branches count; the result variable is read after [Scan]. *)
Definition Backlog (tenantID : option UUID) : M Z :=
  pool_query (fun _ now d =>
    Ok (Z.of_nat (length (select_where (fun r =>
      match tenantID with
      | None => true
      | Some t => bool_decide (vr_tenant_id r = t)
      end && bool_decide (vr_published_at r = None)) (job_events d))))).

(** ** The relay *)

(** [events.Publisher]. *)
Abbreviation Publisher := (OutboxEvent -> M unit).

(** [events.NoopPublisher]. *)
Definition NoopPublisher : Publisher := fun _ => mret tt.

Record Relay := mkRelay {
  rl_publisher : Publisher;
  rl_id : string;
  rl_batch : Z;
  rl_interval : Duration;
  rl_lease : Duration
}.

Definition NewRelay (publisher : Publisher) (batch : Z) (interval : Duration) : M Relay :=
  id ← uuid_New;
  mret {| rl_publisher := publisher;
          rl_id := "relay-" +:+ uuid_String id;
          rl_batch := batch;
          rl_interval := interval;
          rl_lease := 30 * Second |}.

Definition truncate (value : string) (limit : Z) : string :=
  if limit <? string_len value then string_take limit value else value.

(** The loop of [publishBatch]. *)
Fixpoint publish_items (r : Relay) (items : list OutboxEvent) : M unit :=
  match items with
  | [] => mret tt
  | event :: items' =>
      res ← try (rl_publisher r event);
      match res with
      | Err err =>
          collect (CInc "outbox_publish_failures_total" []);;
          try (MarkFailed (oe_EventID event) (rl_id r) (oe_PublishAttempts event)
                 (truncate (error_text err) 1000));;
          publish_items r items'
      | Ok _ =>
          check "mark event published" (MarkPublished (oe_EventID event) (rl_id r));;
          collect (CInc "outbox_events_published_total" []);;
          latency ← time_Since (oe_OccurredAt event);
          collect (CObserve "outbox_publish_latency_seconds" [] latency);;
          publish_items r items'
      end
  end.

Definition publishBatch (r : Relay) : M unit :=
  items ← Claim (rl_id r) (rl_batch r) (rl_lease r);
  publish_items r items.

(** The loop of [Run] for a number of turns; errors are only logged. *)
Fixpoint relay_loop (turns : nat) (r : Relay) : M unit :=
  match turns with
  | O => mret tt
  | S turns' => try (publishBatch r);; relay_loop turns' r
  end.

Definition relay_Run (turns : nat) (r : Relay) : M unit :=
  time_NewTicker (rl_interval r);; relay_loop turns r.
