(* ===== verification/OutboxFacts.v ===== *)
(** * The outbox beside the other components

    The relay touches nothing but the publication columns of
    [job_events], so it keeps the database invariant and moves no job:
    it is a legitimate environment of the API and the workers. *)

From S2P Require Import Prelude GoRuntime Engine Sql Schema Effects Json Dto Repository RepositoryFacts Invariant Preservation Auth Service Executor Lock Rfc3339 Registry Worker Safety Outbox.

Local Open Scope Z_scope.
Local Open Scope go_scope.

(** ** Only publication columns change *)

(** What an event reports is never rewritten. *)
Definition same_event (r r' : event_row) : Prop :=
  vr_id r' = vr_id r /\ vr_job_id r' = vr_job_id r /\ vr_tenant_id r' = vr_tenant_id r /\
  vr_event_type r' = vr_event_type r /\ vr_source r' = vr_source r /\
  vr_schema_version r' = vr_schema_version r /\
  vr_correlation_id r' = vr_correlation_id r /\ vr_causation_id r' = vr_causation_id r /\
  vr_payload r' = vr_payload r /\ vr_created_at r' = vr_created_at r.

#[export] Instance same_event_preorder : PreOrder same_event.
Proof.
  split; [by unfold Reflexive, same_event|].
  intros r1 r2 r3 H12 H23. unfold same_event in *. intuition congruence.
Qed.

Definition keeps_events (d d' : Db) : Prop :=
  d' = d <| job_events := job_events d' |> /\
  forall k, option_Forall2 same_event (job_events d !! k) (job_events d' !! k).

#[export] Instance keeps_events_refl : Reflexive keeps_events.
Proof. intros d. split; [by destruct d|]. intros k. by destruct (_ !! k); constructor. Qed.

Lemma update_events_keeps (P : UUID -> event_row -> bool) f d :
  (forall k r, same_event r (f k r)) ->
  keeps_events d (d <| job_events :=
    map_imap (fun k r => Some (if P k r then f k r else r)) (job_events d) |>).
Proof.
  intros Hf. split; [done|]. intros k. cbn. rewrite map_lookup_imap.
  destruct (job_events d !! k) as [r|]; cbn; constructor. by case_match.
Qed.

Lemma keeps_events_back d d' k r' :
  keeps_events d d' -> job_events d' !! k = Some r' ->
  exists r, job_events d !! k = Some r /\ same_event r r'.
Proof.
  intros [_ H] Hr. specialize (H k). rewrite Hr in H. inversion H; subst. eauto.
Qed.

Lemma keeps_events_sound d d' : db_ok d -> keeps_events d d' -> sound d d'.
Proof.
  intros I K. pose proof K as [E _].
  assert (HJ : jobs d' = jobs d) by by rewrite E.
  assert (HA : job_attempts d' = job_attempts d) by by rewrite E.
  assert (HD : dead_letter_jobs d' = dead_letter_jobs d) by by rewrite E.
  split.
  - destruct I as [I1 I2 I3 I4 I5 I6 I7 I8]. split; rewrite ?HJ, ?HA, ?HD; try done.
    intros i v Hv. destruct (keeps_events_back _ _ _ _ K Hv) as (r & Hr & S).
    destruct (I7 _ _ Hr) as (Hid & row & Hrow & Ht).
    destruct S as (-> & -> & -> & _). split; [done|]. by exists row.
  - split; rewrite ?HJ, ?HA, ?HD; intros k r H; exists r; (split; [done|]).
    + by unfold same_identity.
    + by unfold same_attempt.
    + by unfold same_dead.
  - split; rewrite HJ; [eauto|]. intros k r H. rewrite H. by left.
Qed.

Lemma set_leased_same relay s now r : same_event r (set_leased relay s now r).
Proof. by unfold same_event. Qed.

Lemma set_published_same now r : same_event r (set_published now r).
Proof. by unfold same_event. Qed.

Lemma set_publish_failed_same m s now r : same_event r (set_publish_failed m s now r).
Proof. by unfold same_event. Qed.

Lemma set_replayed_same now r : same_event r (set_replayed now r).
Proof. by unfold same_event. Qed.

#[export] Hint Resolve set_leased_same set_published_same set_publish_failed_same
  set_replayed_same : sched.

(** ** The relay among the other processes *)

Lemma events_stmt_safe {A} (f : Time -> Db -> result (Db * A)) :
  stmt_rel keeps_events f -> safe always (pool_exec f) anything.
Proof.
  intros Hf. apply (safe_pool always f anything).
  intros now d d' a I _ H. split; [|done]. apply keeps_events_sound; [done|]. by eapply Hf.
Qed.

Lemma update_counting_safe P f :
  (forall now r, same_event r (f now r)) -> safe always (update_counting P f) anything.
Proof.
  intros Hf. apply events_stmt_safe. intros now d d' n. case_match; [done|].
  intros [= <- _]. by apply (update_events_keeps P (fun _ => f now)).
Qed.

Lemma Claim_safe relay batch lease : safe always (Claim relay batch lease) anything.
Proof.
  intros e w. apply (events_stmt_safe (fun now d => _)). intros now d d' items [= <- _].
  by apply (update_events_keeps (fun k _ => bool_decide (k ∈ vr_id <$> _))
              (fun _ => set_leased relay _ now)).
Qed.

Lemma MarkPublished_safe id relay : safe always (MarkPublished id relay) anything.
Proof.
  unfold MarkPublished. eapply safe_bind; [apply update_counting_safe; auto with sched|].
  intros n. case_match; [apply safe_fail | by apply safe_ret].
Qed.

Lemma MarkFailed_safe id relay attempts message :
  safe always (MarkFailed id relay attempts message) anything.
Proof.
  unfold MarkFailed. eapply safe_bind; [apply update_counting_safe; auto with sched|].
  intros n. by apply safe_ret.
Qed.

Lemma Replay_safe tenant id : safe always (Replay tenant id) anything.
Proof.
  unfold Replay. eapply safe_bind.
  - apply events_stmt_safe. intros now d d' n [= <- _].
    by apply (update_events_keeps _ (fun _ => set_replayed now)).
  - intros n. case_match; [apply safe_fail | by apply safe_ret].
Qed.

Lemma publish_items_safe r items :
  (forall ev, db_frame (rl_publisher r ev)) -> safe always (publish_items r items) anything.
Proof.
  intros Hp. induction items as [|ev items IH]; cbn; [by apply safe_ret|].
  eapply safe_bind; [apply safe_try, (safe_frame always), Hp|].
  intros [u|err].
  - eapply safe_bind; [eapply safe_conseq; [..|apply safe_check, MarkPublished_safe]; done|].
    intros ?. eapply (safe_conseq always); [done..|].
    do 3 (apply safe_after_frame; [apply _|auto with sched|intros ?]). exact IH.
  - eapply (safe_conseq always); [done..|].
    apply safe_after_frame; [apply _|auto with sched|intros ?].
    eapply safe_bind; [apply safe_try, MarkFailed_safe|]. intros ?.
    eapply safe_conseq; [..|exact IH]; done.
Qed.

(** A relay, whatever its publisher does outside PostgreSQL, is a
    legitimate environment of the API and the workers. *)
Lemma publishBatch_safe r :
  (forall ev, db_frame (rl_publisher r ev)) -> safe always (publishBatch r) anything.
Proof.
  intros Hp. eapply safe_bind; [apply Claim_safe|]. intros items.
  eapply safe_conseq; [..|by apply publish_items_safe]; done.
Qed.

Lemma relay_Run_safe turns r :
  (forall ev, db_frame (rl_publisher r ev)) -> safe always (relay_Run turns r) anything.
Proof.
  intros Hp. apply safe_after_frame; [apply _|auto with sched|intros _].
  induction turns as [|n IH]; cbn; [by apply safe_ret|].
  eapply safe_bind; [by apply safe_try, publishBatch_safe|]. intros res.
  eapply safe_conseq; [..|exact IH]; done.
Qed.

(** A call of the store, whatever it answers. *)
Inductive relay_op :=
| OpClaim (relayID : string) (batch : Z) (lease : Duration)
| OpMarkPublished (id : UUID) (relayID : string)
| OpMarkFailed (id : UUID) (relayID : string) (attempts : Z) (message : string)
| OpReplay (tenantID id : UUID).

Definition relay_call (op : relay_op) : M unit :=
  match op with
  | OpClaim relay batch lease => Claim relay batch lease;; mret tt
  | OpMarkPublished id relay => MarkPublished id relay
  | OpMarkFailed id relay attempts message => MarkFailed id relay attempts message
  | OpReplay tenant id => Replay tenant id
  end.

Lemma relay_call_safe op : safe always (relay_call op) anything.
Proof.
  destruct op; cbn;
    auto using MarkPublished_safe, MarkFailed_safe, Replay_safe.
  eapply safe_bind; [apply Claim_safe|]. intros ?. by apply safe_ret.
Qed.
