(* ===== verification/System.v ===== *)
(** * The system of processes

    API replicas, workers, event relays, client administration and crashes
    as one step relation over the committed database and the jobs that workers carry.  A step is one
    transaction or statement; every outcome the driver allows (rejected,
    committed, committed with a lost reply) is a step.  [reachable] is
    closed under any interleaving of the processes. *)

From S2P Require Import Prelude GoRuntime Engine Sql Schema Effects Json Dto Repository RepositoryFacts Invariant Preservation Auth Service Executor Lock Rfc3339 Registry Worker Scenario Safety AuthFacts Outbox OutboxFacts.

Local Open Scope Z_scope.
Local Open Scope go_scope.

(** ** The services are safe *)

Lemma new_job_creatable marshal Sum256 id p req now :
  validateCreate req = None -> creatable (new_job marshal Sum256 id p req now).
Proof.
  intros H. apply validateCreate_ok in H as (_ & _ & _ & _ & _ & _ & Hm & _).
  split_and!; [|done|done]. apply initialStatus_cases.
Qed.

Section ServiceSafety.
Context (marshal : CreateRequest -> result string) (Sum256 : string -> string).

Lemma service_Create_safe s ctx req :
  (forall m, db_frame (sv_metrics s m)) ->
  safe always (Service.Create marshal Sum256 s ctx req) anything.
Proof.
  intros Hm. unfold Service.Create. cbv zeta.
  destruct (create_check _) eqn:Hc; [apply safe_fail|].
  apply create_check_ok in Hc as [Hv _].
  eapply safe_bind; [apply (safe_frame _); auto with sched|]. intros id. cbn.
  eapply safe_bind; [apply (safe_frame _); auto with sched|]. intros now. cbn.
  eapply safe_bind; [by apply Create_safe, new_job_creatable|]. intros j. cbn.
  eapply safe_bind; [apply (safe_frame always), Hm|]. intros u. cbn. by apply safe_ret.
Qed.

Lemma GetByID_safe t id : safe always (GetByID t id) anything.
Proof.
  unfold GetByID. eapply safe_bind; [apply safe_try, (safe_query always)|].
  intros [j|err]; cbn; [by apply safe_ret|]. case_match; apply safe_fail.
Qed.

Lemma transition_safe ctx id to from :
  operator_transition from to -> safe always (transition ctx id to from) anything.
Proof.
  intros Hop. unfold transition. eapply safe_bind; [apply GetByID_safe|].
  intros current. cbn. case_match; [apply safe_fail|].
  eapply safe_conseq; [by intros; exact Logic.I|done|]. by apply TransitionJob_safe.
Qed.
End ServiceSafety.

(** The client store writes [api_clients] only. *)
Lemma clients_only_sound d t : db_ok d -> sound d (d <| api_clients := t |>).
Proof.
  intros I. destruct (sound_refl d I) as [[I1 I2 I3 I4 I5 I6 I7 I8] [E1 E2 E3] [S1 S2]].
  split; by split.
Qed.

Lemma clients_stmt_safe {A} (f : Time -> Db -> result (Db * A)) :
  (forall now d d' a, f now d = Ok (d', a) -> exists t, d' = d <| api_clients := t |>) ->
  safe always (pool_exec f) anything.
Proof.
  intros Hf. apply (safe_pool always f anything). intros now d d' a I _ H.
  apply Hf in H as [t ->]. split; [by apply clients_only_sound|done].
Qed.

Section AuthSafety.
Context (Sum256 : string -> string) (rand_Read : nat -> result string).

Lemma Authenticate_safe key : safe always (Authenticate Sum256 key) anything.
Proof.
  unfold Authenticate. eapply safe_bind; [apply safe_try, (safe_query always)|].
  intros [[p h]|err]; case_match; try apply safe_fail.
  eapply safe_bind; [eapply safe_conseq; [..|apply (safe_frame always), db_frame_time]; done|].
  intros now. cbn. eapply safe_bind; [apply safe_try, clients_stmt_safe|].
  - intros ????. intros [= <- _]. by eexists.
  - intros ?. by apply safe_ret.
Qed.

Lemma CreateClient_safe t n r k :
  safe always (CreateClient Sum256 rand_Read t n r k) anything.
Proof.
  unfold CreateClient. eapply safe_bind.
  { apply (safe_frame always). case_match; [|auto with sched].
    intros e w. unfold GenerateKey. by case_match. }
  intros key. cbn. eapply safe_bind; [apply (safe_frame always), db_frame_uuid|].
  intros id. cbn. eapply safe_bind; [apply safe_try, clients_stmt_safe|].
  { intros now d d' []. case_match eqn:E; [|done]. intros [= <-].
    apply insert_api_clients_ok in E as (_ & _ & _ & ->). by eexists. }
  intros [[]|err]; [by apply safe_ret|]. case_match; [|apply safe_fail].
  eapply safe_bind; [eapply safe_conseq; [..|apply (safe_query always)]; done|].
  intros ?. by apply safe_ret.
Qed.

Lemma RevokeClient_safe id : safe always (RevokeClient id) anything.
Proof.
  unfold RevokeClient. eapply safe_bind; [apply clients_stmt_safe|].
  - intros ????. intros [= <- _]. by eexists.
  - intros n. case_match; [apply safe_fail | by apply safe_ret].
Qed.

Lemma auth_run_safe ops : safe always (auth_run Sum256 rand_Read ops) anything.
Proof.
  induction ops as [|[] ops IH]; cbn; [by apply safe_ret|..];
    (eapply safe_bind; [apply safe_try|intros ?; eapply safe_conseq; [..|exact IH]; done]).
  - apply CreateClient_safe.
  - apply Authenticate_safe.
  - apply RevokeClient_safe.
Qed.
End AuthSafety.

(** ** The step relation *)

(** The committed database and what the workers carry. *)
Record sys := mksys {
  sy_db : Db;
  sy_flight : list (string * Job)
}.

(** One transaction or statement of some process, started on database
    [d]; [e] fixes the outcomes, and nobody else commits during it. *)
Definition commits {A} (m : M A) (d : Db) (r : result A) (d' : Db) : Prop :=
  exists e w w', (forall n d, e_others e n d = d) /\ w_db w = d /\
    m e w = (r, w') /\ w_db w' = d'.

Inductive sys_step : sys -> sys -> Prop :=
| st_create marshal Sum256 p id req now r d d' F :
    (** [Service.Create] reaches the repository with a checked request. *)
    create_check req = None ->
    commits (Repository.Create (new_job marshal Sum256 id p req now)) d r d' ->
    sys_step (mksys d F) (mksys d' F)
| st_transition t id from to r d d' F :
    (** [Cancel], [Pause], [Resume], [Retry]. *)
    operator_transition from to ->
    commits (TransitionJob t id from to) d r d' ->
    sys_step (mksys d F) (mksys d' F)
| st_requeue t id ra r d d' F :
    commits (Repository.RequeueDeadLetter t id ra) d r d' ->
    sys_step (mksys d F) (mksys d' F)
| st_recover reason r d d' F :
    commits (RecoverExpiredRunningJobs reason) d r d' ->
    sys_step (mksys d F) (mksys d' F)
| st_claim w b ttl out d d' F :
    commits (ClaimDueJobs w b ttl) d (Ok out) d' ->
    sys_step (mksys d F) (mksys d' (F ++ (pair w <$> out)))
| st_claim_lost w b ttl err d d' F :
    commits (ClaimDueJobs w b ttl) d (Err err) d' ->
    sys_step (mksys d F) (mksys d' F)
| st_extend id w ttl r d d' F :
    commits (ExtendLease id w ttl) d r d' ->
    sys_step (mksys d F) (mksys d' F)
| st_release id w r d d' F :
    commits (ReleaseClaim id w StatusRetryScheduled) d r d' ->
    sys_step (mksys d F) (mksys d' F)
| st_complete w j dur res r d d' F :
    (w, j) ∈ F ->
    commits (CompleteExecution j w dur res) d r d' ->
    sys_step (mksys d F) (mksys d' F)
| st_fail w j dur err now ra r d d' F :
    (** [finalize_failure] with the decision it computes. *)
    (w, j) ∈ F ->
    (let decision := DecideFailure now (j_RetryCount j) (j_MaxRetries j)
                       (j_RetryBackoffSeconds j) in
     commits (FailExecution j w dur (ClassifyError err)
                (next_status decision (ClassifyError err))
                (fd_NextRetryCount decision) ra) d r d') ->
    sys_step (mksys d F) (mksys d' F)
| st_relay op r d d' F :
    (** An event relay, or an administrator's replay. *)
    commits (relay_call op) d r d' ->
    sys_step (mksys d F) (mksys d' F)
| st_auth Sum256 rand_Read op r d d' F :
    (** Authentication and client administration. *)
    commits (auth_run Sum256 rand_Read [op]) d r d' ->
    sys_step (mksys d F) (mksys d' F)
| st_forget F' d F :
    (** A worker finishes a job, or crashes. *)
    F' ⊆ F -> sys_step (mksys d F) (mksys d F').

(** A fresh installation: tenants and API clients, no jobs. *)
Definition initial (s : sys) : Prop :=
  jobs (sy_db s) = ∅ /\ job_attempts (sy_db s) = ∅ /\ dead_letter_jobs (sy_db s) = ∅ /\
  job_events (sy_db s) = ∅ /\ sy_flight s = [].

Definition reachable (s : sys) : Prop := exists s0, initial s0 /\ rtc sys_step s0 s.

(** What holds of every reachable state. *)
Record sys_ok (s : sys) : Prop := mk_sys_ok {
  sk_db : db_ok (sy_db s);
  sk_flight : forall w j, (w, j) ∈ sy_flight s -> in_flight (sy_db s) j
}.

(** ** Preservation *)

Lemma initial_ok s : initial s -> sys_ok s.
Proof.
  destruct s as [d F]. intros (HJ & HA & HD & HE & HF). cbn in *. split; cbn.
  - split; rewrite ?HJ, ?HA, ?HD, ?HE; intros *; by rewrite ?lookup_empty.
  - rewrite HF. intros w j H. by apply not_elem_of_nil in H.
Qed.

(** A safe computation that runs alone. *)
Lemma commits_safe {A} P (m : M A) Q d r d' :
  safe P m Q -> commits m d r d' -> db_ok d -> P d ->
  reaches d d' /\ (forall a, r = Ok a -> Q a d').
Proof.
  intros Hs (e & w & w' & He & <- & Hm & <-) I HP.
  assert (Hr : rely e) by (intros n d I'; rewrite He; by apply reaches_refl).
  destruct (Hs e w Hr I HP) as [R HQ]. rewrite Hm in R, HQ. auto.
Qed.

Lemma flight_step d d' F :
  sys_ok (mksys d F) -> reaches d d' -> sys_ok (mksys d' F).
Proof.
  intros [I HF] [I' E _]. split; cbn; [done|]. intros w j Hj.
  eapply in_flight_evolves; [done|]. by eapply HF.
Qed.

Lemma sys_step_sound s s' :
  sys_step s s' -> sys_ok s -> sys_ok s' /\ reaches (sy_db s) (sy_db s').
Proof.
  assert (Hgo : forall A (m : M A) P Q r d d' F, safe P m Q -> commits m d r d' ->
    sys_ok (mksys d F) -> P d -> sys_ok (mksys d' F) /\ reaches d d').
  { intros A m P Q r d d' F Hs Hc Hok HP.
    destruct (commits_safe _ _ _ _ _ _ Hs Hc (sk_db _ Hok) HP) as [R _].
    split; [by eapply flight_step|done]. }
  destruct 1 as [marshal Sum256 p id req now r d d' F Hv Hc|t id from to r d d' F Hop Hc
    |t id ra r d d' F Hc|reason r d d' F Hc|w b ttl out d d' F Hc|w b ttl err d d' F Hc
    |id w ttl r d d' F Hc|id w r d d' F Hc|w j dur res r d d' F Hin Hc
    |w j dur err now ra r d d' F Hin Hc|op r d d' F Hc|Sum256 rand_Read op r d d' F Hc
    |F' d F Hsub]; intros Hok; cbn.
  - apply create_check_ok in Hv as [Hv _]. eapply Hgo; [|done|done|exact Logic.I].
    by apply Create_safe, new_job_creatable.
  - eapply Hgo; [by apply TransitionJob_safe|done|done|exact Logic.I].
  - eapply Hgo; [apply RequeueDeadLetter_safe|done|done|exact Logic.I].
  - eapply Hgo; [apply RecoverExpiredRunningJobs_safe|done|done|exact Logic.I].
  - destruct (commits_safe _ _ _ _ _ _ (ClaimDueJobs_safe w b ttl) Hc (sk_db _ Hok) I)
      as [R HQ]. split; [|done]. specialize (HQ _ eq_refl). cbn in HQ.
    pose proof (flight_step _ _ _ Hok R) as [I' HF]. split; [done|]. cbn.
    intros w' j [Hj|Hj]%elem_of_app; [by eapply HF|].
    apply list_elem_of_fmap in Hj as (j' & [= -> ->] & Hj').
    by eapply Forall_forall in HQ.
  - eapply Hgo; [apply ClaimDueJobs_safe|done|done|exact Logic.I].
  - eapply Hgo; [apply (ExtendLease_safe always)|done|done|exact Logic.I].
  - eapply Hgo; [apply ReleaseClaim_safe|done|done|exact Logic.I].
  - eapply Hgo; [apply CompleteExecution_safe|done|done|by eapply (sk_flight _ Hok)].
  - eapply Hgo; [apply FailExecution_decided_safe|exact Hc|done|].
    by eapply (sk_flight _ Hok).
  - eapply Hgo; [apply relay_call_safe|done|done|exact Logic.I].
  - eapply Hgo; [apply auth_run_safe|done|done|exact Logic.I].
  - split; [|apply reaches_refl, Hok]. destruct Hok as [I HF]. split; [done|].
    cbn in *. intros w j Hj. apply (HF w). set_solver.
Qed.

Lemma sys_steps_sound s s' :
  rtc sys_step s s' -> sys_ok s -> sys_ok s' /\ reaches (sy_db s) (sy_db s').
Proof.
  induction 1 as [s|s1 s2 s3 H12 _ IH]; intros Hok.
  - split; [done|]. apply reaches_refl, Hok.
  - apply sys_step_sound in H12 as [Hok2 R12]; [|done].
    destruct (IH Hok2) as [Hok3 R23]. split; [done|]. by etrans.
Qed.

(** ** A reachable state: the job of the scenario, claimed by w1 *)

Definition sys_created : sys := mksys (w_db created) [].
Definition sys_claimed : sys := mksys (w_db claimed) [("w1", job1)].

Lemma commits_run {A} (m : M A) e w :
  (forall n d, e_others e n d = d) -> commits m (w_db w) (m e w).1 (w_db (m e w).2).
Proof. intros He. exists e, w, (m e w).2. split_and!; try done. by destruct (m e w). Qed.

Lemma created_step : sys_step (mksys db0 []) sys_created.
Proof.
  eapply (st_create marshal0 sum0 (PrincipalOrDefault None) 100%N (prepared svc0 req0)
            (clock0 1)); [by vm_compute|].
  apply (commits_run _ env0 world0). done.
Qed.

Lemma claimed_step : sys_step sys_created sys_claimed.
Proof.
  apply (st_claim "w1" 10 ttl0 [job1] (w_db created) (w_db claimed) []).
  assert (H : claim1.1 = Ok [job1]) by (vm_compute; reflexivity).
  rewrite <- H. by apply (commits_run _ env0 created).
Qed.

Lemma initial0 : initial (mksys db0 []).
Proof. done. Qed.

Lemma claimed_reachable : reachable sys_claimed.
Proof.
  exists (mksys db0 []). split; [apply initial0|].
  eapply rtc_l; [apply created_step|]. apply rtc_once, claimed_step.
Qed.

Lemma created_ok : db_ok (w_db created).
Proof.
  exact (sk_db sys_created
    (proj1 (sys_step_sound _ _ created_step (initial_ok _ initial0)))).
Qed.

Lemma claimed_ok : sys_ok sys_claimed.
Proof.
  destruct claimed_reachable as (s0 & H0 & H).
  exact (proj1 (sys_steps_sound _ _ H (initial_ok _ H0))).
Qed.

Lemma created2_step : sys_step sys_created (mksys (w_db created2) []).
Proof.
  eapply (st_create marshal0 sum0 (PrincipalOrDefault None) 200%N (prepared svc0 req2)
            (clock0 1)); [by vm_compute|].
  apply (commits_run _ env0 created). done.
Qed.

Lemma created2_ok : db_ok (w_db created2).
Proof.
  exact (sk_db (mksys (w_db created2) []) (proj1 (sys_step_sound _ _ created2_step
    (proj1 (sys_step_sound _ _ created_step (initial_ok _ initial0)))))).
Qed.

Lemma rely0 : rely env0.
Proof. intros n d. apply reaches_refl. Qed.

(** ** The theorems *)

(** C1. In every state that any interleaving of API requests, workers,
    recoveries, crashes and failed or half-acknowledged transactions can
    reach from a fresh installation, the database invariant holds: a job
    is leased exactly while it is RUNNING and then has a RUNNING attempt
    of its lease holder, retry counts stay within the budget, a job is
    DEAD_LETTERED exactly when it has its one dead letter, every attempt,
    dead letter and event belongs to a job of its own tenant, idempotency
    keys are unique per tenant; and whatever a worker still carries refers
    to a job and an attempt of it that exist. *)
Theorem reachable_ok s : reachable s -> sys_ok s.
Proof. intros (s0 & H0 & H). apply (sys_steps_sound s0); [done|]. by apply initial_ok. Qed.

Lemma reachable_ok_witness : sys_ok sys_claimed.
Proof. apply reachable_ok. exact claimed_reachable. Defined.

(** C2. From any reachable state on, every job walks along the lifecycle
    (claim, succeed, retry, dead-letter, cancel, pause, resume), no row is
    lost, no job changes its tenant, key or retry budget, and a closed
    attempt keeps its outcome, whatever the processes do. *)
Theorem reachable_walks s s' :
  reachable s -> rtc sys_step s s' ->
  evolves (sy_db s) (sy_db s') /\ lifecycle (sy_db s) (sy_db s').
Proof.
  intros (s0 & H0 & H) Hss. apply (sys_steps_sound s0) in H as [Hok _];
    [|by apply initial_ok].
  destruct (sys_steps_sound _ _ Hss Hok) as [_ [_ E L]]. done.
Qed.

Lemma reachable_walks_witness :
  evolves (sy_db sys_created) (sy_db sys_claimed) /\
  lifecycle (sy_db sys_created) (sy_db sys_claimed).
Proof.
  apply reachable_walks.
  - exists (mksys db0 []). split; [apply initial0|]. apply rtc_once, created_step.
  - apply rtc_once, claimed_step.
Defined.

(** A worker process, whatever its lock manager, executor, metrics and
    heartbeat do outside PostgreSQL, and whatever the other processes
    commit between any two of its statements, keeps the database invariant
    through every round of recovery, claims and processing, and moves jobs
    only along the lifecycle. *)
Theorem worker_guarantee s ticks cut e w :
  WorkerLaws s -> rely e -> db_ok (w_db w) ->
  reaches (w_db w) (w_db (Run ticks cut s e w).2).
Proof. intros Hs He I. by apply (Run_safe s ticks cut e w He I). Qed.

#[local] Instance worker0_laws : WorkerLaws worker0.
Proof. by split; [apply _|..]. Qed.

Lemma worker_guarantee_witness :
  reaches (w_db created) (w_db (Run 2 (fun _ => None) worker0 env0 created).2).
Proof. exact (worker_guarantee _ _ _ _ _ worker0_laws rely0 created_ok). Defined.

(** So does every operation of the job API: creation, the four
    operator transitions and requeueing, under any interleaving. *)
Theorem api_guarantee marshal Sum256 s ctx req id e w :
  (forall m, db_frame (sv_metrics s m)) -> rely e -> db_ok (w_db w) ->
  reaches (w_db w) (w_db (Service.Create marshal Sum256 s ctx req e w).2) /\
  reaches (w_db w) (w_db (Cancel ctx id e w).2) /\
  reaches (w_db w) (w_db (Pause ctx id e w).2) /\
  reaches (w_db w) (w_db (Resume ctx id e w).2) /\
  reaches (w_db w) (w_db (Retry ctx id e w).2) /\
  reaches (w_db w) (w_db (Service.RequeueDeadLetter ctx id e w).2).
Proof.
  intros Hm He I.
  assert (Hgo : forall A (m : M A), safe always m anything ->
    reaches (w_db w) (w_db (m e w).2)).
  { intros A m Hs. by apply (Hs e w He I). }
  split_and!; apply Hgo; try (apply transition_safe; unfold operator_transition; tauto).
  - by apply service_Create_safe.
  - eapply safe_bind; [apply (safe_frame always); auto with sched|]. intros now. cbn.
    apply RequeueDeadLetter_safe.
Qed.

Lemma api_guarantee_witness :
  reaches (w_db created) (w_db (Cancel None 100%N env0 created).2).
Proof.
  exact (proj1 (proj2 (api_guarantee marshal0 sum0 svc0 None req0 100%N env0 created
    (fun _ _ _ => eq_refl) rely0 created_ok))).
Defined.
