(* ===== verification/Journal.v ===== *)
(** * The event journal

    The lifecycle events of internal/events/events.go and the promise of
    the transactional outbox: a job changes its status or appears only in
    a transaction that also records an event telling so, and an event,
    once recorded, keeps its content through leasing, publishing, backing
    off and replay. *)

From S2P Require Import Prelude GoRuntime Engine Sql Schema Effects Json Dto Repository RepositoryFacts Invariant Preservation Auth Service Executor Lock Rfc3339 Registry Worker Scenario Safety AuthFacts Outbox OutboxFacts System.

Local Open Scope Z_scope.
Local Open Scope go_scope.

(** ** Names and envelopes *)

(** The constants of events.go. *)
Definition contract : list string :=
  ["job.created"; "job.claimed"; "job.started"; "job.completed"; "job.failed";
   "job.retry_scheduled"; "job.dead_lettered"; "job.cancelled"; "worker.heartbeat"].

(** [events.New]: a marshal error leaves the payload nil. *)
Definition events_New (eventType source entityType entityID : string) (p : payload)
    : M OutboxEvent :=
  let body := match json_marshal p with Ok b => b | Err _ => [] end in
  id ← uuid_New;
  now ← time_Now;
  mret {| oe_EventID := id; oe_SchemaVersion := 1; oe_TenantID := uuid_Nil;
          oe_EventType := eventType; oe_Source := source; oe_EntityType := entityType;
          oe_EntityID := entityID; oe_OccurredAt := now; oe_CorrelationID := "";
          oe_CausationID := None; oe_Payload := body; oe_PublishAttempts := 0 |}.

(** What the repository writes into [event_type]. *)
Definition vocabulary : list string :=
  ["job.created"; "job.requeued"; "job.started"; "job.completed"; "job.failed";
   "job.retry_scheduled"; "job.dead_lettered"; "job.cancelled"; "job.paused";
   "job.scheduled"].

(** The events that announce a status. *)
Definition announces (st : Status) : list string :=
  match st with
  | StatusPending => ["job.created"; "job.requeued"]
  | StatusScheduled => ["job.created"; "job.requeued"; "job.scheduled"]
  | StatusRunning => ["job.started"]
  | StatusSucceeded => ["job.completed"]
  | StatusFailed => []
  | StatusRetryScheduled => ["job.retry_scheduled"]
  | StatusDeadLettered => ["job.dead_lettered"]
  | StatusCancelled => ["job.cancelled"]
  | StatusPaused => ["job.paused"]
  end.

(** ** Journaled changes *)

(** An event of job [k] that is new in [d'] announces the row's status. *)
Definition told (d d' : Db) (k : UUID) (r : job_row) : Prop :=
  exists i v, job_events d !! i = None /\ job_events d' !! i = Some v /\
    vr_job_id v = k /\ vr_tenant_id v = jr_tenant_id r /\
    vr_event_type v ∈ announces (jr_status r).

Definition unmoved (d : Db) (k : UUID) (r' : job_row) : Prop :=
  exists r, jobs d !! k = Some r /\ jr_status r' = jr_status r /\
    jr_tenant_id r' = jr_tenant_id r.

Record journaled (d d' : Db) : Prop := mk_journaled {
  jn_kept : forall i v, job_events d !! i = Some v ->
    exists v', job_events d' !! i = Some v' /\ same_event v v';
  jn_new : forall i v, job_events d !! i = None -> job_events d' !! i = Some v ->
    vr_event_type v ∈ vocabulary;
  jn_told : forall k r', jobs d' !! k = Some r' -> unmoved d k r' \/ told d d' k r'
}.

#[export] Instance same_event_preorder : PreOrder same_event.
Proof.
  split; [by intros r; unfold same_event|]. unfold same_event. intros r1 r2 r3 H12 H23.
  destruct_and!. split_and!; congruence.
Qed.

#[export] Instance journaled_preorder : PreOrder journaled.
Proof.
  split.
  - intros d. split; [|congruence|].
    + intros i v Hv. by exists v.
    + intros k r' Hr. left. by exists r'.
  - intros d1 d2 d3 [K1 N1 T1] [K2 N2 T2].
    assert (Hnone : forall i, job_events d2 !! i = None -> job_events d1 !! i = None).
    { intros i H. destruct (job_events d1 !! i) as [v|] eqn:E; [|done].
      destruct (K1 _ _ E) as (v' & ? & _). congruence. }
    split.
    + intros i v Hv. destruct (K1 _ _ Hv) as (v2 & Hv2 & S2).
      destruct (K2 _ _ Hv2) as (v3 & Hv3 & S3). exists v3. split; [done|]. by etrans.
    + intros i v H1 H3. destruct (job_events d2 !! i) as [v2|] eqn:E; [|by eapply N2].
      destruct (K2 _ _ E) as (v3 & Hv3 & S3). rewrite H3 in Hv3. injection Hv3 as <-.
      assert (Ht : vr_event_type v = vr_event_type v2) by (unfold same_event in S3; by destruct_and!).
      rewrite Ht. by eapply N1.
    + intros k r3 H3. destruct (T2 _ _ H3) as [(r2 & H2 & Es2 & Et2)|(i & v & Hn & Hv & H)].
      2:{ right. exists i, v. split; [by apply Hnone|]. done. }
      destruct (T1 _ _ H2) as [(r1 & H1 & Es1 & Et1)|(i & v & Hn & Hv & H)].
      { left. exists r1. split_and!; congruence. }
      right. destruct (K2 _ _ Hv) as (v3 & Hv3 & S3). exists i, v3.
      unfold same_event in S3. destruct_and!. rewrite Es2, Et2. split_and!; congruence.
Qed.

(** Events are only added, with known names; then one changed or new row
    that a new event announces is all there is to show. *)
Definition adds_events (d d' : Db) : Prop :=
  job_events d ⊆ job_events d' /\
  forall i v, job_events d !! i = None -> job_events d' !! i = Some v ->
    vr_event_type v ∈ vocabulary.

Lemma adds_event d d' ev row :
  job_events d !! ev = None -> vr_event_type row ∈ vocabulary ->
  job_events d' = <[ev := row]> (job_events d) -> adds_events d d'.
Proof.
  intros Hev Hv E. split; rewrite E; [by apply insert_subseteq|]. intros i v Hn Hi.
  apply lookup_insert_Some in Hi as [[_ <-]|[_ Hi]]; [done|congruence].
Qed.

Lemma adds_two_events d d' ev1 row1 ev2 row2 :
  job_events d !! ev1 = None -> job_events d !! ev2 = None ->
  vr_event_type row1 ∈ vocabulary -> vr_event_type row2 ∈ vocabulary ->
  job_events d' = <[ev2 := row2]> (<[ev1 := row1]> (job_events d)) -> adds_events d d'.
Proof.
  intros H1 H2 V1 V2 E. split; rewrite E.
  - apply map_subseteq_spec. intros i v Hv. rewrite !lookup_insert_ne by congruence. done.
  - intros i v Hn Hi. apply lookup_insert_Some in Hi as [[_ <-]|[_ Hi]]; [done|].
    apply lookup_insert_Some in Hi as [[_ <-]|[_ Hi]]; [done|congruence].
Qed.

Lemma journaled_row d d' k r' :
  adds_events d d' -> jobs d' = <[k := r']> (jobs d) -> told d d' k r' -> journaled d d'.
Proof.
  intros [Hsub Hnew] HJ Ht. split; [|done|].
  - intros i v Hv. exists v. split; [by eapply lookup_weaken|done].
  - intros k' r1. rewrite HJ. intros [[<- <-]|[_ H]]%lookup_insert_Some; [by right|].
    left. by exists r1.
Qed.

(** Statements that leave the events and every status alone. *)
Lemma journaled_quiet d d' :
  job_events d' = job_events d ->
  (forall k r', jobs d' !! k = Some r' -> unmoved d k r') -> journaled d d'.
Proof.
  intros HE HJ. split; rewrite ?HE; [|congruence|by left; apply HJ].
  intros i v Hv. by exists v.
Qed.

Lemma keeps_events_journaled d d' : keeps_events d d' -> journaled d d'.
Proof.
  intros K. pose proof K as [E H]. split.
  - intros i v Hv. specialize (H i). rewrite Hv in H. inversion H; subst. eauto.
  - intros i v Hn Hv. specialize (H i). rewrite Hn, Hv in H. inversion H.
  - intros k r' Hr. rewrite E in Hr. cbn in Hr. left. by exists r'.
Qed.

(** ** The transactions *)

Section Bodies.
Context (d : Db).

Lemma told_new d' k r' ev j src p now ty :
  job_events d !! ev = None -> job_events d' !! ev = Some (new_event_row ev j ty src p now) ->
  j_ID j = k -> j_TenantID j = jr_tenant_id r' -> ty ∈ announces (jr_status r') ->
  told d d' k r'.
Proof. intros H1 H2 <- Ht Ha. exists ev, (new_event_row ev j ty src p now). by split_and!. Qed.

Lemma complete_journaled j w dur res e now n u d' n' :
  complete_body j w dur res e now (d, n) = (Ok u, (d', n')) -> journaled d d'.
Proof.
  intros (r & a & id & Hr & Hw & Hs & Ht & Ha & Har & Hid & ->)%complete_body_ok.
  eapply journaled_row; [|done|].
  - eapply adds_event; [exact Hid| |done]. cbn. set_solver.
  - eapply told_new; [exact Hid|by cbn; rewrite lookup_insert_eq|done|done|]. cbn. set_solver.
Qed.

Lemma fail_journaled j w dur o ns rc ra e now n u d' n' :
  in_flight d j -> fail_body j w dur o ns rc ra e now (d, n) = (Ok u, (d', n')) ->
  journaled d d'.
Proof.
  intros F (r & a & id1 & id2 & Hr & Hw & Hs & Ha & Har & Hrc & Hid1 & Hid2 & HA & HT
    & HC & Hbr)%fail_body_ok.
  destruct F as (r0 & a0 & Hr0 & Ht0 & _). simplify_eq.
  destruct Hbr as [(-> & HJ & _ & p1 & p2 & HE)|(Hne & HJ & _ & p1 & p2 & _ & HE)];
    (eapply journaled_row; [|exact HJ|]);
    [eapply adds_two_events; [exact Hid1|exact Hid2|..|exact HE]; cbn; set_solver| |
     eapply adds_two_events; [exact Hid1|exact Hid2|..|exact HE]; cbn; set_solver|];
    (eapply told_new; [exact Hid2|by rewrite HE, lookup_insert_eq|done|done|]; cbn; set_solver).
Qed.

Lemma transition_journaled t id from to e now n u d' n' :
  operator_transition from to ->
  transition_body t id from to e now (d, n) = (Ok u, (d', n')) -> journaled d d'.
Proof.
  intros Hop (r & ev & Hr & Ht & Hfrom & Hev & HJ & HA & HD & HT & HC & HE)%transition_body_ok.
  assert (Hty : "job." +:+ ToLower (status_string to) ∈ vocabulary /\
    "job." +:+ ToLower (status_string to) ∈ announces to).
  { destruct Hop as [[-> _]|[[-> _]|[[-> _]|[-> _]]]]; cbn; set_solver. }
  eapply journaled_row; [|exact HJ|].
  - eapply adds_event; [exact Hev| |exact HE]. apply Hty.
  - eapply told_new; [exact Hev|by rewrite HE, lookup_insert_eq|done|done|]. apply Hty.
Qed.

Lemma create_journaled j e now n out d' n' :
  creatable j -> create_body j e now (d, n) = (Ok out, (d', n')) -> journaled d d'.
Proof.
  intros [Hs _] (ev & p & -> & Hfresh & Ht & Hkey & Hi4 & Hev & ->)%create_body_ok.
  eapply journaled_row; [|done|].
  - eapply adds_event; [exact Hev| |done]. cbn. set_solver.
  - eapply told_new; [exact Hev|by cbn; rewrite lookup_insert_eq|done|done|].
    cbn. destruct Hs as [-> | ->]; set_solver.
Qed.

Lemma requeue_journaled t dlid ra e now n out d' n' :
  requeue_body t dlid ra e now (d, n) = (Ok out, (d', n')) -> journaled d d'.
Proof.
  intros (dl & k & newID & clock & ev & p & Hk & _ & _ & _ & Hnew & _ & Hev & -> & HJ & _ & _
    & _ & _ & HE)%requeue_body_ok.
  eapply journaled_row; [|exact HJ|].
  - eapply adds_event; [exact Hev| |exact HE]. cbn. set_solver.
  - eapply told_new; [exact Hev|by rewrite HE, lookup_insert_eq|done|done|].
    cbn. destruct (initialStatus_cases ra clock) as [-> | ->]; set_solver.
Qed.
End Bodies.

(** The loops carry the journal along with their own state. *)
Lemma claim_journaled w b ttl e now d n out d' n' :
  db_ok d -> claim_body w b ttl e now (d, n) = (Ok out, (d', n')) -> journaled d d'.
Proof.
  intros I. unfold claim_body. destruct (Z.ltb_spec b 0) as [|Hb]; [discriminate|]. intros H.
  tx_inv H.
  apply (tx_each_ind _ (fun pre rest d1 ys => claim_state w ttl now d pre rest d1 ys /\
    journaled d d1)) with (pre := []) (ys := []) in H; [by destruct H| |].
  - intros pre x l d1 n1 y d2 n2 ys [C J] Hx.
    split; [by eapply claim_state_step|]. etrans; [exact J|]. clear J H.
    destruct (cs_rest _ _ _ _ _ _ _ _ C x) as (r & Hr0 & Ex & _); [by left|].
    assert (Hr : jobs d1 !! j_ID x = Some r).
    { rewrite (cs_jobs _ _ _ _ _ _ _ _ C), decide_False; [done|].
      pose proof (cs_nodup _ _ _ _ _ _ _ _ C) as N. rewrite fmap_app, fmap_cons in N.
      apply NoDup_app in N as (_ & N & _). intros Hin. apply (N _ Hin). by left. }
    apply claim_one_ok in Hx as (r1 & aid & until & ev & p & Hr1 & -> & _ & _ & Hev & _ & ->).
    rewrite Hr in Hr1. injection Hr1 as <-. eapply journaled_row; [|done|].
    + eapply adds_event; [exact Hev| |done]. cbn. set_solver.
    + eapply told_new; [exact Hev|by cbn; rewrite lookup_insert_eq|done| |cbn; set_solver].
      by subst x.
  - split; [by apply claim_state_start|done].
Qed.

Lemma recover_journaled reason e now d n out d' n' :
  db_ok d -> recover_body reason e now (d, n) = (Ok out, (d', n')) -> journaled d d'.
Proof.
  intros I. unfold recover_body. intros H. tx_inv H.
  match goal with H1 : tx_each _ _ _ _ _ = (Ok ?us, _) |- _ =>
    apply (tx_each_ind _ (fun pre rest d1 ys => recover_state d pre rest d1 ys /\ journaled d d1))
      with (pre := []) (ys := []) in H1; [by destruct H1| |] end.
  - intros pre jx l d1 n1 u d2 n2 us [C J] Hx.
    split; [by eapply recover_state_step|]. etrans; [exact J|]. clear J.
    destruct (rs_rest _ _ _ _ _ C jx) as (r & Hr0 & Ex & Hs); [by left|].
    assert (Hr : jobs d1 !! j_ID jx = Some r).
    { rewrite (rs_other _ _ _ _ _ C); [done|].
      pose proof (rs_nodup _ _ _ _ _ C) as N. rewrite fmap_app, fmap_cons in N.
      apply NoDup_app in N as (_ & N & _). intros Hin. apply (N _ Hin). by left. }
    apply recover_one_ok in Hx as (clock & ev & _ & Hev & _ & _ & _ & Hbr).
    destruct Hbr as [(_ & HJ & _ & p & HE)|(_ & HJ & _ & p & _ & HE)];
      rewrite (update_running_job _ _ _ _ Hr Hs) in HJ; cbn [fst] in HJ;
      (eapply journaled_row; [eapply adds_event; [exact Hev| |exact HE]; cbn; set_solver
        |exact HJ|]);
      (eapply told_new; [exact Hev|by rewrite HE, lookup_insert_eq|done|by subst jx|];
        cbn; set_solver).
  - split; [by apply recover_state_start|done].
Qed.

(** ** Computations that run alone *)

(** What [m] does to the database, as long as what the others commit
    meanwhile is in [R] too. *)
Definition effects {A} (R : Db -> Db -> Prop) (m : M A) : Prop :=
  forall e w, (forall n d, R d (e_others e n d)) -> R (w_db w) (w_db (m e w).2).

Section Effects.
Context (R : Db -> Db -> Prop) `{!PreOrder R}.

Lemma effects_frame {A} (m : M A) : db_frame m -> effects R m.
Proof. intros Hm e w _. by rewrite Hm. Qed.

Lemma effects_try {A} (m : M A) : effects R m -> effects R (try m).
Proof. intros Hm e w He. unfold try. specialize (Hm e w He). by destruct (m e w) as [[?|?] ?]. Qed.

Lemma effects_bind {A B} (m : M A) (k : A -> M B) :
  effects R m -> (forall a, effects R (k a)) -> effects R (m ≫= k).
Proof.
  intros Hm Hk e w He. unfold mbind, M_bind. specialize (Hm e w He).
  destruct (m e w) as [[a|err] w1]; [|done]. etrans; [exact Hm|]. by apply Hk.
Qed.

Lemma effects_stmt {A} (f : Time -> Db -> result (Db * A)) :
  stmt_rel R f -> effects R (pool_exec f).
Proof.
  intros Hf e w He. etrans; [apply (He (w_tick w))|]. by apply pool_exec_rel; [apply _|].
Qed.

Lemma effects_query {A} (f : (UUID -> Z) -> Time -> Db -> result A) : effects R (pool_query f).
Proof. intros e w He. by rewrite pool_query_db. Qed.
End Effects.

Lemma commits_effects {A} R `{!Reflexive R} (m : M A) d r d' :
  effects R m -> commits m d r d' -> R d d'.
Proof.
  intros Hm (e & w & w' & He & <- & Hrun & <-).
  specialize (Hm e w ltac:(intros; by rewrite He)). by rewrite Hrun in Hm.
Qed.

Lemma commits_tx {A} (body : Tx A) d r d' :
  commits (with_tx body) d r d' ->
  d' = d \/ exists e now n a n', body e now (d, n) = (Ok a, (d', n')).
Proof.
  intros (e & w & w' & He & <- & Hrun & <-). pose proof (with_tx_cases body e w) as H.
  cbv zeta in H. rewrite Hrun, He in H. cbn [fst snd] in H.
  destruct H as (_ & _ & _ & [[-> _]|(a & n' & H & _)]); [by left|right].
  by exists e, (e_pgnow e (w_tick w)), (S (w_tick w)), a, n'.
Qed.

Lemma commits_journaled {A} (body : Tx A) d r d' :
  (forall e now n a n', body e now (d, n) = (Ok a, (d', n')) -> journaled d d') ->
  commits (with_tx body) d r d' -> journaled d d'.
Proof. intros Hb [->|(e & now & n & a & n' & H)]%commits_tx; [done|by eapply Hb]. Qed.

(** ** The event relay and the client store *)

(** Statements that rewrite only the publication columns of events: their
    effects are in any relation that has [keeps_events]. *)
Section Relay.
Context (R : Db -> Db -> Prop) `{!PreOrder R}.
Context (Hkeep : forall d d', keeps_events d d' -> R d d').

Lemma update_counting_effects P f :
  (forall now r, same_event r (f now r)) -> effects R (update_counting P f).
Proof.
  intros Hf. apply (effects_stmt _). intros now d d' n. case_match; [done|].
  intros [= <- _]. apply Hkeep. by apply (update_events_keeps P (fun _ => f now)).
Qed.

Lemma Claim_effects relay batch lease : effects R (Claim relay batch lease).
Proof.
  intros e w. apply (effects_stmt _ (fun now d => _)). intros now d d' items [= <- _].
  apply Hkeep. by apply (update_events_keeps (fun k _ => bool_decide (k ∈ vr_id <$> _))
              (fun _ => set_leased relay _ now)).
Qed.

Lemma MarkPublished_effects id relay : effects R (MarkPublished id relay).
Proof.
  unfold MarkPublished. apply (effects_bind _); [apply update_counting_effects; auto with sched|].
  intros n. case_match; by apply (effects_frame _).
Qed.

Lemma MarkFailed_effects id relay attempts message :
  effects R (MarkFailed id relay attempts message).
Proof.
  unfold MarkFailed. apply (effects_bind _); [apply update_counting_effects; auto with sched|].
  intros n. by apply (effects_frame _).
Qed.

Lemma Replay_effects tenant id : effects R (Replay tenant id).
Proof.
  unfold Replay. apply (effects_bind _).
  - apply (effects_stmt _). intros now d d' n [= <- _]. apply Hkeep.
    by apply (update_events_keeps _ (fun _ => set_replayed now)).
  - intros n. case_match; by apply (effects_frame _).
Qed.

Lemma relay_effects op : effects R (relay_call op).
Proof.
  destruct op; cbn [relay_call];
    auto using MarkPublished_effects, MarkFailed_effects, Replay_effects.
  apply (effects_bind _); [apply Claim_effects|intros; by apply (effects_frame _)].
Qed.

Lemma publishBatch_effects r :
  (forall ev, db_frame (rl_publisher r ev)) -> effects R (publishBatch r).
Proof.
  intros Hp. apply (effects_bind _); [apply Claim_effects|]. intros items.
  induction items as [|ev items IH]; cbn [publish_items]; [by apply (effects_frame _)|].
  apply (effects_bind _); [apply (effects_try _), (effects_frame _), Hp|]. intros [u|err].
  - apply (effects_bind _).
    { intros e w He. pose proof (MarkPublished_effects (oe_EventID ev) (rl_id r) e w He) as H.
      unfold check. by destruct (MarkPublished _ _ e w) as [[?|?] ?]. }
    intros _. do 3 (apply (effects_bind _); [apply (effects_frame _); auto with sched|intros ?]).
    exact IH.
  - apply (effects_bind _); [apply (effects_frame _); auto with sched|]. intros _.
    apply (effects_bind _); [apply (effects_try _), MarkFailed_effects|]. intros _. exact IH.
Qed.
End Relay.

Lemma relay_journaled op : effects journaled (relay_call op).
Proof. apply (relay_effects _), keeps_events_journaled. Qed.

(** Statements that rewrite only the API clients. *)
Section Clients.
Context (R : Db -> Db -> Prop) `{!PreOrder R}.
Context (Hclients : forall d t, R d (d <| api_clients := t |>)).
Context (Sum256 : string -> string) (rand_Read : nat -> result string).

Lemma clients_effects {A} (f : Time -> Db -> result (Db * A)) :
  (forall now d d' a, f now d = Ok (d', a) -> exists t, d' = d <| api_clients := t |>) ->
  effects R (pool_exec f).
Proof. intros Hf. apply (effects_stmt _). intros now d d' a [t ->]%Hf. apply Hclients. Qed.

Lemma Authenticate_effects key : effects R (Authenticate Sum256 key).
Proof.
  unfold Authenticate. apply (effects_bind _); [apply (effects_try _), (effects_query _)|].
  intros [[p h]|err]; case_match; try by apply (effects_frame _).
  apply (effects_bind _); [apply (effects_frame _), db_frame_time|]. intros now.
  apply (effects_bind _); [apply (effects_try _), clients_effects|intros; by apply (effects_frame _)].
  intros ????. intros [= <- _]. by eexists.
Qed.

Lemma CreateClient_effects t n r k :
  effects R (CreateClient Sum256 rand_Read t n r k).
Proof.
  unfold CreateClient. apply (effects_bind _).
  { apply (effects_frame _). case_match; [|auto with sched].
    intros e w. unfold GenerateKey. by case_match. }
  intros key. apply (effects_bind _); [apply (effects_frame _), db_frame_uuid|]. intros id.
  apply (effects_bind _); [apply (effects_try _), clients_effects|].
  { intros now d d' []. case_match eqn:E; [|done]. intros [= <-].
    apply insert_api_clients_ok in E as (_ & _ & _ & ->). by eexists. }
  intros [[]|err]; [by apply (effects_frame _)|]. case_match; [|by apply (effects_frame _)].
  apply (effects_bind _); [apply (effects_query _)|intros; by apply (effects_frame _)].
Qed.

Lemma RevokeClient_effects id : effects R (RevokeClient id).
Proof.
  unfold RevokeClient. apply (effects_bind _); [apply clients_effects|].
  - intros ????. intros [= <- _]. by eexists.
  - intros n. case_match; by apply (effects_frame _).
Qed.

Lemma auth_effects op : effects R (auth_run Sum256 rand_Read [op]).
Proof.
  destruct op; cbn [auth_run];
    (apply (effects_bind _); [apply (effects_try _)|intros; by apply (effects_frame _)]);
    auto using CreateClient_effects, Authenticate_effects, RevokeClient_effects.
Qed.
End Clients.

Lemma auth_journaled Sum256 rand_Read op : effects journaled (auth_run Sum256 rand_Read [op]).
Proof.
  apply (auth_effects _). intros d t. apply journaled_quiet; [done|]. intros k r' Hr. by exists r'.
Qed.

(** ** Leases and creation *)

(** A claim given back: the one change of status that records no event. *)
Definition released (d d' : Db) : Prop :=
  exists k r now, jobs d !! k = Some r /\ jr_status r = StatusRunning /\
    d' = d <| jobs := <[k := set_released StatusRetryScheduled now r]> (jobs d) |>.

Lemma commits_stmt {A B} (f : Time -> Db -> result (Db * A)) (k : A -> M B) d r d' :
  (forall a, db_frame (k a)) -> commits (pool_exec f ≫= k) d r d' ->
  d' = d \/ exists now a, f now d = Ok (d', a).
Proof.
  intros Hk (e & w & w' & He & <- & Hrun & <-). unfold mbind, M_bind in Hrun.
  assert (Hp : w_db (pool_exec f e w).2 = w_db w \/
    exists now a, f now (w_db w) = Ok (w_db (pool_exec f e w).2, a)).
  { unfold pool_exec. rewrite He.
    destruct (f (e_pgnow e (w_tick w)) (w_db w)) as [[d1 a]|err] eqn:E;
      destruct (e_outcome e (w_tick w)); cbn; eauto. }
  destruct (pool_exec f e w) as [[a|err] w1]; [|by injection Hrun as _ <-].
  pose proof (Hk a e w1) as E. rewrite Hrun in E. cbn in E, Hp. by rewrite E.
Qed.

Lemma release_released id w r d d' :
  commits (ReleaseClaim id w StatusRetryScheduled) d r d' -> d' = d \/ released d d'.
Proof.
  intros [->|(now & c & H)]%commits_stmt; [by left| |by intros a; case_match].
  apply (jobs_stmt_owned id w (set_released StatusRetryScheduled)) in H
    as [[_ ->]|(_ & r0 & Hr & _ & Hs & ->)]; [by left|right].
  by exists id, r0, now.
Qed.

Lemma extend_journaled id w ttl r d d' :
  commits (ExtendLease id w ttl) d r d' -> journaled d d'.
Proof.
  intros [->|(now & c & H)]%commits_stmt; [done| |done].
  apply (jobs_stmt_owned id w (set_extended (duration_seconds ttl))) in H
    as [[_ ->]|(_ & r0 & Hr & _ & Hs & ->)]; [done|].
  apply journaled_quiet; [done|]. intros k r'. cbn.
  intros [[<- <-]|[_ H]]%lookup_insert_Some; [by exists r0|by exists r'].
Qed.

Lemma Create_journaled j r d d' :
  creatable j -> commits (Repository.Create j) d r d' -> journaled d d'.
Proof.
  intros Hj (e & w & w' & He & <- & Hrun & <-).
  assert (Htx : journaled (w_db w) (w_db (with_tx (create_body j) e w).2)).
  { eapply (commits_journaled (create_body j)); [intros e1 now n a n' H; by eapply create_journaled|].
    exists e, w, (with_tx (create_body j) e w).2. split_and!; [done|done| |done].
    apply surjective_pairing. }
  destruct (Create_cases j e w) as [[E _]|[(key & err & _ & _ & E)|(err & err' & _ & E)]];
    rewrite E in Hrun.
  - by rewrite Hrun in Htx.
  - etrans; [exact Htx|]. assert (Hres : effects journaled (resolve_duplicate j key)).
    { unfold resolve_duplicate. apply (effects_bind _); [apply (effects_query _)|].
      intros existing. case_match; by apply (effects_frame _). }
    specialize (Hres e (with_tx (create_body j) e w).2 ltac:(intros; by rewrite He)).
    by rewrite Hrun in Hres.
  - by injection Hrun as _ <-.
Qed.

(** ** Every step of the system *)

Lemma step_journaled s s' :
  sys_step s s' -> sys_ok s ->
  journaled (sy_db s) (sy_db s') \/ released (sy_db s) (sy_db s').
Proof.
  destruct 1 as [marshal Sum256 p id req now r d d' F Hv Hc|t id from to r d d' F Hop Hc
    |t id ra r d d' F Hc|reason r d d' F Hc|w b ttl out d d' F Hc|w b ttl err d d' F Hc
    |id w ttl r d d' F Hc|id w r d d' F Hc|w j dur res r d d' F Hin Hc
    |w j dur err now ra r d d' F Hin Hc|op r d d' F Hc|Sum256 rand_Read op r d d' F Hc
    |F' d F Hsub]; intros [I HF]; cbn in *.
  - left. apply create_check_ok in Hv as [Hv _].
    eapply Create_journaled; [|exact Hc]. by apply new_job_creatable.
  - left. eapply commits_journaled; [|exact Hc]. intros *. by apply transition_journaled.
  - left. eapply commits_journaled; [|exact Hc]. intros *. apply requeue_journaled.
  - left. eapply commits_journaled; [|exact Hc]. intros *. by apply recover_journaled.
  - left. eapply commits_journaled; [|exact Hc]. intros *. by apply claim_journaled.
  - left. eapply commits_journaled; [|exact Hc]. intros *. by apply claim_journaled.
  - left. by eapply extend_journaled.
  - apply release_released in Hc as [->|Hrel]; [by left|by right].
  - left. eapply commits_journaled; [|exact Hc]. intros *. apply complete_journaled.
  - left. eapply commits_journaled; [|exact Hc]. intros *. apply fail_journaled. by eapply HF.
  - left. eapply (commits_effects journaled); [apply relay_journaled|exact Hc].
  - left. eapply (commits_effects journaled); [apply auth_journaled|exact Hc].
  - by left.
Qed.

(** ** The promise of the outbox *)

(** C4. The transactional outbox.  In every step of the system, an event
    that is in the journal stays there with its content, and a job that
    appears or changes its status does so together with a new event of the
    same job and tenant that announces the new status.  The one exception
    is a worker that gives back a job it could not lock: its return from
    RUNNING to RETRY_SCHEDULED is recorded nowhere. *)
Theorem changes_are_journaled s s' :
  reachable s -> sys_step s s' ->
  let d := sy_db s in let d' := sy_db s' in
  (forall i v, job_events d !! i = Some v ->
     exists v', job_events d' !! i = Some v' /\ same_event v v') /\
  (forall k r', jobs d' !! k = Some r' ->
     unmoved d k r' \/ told d d' k r' \/
     (exists r, jobs d !! k = Some r /\ jr_status r = StatusRunning /\
        jr_status r' = StatusRetryScheduled /\ job_events d' = job_events d)).
Proof.
  intros (s0 & H0 & H) Hstep. cbv zeta.
  destruct (step_journaled _ _ Hstep (proj1 (sys_steps_sound _ _ H (initial_ok _ H0))))
    as [[K _ T]|(k0 & r0 & now & Hr0 & Hs & E)].
  - split; [done|]. intros k r' Hr. destruct (T _ _ Hr); auto.
  - rewrite E. split; [intros i v Hv; by exists v|]. cbn. intros k r'.
    intros [[<- <-]|[_ Hr]]%lookup_insert_Some; [right; right; by exists r0|].
    left. by exists r'.
Qed.

Lemma changes_are_journaled_witness :
  (exists r, jobs (w_db claimed) !! 100%N = Some r /\ jr_status r = StatusRunning /\
     told (w_db created) (w_db claimed) 100%N r).
Proof.
  assert (Hr : reachable sys_created).
  { exists (mksys db0 []). split; [apply initial0|]. apply rtc_once, created_step. }
  destruct (changes_are_journaled sys_created sys_claimed Hr claimed_step) as [_ H].
  assert (Hj : (jr_status <$> jobs (w_db claimed) !! 100%N) = Some StatusRunning /\
    (jr_status <$> jobs (w_db created) !! 100%N) = Some StatusPending) by (vm_compute; by split).
  destruct Hj as [(r & Hr1 & Hs1)%fmap_Some Hs0]. exists r. split_and!; [done|done|].
  destruct (H _ _ Hr1) as [(r0 & E & Es & _)|[Ht|(r0 & _ & _ & E & _)]]; [|done|].
  - cbn in E. rewrite E in Hs0. cbn in Hs0. congruence.
  - congruence.
Defined.

(** Three of the names the repository writes are not among the constants
    of events.go. *)
Lemma vocabulary_beyond_contract :
  filter (.∉ contract) vocabulary = ["job.requeued"; "job.paused"; "job.scheduled"].
Proof. by vm_compute. Qed.
