(* ===== verification/History.v ===== *)
(** * What the journal tells of every job

    The journal of a reachable state: each job's current status has been
    announced, and every retry that its count stands for has its own event
    with that count.  [Journal.journaled] covers the status of one step;
    this file adds the retry counts, of the rows and of the jobs that
    workers carry, and puts the two together. *)

From S2P Require Import Prelude GoRuntime Engine Sql Schema Effects Json Dto Repository RepositoryFacts Invariant Preservation Auth Service Executor Lock Rfc3339 Registry Worker Scenario Safety AuthFacts Outbox OutboxFacts System Journal.

Local Open Scope Z_scope.
Local Open Scope go_scope.

(** ** Retries on record *)

(** The [n]-th retry of job [k] has been announced, with its number. *)
Definition retry_told (d : Db) (k : UUID) (n : Z) : Prop :=
  exists i v, job_events d !! i = Some v /\ vr_job_id v = k /\
    vr_event_type v = "job.retry_scheduled" /\ ("retry_count", JInt n) ∈ vr_payload v.

Definition retries_told (d : Db) (k : UUID) (m : Z) : Prop :=
  forall n, 1 <= n <= m -> retry_told d k n.

(** The retries a row has been through: the last failure of a
    dead-lettered job is counted but was not followed by a retry. *)
Definition scheduled_retries (r : job_row) : Z :=
  match jr_status r with
  | StatusDeadLettered => jr_retry_count r - 1
  | _ => jr_retry_count r
  end.

Lemma scheduled_live r :
  jr_status r <> StatusDeadLettered -> scheduled_retries r = jr_retry_count r.
Proof. unfold scheduled_retries. by destruct (jr_status r). Qed.

(** Events keep their content from [d] to [d']. *)
Definition events_kept (d d' : Db) : Prop :=
  forall i v, job_events d !! i = Some v ->
    exists v', job_events d' !! i = Some v' /\ same_event v v'.

Lemma retries_told_kept d d' k m : events_kept d d' -> retries_told d k m -> retries_told d' k m.
Proof.
  intros K H n Hn. destruct (H n Hn) as (i & v & Hv & Hk & Hty & Hp).
  destruct (K _ _ Hv) as (v' & Hv' & S). unfold same_event in S. destruct_and!.
  exists i, v'. split_and!; congruence.
Qed.

Lemma retries_told_le d k m m' : m' <= m -> retries_told d k m -> retries_told d k m'.
Proof. intros Hle H n Hn. apply H. lia. Qed.

Lemma retries_told_next d k m :
  retries_told d k m -> retry_told d k (m + 1) -> retries_told d k (m + 1).
Proof. intros H H1 n Hn. destruct (decide (n = m + 1)) as [->|]; [done|]. apply H. lia. Qed.

Lemma retry_told_new d k n ev j src p now :
  job_events d !! ev = Some (new_event_row ev j "job.retry_scheduled" src p now) ->
  j_ID j = k -> ("retry_count", JInt n) ∈ p -> retry_told d k n.
Proof. intros Hev <- Hp. by exists ev, (new_event_row ev j "job.retry_scheduled" src p now). Qed.

Definition rows_told (d : Db) : Prop :=
  forall k r, jobs d !! k = Some r -> retries_told d k (scheduled_retries r).

(** One row changes: what its count stands for must be on record. *)
Lemma rows_told_row d d' k r' :
  events_kept d d' -> rows_told d -> jobs d' = <[k := r']> (jobs d) ->
  retries_told d' k (scheduled_retries r') -> rows_told d'.
Proof.
  intros K H HJ Hr k1 r1. rewrite HJ. intros [[<- <-]|[_ H1]]%lookup_insert_Some; [done|].
  eapply retries_told_kept; [exact K|]. by apply H.
Qed.

(** Rows whose counts do not grow. *)
Lemma rows_told_quiet d d' :
  events_kept d d' -> rows_told d ->
  (forall k r', jobs d' !! k = Some r' -> scheduled_retries r' <= 0 \/
     exists r, jobs d !! k = Some r /\ scheduled_retries r' <= scheduled_retries r) ->
  rows_told d'.
Proof.
  intros K H HJ k r' Hr. destruct (HJ _ _ Hr) as [H0|(r & Hr0 & Hle)].
  - intros n Hn. lia.
  - eapply retries_told_kept; [exact K|]. eapply retries_told_le; [exact Hle|]. by apply H.
Qed.

Lemma journaled_kept d d' : journaled d d' -> events_kept d d'.
Proof. by intros [K _ _]. Qed.

(** ** The transactions *)

Section Bodies.
Context (d : Db) (Hrows : rows_told d).

Lemma same_jobs_told d' : events_kept d d' -> jobs d' = jobs d -> rows_told d'.
Proof. intros K E. apply (rows_told_quiet d); [done..|]. rewrite E. intros k r Hr. right. by exists r. Qed.

Lemma one_row_told d' k r r' :
  events_kept d d' -> jobs d' = <[k := r']> (jobs d) -> jobs d !! k = Some r ->
  scheduled_retries r' <= scheduled_retries r -> rows_told d'.
Proof.
  intros K HJ Hr Hle. apply (rows_told_quiet d); [done..|]. rewrite HJ.
  intros k1 r1 [[<- <-]|[_ H1]]%lookup_insert_Some; right; [by exists r|by exists r1].
Qed.

Lemma new_row_told d' k r' :
  events_kept d d' -> jobs d' = <[k := r']> (jobs d) -> scheduled_retries r' <= 0 ->
  rows_told d'.
Proof.
  intros K HJ Hle. apply (rows_told_quiet d); [done..|]. rewrite HJ.
  intros k1 r1 [[<- <-]|[_ H1]]%lookup_insert_Some; [by left|]. right. by exists r1.
Qed.

Lemma complete_told j w dur res e now n u d' n' :
  complete_body j w dur res e now (d, n) = (Ok u, (d', n')) -> rows_told d'.
Proof.
  intros H. pose proof (journaled_kept _ _ (complete_journaled _ _ _ _ _ _ _ _ _ _ _ H)) as K.
  apply complete_body_ok in H as (r & a & id & Hr & _ & Hs & _ & _ & _ & _ & ->).
  eapply one_row_told; [exact K|done|exact Hr|].
  rewrite (scheduled_live r) by congruence. by rewrite scheduled_live.
Qed.

Lemma fail_told j w dur o now ra ns e pgnow n u d' n' :
  db_ok d -> in_flight d j -> retries_told d (j_ID j) (j_RetryCount j) ->
  fail_body j w dur o ns (fd_NextRetryCount (DecideFailure now (j_RetryCount j)
    (j_MaxRetries j) (j_RetryBackoffSeconds j))) ra e pgnow (d, n) = (Ok u, (d', n')) ->
  rows_told d'.
Proof.
  intros I F Hj H.
  pose proof (journaled_kept _ _ (fail_journaled _ _ _ _ _ _ _ _ _ _ _ _ _ _ F H)) as K.
  destruct (in_flight_budget _ _ I F) as [Hb Hi].
  rewrite DecideFailure_count in H by lia.
  apply fail_body_ok in H as (r & a & id1 & id2 & Hr & _ & _ & _ & _ & _ & _ & _ & _ & _ & _ & Hbr).
  destruct Hbr as [(_ & HJ & _)|(_ & HJ & _ & p1 & p2 & Hp & HE)];
    (eapply rows_told_row; [exact K|exact Hrows|exact HJ|]).
  - eapply retries_told_kept; [exact K|]. eapply retries_told_le; [|exact Hj]. cbn. lia.
  - rewrite scheduled_live by done. cbn [jr_retry_count set_retry].
    apply retries_told_next; [by eapply retries_told_kept|].
    eapply retry_told_new; [by rewrite HE, lookup_insert_eq|done|exact Hp].
Qed.

Lemma transition_told t id from to e now n u d' n' :
  db_ok d -> operator_transition from to ->
  transition_body t id from to e now (d, n) = (Ok u, (d', n')) -> rows_told d'.
Proof.
  intros I Hop H.
  pose proof (journaled_kept _ _ (transition_journaled _ _ _ _ _ _ _ _ _ _ _ Hop H)) as K.
  apply transition_body_ok in H as (r & ev & Hr & _ & Hfrom & _ & HJ & _).
  eapply one_row_told; [exact K|exact HJ|exact Hr|].
  rewrite (scheduled_live r), scheduled_live; [done|..];
    destruct Hop as [[-> ->]|[[-> ->]|[[-> ->]|[-> ->]]]]; try done;
    intros E; rewrite E in Hfrom; set_solver.
Qed.

Lemma create_told j e now n out d' n' :
  creatable j -> create_body j e now (d, n) = (Ok out, (d', n')) -> rows_told d'.
Proof.
  intros Hc H. pose proof (journaled_kept _ _ (create_journaled _ _ _ _ _ _ _ _ Hc H)) as K.
  destruct Hc as (Hs & H0 & _). apply create_body_ok in H as (ev & p & _ & _ & _ & _ & _ & _ & ->).
  eapply new_row_told; [exact K|done|]. rewrite scheduled_live.
  - cbn. lia.
  - cbn. by destruct Hs as [-> | ->].
Qed.

Lemma requeue_told t dlid ra e now n out d' n' :
  requeue_body t dlid ra e now (d, n) = (Ok out, (d', n')) -> rows_told d'.
Proof.
  intros H. pose proof (journaled_kept _ _ (requeue_journaled _ _ _ _ _ _ _ _ _ _ H)) as K.
  apply requeue_body_ok in H as (dl & k & newID & clock & ev & p & _ & _ & _ & _ & _ & _ & _
    & _ & HJ & _).
  eapply new_row_told; [exact K|exact HJ|]. rewrite scheduled_live; [done|].
  cbn. by destruct (initialStatus_cases ra clock) as [-> | ->].
Qed.

Lemma claim_told w b ttl e now n out d' n' :
  db_ok d -> claim_body w b ttl e now (d, n) = (Ok out, (d', n')) ->
  rows_told d' /\ (forall j, j ∈ out -> retries_told d' (j_ID j) (j_RetryCount j)).
Proof.
  intros I H. pose proof (journaled_kept _ _ (claim_journaled _ _ _ _ _ _ _ _ _ _ I H)) as K.
  destruct (claim_body_state _ _ _ _ _ _ _ _ _ _ I H) as [_ C].
  assert (Hlive : forall j, j ∈ select_due b (e_locked e n) now d -> exists r,
    jobs d !! j_ID j = Some r /\ jr_status r <> StatusDeadLettered).
  { intros j Hj. destruct (select_due_spec _ _ _ _ _ I Hj) as (r & Hr & _ & Hc).
    exists r. split; [done|]. unfold claimable in Hc. rewrite !andb_true_iff in Hc.
    destruct Hc as [[[Hc _] _] _]. apply claimable_status_spec in Hc.
    by destruct Hc as [->|[->| ->]]. }
  split.
  - apply (rows_told_quiet d); [done..|]. intros k r'. rewrite (cs_jobs _ _ _ _ _ _ _ _ C).
    case_decide as Hin; [|intros; right; by exists r'].
    intros (r & Hr & ->)%fmap_Some. right. exists r. split; [done|].
    apply list_elem_of_fmap in Hin as (j & -> & Hj).
    destruct (Hlive j Hj) as (r0 & Hr0 & Hnd). rewrite Hr in Hr0. injection Hr0 as <-.
    by rewrite !scheduled_live.
  - intros j Hj. destruct (Forall2_elem_of_r _ _ _ _ (cs_done _ _ _ _ _ _ _ _ C) Hj)
      as (j0 & Hj0 & r & u & Hr & -> & Hc & E & _).
    rewrite E. cbn [j_ID j_RetryCount claimed_job]. eapply retries_told_kept; [exact K|].
    cbn in Hr |- *. pose proof (Hrows _ _ Hr) as Ht. rewrite scheduled_live in Ht; [done|].
    apply claimable_status_spec in Hc. by destruct Hc as [->|[->| ->]].
Qed.
End Bodies.

Lemma recover_one_told reason j r e now d n u d' n' :
  db_ok d -> rows_told d -> jobs d !! j_ID j = Some r -> j = scanJob r ->
  jr_status r = StatusRunning ->
  recover_one reason j e now (d, n) = (Ok u, (d', n')) -> rows_told d'.
Proof.
  intros I Hrows Hr Ej Hs H.
  destruct (ok_jobs _ I _ _ Hr) as [_ [_ _ Hb Hlb Hi]]. specialize (Hlb ltac:(congruence)).
  pose proof (Hrows _ _ Hr) as Ht. rewrite scheduled_live in Ht by congruence.
  apply recover_one_ok in H as (clock & ev & _ & Hev & _ & _ & _ & Hbr).
  rewrite DecideFailure_count in Hbr by (subst j; cbn; lia).
  assert (Hkept : forall row, job_events d' = <[ev := row]> (job_events d) -> events_kept d d').
  { intros row E i v Hv. exists v. rewrite E, lookup_insert_ne by congruence. done. }
  assert (Erc : j_RetryCount j = jr_retry_count r) by (by subst j). rewrite Erc in Hbr.
  destruct Hbr as [(_ & HJ & _ & p & HE)|(_ & HJ & _ & p & Hp & HE)];
    rewrite (update_running_job _ _ _ _ Hr Hs) in HJ; cbn [fst] in HJ;
    specialize (Hkept _ HE); (eapply rows_told_row; [exact Hkept|exact Hrows|exact HJ|]).
  - eapply retries_told_kept; [exact Hkept|]. eapply retries_told_le; [|exact Ht]. cbn. lia.
  - rewrite scheduled_live by done. cbn [jr_retry_count set_retry].
    apply retries_told_next; [by eapply retries_told_kept|].
    eapply retry_told_new; [by rewrite HE, lookup_insert_eq|done|exact Hp].
Qed.

Lemma recover_told reason e now d n out d' n' :
  db_ok d -> rows_told d -> recover_body reason e now (d, n) = (Ok out, (d', n')) ->
  rows_told d'.
Proof.
  intros I H0. unfold recover_body. intros H. tx_inv H.
  match goal with H1 : tx_each _ _ _ _ _ = (Ok ?us, _) |- _ =>
    apply (tx_each_ind _ (fun pre rest d1 ys => recover_state d pre rest d1 ys /\ rows_told d1))
      with (pre := []) (ys := []) in H1; [by destruct H1| |] end.
  - intros pre jx l d1 n1 u d2 n2 us [C J] Hx.
    split; [by eapply recover_state_step|].
    destruct (rs_rest _ _ _ _ _ C jx) as (r & Hr0 & Ex & Hs); [by left|].
    eapply (recover_one_told _ jx r); [apply C|exact J| |exact Ex|exact Hs|exact Hx].
    rewrite (rs_other _ _ _ _ _ C); [done|].
    pose proof (rs_nodup _ _ _ _ _ C) as N. rewrite fmap_app, fmap_cons in N.
    apply NoDup_app in N as (_ & N & _). intros Hin. apply (N _ Hin). by left.
  - split; [by apply recover_state_start|done].
Qed.

(** ** Every step of the system *)

(** Rows, and jobs in the workers' hands. *)
Definition flight_told (s : sys) : Prop :=
  forall w j, (w, j) ∈ sy_flight s -> retries_told (sy_db s) (j_ID j) (j_RetryCount j).

Lemma commits_told {A} (body : Tx A) d r d' :
  rows_told d ->
  (forall e now n a n', body e now (d, n) = (Ok a, (d', n')) -> rows_told d') ->
  commits (with_tx body) d r d' -> rows_told d'.
Proof. intros H Hb [->|(e & now & n & a & n' & Hok)]%commits_tx; [done|by eapply Hb]. Qed.

(** A claim that commits hands out what its body returned. *)
Lemma commits_tx_result {A} (body : Tx A) d a d' :
  commits (with_tx body) d (Ok a) d' ->
  exists e now n n', body e now (d, n) = (Ok a, (d', n')).
Proof.
  intros (e & w & w' & He & <- & Hrun & <-). pose proof (with_tx_cases body e w) as H.
  cbv zeta in H. rewrite Hrun, He in H. cbn [fst snd] in H.
  destruct H as (_ & _ & _ & [[_ H]|(a' & n' & H & Hr)]); [naive_solver|].
  assert (a' = a) as -> by naive_solver. eauto.
Qed.

(** A relation that leaves [jobs] alone. *)
Definition same_jobs (d d' : Db) : Prop := jobs d' = jobs d.

#[export] Instance same_jobs_preorder : PreOrder same_jobs.
Proof. split; [done|]. unfold same_jobs. intros d1 d2 d3 H12 H23. congruence. Qed.

Lemma step_kept s s' : sys_step s s' -> sys_ok s -> events_kept (sy_db s) (sy_db s').
Proof.
  intros Hstep Hok. destruct (step_journaled _ _ Hstep Hok) as [J|(k & r & now & _ & _ & E)].
  - by apply journaled_kept.
  - rewrite E. intros i v Hv. by exists v.
Qed.


Lemma owned_told id w f now d d' c :
  (forall r, jr_status r = StatusRunning ->
     scheduled_retries (f now r) <= scheduled_retries r) ->
  rows_told d -> jobs_stmt (owned_running id w) f now d = Ok (d', c) -> rows_told d'.
Proof.
  intros Hf H [[_ ->]|(_ & r0 & Hr & _ & Hs & ->)]%jobs_stmt_owned; [done|].
  eapply (one_row_told d); [done| |done|exact Hr|by apply Hf]. intros i v Hv. by exists v.
Qed.

Lemma Create_told j r d d' :
  creatable j -> rows_told d -> commits (Repository.Create j) d r d' -> rows_told d'.
Proof.
  intros Hj H (e & w & w' & He & <- & Hrun & <-).
  assert (Htx : rows_told (w_db (with_tx (create_body j) e w).2)).
  { eapply (commits_told (create_body j)); [exact H|intros e1 now n a n'; by apply create_told|].
    by apply commits_run. }
  destruct (Create_cases j e w) as [[E _]|[(key & err & _ & _ & E)|(err & err' & _ & E)]];
    rewrite E in Hrun.
  - by rewrite Hrun in Htx.
  - assert (Hres : effects eq (resolve_duplicate j key)).
    { unfold resolve_duplicate. apply (effects_bind _); [apply (effects_query _)|].
      intros existing. case_match; by apply (effects_frame _). }
    specialize (Hres e (with_tx (create_body j) e w).2 ltac:(intros; by rewrite He)).
    rewrite Hrun in Hres. cbn in Hres. by rewrite <- Hres.
  - by injection Hrun as _ <-.
Qed.

Lemma step_told s s' :
  sys_step s s' -> sys_ok s -> rows_told (sy_db s) -> flight_told s ->
  rows_told (sy_db s') /\ flight_told s'.
Proof.
  intros Hstep Hok. pose proof (step_kept _ _ Hstep Hok) as K. revert K Hok.
  assert (Hfl : forall d d' F, events_kept d d' -> flight_told (mksys d F) ->
    flight_told (mksys d' F)).
  { intros d d' F K H w j Hj. eapply retries_told_kept; [exact K|]. by eapply (H w). }
  destruct Hstep as [marshal Sum256 p id req now r d d' F Hv Hc|t id from to r d d' F Hop Hc
    |t id ra r d d' F Hc|reason r d d' F Hc|w b ttl out d d' F Hc|w b ttl err d d' F Hc
    |id w ttl r d d' F Hc|id w r d d' F Hc|w j dur res r d d' F Hin Hc
    |w j dur err now ra r d d' F Hin Hc|op r d d' F Hc|Sum256 rand_Read op r d d' F Hc
    |F' d F Hsub]; intros K [I HF] H HT; cbn [sy_db sy_flight] in *;
    try (split; [|by eapply Hfl]).
  - apply create_check_ok in Hv as [Hv _].
    eapply Create_told; [|exact H|exact Hc]. by apply new_job_creatable.
  - eapply commits_told; [exact H| |exact Hc]. intros *. by apply transition_told.
  - eapply commits_told; [exact H| |exact Hc]. intros *. by apply requeue_told.
  - eapply commits_told; [exact H| |exact Hc]. intros *. by apply recover_told.
  - apply commits_tx_result in Hc as (e & now & n & n' & Hc).
    destruct (claim_told d H _ _ _ _ _ _ _ _ _ I Hc) as [Hr Ho]. split; [done|].
    intros w1 j [Hj|Hj]%elem_of_app; [by eapply (Hfl d d' F)|].
    apply list_elem_of_fmap in Hj as (j1 & [= -> ->] & Hj). by apply Ho.
  - eapply commits_told; [exact H| |exact Hc]. intros * Hb. by eapply claim_told.
  - apply commits_stmt in Hc as [->|(now & c & Hc)]; [done| |done].
    eapply owned_told; [|exact H|exact Hc]. intros r0 Hs.
    by rewrite !scheduled_live by (cbn; congruence).
  - apply commits_stmt in Hc as [->|(now & c & Hc)]; [done| |by intros a; case_match].
    eapply owned_told; [|exact H|exact Hc]. intros r0 Hs.
    by rewrite !scheduled_live by (cbn; congruence).
  - eapply commits_told; [exact H| |exact Hc]. intros *. by apply complete_told.
  - eapply commits_told; [exact H| |exact Hc]. intros *.
    apply fail_told; [done|done|by eapply HF|by eapply (HT w)].
  - eapply (same_jobs_told d); [exact H|exact K|]. eapply (commits_effects same_jobs); [|exact Hc].
    apply (relay_effects _). intros d1 d2 [E _]. by rewrite E.
  - eapply (same_jobs_told d); [exact H|exact K|]. eapply (commits_effects same_jobs); [|exact Hc].
    by apply (auth_effects _).
  - split; [done|]. intros w j Hj. by apply (HT w), Hsub.
Qed.

(** ** The journal of a reachable state *)

(** The current status of every job has been announced; a job that was
    given back before its first retry is last known as started. *)
Record journal_ok (d : Db) : Prop := mk_journal_ok {
  jo_names : forall i v, job_events d !! i = Some v -> vr_event_type v ∈ vocabulary;
  jo_told : forall k r, jobs d !! k = Some r -> exists i v, job_events d !! i = Some v /\
    vr_job_id v = k /\ vr_tenant_id v = jr_tenant_id r /\
    (vr_event_type v ∈ announces (jr_status r) \/
     (jr_status r = StatusRetryScheduled /\ jr_retry_count r = 0 /\
      vr_event_type v = "job.started"));
  jo_retries : forall k r n, jobs d !! k = Some r ->
    1 <= n <= (match jr_status r with
               | StatusDeadLettered => jr_retry_count r - 1
               | _ => jr_retry_count r
               end) ->
    exists i v, job_events d !! i = Some v /\ vr_job_id v = k /\
      vr_event_type v = "job.retry_scheduled" /\ ("retry_count", JInt n) ∈ vr_payload v
}.

(** The part that follows from [journaled] and [released] alone. *)
Record heard (d : Db) : Prop := mk_heard {
  hd_names : forall i v, job_events d !! i = Some v -> vr_event_type v ∈ vocabulary;
  hd_told : forall k r, jobs d !! k = Some r -> exists i v, job_events d !! i = Some v /\
    vr_job_id v = k /\ vr_tenant_id v = jr_tenant_id r /\
    (vr_event_type v ∈ announces (jr_status r) \/
     (jr_status r = StatusRetryScheduled /\ vr_event_type v = "job.started"))
}.

Lemma journaled_heard d d' : journaled d d' -> heard d -> heard d'.
Proof.
  intros [K N T] [On Ot]. split.
  - intros i v Hv. destruct (job_events d !! i) as [v0|] eqn:E; [|by eapply N].
    destruct (K _ _ E) as (v' & Hv' & S). rewrite Hv in Hv'. injection Hv' as <-.
    unfold same_event in S. destruct_and!. specialize (On _ _ E). congruence.
  - intros k r' Hr. destruct (T _ _ Hr) as [(r & Hr0 & Es & Et)|(i & v & _ & Hv & Hk & Ht & Ha)].
    + destruct (Ot _ _ Hr0) as (i & v & Hv & Hk & Ht & Ha). destruct (K _ _ Hv) as (v' & Hv' & S).
      unfold same_event in S. destruct_and!. exists i, v'. rewrite Es, Et.
      split_and!; [done|congruence..|].
      match goal with H : vr_event_type v' = vr_event_type v |- _ => by rewrite H end.
    + exists i, v. split_and!; auto.
Qed.

Lemma released_heard d d' : released d d' -> heard d -> heard d'.
Proof.
  intros (k0 & r0 & now & Hr0 & Hs & ->) [On Ot]. split; [done|]. intros k r'. cbn.
  intros [[<- <-]|[_ Hr]]%lookup_insert_Some; [|by apply Ot].
  destruct (Ot _ _ Hr0) as (i & v & Hv & Hk & Ht & Ha). exists i, v. split_and!; try done.
  right. split; [done|]. rewrite Hs in Ha. destruct Ha as [Ha|[Ha _]]; [|done].
  cbn in Ha. set_solver.
Qed.

(** A job with retries behind it has been announced as RETRY_SCHEDULED. *)
Lemma heard_journal_ok d : db_ok d -> heard d -> rows_told d -> journal_ok d.
Proof.
  intros I [On Ot] H. split; [done| |intros k r n Hr Hn; by apply (H _ _ Hr)].
  intros k r Hr. destruct (Ot _ _ Hr) as (i & v & Hv & Hk & Ht & [Ha|[Hs Ha]]).
  { exists i, v. split_and!; auto. }
  destruct (decide (jr_retry_count r = 0)) as [|Hne]; [exists i, v; split_and!; auto|].
  destruct (ok_jobs _ I _ _ Hr) as [_ Hok]. pose proof (ok_budget _ Hok) as Hb.
  destruct (H _ _ Hr (jr_retry_count r)) as (i1 & v1 & Hv1 & Hk1 & Hty & _).
  { rewrite scheduled_live by congruence. lia. }
  destruct (ok_events _ I _ _ Hv1) as [_ (r1 & Hr1 & Ht1)]. rewrite Hk1, Hr in Hr1.
  injection Hr1 as <-. exists i1, v1. split_and!; [done..|]. left. rewrite Hs, Hty.
  cbn. set_solver.
Qed.

(** C10. The journal is complete.  In every reachable state each job has an
    event on record, of its own tenant, that announces its current status;
    a job with retries behind it has, for each of them, its own
    job.retry_scheduled event with the number of that retry (for a
    dead-lettered job, each failure but the last); and every event has one
    of the ten names of [vocabulary].  The one status that may go
    unannounced is that of a job without a retry that a worker gave back:
    it waits as RETRY_SCHEDULED and is last known as started. *)
Theorem journal_complete s : reachable s -> journal_ok (sy_db s).
Proof.
  intros (s0 & H0 & H). pose proof (initial_ok _ H0) as K0.
  assert (J0 : heard (sy_db s0) /\ rows_told (sy_db s0) /\ flight_told s0).
  { destruct H0 as (HJ & _ & _ & HE & HF). split_and!.
    - split; intros *; by rewrite ?HJ, ?HE, lookup_empty.
    - intros k r. by rewrite HJ, lookup_empty.
    - intros w j. rewrite HF. by intros Hj%not_elem_of_nil. }
  clear H0. revert K0 J0. induction H as [s|s1 s2 s3 H12 _ IH].
  - intros [I _] (Hh & Hr & _). by apply heard_journal_ok.
  - intros K1 (Hh & Hr & Hf). apply IH; [by apply (sys_step_sound _ _ H12 K1)|].
    split; [|by apply (step_told _ _ H12)].
    destruct (step_journaled _ _ H12 K1); [by eapply journaled_heard|by eapply released_heard].
Qed.

(** The scenario's job after recovery took it from w1. *)
Lemma recovered_reachable : reachable (mksys (w_db recovered) [("w1", job1)]).
Proof.
  destruct claimed_reachable as (s0 & H0 & H). exists s0. split; [done|].
  eapply rtc_r; [exact H|]. eapply (st_recover "late").
  by apply (commits_run (RecoverExpiredRunningJobs "late") env_later claimed).
Qed.

Lemma journal_complete_witness :
  (jr_retry_count <$> jobs (w_db recovered) !! 100%N) = Some 1 /\
  retry_told (w_db recovered) 100%N 1.
Proof.
  assert (E : (jr_retry_count <$> jobs (w_db recovered) !! 100%N) = Some 1 /\
    (jr_status <$> jobs (w_db recovered) !! 100%N) = Some StatusRetryScheduled)
    by (vm_compute; by split).
  destruct E as [E Es]. split; [exact E|].
  apply fmap_Some in E as (r & Hr & Ec). rewrite Hr in Es. injection Es as Es.
  pose proof (journal_complete _ recovered_reachable) as J.
  apply (jo_retries _ J _ _ 1 Hr). rewrite Es, <- Ec. lia.
Defined.
