(* ===== verification/Finalise.v ===== *)
(** * Finalising an execution

    [CompleteExecution] and [FailExecution] on every branch, the fencing
    of stale workers, and atomicity under faults. *)

From S2P Require Import Prelude GoRuntime Engine Sql Schema Effects Json Dto Rows Repository RepositoryFacts Invariant Preservation Auth Service Executor Lock Rfc3339 Registry Worker Scenario Safety System.

Local Open Scope Z_scope.
Local Open Scope go_scope.

(** ** Running transaction bodies in a healthy environment *)

(** From tick [n0] on, [e_uuid] gives ids the database has not seen, and
    never the same one twice. *)
Definition fresh_ids (e : env) (n0 : nat) (d : Db) : Prop :=
  forall n, (n0 <= n)%nat ->
    job_events d !! e_uuid e n = None /\ dead_letter_jobs d !! e_uuid e n = None /\
    job_attempts d !! e_uuid e n = None /\ jobs d !! e_uuid e n = None /\
    (forall m : nat, e_uuid e n = e_uuid e m -> n = m).

Section HealthyBodies.
Context (e : env) (H : healthy e).

Lemma tx_exec_healthy {A} (f : Time -> Db -> result (Db * A)) now d n :
  tx_exec f e now (d, n) =
  match f now d with
  | Ok (d', a) => (Ok a, (d', S n))
  | Err err => (Err err, (d, S n))
  end.
Proof. unfold tx_exec. by rewrite (h_outcome _ H). Qed.

Lemma tx_update_jobs_healthy P f now d n :
  tx_update_jobs P f e now (d, n) =
  (Ok (update_where P (f now) (jobs d)).2,
   (d <| jobs := (update_where P (f now) (jobs d)).1 |>, S n)).
Proof.
  unfold tx_update_jobs. rewrite tx_exec_healthy. by destruct (update_where _ _ _).
Qed.

Lemma tx_update_attempts_healthy P f now d n :
  tx_update_attempts P f e now (d, n) =
  (Ok (update_where P (f now) (job_attempts d)).2,
   (d <| job_attempts := (update_where P (f now) (job_attempts d)).1 |>, S n)).
Proof.
  unfold tx_update_attempts. rewrite tx_exec_healthy. by destruct (update_where _ _ _).
Qed.

(** An event with printable contents is always stored. *)
Lemma insertJobEvent_healthy j ty src p now d n :
  json_marshal p = Ok p -> job_events d !! e_uuid e n = None ->
  has_tenant d (j_TenantID j) = true ->
  insertJobEvent j ty src p e now (d, n) =
  (Ok tt, (d <| job_events := <[e_uuid e n := new_event_row (e_uuid e n) j ty src p now]>
                                (job_events d) |>, S (S n))).
Proof.
  intros Hp Hf Ht. unfold insertJobEvent, mbind, Tx_bind, tx_lift, tx_uuid_New, tx_insert.
  rewrite Hp, tx_exec_healthy. unfold insert_job_events, insert_row. cbn.
  rewrite Hf. cbn. by rewrite Ht.
Qed.
End HealthyBodies.

(** ** [CompleteExecution] *)

(** The job is RUNNING under this worker's lease and its attempt is still
    open. *)
Definition owns (d : Db) (j : Job) (workerID : string) : bool :=
  match jobs d !! j_ID j, job_attempts d !! j_ActiveAttemptID j with
  | Some r, Some a => bool_decide (jr_status r = StatusRunning) &&
                      bool_decide (jr_locked_by r = Some workerID) &&
                      bool_decide (ar_status a = AttemptRunning)
  | _, _ => false
  end.

(** It is what the two [WHERE] clauses ask for. *)
Lemma owns_where d j wid :
  owns d j wid =
  match jobs d !! j_ID j, job_attempts d !! j_ActiveAttemptID j with
  | Some r, Some a => owned_running (j_ID j) wid (j_ID j) r &&
                      running_attempt (j_ActiveAttemptID j) (j_ActiveAttemptID j) a
  | _, _ => false
  end.
Proof.
  unfold owns, owned_running, running_attempt. repeat case_match; try done.
  rewrite !(bool_decide_eq_true_2 (_ = _ :> UUID)) by done. cbn [andb].
  f_equal. apply andb_comm.
Qed.

(** Tenants and API keys. *)
Definition same_accounts (d d' : Db) : Prop :=
  tenants d' = tenants d /\ api_clients d' = api_clients d.

(** What a completion commits: the job SUCCEEDED and unleased, its attempt
    closed with duration and result, one event, and nothing else. *)
Record completed (j : Job) (workerID : string) (ms : Z) (res : string) (now : Time)
    (d d' : Db) : Prop := mk_completed {
  co_job : row_changed (succeeded_row now) (j_ID j) (jobs d) (jobs d');
  co_attempt : row_changed (succeeded_attempt ms res now) (j_ActiveAttemptID j)
                 (job_attempts d) (job_attempts d');
  co_event : row_added (fun id => recorded_event id (j_ID j) (j_TenantID j) "job.completed"
               "worker" [("worker_id", JStr workerID); ("execution_duration_ms", JInt ms)] now)
               (job_events d) (job_events d');
  co_dead : dead_letter_jobs d' = dead_letter_jobs d;
  co_accounts : same_accounts d d'
}.

(** The same with the repository's own updates. *)
Definition completed_db (j : Job) (workerID : string) (ms : Z) (res : string)
    (eventID : UUID) (now : Time) (d : Db) : Db :=
  d <| jobs := alter (set_succeeded now) (j_ID j) (jobs d) |>
    <| job_attempts := alter (set_attempt_succeeded ms (nullableJSON res) now)
                         (j_ActiveAttemptID j) (job_attempts d) |>
    <| job_events := <[eventID := new_event_row eventID j "job.completed" "worker"
         [("worker_id", JStr workerID); ("execution_duration_ms", JInt ms)] now]>
         (job_events d) |>.

Lemma fresh_ids_S e n d : fresh_ids e n d -> fresh_ids e (S n) d.
Proof. intros Hf m Hm. apply Hf. lia. Qed.

(** An update that pins a key and misses it changes nothing. *)
Lemma update_where_miss {V} (P : UUID -> V -> bool) f (t : gmap UUID V) k :
  (forall k' v', P k' v' = true -> k' = k) ->
  (forall v, t !! k = Some v -> P k v = false) -> update_where P f t = (t, 0%nat).
Proof.
  intros Hpin Hmiss. apply update_where_none. intros k' v' Hk'.
  destruct (P k' v') eqn:E; [|done]. pose proof (Hpin _ _ E) as ->.
  rewrite (Hmiss _ Hk') in E. done.
Qed.

Lemma alter_insert {V} (f : V -> V) (t : gmap UUID V) k v :
  t !! k = Some v -> alter f k t = <[k := f v]> t.
Proof.
  intros Hk. apply map_eq. intros i. rewrite lookup_insert. case_decide as E; subst.
  - by rewrite lookup_alter_eq, Hk.
  - by rewrite lookup_alter_ne.
Qed.

Lemma Tx_bind_run {A B} (m : Tx A) (k : A -> Tx B) e now s a s' :
  m e now s = (Ok a, s') -> (m ≫= k) e now s = k a e now s'.
Proof. unfold mbind, Tx_bind. by intros ->. Qed.

Lemma Tx_bind_err {A B} (m : Tx A) (k : A -> Tx B) e now s err s' :
  m e now s = (Err err, s') -> (m ≫= k) e now s = (Err err, s').
Proof. unfold mbind, Tx_bind. by intros ->. Qed.

Lemma Tx_bind_ret {A B} (a : A) (k : A -> Tx B) e now s :
  ((mret a : Tx A) ≫= k) e now s = k a e now s.
Proof. done. Qed.

Lemma row_altered {V} (R : V -> V -> Prop) f (t : gmap UUID V) k v :
  t !! k = Some v -> R v (f v) -> row_changed R k t (alter f k t).
Proof. intros Hk HR. exists v, (f v). by rewrite (alter_insert _ _ _ _ Hk). Qed.

Lemma row_inserted {V} (P : UUID -> V -> Prop) (t : gmap UUID V) k v :
  t !! k = None -> P k v -> row_added P t (<[k := v]> t).
Proof. intros Hk HP. by exists k, v. Qed.

Lemma owns_true d j wid :
  owns d j wid = true ->
  exists r a, jobs d !! j_ID j = Some r /\ job_attempts d !! j_ActiveAttemptID j = Some a /\
    ar_status a = AttemptRunning /\ owned_running (j_ID j) wid (j_ID j) r = true.
Proof.
  rewrite owns_where. intros Ho. repeat case_match; try discriminate.
  apply andb_true_iff in Ho as [? [_ ?]%running_attempt_spec]. eauto 10.
Qed.

Lemma completed_db_spec j wid ms res id now d :
  owns d j wid = true -> job_events d !! id = None ->
  completed j wid ms res now d (completed_db j wid ms res id now d).
Proof.
  intros (r & a & Hr & Ha & _)%owns_true Hid. split; [| | |done|done]; cbn.
  - by apply (row_altered _ _ _ _ _ Hr).
  - by apply (row_altered _ _ _ _ _ Ha).
  - by eapply row_inserted.
Qed.

Section Complete.
Context (e : env) (H : healthy e) (j : Job) (wid : string) (dur : Duration) (res : string).

Lemma complete_body_conflict now d n :
  (jr_tenant_id <$> jobs d !! j_ID j) = Some (j_TenantID j) ->
  owns d j wid = false ->
  exists s', complete_body j wid dur res e now (d, n) = (Err ErrConflict, s').
Proof.
  intros Ht Hno. unfold complete_body.
  destruct (jobs d !! j_ID j) as [r|] eqn:Hr; [|discriminate]. cbn in Ht. simplify_eq.
  erewrite Tx_bind_run by (by apply tx_update_jobs_healthy).
  destruct (owned_running (j_ID j) wid (j_ID j) r) eqn:Hown.
  - rewrite (update_where_key _ _ _ _ _ Hr).
    2:{ cbn. rewrite Hown. by rewrite bool_decide_eq_true_2. }
    2:{ intros k v Hk. apply andb_true_iff in Hk as [Hk _]. by eapply owned_running_pin. }
    cbn. rewrite Tx_bind_ret.
    erewrite Tx_bind_run by (by apply tx_update_attempts_healthy). cbn.
    rewrite (update_where_miss _ _ _ (j_ActiveAttemptID j)); [by eexists|..].
    + intros; by eapply running_attempt_pin.
    + intros a Ha. rewrite owns_where, Hr, Ha, Hown in Hno. done.
  - rewrite (update_where_miss _ _ _ (j_ID j)); [by eexists|..].
    + intros k v Hk. apply andb_true_iff in Hk as [Hk _]. by eapply owned_running_pin.
    + intros v Hv. simplify_eq. by rewrite Hown.
Qed.

Lemma complete_body_run now d n :
  (jr_tenant_id <$> jobs d !! j_ID j) = Some (j_TenantID j) ->
  has_tenant d (j_TenantID j) = true -> fresh_ids e n d -> owns d j wid = true ->
  exists id n', job_events d !! id = None /\
    complete_body j wid dur res e now (d, n) =
    (Ok tt, (completed_db j wid (duration_milliseconds dur) res id now d, n')).
Proof.
  intros Ht Hten Hfresh Hyes. rewrite owns_where in Hyes. unfold complete_body in *.
  destruct (jobs d !! j_ID j) as [r|] eqn:Hr; [|discriminate]. cbn in Ht. simplify_eq.
  destruct (job_attempts d !! j_ActiveAttemptID j) as [a|] eqn:Ha; [|discriminate].
  apply andb_true_iff in Hyes as [Hown Hrun].
  erewrite Tx_bind_run by (by apply tx_update_jobs_healthy).
  rewrite (update_where_key _ _ _ _ _ Hr).
  2:{ cbn. rewrite Hown. by rewrite bool_decide_eq_true_2. }
  2:{ intros k v Hk. apply andb_true_iff in Hk as [Hk _]. by eapply owned_running_pin. }
  cbn. rewrite Tx_bind_ret.
  erewrite Tx_bind_run by (by apply tx_update_attempts_healthy). cbn.
  rewrite (update_where_key _ _ _ _ _ Ha Hrun) by (intros; by eapply running_attempt_pin).
  cbn. rewrite Tx_bind_ret. unfold completed_db. rewrite (alter_insert _ _ _ _ Hr), (alter_insert _ _ _ _ Ha).
  exists (e_uuid e (S (S n))). eexists. split; [apply (Hfresh (S (S n))); lia|].
  erewrite insertJobEvent_healthy; try done. apply (Hfresh (S (S n))). lia.
Qed.
End Complete.

(** C19. Completing an execution in a healthy environment: when the job is
    RUNNING under this worker's lease and its attempt is open, the job
    becomes SUCCEEDED and unleased, the attempt is closed with duration
    and result and a job.completed event is stored, all at once; otherwise
    the call answers ErrConflict and changes nothing. *)
Theorem CompleteExecution_spec e j wid dur res w :
  healthy e -> fresh_ids e (w_tick w) (w_db w) -> has_tenant (w_db w) (j_TenantID j) = true ->
  (jr_tenant_id <$> jobs (w_db w) !! j_ID j) = Some (j_TenantID j) ->
  let out := CompleteExecution j wid dur res e w in
  if owns (w_db w) j wid
  then out.1 = Ok tt /\
       completed j wid (dur `quot` 10 ^ 6) res (e_pgnow e (w_tick w)) (w_db w) (w_db out.2)
  else out.1 = Err ErrConflict /\ w_db out.2 = w_db w.
Proof.
  intros H Hf Hten Ht. cbv zeta. unfold CompleteExecution. rewrite (with_tx_healthy _ H).
  destruct (owns (w_db w) j wid) eqn:Ho.
  - destruct (complete_body_run e H j wid dur res (e_pgnow e (w_tick w)) (w_db w)
      (S (w_tick w)) Ht Hten (fresh_ids_S _ _ _ Hf) Ho) as (id & n' & Hid & ->).
    split; [done|]. by apply completed_db_spec.
  - destruct (complete_body_conflict e H j wid dur res (e_pgnow e (w_tick w)) (w_db w)
      (S (w_tick w)) Ht Ho) as [[d' n'] ->]. done.
Qed.


(** ** Freshness in the scenario *)

Lemma below_fresh {V} (t : gmap UUID V) b i :
  forallb (fun k => N.ltb k b) (map_to_list t).*1 = true -> (b <= i)%N -> t !! i = None.
Proof.
  intros Hb Hi. destruct (t !! i) as [v|] eqn:E; [|done]. exfalso.
  apply elem_of_map_to_list in E. rewrite forallb_forall in Hb.
  assert (Hin : i ∈ (map_to_list t).*1) by (apply list_elem_of_fmap; by exists (i, v)).
  apply list_elem_of_In in Hin. specialize (Hb _ Hin). apply N.ltb_lt in Hb. lia.
Qed.

Lemma env0_fresh n0 d : ids_below (N.of_nat (100 + n0)) d = true -> fresh_ids env0 n0 d.
Proof.
  unfold ids_below. rewrite !forallb_app, !andb_true_iff. intros (H1 & H2 & H3 & H4) n Hn.
  cbn. split_and!; try (eapply below_fresh; [done|lia]). intros m Hm. lia.
Qed.

Lemma CompleteExecution_spec_witness :
  let out := CompleteExecution job1 "w1" Second "{}" env0 claimed in
  out.1 = Ok tt /\
  completed job1 "w1" 1000 "{}" (e_pgnow env0 (w_tick claimed)) (w_db claimed) (w_db out.2).
Proof.
  apply (CompleteExecution_spec env0 job1 "w1" Second "{}" claimed env0_healthy).
  - apply env0_fresh. vm_compute. reflexivity.
  - vm_compute. reflexivity.
  - vm_compute. reflexivity.
Defined.

(** ** [FailExecution] *)

Lemma insert_dead_letter_healthy e t j m rc now d n :
  healthy e -> dead_letter_jobs d !! e_uuid e n = None -> has_tenant d t = true ->
  int4_ok rc = true ->
  insert_dead_letter t j m rc e now (d, n) =
  (Ok tt, (d <| dead_letter_jobs :=
      <[e_uuid e n := new_dead_letter_row (e_uuid e n) t j m rc now]>
        (dead_letter_jobs d) |>, S (S n))).
Proof.
  intros H Hf Ht Hrc. unfold insert_dead_letter, mbind, Tx_bind, tx_uuid_New, tx_insert.
  rewrite (tx_exec_healthy _ H). unfold insert_dead_letter_jobs, insert_row. cbn.
  rewrite Hrc, Hf. cbn. by rewrite Ht.
Qed.

Definition failed_event (j : Job) (wid : string) (o : ExecutionResult) (id : UUID)
    (now : Time) : event_row :=
  new_event_row id j "job.failed" "worker"
    [("worker_id", JStr wid); ("attempt_number", JInt (j_AttemptNumber j));
     ("error", JStr (er_Message o)); ("error_code", JStr (er_ErrorCode o));
     ("retryable", JBool (er_Retryable o))] now.

(** What a failure commits: the attempt closed as FAILED with its
    classification, the job RETRY_SCHEDULED at [ra], or DEAD_LETTERED
    together with its dead letter, an event for each, and nothing else. *)
Record failed (j : Job) (wid : string) (ms : Z) (o : ExecutionResult) (ns : Status) (rc : Z)
    (ra now : Time) (d d' : Db) : Prop := mk_failed {
  fl_attempt : row_changed (failed_attempt o ms now) (j_ActiveAttemptID j)
                 (job_attempts d) (job_attempts d');
  fl_job : row_changed (if bool_decide (ns = StatusDeadLettered)
                        then dead_row rc (er_Message o) now
                        else retried_row rc ra (er_Message o) now)
             (j_ID j) (jobs d) (jobs d');
  fl_dead : if bool_decide (ns = StatusDeadLettered)
            then row_added (fun id => dead_letter_of id j (er_Message o) rc now)
                   (dead_letter_jobs d) (dead_letter_jobs d')
            else dead_letter_jobs d' = dead_letter_jobs d;
  fl_events : exists t,
    row_added (fun id => recorded_event id (j_ID j) (j_TenantID j) "job.failed" "worker"
      [("worker_id", JStr wid); ("attempt_number", JInt (j_AttemptNumber j));
       ("error", JStr (er_Message o)); ("error_code", JStr (er_ErrorCode o));
       ("retryable", JBool (er_Retryable o))] now) (job_events d) t /\
    row_added (fun id => if bool_decide (ns = StatusDeadLettered)
      then recorded_event id (j_ID j) (j_TenantID j) "job.dead_lettered" "worker"
             [("retry_count", JInt rc); ("final_error", JStr (er_Message o))] now
      else recorded_event id (j_ID j) (j_TenantID j) "job.retry_scheduled" "worker"
             [("retry_count", JInt rc); ("next_run_at", JTime ra)] now) t (job_events d');
  fl_accounts : same_accounts d d'
}.

(** The attempt closed as failed, with its event; the job still as it was. *)
Definition attempt_failed_db (j : Job) (wid : string) (ms : Z) (o : ExecutionResult)
    (id : UUID) (now : Time) (d : Db) : Db :=
  d <| job_attempts := alter (set_attempt_failed o ms now) (j_ActiveAttemptID j)
                         (job_attempts d) |>
    <| job_events := <[id := failed_event j wid o id now]> (job_events d) |>.

Definition retried_db (j : Job) (o : ExecutionResult) (rc : Z) (ra : Time) (id : UUID)
    (now : Time) (d : Db) : Db :=
  d <| jobs := alter (set_retry rc ra (er_Message o) now) (j_ID j) (jobs d) |>
    <| job_events := <[id := new_event_row id j "job.retry_scheduled" "worker"
         [("retry_count", JInt rc); ("next_run_at", JTime ra)] now]> (job_events d) |>.

Definition dead_lettered_db (j : Job) (o : ExecutionResult) (rc : Z) (dlid id : UUID)
    (now : Time) (d : Db) : Db :=
  d <| jobs := alter (set_dead_lettered rc (er_Message o) now) (j_ID j) (jobs d) |>
    <| dead_letter_jobs := <[dlid := new_dead_letter_row dlid (j_TenantID j) j
                                       (er_Message o) rc now]> (dead_letter_jobs d) |>
    <| job_events := <[id := new_event_row id j "job.dead_lettered" "worker"
         [("retry_count", JInt rc); ("final_error", JStr (er_Message o))] now]>
         (job_events d) |>.

Section Fail.
Context (e : env) (H : healthy e) (j : Job) (wid : string) (dur : Duration)
        (o : ExecutionResult) (rc : Z).
Context (Hrc : int4_ok rc = true).

Lemma json_marshal_plain p :
  forallb (fun kv => jval_ok kv.2) p = true -> json_marshal p = Ok p.
Proof. unfold json_marshal. by intros ->. Qed.

(** The first half, common to both branches. *)
Lemma fail_attempt_run (k : Tx unit) now d n a :
  job_attempts d !! j_ActiveAttemptID j = Some a -> ar_status a = AttemptRunning ->
  has_tenant d (j_TenantID j) = true -> fresh_ids e n d ->
  (c ← tx_update_attempts (running_attempt (j_ActiveAttemptID j))
         (set_attempt_failed o (duration_milliseconds dur));
   require_rows c ErrConflict;;
   insertJobEvent j "job.failed" "worker"
     [("worker_id", JStr wid); ("attempt_number", JInt (j_AttemptNumber j));
      ("error", JStr (er_Message o)); ("error_code", JStr (er_ErrorCode o));
      ("retryable", JBool (er_Retryable o))];;
   tx_lift (int4_params [rc]);; k) e now (d, n) =
  k e now (attempt_failed_db j wid (duration_milliseconds dur) o (e_uuid e (S n)) now d,
              S (S (S n))).
Proof.
  intros Ha Hrun Hten Hf.
  erewrite Tx_bind_run by (by apply tx_update_attempts_healthy).
  rewrite (update_where_key _ _ _ _ _ Ha).
  2:{ by apply running_attempt_spec. }
  2:{ intros; by eapply running_attempt_pin. }
  cbn. rewrite Tx_bind_ret. erewrite Tx_bind_run.
  2:{ apply insertJobEvent_healthy; try done. apply (Hf (S n)). lia. }
  erewrite Tx_bind_run.
  2:{ unfold tx_lift, int4_params. cbn. by rewrite Hrc. }
  unfold attempt_failed_db. by rewrite (alter_insert _ _ _ _ Ha).
Qed.
(** What [FailExecution] commits. *)
Definition failed_db (ns : Status) (ra : Time) (id1 id2 dlid : UUID) (now : Time)
    (d : Db) : Db :=
  let d1 := attempt_failed_db j wid (duration_milliseconds dur) o id1 now d in
  if bool_decide (ns = StatusDeadLettered)
  then dead_lettered_db j o rc dlid id2 now d1 else retried_db j o rc ra id2 now d1.

Lemma failed_db_spec ns ra id1 id2 dlid now d :
  owns d j wid = true -> job_events d !! id1 = None -> job_events d !! id2 = None ->
  id1 <> id2 -> (ns = StatusDeadLettered -> dead_letter_jobs d !! dlid = None) ->
  failed j wid (duration_milliseconds dur) o ns rc ra now d
    (failed_db ns ra id1 id2 dlid now d).
Proof.
  intros (r & a & Hr & Ha & _)%owns_true H1 H2 Hne Hdl. unfold failed_db.
  assert (HE : forall P1 P2 v1 v2, P1 id1 v1 -> P2 id2 v2 ->
    exists t, row_added P1 (job_events d) t /\
      row_added P2 t (<[id2 := v2]> (<[id1 := v1]> (job_events d)))).
  { intros P1 P2 v1 v2 HP1 HP2. exists (<[id1 := v1]> (job_events d)). split; [by exists id1, v1|].
    exists id2, v2. by rewrite lookup_insert_ne. }
  split; case_bool_decide as E; cbn; try (by apply (row_altered _ _ _ _ _ Ha));
    try (by apply (row_altered _ _ _ _ _ Hr)); try (by apply HE); try done.
  by eapply row_inserted; [apply Hdl|].
Qed.

Lemma fail_body_run ns ra now d n :
  has_tenant d (j_TenantID j) = true -> fresh_ids e n d -> owns d j wid = true ->
  json_year_ok ra = true ->
  exists d' n', fail_body j wid dur o ns rc ra e now (d, n) = (Ok tt, (d', n')) /\
    failed j wid (duration_milliseconds dur) o ns rc ra now d d'.
Proof.
  intros Hten Hf Ho Hra. pose proof Ho as (r & a & Hr & Ha & Hrun & Hown)%owns_true.
  assert (Hne : forall m, (S n < m)%nat -> e_uuid e (S n) <> e_uuid e m).
  { intros m Hm Heq. apply (Hf (S n)) in Heq; lia. }
  pose proof (fun k => fail_attempt_run k now d n a Ha Hrun Hten Hf) as Hhead.
  assert (Hnew : forall m, (n <= m)%nat ->
    job_events d !! e_uuid e m = None /\ dead_letter_jobs d !! e_uuid e m = None).
  { intros m Hm. by destruct (Hf m Hm) as (? & ? & _). }
  pose proof (fun id2 dlid => failed_db_spec ns ra (e_uuid e (S n)) id2 dlid now d Ho) as Hspec.
  unfold failed_db in Hspec. case_bool_decide as Hns.
  - eexists. exists (8 + n)%nat.
    split; [|apply (Hspec (e_uuid e (6 + n)) (e_uuid e (4 + n)));
             [apply Hnew; lia|apply Hnew; lia|apply Hne; lia|intros _; apply Hnew; lia]].
    unfold fail_body. rewrite bool_decide_eq_true_2 by done. rewrite Hhead.
    erewrite Tx_bind_run by (by apply tx_update_jobs_healthy). cbn [attempt_failed_db jobs].
    rewrite (update_where_key _ _ _ _ _ Hr Hown) by (intros; by eapply owned_running_pin).
    cbn. rewrite Tx_bind_ret. erewrite Tx_bind_run.
    2:{ apply insert_dead_letter_healthy; try done. cbn. apply (Hf (4 + n)%nat). lia. }
    cbn. rewrite insertJobEvent_healthy; try done.
    + unfold dead_lettered_db. cbn. by rewrite (alter_insert _ _ _ _ Hr).
    + cbn. rewrite lookup_insert_ne by (apply Hne; lia). apply (Hf (6 + n)%nat). lia.
  - eexists. exists (6 + n)%nat.
    split; [|apply (Hspec (e_uuid e (4 + n)) uuid_Nil);
             [apply Hnew; lia|apply Hnew; lia|apply Hne; lia|done]].
    unfold fail_body. rewrite bool_decide_eq_false_2 by done. rewrite Hhead.
    erewrite Tx_bind_run by (by apply tx_update_jobs_healthy). cbn [attempt_failed_db jobs].
    rewrite (update_where_key _ _ _ _ _ Hr Hown) by (intros; by eapply owned_running_pin).
    cbn. rewrite Tx_bind_ret. rewrite insertJobEvent_healthy; try done.
    + unfold retried_db. cbn. by rewrite (alter_insert _ _ _ _ Hr).
    + apply json_marshal_plain. cbn. by rewrite Hra.
    + cbn. rewrite lookup_insert_ne by (apply Hne; lia). apply (Hf (4 + n)%nat). lia.
Qed.

Lemma fail_body_conflict ns ra now d n :
  has_tenant d (j_TenantID j) = true -> fresh_ids e n d -> owns d j wid = false ->
  exists s', fail_body j wid dur o ns rc ra e now (d, n) = (Err ErrConflict, s').
Proof.
  intros Hten Hf Hno. rewrite owns_where in Hno.
  destruct (job_attempts d !! j_ActiveAttemptID j) as [a|] eqn:Ha;
    [destruct (decide (ar_status a = AttemptRunning)) as [Hrun|Hrun]|].
  - unfold fail_body. rewrite (fail_attempt_run _ now d n a) by done.
    assert (Hmiss : forall f, update_where (owned_running (j_ID j) wid) f (jobs d) =
                              (jobs d, 0%nat)).
    { intros f. apply (update_where_miss _ _ _ (j_ID j));
        [intros; by eapply owned_running_pin|]. intros r Hr. rewrite Hr in Hno.
      rewrite (proj2 (running_attempt_spec _ _ _)) in Hno by done.
      by rewrite andb_true_r in Hno. }
    case_bool_decide; erewrite Tx_bind_run by (by apply tx_update_jobs_healthy);
      cbn [attempt_failed_db jobs]; rewrite Hmiss; cbn; by eexists.
  - unfold fail_body. erewrite Tx_bind_run by (by apply tx_update_attempts_healthy).
    rewrite (update_where_miss _ _ _ (j_ActiveAttemptID j)); [by eexists|..].
    + intros; by eapply running_attempt_pin.
    + intros v Hv. simplify_eq. unfold running_attempt.
      by rewrite (bool_decide_eq_false_2 (ar_status a = AttemptRunning)), andb_false_r.
  - unfold fail_body. erewrite Tx_bind_run by (by apply tx_update_attempts_healthy).
    rewrite (update_where_miss _ _ _ (j_ActiveAttemptID j)); [by eexists|..].
    + intros; by eapply running_attempt_pin.
    + intros v Hv. simplify_eq.
Qed.
End Fail.

(** C18. Failing an execution in a healthy environment: when the worker
    still owns the RUNNING job and the attempt is open, the attempt is
    closed as FAILED with its classification and a job.failed event, and
    the job becomes RETRY_SCHEDULED at the given time with the new retry
    count, or DEAD_LETTERED together with its dead letter, each with its
    event, all at once; otherwise the call answers ErrConflict and changes
    nothing. *)
Theorem FailExecution_spec e j wid dur o ns rc ra w :
  healthy e -> fresh_ids e (w_tick w) (w_db w) ->
  has_tenant (w_db w) (j_TenantID j) = true -> int4_ok rc = true ->
  json_year_ok ra = true ->
  let out := FailExecution j wid dur o ns rc ra e w in
  if owns (w_db w) j wid
  then out.1 = Ok tt /\
       failed j wid (dur `quot` 10 ^ 6) o ns rc ra (e_pgnow e (w_tick w)) (w_db w) (w_db out.2)
  else out.1 = Err ErrConflict /\ w_db out.2 = w_db w.
Proof.
  intros H Hf Hten Hrc Hra. cbv zeta. unfold FailExecution. rewrite (with_tx_healthy _ H).
  destruct (owns (w_db w) j wid) eqn:Ho.
  - destruct (fail_body_run e H j wid dur o rc Hrc ns ra (e_pgnow e (w_tick w)) (w_db w)
      (S (w_tick w)) Hten (fresh_ids_S _ _ _ Hf) Ho Hra) as (d' & n' & -> & HF).
    done.
  - destruct (fail_body_conflict e H j wid dur o rc Hrc ns ra (e_pgnow e (w_tick w))
      (w_db w) (S (w_tick w)) Hten (fresh_ids_S _ _ _ Hf) Ho) as [[d' n'] ->]. done.
Qed.

(** Worker w2 never owned the job. *)
Lemma FailExecution_spec_witness :
  (let out := FailExecution job1 "w1" Second result0 StatusDeadLettered 1 0 env0 claimed in
   out.1 = Ok tt /\
   failed job1 "w1" 1000 result0 StatusDeadLettered 1 0 (e_pgnow env0 (w_tick claimed))
     (w_db claimed) (w_db out.2)) /\
  (let out := FailExecution job1 "w2" Second result0 StatusDeadLettered 1 0 env0 claimed in
   out.1 = Err ErrConflict /\ w_db out.2 = w_db claimed).
Proof.
  assert (Hf : fresh_ids env0 (w_tick claimed) (w_db claimed))
    by (apply env0_fresh; vm_compute; reflexivity).
  split.
  - apply (FailExecution_spec env0 job1 "w1" Second result0 StatusDeadLettered 1 0 claimed
      env0_healthy Hf); vm_compute; reflexivity.
  - apply (FailExecution_spec env0 job1 "w2" Second result0 StatusDeadLettered 1 0 claimed
      env0_healthy Hf); vm_compute; reflexivity.
Defined.

(** ** Fencing *)

(** A finalisation under a closed attempt commits nothing. *)
Lemma closed_never_finalises j wid dur res o ns rc ra e now d n u d' n' a :
  job_attempts d !! j_ActiveAttemptID j = Some a -> ar_status a <> AttemptRunning ->
  (complete_body j wid dur res e now (d, n) = (Ok u, (d', n')) -> False) /\
  (fail_body j wid dur o ns rc ra e now (d, n) = (Ok u, (d', n')) -> False).
Proof.
  intros Ha Hc. split.
  - intros (r & a1 & id & _ & _ & _ & _ & Ha1 & Hrun & _)%complete_body_ok. congruence.
  - intros (r & a1 & id1 & id2 & _ & _ & _ & Ha1 & Hrun & _)%fail_body_ok. congruence.
Qed.

(** The transactions that close an attempt for good. *)
Definition closed_attempt (d : Db) (id : UUID) : Prop :=
  exists a, job_attempts d !! id = Some a /\ ar_status a <> AttemptRunning.

#[export] Instance closed_attempt_stable id : Stable (fun d => closed_attempt d id).
Proof.
  intros d d' [_ E _] (a & Ha & Hc).
  destruct (ev_attempts _ _ E _ _ Ha) as (a' & Ha' & _ & _ & _ & Hk).
  exists a'. split; [done|]. by rewrite Hk.
Qed.

(** A worker that carries a closed attempt gets an error and commits
    nothing. *)
Lemma closed_refused j wid dur res o ns rc ra e w :
  closed_attempt (w_db w) (j_ActiveAttemptID j) -> (forall n d, e_others e n d = d) ->
  let done := CompleteExecution j wid dur res e w in
  let failed := FailExecution j wid dur o ns rc ra e w in
  w_db done.2 = w_db w /\ (exists err, done.1 = Err err) /\
  w_db failed.2 = w_db w /\ (exists err, failed.1 = Err err).
Proof.
  intros (a & Ha & Hc) He. cbv zeta. unfold CompleteExecution, FailExecution.
  destruct (with_tx_cases (complete_body j wid dur res) e w) as (_ & _ & _ & [[-> ?]|X]).
  2:{ exfalso. destruct X as (u & n' & Hb & _). rewrite He in Hb.
      exact (proj1 (closed_never_finalises j wid dur res o ns rc ra _ _ _ _ _ _ _ _
                     Ha Hc) Hb). }
  destruct (with_tx_cases (fail_body j wid dur o ns rc ra) e w) as (_ & _ & _ & [[-> ?]|X]).
  2:{ exfalso. destruct X as (u & n' & Hb & _). rewrite He in Hb.
      exact (proj2 (closed_never_finalises j wid dur res o ns rc ra _ _ _ _ _ _ _ _
                     Ha Hc) Hb). }
  by rewrite !He.
Qed.

(** C8. An attempt is finalised at most once.  Once an attempt is closed
    (completed, failed, cancelled by an operator or expired by recovery),
    then after whatever the system does next a worker that still carries
    it can neither complete nor fail it: the call reports an error and
    commits nothing, whatever faults occur. *)
Theorem finalised_once j wid dur res o ns rc ra e w d0 :
  closed_attempt d0 (j_ActiveAttemptID j) -> reaches d0 (w_db w) ->
  (forall n d, e_others e n d = d) ->
  let done := CompleteExecution j wid dur res e w in
  let failed := FailExecution j wid dur o ns rc ra e w in
  w_db done.2 = w_db w /\ (exists err, done.1 = Err err) /\
  w_db failed.2 = w_db w /\ (exists err, failed.1 = Err err).
Proof.
  intros Hc0 R He. apply closed_refused; [|done]. exact (stable _ _ R Hc0).
Qed.

Lemma finalised_once_witness :
  let w := (CompleteExecution job1 "w1" Second "{}" env0 claimed).2 in
  let again := CompleteExecution job1 "w1" Second "{}" env0 w in
  w_db again.2 = w_db w /\ (exists err, again.1 = Err err).
Proof.
  pose (w := (CompleteExecution job1 "w1" Second "{}" env0 claimed).2).
  assert (Hc : closed_attempt (w_db w) (j_ActiveAttemptID job1)).
  { eexists. split; [vm_compute; reflexivity|done]. }
  assert (R : reaches (w_db claimed) (w_db w)).
  { apply (CompleteExecution_safe job1 "w1" Second "{}" env0 claimed rely0
      (sk_db _ claimed_ok)), (sk_flight _ claimed_ok "w1"). by left. }
  pose proof (finalised_once job1 "w1" Second "{}" result0 StatusDeadLettered 1 0 env0 w
    (w_db w) Hc (reaches_refl _ (re_ok _ _ R)) (fun _ _ => eq_refl)) as (H1 & H2 & _).
  exact (conj H1 H2).
Defined.
