(* ===== verification/Process.v ===== *)
(** * Processing one job

    [ProcessJob] of internal/worker/service.go from the claim to the
    recorded outcome, in a healthy environment: success, retry, dead
    letter, and a Redis lock held by someone else. *)

From S2P Require Import Prelude GoRuntime Engine Sql Schema Effects Json Dto Rows Repository RepositoryFacts Invariant Preservation Auth Service Executor Lock Rfc3339 Registry Worker Scenario Safety AuthFacts Outbox OutboxFacts System Finalise.

Local Open Scope Z_scope.
Local Open Scope go_scope.

Lemma M_bind_run {A B} (m : M A) (k : A -> M B) e w a w1 :
  m e w = (Ok a, w1) -> (m ≫= k) e w = k a e w1.
Proof. unfold mbind, M_bind. by intros ->. Qed.

(** ** The tick moves forward *)

(** A computation consumes ticks and never gives one back, so that what it
    reads of the environment later is not what it has read before. *)
Definition forward {A} (m : M A) : Prop := forall e w, (w_tick w <= w_tick (m e w).2)%nat.

Lemma forward_ret {A} (a : A) : forward (mret a : M A).
Proof. by intros e w. Qed.

Lemma forward_fail {A} err : forward (fail err : M A).
Proof. by intros e w. Qed.

Lemma forward_bind {A B} (m : M A) (k : A -> M B) :
  forward m -> (forall a, forward (k a)) -> forward (m ≫= k).
Proof.
  intros Hm Hk e w. specialize (Hm e w). unfold mbind, M_bind.
  destruct (m e w) as [[a|err] w1]; [|done]. specialize (Hk a e w1). cbn in *. lia.
Qed.

Lemma forward_try {A} (m : M A) : forward m -> forward (try m).
Proof. intros Hm e w. specialize (Hm e w). unfold try. by destruct (m e w). Qed.

Lemma forward_check {A} act (m : M A) : forward m -> forward (check act m).
Proof. intros Hm e w. specialize (Hm e w). unfold check. by destruct (m e w) as [[]]. Qed.

Lemma forward_deferred {A} (m : M A) c : forward m -> forward c -> forward (deferred m c).
Proof.
  intros Hm Hc e w. specialize (Hm e w). unfold deferred. destruct (m e w) as [r w1].
  specialize (Hc e w1). cbn in *. lia.
Qed.

Lemma forward_pool {A} (f : Time -> Db -> result (Db * A)) : forward (pool_exec f).
Proof. intros e w. unfold pool_exec. repeat case_match; cbn; lia. Qed.

Lemma forward_redis {A} (f : Time -> Redis -> result (Redis * A)) : forward (redis_exec f).
Proof. intros e w. unfold redis_exec. repeat case_match; cbn; lia. Qed.

Lemma forward_time : forward time_Now.
Proof. intros e w. cbn. lia. Qed.

Lemma forward_renewals : forward renewals.
Proof. intros e w. cbn. lia. Qed.

Lemma forward_metric m : forward (record_metric m).
Proof. by intros e w. Qed.

#[export] Hint Resolve forward_ret forward_fail forward_bind forward_try forward_check
  forward_deferred forward_pool forward_redis forward_time forward_renewals forward_metric
  : forward.

(** What is assumed of the parts the worker is given. *)
Class WorkerTicks (s : Worker) : Prop := {
  wt_metrics : forall m, forward (wk_metrics s m);
  wt_executor : forall x j, forward (wk_executor s x j);
  wt_acquire : forall key owner ttl, forward (lm_Acquire (wk_lockManager s) key owner ttl);
  wt_release : forall key owner, forward (lm_Release (wk_lockManager s) key owner);
  wt_extend : forall ext key owner ttl, lm_Extend (wk_lockManager s) = Some ext ->
                forward (ext key owner ttl)
}.

#[export] Hint Resolve wt_metrics wt_executor wt_acquire wt_release wt_extend : forward.

(** ** Renewals *)

(** Nothing but the lease and the timestamp of the job's row differs. *)
Definition lease_only (r r' : job_row) : Prop :=
  r' = r <| jr_locked_until := jr_locked_until r' |> <| jr_updated_at := jr_updated_at r' |>.

(** The database after renewals of the lease of [j]. *)
Definition renewed (j : Job) (d d' : Db) : Prop :=
  exists r r', jobs d !! j_ID j = Some r /\ lease_only r r' /\
    d' = d <| jobs := <[j_ID j := r']> (jobs d) |>.

Lemma renewed_refl j d r : jobs d !! j_ID j = Some r -> renewed j d d.
Proof.
  intros Hr. exists r, r. split_and!; [done|by destruct r|].
  rewrite insert_id by done. by destruct d.
Qed.

Lemma renewed_trans j d1 d2 d3 : renewed j d1 d2 -> renewed j d2 d3 -> renewed j d1 d3.
Proof.
  intros (r1 & r2 & H1 & L1 & ->) (r2' & r3 & H2 & L2 & ->). cbn in H2.
  rewrite lookup_insert_eq in H2. injection H2 as <-. exists r1, r3.
  split_and!; [done| |].
  - unfold lease_only in *. rewrite L2. rewrite L1. done.
  - cbn. by rewrite insert_insert_eq.
Qed.

(** What the worker needs of the database to finalise [j] at tick [n] or
    later. *)
Record ready (e : env) (n : nat) (j : Job) (wid : string) (d : Db) : Prop := mk_ready {
  rd_fresh : fresh_ids e n d;
  rd_tenant : has_tenant d (j_TenantID j) = true;
  rd_row : (jr_tenant_id <$> jobs d !! j_ID j) = Some (j_TenantID j);
  rd_owns : owns d j wid = true
}.

Lemma renewed_ready e n0 j wid d d' :
  renewed j d d' -> ready e n0 j wid d -> ready e n0 j wid d'.
Proof.
  intros (r & r' & Hr & L & ->) [Hf Ht Hrow Ho]. split; cbn.
  - intros n Hn. destruct (Hf n Hn) as (? & ? & ? & Hj & ?). cbn. split_and!; try done.
    rewrite lookup_insert_ne; [done|]. intros E. rewrite E in Hr. congruence.
  - done.
  - rewrite lookup_insert_eq. rewrite Hr in Hrow. cbn in *. by rewrite L.
  - unfold owns in *. cbn. rewrite lookup_insert_eq. rewrite Hr in Ho.
    case_match; [|done]. rewrite L. by cbn.
Qed.

Lemma ready_row e n j wid d : ready e n j wid d -> exists r, jobs d !! j_ID j = Some r /\
  owned_running (j_ID j) wid (j_ID j) r = true.
Proof. intros [_ _ _ (r & a & Hr & _ & _ & Ho)%owns_true]. eauto. Qed.

#[export] Instance upd_wk_executor : Upd wk_executor := ltac:(mk_upd wk_executor).

Section Process.
Context (s : Worker) `{!WorkerLaws s, !WorkerTicks s} (j : Job) (e : env) (He : healthy e).
Context (n0 : nat).

Lemma ExtendLease_forward id wid ttl : forward (ExtendLease id wid ttl).
Proof. unfold ExtendLease, pool_update_jobs. auto with forward. Qed.

Lemma renewLease_forward ticks key id ttl : forward (renewLease ticks s key id ttl).
Proof.
  induction ticks as [|ticks IH]; cbn; [auto with forward|].
  apply forward_bind; [apply forward_try, ExtendLease_forward|].
  intros [[|]|]; auto with forward.
  destruct (lm_Extend (wk_lockManager s)) as [ext|] eqn:E; [|done].
  apply forward_bind; [by apply forward_try, (wt_extend ext)|].
  intros [[|]|]; auto with forward.
Qed.

Lemma ExtendLease_renews ttl w :
  ready e n0 j (wk_workerID s) (w_db w) ->
  (ExtendLease (j_ID j) (wk_workerID s) ttl e w).1 = Ok true /\
  renewed j (w_db w) (w_db (ExtendLease (j_ID j) (wk_workerID s) ttl e w).2).
Proof.
  intros (r & Hr & Ho)%ready_row. unfold ExtendLease, pool_update_jobs, mbind, M_bind.
  rewrite (pool_exec_healthy _ He).
  rewrite (update_where_key _ _ _ _ _ Hr Ho) by (intros; by eapply owned_running_pin).
  cbn. split; [done|]. by exists r, (set_extended (duration_seconds ttl) (e_pgnow e (w_tick w)) r).
Qed.

Lemma renewLease_renews ticks key ttl w :
  ready e n0 j (wk_workerID s) (w_db w) ->
  exists b w1, renewLease ticks s key (j_ID j) ttl e w = (Ok b, w1) /\
    renewed j (w_db w) (w_db w1).
Proof.
  revert w. induction ticks as [|ticks IH]; intros w Hw.
  { destruct (ready_row _ _ _ _ _ Hw) as (r & Hr & _). do 2 eexists.
    split; [reflexivity|]. by eapply renewed_refl. }
  cbn [renewLease]. destruct (ExtendLease_renews ttl w Hw) as [H1 H2].
  unfold mbind at 1, M_bind at 1, try at 1.
  destruct (ExtendLease _ _ _ e w) as [res w1]. cbn in H1, H2. subst res.
  pose proof (renewed_ready _ _ _ _ _ _ H2 Hw) as Hw1.
  assert (Hnext : forall w2, w_db w2 = w_db w1 -> exists b w3,
    renewLease ticks s key (j_ID j) ttl e w2 = (Ok b, w3) /\ renewed j (w_db w) (w_db w3)).
  { intros w2 Hd. destruct (IH w2) as (b & w3 & E & R); [by rewrite Hd|].
    exists b, w3. split; [done|]. rewrite Hd in R. by eapply renewed_trans. }
  destruct (lm_Extend (wk_lockManager s)) as [ext|] eqn:Hx; [|by apply Hnext].
  pose proof (extend_frame ext key (wk_workerID s) ttl Hx e w1) as Hf.
  unfold mbind, M_bind, try. destruct (ext _ _ _ e w1) as [[[]|err] w2]; cbn in Hf;
    [by apply Hnext|..]; (do 2 eexists; split; [reflexivity|by rewrite Hf]).
Qed.

(** ** The outcome *)

Context (metrics_total : forall m e w, (wk_metrics s m e w).1 = Ok tt).

Lemma metric_run m w :
  exists w1, wk_metrics s m e w = (Ok tt, w1) /\ w_db w1 = w_db w /\
    (w_tick w <= w_tick w1)%nat.
Proof.
  pose proof (metrics_total m e w) as H. pose proof (wl_metrics m e w) as Hf.
  pose proof (wt_metrics m e w) as Ht.
  destruct (wk_metrics s m e w) as [res w1]. cbn in H, Hf, Ht. subst. by exists w1.
Qed.

(** A successful execution is recorded. *)
Lemma complete_run dur res w :
  ready e n0 j (wk_workerID s) (w_db w) -> (n0 <= w_tick w)%nat ->
  exists now w1, CompleteExecution j (wk_workerID s) dur res e w = (Ok tt, w1) /\
    completed j (wk_workerID s) (duration_milliseconds dur) res now (w_db w) (w_db w1).
Proof.
  intros [Hf Ht Hr Ho] Hn0. unfold CompleteExecution. rewrite (with_tx_healthy _ He).
  destruct (complete_body_run e He j (wk_workerID s) dur res (e_pgnow e (w_tick w)) (w_db w)
    (S (w_tick w)) Hr Ht) as (id & n' & Hid & ->); [intros n Hn; apply Hf; lia|done|].
  do 2 eexists. split; [reflexivity|]. by apply completed_db_spec.
Qed.

(** So is a failed one. *)
Lemma fail_run dur o ns rc ra w :
  ready e n0 j (wk_workerID s) (w_db w) -> (n0 <= w_tick w)%nat ->
  int4_ok rc = true -> json_year_ok ra = true ->
  exists now w1, FailExecution j (wk_workerID s) dur o ns rc ra e w = (Ok tt, w1) /\
    failed j (wk_workerID s) (duration_milliseconds dur) o ns rc ra now (w_db w) (w_db w1).
Proof.
  intros [Hf Ht Hr Ho] Hn0 Hrc Hra. unfold FailExecution. rewrite (with_tx_healthy _ He).
  destruct (fail_body_run e He j (wk_workerID s) dur o rc Hrc ns ra (e_pgnow e (w_tick w))
    (w_db w) (S (w_tick w)) Ht) as (d' & n' & -> & HF);
    [intros n Hn; apply Hf; lia|done|done|].
  by do 2 eexists.
Qed.

(** What is reported of an error: the code, text and metadata of an
    execution error, and whether it is worth a retry; any other error is,
    under a code that tells timeouts and cancellations apart. *)
Definition classified (err : error) (o : ExecutionResult) : Prop :=
  match as_ExecutionError err with
  | Some x => er_ErrorCode o = ee_Code x /\ er_Message o = ee_Message x /\
              er_Retryable o = ee_Retryable x /\ er_Metadata o = ee_Metadata x
  | None => er_Retryable o = true /\ er_Message o = error_text err /\ er_Metadata o = "" /\
            er_ErrorCode o = (if errors_Is err ContextDeadlineExceeded then "TIMEOUT"
                              else if errors_Is err ContextCanceled then "CANCELLED"
                              else "HANDLER_ERROR")
  end.

Lemma ClassifyError_classified err : classified err (ClassifyError err).
Proof. unfold classified, ClassifyError. by destruct (as_ExecutionError err). Qed.

(** The status a failed execution leaves: dead when the budget is spent or
    the error is permanent. *)
Definition outcome_status (o : ExecutionResult) : Status :=
  if (j_MaxRetries j <=? j_RetryCount j) || negb (er_Retryable o)
  then StatusDeadLettered else StatusRetryScheduled.

Definition failure_status (err : error) : Status := outcome_status (ClassifyError err).

(** The delay the target asked for. *)
Definition asked_delay (err : error) : Duration :=
  match as_ExecutionError err with Some x => ee_RetryAfter x | None => 0 end.

(** The next run: the delay the target asked for, or the backoff. *)
Definition failure_run_at (err : error) (clock : Time) : Time :=
  if 0 <? asked_delay err then clock + asked_delay err
  else if j_MaxRetries j <=? j_RetryCount j then zero_time
  else NextRetryAt clock (j_RetryBackoffSeconds j) (j_RetryCount j + 1).

Lemma next_status_spec now err :
  0 <= j_RetryCount j < 2 ^ 31 - 1 ->
  next_status (DecideFailure now (j_RetryCount j) (j_MaxRetries j)
    (j_RetryBackoffSeconds j)) (ClassifyError err) = failure_status err /\
  fd_NextRetryCount (DecideFailure now (j_RetryCount j) (j_MaxRetries j)
    (j_RetryBackoffSeconds j)) = j_RetryCount j + 1.
Proof.
  intros Hrc. unfold next_status, failure_status, outcome_status, DecideFailure.
  rewrite int_add_small by lia. destruct (Z.leb_spec (j_MaxRetries j) (j_RetryCount j)),
    (Z.ltb_spec (j_MaxRetries j) (j_RetryCount j + 1)); try lia; by cbn.
Qed.

Lemma next_run_at_run clock err w :
  0 <= j_RetryCount j < 2 ^ 31 - 1 ->
  exists n w1, next_run_at (DecideFailure (e_time e clock) (j_RetryCount j) (j_MaxRetries j)
    (j_RetryBackoffSeconds j)) err e w = (Ok (failure_run_at err (e_time e n)), w1) /\
    w_db w1 = w_db w /\ (w_tick w <= w_tick w1)%nat.
Proof.
  intros Hrc. unfold next_run_at, failure_run_at. change (asked_delay err) with (retryAfter err).
  destruct (0 <? retryAfter err).
  - exists (w_tick w). eexists. split_and!; [done|done|cbn; lia].
  - exists clock. eexists. split_and!; [|reflexivity|reflexivity]. unfold DecideFailure.
    rewrite int_add_small by lia. destruct (Z.leb_spec (j_MaxRetries j) (j_RetryCount j)),
      (Z.ltb_spec (j_MaxRetries j) (j_RetryCount j + 1)); try lia; by cbn.
Qed.

Lemma finalize_failure_run dur err w :
  ready e n0 j (wk_workerID s) (w_db w) -> (n0 <= w_tick w)%nat ->
  0 <= j_RetryCount j < 2 ^ 31 - 1 ->
  (forall n, json_year_ok (failure_run_at err (e_time e n)) = true) ->
  exists now n w1, finalize_failure s j dur err e w = (Ok tt, w1) /\
    failed j (wk_workerID s) (duration_milliseconds dur) (ClassifyError err) (failure_status err)
      (j_RetryCount j + 1) (failure_run_at err (e_time e n)) now (w_db w) (w_db w1).
Proof.
  intros Hw Hn0 Hrc Hy. unfold finalize_failure. cbv zeta.
  destruct (metric_run (JobFailed (j_JobType j)) w) as (w1 & Hm & Hd1 & Ht1).
  rewrite (M_bind_run _ _ _ _ _ _ Hm), time_Now_bind.
  set (w2 := w1 <| w_tick := S (w_tick w1) |>).
  destruct (next_status_spec (e_time e (w_tick w1)) err Hrc) as [-> ->].
  destruct (next_run_at_run (w_tick w1) err w2 Hrc) as (n & w3 & Hra & Hd3 & Ht3).
  rewrite (M_bind_run _ _ _ _ _ _ Hra).
  assert (Hdb : w_db w3 = w_db w) by (rewrite Hd3; cbn; by rewrite Hd1).
  rewrite <- Hdb in Hw |- *.
  assert (Hi : int4_ok (j_RetryCount j + 1) = true) by (apply int4_ok_spec; lia).
  destruct (fail_run dur (ClassifyError err) (failure_status err) (j_RetryCount j + 1)
    (failure_run_at err (e_time e n)) w3 Hw ltac:(cbn in Ht3; lia) Hi (Hy n))
    as (now & w4 & Hf & Hd4).
  unfold mbind, M_bind, try. rewrite Hf. exists now, n.
  case_bool_decide; [|by exists w4].
  destruct (metric_run (JobDeadLettered (j_JobType j)) w4) as (w5 & -> & Hd5 & _).
  exists w5. by rewrite Hd5.
Qed.

(** What processing leaves of the database. *)
Definition processed (outcome : result string) (d d' : Db) : Prop :=
  exists d1, renewed j d d1 /\
  match outcome with
  | Ok res => exists ms now, completed j (wk_workerID s) ms res now d1 d'
  | Err err => exists o ms n now, classified err o /\
      failed j (wk_workerID s) ms o (outcome_status o) (j_RetryCount j + 1)
        (failure_run_at err (e_time e n)) now d1 d'
  end.

(** What is left when the claim is given back: the row released, nothing
    else touched. *)
Definition given_back (now : Time) (d d' : Db) : Prop :=
  row_changed (released_row now) (j_ID j) (jobs d) (jobs d') /\
  job_attempts d' = job_attempts d /\ dead_letter_jobs d' = dead_letter_jobs d /\
  job_events d' = job_events d /\ same_accounts d d'.

(** The outcomes the executor may give for [j]. *)
Definition executes (outcome : result string) : Prop :=
  exists c w, (wk_executor s c j e w).1 = outcome.

Context (Hrc : 0 <= j_RetryCount j < 2 ^ 31 - 1)
        (Hy : forall n err, executes (Err err) ->
                json_year_ok (failure_run_at err (e_time e n)) = true).

(** Once the executor has answered. *)
Lemma finalise_run outcome dur w :
  ready e n0 j (wk_workerID s) (w_db w) -> (n0 <= w_tick w)%nat -> executes outcome ->
  exists w1,
    match outcome with
    | Ok res => check "mark succeeded" (CompleteExecution j (wk_workerID s) dur res);;
                wk_metrics s (JobCompleted (j_JobType j) dur)
    | Err err => finalize_failure s j dur err
    end e w = (Ok tt, w1) /\ processed outcome (w_db w) (w_db w1).
Proof.
  intros Hw Hn0 Hx. destruct (ready_row _ _ _ _ _ Hw) as (r & Hr & _).
  pose proof (renewed_refl _ _ _ Hr) as R. unfold processed. destruct outcome as [res|err].
  - destruct (complete_run dur res w Hw Hn0) as (now & w6 & Hc & Hd6).
    unfold check, mbind, M_bind. rewrite Hc.
    destruct (metric_run (JobCompleted (j_JobType j) dur) w6) as (w7 & -> & Hd7 & _).
    exists w7. split; [done|]. exists (w_db w). split; [done|]. rewrite Hd7. eauto.
  - destruct (finalize_failure_run dur err w Hw Hn0 Hrc (fun n => Hy n err Hx))
      as (now & n & w6 & -> & Hd6).
    exists w6. split; [done|]. exists (w_db w). split; [done|].
    eauto 10 using ClassifyError_classified.
Qed.

Lemma process_locked_run w :
  ready e n0 j (wk_workerID s) (w_db w) -> (n0 <= w_tick w)%nat ->
  j_ActiveAttemptID j <> uuid_Nil ->
  exists outcome w1, executes outcome /\ process_locked s j e w = (Ok tt, w1) /\
    processed outcome (w_db w) (w_db w1).
Proof.
  intros Hw Hn0 Hid. unfold process_locked, ensure_attempt.
  rewrite bool_decide_eq_false_2 by done. unfold mbind at 1, M_bind at 1. cbn [mret M_ret].
  rewrite time_Now_bind. set (w1 := w <| w_tick := S (w_tick w) |>).
  unfold renewals, mbind at 1, M_bind at 1. set (w2 := w1 <| w_tick := S (w_tick w1) |>).
  destruct (renewLease_renews (e_renewals e (w_tick w1)) (lock_key j) (lease_ttl s j) w2 Hw)
    as (b & w3 & Hren & R).
  pose proof (renewLease_forward (e_renewals e (w_tick w1)) (lock_key j) (j_ID j)
    (lease_ttl s j) e w2) as Hf3. rewrite Hren in Hf3.
  rewrite (M_bind_run _ _ _ _ _ _ Hren). change (w_db w2) with (w_db w) in R.
  unfold mbind at 1, M_bind at 1, try at 1.
  set (ctx := mkExecCtx _ _). pose proof (wl_executor ctx j e w3) as Hxf.
  pose proof (wt_executor ctx j e w3) as Hf4.
  destruct (wk_executor s ctx j e w3) as [outcome w4] eqn:Hx. cbn in Hxf, Hf3, Hf4.
  rewrite time_Now_bind. set (w5 := w4 <| w_tick := S (w_tick w4) |>).
  assert (Hw5 : ready e n0 j (wk_workerID s) (w_db w5)).
  { cbn. rewrite Hxf. by eapply renewed_ready. }
  assert (Hd5 : w_db w5 = w_db w3) by done.
  assert (Hex : executes outcome) by (exists ctx, w3; by rewrite Hx).
  destruct (finalise_run outcome (time_Sub (e_time e (w_tick w4)) (e_time e (w_tick w))) w5
    Hw5 ltac:(cbn; lia) Hex) as (w6 & -> & d1 & R1 & HP).
  exists outcome, w6. split_and!; [done|done|]. exists d1. split; [|done].
  rewrite Hd5 in R1. by eapply renewed_trans.
Qed.

(** [ProcessJob] with its lock: the executor's outcome is recorded, or the
    claim is returned. *)
Lemma ProcessJob_run acquired w :
  ready e n0 j (wk_workerID s) (w_db w) -> (n0 <= w_tick w)%nat ->
  j_ActiveAttemptID j <> uuid_Nil ->
  (lm_Acquire (wk_lockManager s) (lock_key j) (wk_workerID s) (lease_ttl s j) e w).1
    = Ok acquired ->
  let out := ProcessJob s j e w in
  out.1 = Ok tt /\
  if acquired
  then exists outcome, executes outcome /\ processed outcome (w_db w) (w_db out.2)
  else exists now, given_back now (w_db w) (w_db out.2).
Proof.
  intros Hw Hn0 Hid Hacq.
  pose proof (acquire_frame (L := wk_lockManager s) (lock_key j) (wk_workerID s) (lease_ttl s j) e w) as Hf.
  pose proof (wt_acquire (lock_key j) (wk_workerID s) (lease_ttl s j) e w) as Ht.
  destruct (lm_Acquire _ _ _ _ e w) as [res w1] eqn:Ha. cbn in Hacq, Hf, Ht. subst res.
  cbv zeta. unfold ProcessJob. erewrite M_bind_run by (unfold check; by rewrite Ha).
  rewrite <- Hf in Hw |- *. destruct acquired; cbn [negb].
  - destruct (process_locked_run w1 Hw ltac:(lia) Hid) as (outcome & w2 & Hx & Hp & HP).
    unfold deferred. rewrite Hp. split; [done|]. exists outcome. split; [done|].
    pose proof (release_frame (L := wk_lockManager s) (lock_key j) (wk_workerID s) e w2) as Hr.
    unfold mbind, M_bind. destruct (lm_Release _ _ _ e w2) as [[b|err] w3]; cbn in *;
      by rewrite Hr.
  - destruct (ready_row _ _ _ _ _ Hw) as (r & Hr & Ho).
    unfold ReleaseClaim, pool_update_jobs, check, mbind, M_bind.
    rewrite (pool_exec_healthy _ He).
    rewrite (update_where_key _ _ _ _ _ Hr Ho) by (intros; by eapply owned_running_pin).
    cbn. split; [done|]. exists (e_pgnow e (w_tick w1)). split; [|done].
    eexists r, _. split; [done|]. split; [|reflexivity]. done.
Qed.

(** A lock that is refused: the handler is not called, whatever it is. *)
Lemma ProcessJob_unlocked x w :
  (lm_Acquire (wk_lockManager s) (lock_key j) (wk_workerID s) (lease_ttl s j) e w).1 = Ok false ->
  ProcessJob (s <| wk_executor := x |>) j e w = ProcessJob s j e w.
Proof.
  intros Ha. unfold ProcessJob. rewrite !M_bind_eq. unfold check at 1 3. cbn [wk_lockManager].
  change (lease_ttl (s <| wk_executor := x |>) j) with (lease_ttl s j).
  change (wk_lockManager (s <| wk_executor := x |>)) with (wk_lockManager s).
  change (wk_workerID (s <| wk_executor := x |>)) with (wk_workerID s).
  destruct (lm_Acquire _ _ _ _ e w) as [res w1]. cbn in Ha. by subst res.
Qed.
End Process.

(** C16. Processing a claimed job in a healthy environment.  The worker owns
    the job and its attempt; the lock manager grants or refuses the lock;
    the executor gives some outcome.  When the lock is refused, the claim
    is returned as RETRY_SCHEDULED, nothing else is written, and the job
    is not run: with any other executor all is the same.  When it is
    granted, the lease may be renewed any number of times, and then a
    result completes the job and its attempt; an error closes the attempt
    with its classification and, when the budget is spent or the error is
    permanent, dead-letters the job, or else schedules the retry after the
    backoff or the delay the target asked for.  The call reports success
    in every case. *)
Theorem ProcessJob_spec s j outcome acquired e w :
  WorkerLaws s -> WorkerTicks s -> (forall m e w, (wk_metrics s m e w).1 = Ok tt) ->
  (forall c w, (wk_executor s c j e w).1 = outcome) ->
  healthy e -> ready e (w_tick w) j (wk_workerID s) (w_db w) ->
  j_ActiveAttemptID j <> uuid_Nil ->
  0 <= j_RetryCount j < 2 ^ 31 - 1 ->
  (forall n err, outcome = Err err ->
     json_year_ok (failure_run_at j err (e_time e n)) = true) ->
  (lm_Acquire (wk_lockManager s) (lock_key j) (wk_workerID s) (lease_ttl s j) e w).1
    = Ok acquired ->
  let out := ProcessJob s j e w in
  out.1 = Ok tt /\
  if acquired then processed s j e outcome (w_db w) (w_db out.2)
  else (exists now, given_back j now (w_db w) (w_db out.2)) /\
       forall x, ProcessJob (s <| wk_executor := x |>) j e w = out.
Proof.
  intros L T Hm Hx He Hw Hid Hrc Hy Hacq.
  destruct (ProcessJob_run s j e He (w_tick w) Hm Hrc) with (acquired := acquired) (w := w)
    as [H1 H2]; try done.
  - intros n err (c & w' & E). apply Hy. by rewrite <- E, Hx.
  - split; [done|]. destruct acquired.
    2:{ split; [done|]. intros x. by apply ProcessJob_unlocked. }
    destruct H2 as (o & (c & w' & E) & HP). rewrite Hx in E. by subst o.
Qed.

(** ** Witnesses: the job of the scenario, with each outcome *)

(** [env0] with ids above all those in use and a process clock that
    stands still. *)
Definition env_high : env :=
  {| e_uuid := fun n => (10000 + N.of_nat n)%N;
     e_time := fun _ => clock0 0;
     e_pgnow := clock0;
     e_redisnow := clock0;
     e_outcome := fun _ => Applied;
     e_others := fun _ d => d;
     e_redis_others := fun _ r => r;
     e_renewals := fun _ => 2%nat;
     e_locked := fun _ _ => false;
     e_rank := fun _ u => Z.of_N u;
     e_rows := fun _ => 0%nat |}.

Lemma env_high_healthy : healthy env_high.
Proof. by split. Qed.

Lemma env_high_fresh n0 d : ids_below 10000 d = true -> fresh_ids env_high n0 d.
Proof.
  unfold ids_below. rewrite !forallb_app, !andb_true_iff. intros (H1 & H2 & H3 & H4) n Hn.
  cbn. split_and!; try (eapply below_fresh; [done|lia]). intros m Hm. lia.
Qed.

Lemma job1_ready : ready env_high (w_tick claimed) job1 "w1" (w_db claimed).
Proof.
  split; [apply env_high_fresh|..]; vm_compute; reflexivity.
Qed.

#[local] Instance worker_laws x :
  (forall c j, db_frame (x c j)) -> WorkerLaws (worker_with x RedisLock).
Proof. intros Hx. by split; [apply _|..]. Qed.

#[export] Instance RedisLock_ticks x :
  (forall c j, forward (x c j)) -> WorkerTicks (worker_with x RedisLock).
Proof.
  intros Hx. split; [apply forward_metric|done|..]; cbn; unfold Lock.Acquire, Lock.Release.
  - auto with forward.
  - auto with forward.
  - intros ext key owner ttl [= <-]. unfold Extend. auto with forward.
Qed.

(** A webhook that is refused for good. *)
Definition permanent : error := ExecErr
  {| ee_Code := "WEBHOOK_HTTP_ERROR"; ee_Message := "webhook returned HTTP 404";
     ee_Retryable := false; ee_RetryAfter := 0; ee_Metadata := "" |}.

(** Somebody else holds the Redis lock of the job. *)
Definition lock_taken (w : world) : world :=
  w <| w_redis := mkRedis {[ lock_key job1 := ("w9", None) ]} ∅ ∅ |>.

Lemma lock_taken_db w : w_db (lock_taken w) = w_db w.
Proof. done. Qed.

Lemma lock_taken_tick w : w_tick (lock_taken w) = w_tick w.
Proof. done. Qed.

Lemma locked_ready :
  ready env_high (w_tick (lock_taken claimed)) job1 "w1" (w_db (lock_taken claimed)).
Proof. rewrite lock_taken_db, lock_taken_tick. apply job1_ready. Qed.

Lemma ProcessJob_spec_witness :
  processed worker0 job1 env_high (Ok "{}") (w_db claimed)
    (w_db (ProcessJob worker0 job1 env_high claimed).2) /\
  (let s := worker_with (fun _ _ => fail permanent) RedisLock in
   processed s job1 env_high (Err permanent) (w_db claimed)
     (w_db (ProcessJob s job1 env_high claimed).2)) /\
  (exists now, given_back job1 now (w_db (lock_taken claimed))
     (w_db (ProcessJob worker0 job1 env_high (lock_taken claimed)).2)).
Proof.
  assert (Hid : j_ActiveAttemptID job1 <> uuid_Nil) by by vm_compute.
  assert (Hrc : 0 <= j_RetryCount job1 < 2 ^ 31 - 1) by (vm_compute; split; congruence).
  split; [|split].
  - refine (proj2 (ProcessJob_spec worker0 job1 (Ok "{}") true env_high claimed
      (worker_laws executor_ok (fun _ _ _ _ => eq_refl))
      (RedisLock_ticks executor_ok (fun _ _ => forward_ret _)) (fun _ _ _ => eq_refl)
      (fun _ _ => eq_refl) env_high_healthy job1_ready Hid Hrc _ _)).
    + intros n err [=].
    + vm_compute. reflexivity.
  - refine (proj2 (ProcessJob_spec (worker_with (fun _ _ => fail permanent) RedisLock) job1
      (Err permanent) true env_high claimed
      (worker_laws (fun _ _ => fail permanent) (fun _ _ _ _ => eq_refl))
      (RedisLock_ticks (fun _ _ => fail permanent) (fun _ _ => forward_fail _))
      (fun _ _ _ => eq_refl) (fun _ _ => eq_refl) env_high_healthy job1_ready Hid Hrc _ _)).
    + intros n err [= <-].
      change (json_year_ok (failure_run_at job1 permanent (clock0 0)) = true).
      vm_compute. reflexivity.
    + vm_compute. reflexivity.
  - refine (proj1 (proj2 (ProcessJob_spec worker0 job1 (Ok "{}") false env_high (lock_taken claimed)
      (worker_laws executor_ok (fun _ _ _ _ => eq_refl))
      (RedisLock_ticks executor_ok (fun _ _ => forward_ret _)) (fun _ _ _ => eq_refl)
      (fun _ _ => eq_refl) env_high_healthy locked_ready Hid Hrc _ _))).
    + intros n err [=].
    + vm_compute. reflexivity.
Defined.
