(* ===== verification/Claim.v ===== *)
(** * Claiming and recovery

    What [ClaimDueJobs] and [RecoverExpiredRunningJobs] commit, in any
    environment: selection, order, leases, attempts, and the exclusion of
    concurrent claims. *)

From S2P Require Import Prelude GoRuntime Engine Sql Schema Effects Json Dto Rows Repository RepositoryFacts Invariant Preservation Auth Service Executor Lock Rfc3339 Registry Worker Scenario Safety System Finalise.

Local Open Scope Z_scope.
Local Open Scope go_scope.

(** ** Claiming *)

(** The rows a claim may take, in the order it takes them. *)
Definition due_rows (locked : UUID -> bool) (now : Time) (d : Db) : list job_row :=
  order_by claim_key (select_where (claimable locked now) (jobs d)).

(** A row that waits for a worker: in one of the three waiting states, its
    time reached, no live lease, not locked by another session. *)
Definition due_job (locked : UUID -> bool) (now : Time) (r : job_row) : Prop :=
  (jr_status r = StatusPending \/ jr_status r = StatusScheduled \/
   jr_status r = StatusRetryScheduled) /\
  jr_run_at r <= now /\ (forall t, jr_locked_until r = Some t -> t < now) /\
  locked (jr_id r) = false.

Lemma claimable_due locked now r : claimable locked now r = true <-> due_job locked now r.
Proof.
  unfold claimable, due_job. rewrite !andb_true_iff, claimable_status_spec, Z.leb_le, negb_true_iff.
  destruct (jr_locked_until r) as [t|].
  - rewrite Z.ltb_lt. naive_solver.
  - naive_solver.
Qed.

(** Higher priority first, then the earlier run time, the earlier
    creation, the smaller id. *)
Definition served_before (u v : job_row) : Prop :=
  jr_priority v < jr_priority u \/
  jr_priority u = jr_priority v /\
    (jr_run_at u < jr_run_at v \/
     jr_run_at u = jr_run_at v /\
       (jr_created_at u < jr_created_at v \/
        jr_created_at u = jr_created_at v /\ (jr_id u < jr_id v)%N)).

Lemma claim_key_before u v : jr_id u <> jr_id v -> key_le claim_key u v -> served_before u v.
Proof.
  unfold key_le, claim_key, served_before. cbn [lexb]. intros Hne.
  repeat match goal with |- context [?x <? ?y] => destruct (Z.ltb_spec x y) end;
    intros; try done; lia.
Qed.

(** What the worker receives for row [r], and the attempt behind it. *)
Definition handed_over (w : string) (now : Time) (d' : Db) (r : job_row) (j : Job) : Prop :=
  j_ID j = jr_id r /\ j_TenantID j = jr_tenant_id r /\ j_Payload j = jr_payload r /\
  j_Status j = StatusRunning /\ j_LockedBy j = Some w /\
  j_RetryCount j = jr_retry_count r /\ j_AttemptNumber j = jr_retry_count r + 1 /\
  j_Name j = jr_name r /\ j_JobType j = jr_job_type r /\ j_MaxRetries j = jr_max_retries r /\
  j_RetryBackoffSeconds j = jr_retry_backoff_seconds r /\
  j_TimeoutSeconds j = jr_timeout_seconds r /\
  exists a, job_attempts d' !! j_ActiveAttemptID j = Some a /\
    fresh_attempt (j_ActiveAttemptID j) (jr_id r) (jr_tenant_id r) w (jr_retry_count r + 1) now a.

Lemma claimed_handed_over w ttl now d0 items d' out :
  db_ok d0 -> claim_state w ttl now d0 items [] d' out ->
  Forall2 (fun j j' => exists r, j = scanJob r /\ handed_over w now d' r j') items out.
Proof.
  intros I C. eapply Forall2_impl; [apply (cs_done _ _ _ _ _ _ _ _ C)|].
  intros j j' (r & until & Hr & -> & Hc & E & Ha). exists r. split; [done|].
  destruct (ok_jobs _ I _ _ Hr) as [_ Hok].
  assert (Hn : int_add (jr_retry_count r) 1 = jr_retry_count r + 1).
  { apply next_count_small; [done|]. apply claimable_status_spec in Hc.
    by destruct Hc as [->|[->| ->]]. }
  unfold handed_over. cbn [j_ID j_TenantID scanJob] in Ha.
  assert (F : j_ID j' = jr_id r /\ j_TenantID j' = jr_tenant_id r /\
    j_Payload j' = jr_payload r /\ j_Status j' = StatusRunning /\ j_LockedBy j' = Some w /\
    j_RetryCount j' = jr_retry_count r /\ j_AttemptNumber j' = int_add (jr_retry_count r) 1 /\
    j_Name j' = jr_name r /\ j_JobType j' = jr_job_type r /\ j_MaxRetries j' = jr_max_retries r /\
    j_RetryBackoffSeconds j' = jr_retry_backoff_seconds r /\
    j_TimeoutSeconds j' = jr_timeout_seconds r) by (rewrite E; done).
  rewrite Hn in F. destruct_and! F. split_and!; try done. eexists. split; [exact Ha|done].
Qed.

Lemma handed_over_ids w now d' rows out :
  Forall2 (handed_over w now d') rows out -> j_ID <$> out = jr_id <$> rows.
Proof.
  induction 1 as [|r j rows out [Hid _] _ IH]; [done|]. cbn. by rewrite IH, Hid.
Qed.

Section ClaimSpec.
Context (w : string) (b : Z) (ttl : Duration) (e : env) (wd wd' : world) (out : list Job).
Let d0 := e_others e (w_tick wd) (w_db wd).
Let now := e_pgnow e (w_tick wd).
Let locked := e_locked e (S (w_tick wd)).
Context (I : db_ok d0) (Hrun : ClaimDueJobs w b ttl e wd = (Ok out, wd')).

Lemma claim_run_state :
  0 <= b /\ claim_state w ttl now d0 (select_due b locked now d0) [] (w_db wd') out.
Proof.
  apply with_tx_ok in Hrun as (n' & Hb & _). by eapply claim_body_state.
Qed.

Lemma claim_rows :
  exists rows, rows = take (Z.to_nat b) (due_rows locked now d0) /\
    Forall2 (handed_over w now (w_db wd')) rows out.
Proof.
  destruct claim_run_state as [Hb C]. eexists. split; [done|].
  assert (F : Forall2 (fun j j' => exists r, j = scanJob r /\
                handed_over w now (w_db wd') r j') (select_due b locked now d0) out).
  { by eapply claimed_handed_over. }
  unfold select_due, scanJobs, limit_offset in F. cbn [Z.to_nat] in F. rewrite drop_0 in F.
  apply Forall2_fmap_l in F. eapply Forall2_impl; [exact F|].
  intros r j' (r' & E & Hh). cbn in E.
  unfold handed_over in *. injection E as -> -> Hn Ht -> Hs Hp Hra Hlu Hlb -> Hm Hbk Hto
    Hle Hcb Hca Hua Hco Hfa Hcn Hik Hrh. by rewrite Hn, Ht, Hm, Hbk, Hto.
Qed.

Lemma claim_ids : j_ID <$> out = j_ID <$> select_due b locked now d0.
Proof.
  destruct claim_rows as (rows & -> & F). unfold select_due, scanJobs, limit_offset. cbn [Z.to_nat].
  rewrite drop_0, <- list_fmap_compose. by rewrite (handed_over_ids _ _ _ _ _ F).
Qed.
End ClaimSpec.

(** C17. What a claim commits, in any environment: the worker receives the
    first [batchSize] of the due rows (PENDING, SCHEDULED or
    RETRY_SCHEDULED, run time reached, no live lease, not locked by another
    session), higher priority first, then by run time, creation and id, and
    no job twice; each of those rows is now RUNNING under the worker's
    lease until [now] plus the lease time in whole seconds and otherwise as
    it was, each has a fresh RUNNING attempt numbered after its retry
    count, and every other job is untouched. *)
Theorem ClaimDueJobs_spec w b ttl e wd out wd' :
  let d0 := e_others e (w_tick wd) (w_db wd) in
  let now := e_pgnow e (w_tick wd) in
  let locked := e_locked e (S (w_tick wd)) in
  db_ok d0 -> ClaimDueJobs w b ttl e wd = (Ok out, wd') ->
  exists rows,
    first_due (due_job locked now) served_before (Z.to_nat b) (jobs d0) rows /\
    Forall2 (handed_over w now (w_db wd')) rows out /\ NoDup (j_ID <$> out) /\
    (forall k r, jobs d0 !! k = Some r ->
       if decide (k ∈ j_ID <$> out)
       then exists r', jobs (w_db wd') !! k = Some r' /\
                       leased_row w (ttl `quot` 10 ^ 9) now r r'
       else jobs (w_db wd') !! k = Some r) /\
    (forall k, jobs d0 !! k = None -> jobs (w_db wd') !! k = None).
Proof.
  cbv zeta. intros I H.
  destruct (claim_rows w b ttl e wd wd' out I H) as (rows & -> & F).
  destruct (claim_run_state w b ttl e wd wd' out I H) as [Hb C].
  pose proof (claim_ids w b ttl e wd wd' out I H) as Hids.
  eexists. split; [|split; [exact F|]].
  { apply (order_by_first _ _ jr_id); [by intros k v Hv; destruct (ok_jobs _ I _ _ Hv)|..];
      [apply claimable_due|apply claim_key_before]. }
  split; [rewrite Hids; by apply select_due_nodup|]. rewrite Hids.
  split; intros k; rewrite (cs_jobs _ _ _ _ _ _ _ _ C).
  - intros r ->. case_decide; [|done]. eexists. by split.
  - intros ->. by case_decide.
Qed.

(** The one job of the scenario, leased for six minutes. *)
Lemma ClaimDueJobs_spec_witness :
  NoDup (j_ID <$> [job1]) /\
  exists r r', jobs (w_db created) !! 100%N = Some r /\ jobs (w_db claimed) !! 100%N = Some r' /\
    leased_row "w1" 360 (clock0 (w_tick created)) r r'.
Proof.
  assert (H : ClaimDueJobs "w1" 10 ttl0 env0 created = (Ok [job1], claimed)).
  { assert (E : claim1.1 = Ok [job1]) by (vm_compute; reflexivity).
    change (claim1 = (Ok [job1], claim1.2)). by rewrite <- E, <- surjective_pairing. }
  destruct (ClaimDueJobs_spec "w1" 10 ttl0 env0 created [job1] claimed created_ok H)
    as (rows & _ & _ & Hnd & Hrow & _). split; [exact Hnd|].
  assert (Hj : exists r, jobs (w_db created) !! 100%N = Some r)
    by (eexists; vm_compute; reflexivity).
  destruct Hj as [r E]. assert (Hin : 100%N ∈ j_ID <$> [job1])
    by (apply (bool_decide_unpack _); vm_compute; exact Logic.I).
  specialize (Hrow _ _ E). rewrite decide_True in Hrow by exact Hin.
  destruct Hrow as (r' & Hr' & HL). exists r, r'.
  split; [exact E|]. split; [exact Hr'|exact HL].
Defined.

(** No due job is passed over for a less urgent one: a due row that the
    claim leaves behind was left because the batch was full, and every
    claimed row comes before it in the claim order. *)
Theorem claim_by_priority w b ttl e wd out wd' r :
  let d0 := e_others e (w_tick wd) (w_db wd) in
  let now := e_pgnow e (w_tick wd) in
  let locked := e_locked e (S (w_tick wd)) in
  db_ok d0 -> ClaimDueJobs w b ttl e wd = (Ok out, wd') ->
  jobs d0 !! jr_id r = Some r -> claimable locked now r = true ->
  jr_id r ∉ j_ID <$> out ->
  length out = Z.to_nat b /\
  (forall j, j ∈ out -> exists r', jobs d0 !! j_ID j = Some r' /\
     lexb (claim_key r') (claim_key r) = true).
Proof.
  cbv zeta. intros I H Hr Hc Hnin.
  destruct (claim_rows w b ttl e wd wd' out I H) as (rows & -> & F).
  set (due := due_rows _ _ _) in *.
  assert (Hdue : r ∈ due).
  { unfold due, due_rows. rewrite elem_of_order_by, elem_of_select_where. eauto. }
  rewrite <- (take_drop (Z.to_nat b) due) in Hdue. apply elem_of_app in Hdue as [Hin|Hin].
  { exfalso. apply Hnin. destruct (Forall2_elem_of_l _ _ _ _ F Hin) as (j & Hj & Hh & _).
    rewrite <- Hh. by apply list_elem_of_fmap_2. }
  split.
  - apply Forall2_length in F. rewrite <- F, length_take.
    assert (length (drop (Z.to_nat b) due) <> 0%nat).
    { intros E. apply length_zero_iff_nil in E. rewrite E in Hin.
      by apply not_elem_of_nil in Hin. }
    rewrite length_drop in *. lia.
  - intros j Hj. destruct (Forall2_elem_of_r _ _ _ _ F Hj) as (r' & Hr' & Hh & _).
    exists r'. split.
    + rewrite Hh. eapply elem_of_submseteq in Hr'; [|apply sublist_submseteq, sublist_take].
      unfold due, due_rows in Hr'.
      rewrite elem_of_order_by, elem_of_select_where in Hr'. destruct Hr' as [_ [k Hk]].
      by destruct (ok_jobs _ I _ _ Hk) as [-> _].
    + eapply (StronglySorted_split (key_le claim_key)); [apply order_by_sorted|done|done].
Qed.

Lemma claim_by_priority_witness :
  length (value [] claim2) = 1%nat /\
  (forall j, j ∈ value [] claim2 -> exists r', jobs (w_db created2) !! j_ID j = Some r' /\
     lexb (claim_key r') (claim_key row2) = true).
Proof.
  assert (H : ClaimDueJobs "w1" 1 ttl0 env0 created2 = (Ok (value [] claim2), claimed2)).
  { assert (E : claim2.1 = Ok (value [] claim2)) by (vm_compute; reflexivity).
    change (claim2 = (Ok (value [] claim2), claim2.2)).
    by rewrite <- E, <- surjective_pairing. }
  apply (claim_by_priority "w1" 1 ttl0 env0 created2 (value [] claim2) claimed2 row2
    created2_ok H).
  - vm_compute. reflexivity.
  - vm_compute. reflexivity.
  - apply (bool_decide_unpack _). vm_compute. exact Logic.I.
Defined.

(** ** Exclusion *)

(** Where a job can be after it has been RUNNING. *)
Lemma after_running s s' :
  rtc life_step s s' ->
  s = StatusRunning \/ s = StatusRetryScheduled \/ s = StatusSucceeded \/
  s = StatusDeadLettered \/ s = StatusCancelled ->
  s' = StatusRunning \/ s' = StatusRetryScheduled \/ s' = StatusSucceeded \/
  s' = StatusDeadLettered \/ s' = StatusCancelled.
Proof.
  induction 1 as [|s1 s2 s3 H _ IH]; [done|]. intros Hs. apply IH.
  destruct H; intuition congruence.
Qed.

Lemma claimed_running w b ttl e wd out wd' j :
  db_ok (e_others e (w_tick wd) (w_db wd)) ->
  ClaimDueJobs w b ttl e wd = (Ok out, wd') -> j ∈ out ->
  exists r, jobs (w_db wd') !! j_ID j = Some r /\ jr_status r = StatusRunning /\
            jr_locked_by r = Some w.
Proof.
  intros I H Hj. destruct (claim_run_state w b ttl e wd wd' out I H) as [_ C].
  pose proof (claim_ids w b ttl e wd wd' out I H) as Hids.
  assert (Hin : j_ID j ∈ j_ID <$> select_due b (e_locked e (S (w_tick wd)))
    (e_pgnow e (w_tick wd)) (e_others e (w_tick wd) (w_db wd))).
  { rewrite <- Hids. by apply list_elem_of_fmap_2. }
  rewrite (cs_jobs _ _ _ _ _ _ _ _ C), decide_True by done.
  apply list_elem_of_fmap in Hin as (j0 & -> & Hj0).
  destruct (select_due_spec _ _ _ _ _ I Hj0) as (r & -> & _). cbn. eauto.
Qed.

Lemma claimed_was_claimable w b ttl e wd out wd' j :
  db_ok (e_others e (w_tick wd) (w_db wd)) ->
  ClaimDueJobs w b ttl e wd = (Ok out, wd') -> j ∈ out ->
  exists r, jobs (e_others e (w_tick wd) (w_db wd)) !! j_ID j = Some r /\
            claimable_status (jr_status r) = true.
Proof.
  intros I H Hj. pose proof (claim_ids w b ttl e wd wd' out I H) as Hids.
  assert (Hin : j_ID j ∈ j_ID <$> out) by (by apply list_elem_of_fmap_2).
  rewrite Hids in Hin. apply list_elem_of_fmap in Hin as (j0 & -> & Hj0).
  destruct (select_due_spec _ _ _ _ _ I Hj0) as (r & -> & _ & Hc).
  exists r. split; [done|]. unfold claimable in Hc. by bool_prop.
Qed.

(** C9. No two workers hold a job at once: when a job handed out by one
    claim is handed out again by a later one, after anything the system
    does in between, then by that time it had gone through
    RETRY_SCHEDULED, its lease was dropped, and so the earlier holder no
    longer owned it.  In particular two claims with nothing in between are
    disjoint. *)
Theorem claims_exclusive w1 b1 ttl1 e1 wd1 out1 wd1' w2 b2 ttl2 e2 wd2 out2 wd2' j1 j2 :
  let d2 := e_others e2 (w_tick wd2) (w_db wd2) in
  db_ok (e_others e1 (w_tick wd1) (w_db wd1)) ->
  ClaimDueJobs w1 b1 ttl1 e1 wd1 = (Ok out1, wd1') ->
  reaches (w_db wd1') d2 ->
  ClaimDueJobs w2 b2 ttl2 e2 wd2 = (Ok out2, wd2') ->
  j1 ∈ out1 -> j2 ∈ out2 -> j_ID j1 = j_ID j2 ->
  d2 <> w_db wd1' /\
  exists r, jobs d2 !! j_ID j1 = Some r /\ jr_status r = StatusRetryScheduled /\
            jr_locked_by r = None.
Proof.
  cbv zeta. intros I1 H1 R H2 Hj1 Hj2 Heq.
  destruct (claimed_running _ _ _ _ _ _ _ _ I1 H1 Hj1) as (r1 & Hr1 & Hs1 & _).
  destruct (claimed_was_claimable _ _ _ _ _ _ _ _ (re_ok _ _ R) H2 Hj2)
    as (r2 & Hr2 & Hc2).
  rewrite <- Heq in Hr2. pose proof (re_lifecycle _ _ R _ _ Hr2) as L.
  rewrite Hr1 in L. apply after_running in L; [|auto].
  apply claimable_status_spec in Hc2.
  assert (Hs2 : jr_status r2 = StatusRetryScheduled) by intuition congruence.
  split; [congruence|]. exists r2. split_and!; [done|done|].
  destruct (ok_jobs _ (re_ok _ _ R) _ _ Hr2) as [_ [Hl _ _ _ _]].
  rewrite Hs2 in Hl. by destruct Hl.
Qed.

(** The job fails once and is claimed again, by w2. *)
Lemma claims_exclusive_witness :
  w_db failed1 <> w_db claimed /\
  exists r, jobs (w_db failed1) !! 100%N = Some r /\
    jr_status r = StatusRetryScheduled /\ jr_locked_by r = None.
Proof.
  assert (H1 : ClaimDueJobs "w1" 10 ttl0 env0 created = (Ok [job1], claimed)).
  { assert (E : claim1.1 = Ok [job1]) by (vm_compute; reflexivity).
    change (claim1 = (Ok [job1], claim1.2)). by rewrite <- E, <- surjective_pairing. }
  assert (H2 : ClaimDueJobs "w2" 10 ttl0 env_later failed1 =
               (Ok [job2], claim_again.2)).
  { assert (E : claim_again.1 = Ok [job2]) by (vm_compute; reflexivity).
    change (claim_again = (Ok [job2], claim_again.2)).
    by rewrite <- E, <- surjective_pairing. }
  assert (R : reaches (w_db claimed) (w_db failed1)).
  { apply (FailExecution_safe job1 "w1" Second result0 StatusRetryScheduled 1 0
      ltac:(by vm_compute) ltac:(intros _; by vm_compute) env0 claimed rely0
      (sk_db _ claimed_ok)), (sk_flight _ claimed_ok "w1"). by left. }
  refine (claims_exclusive "w1" 10 ttl0 env0 created [job1] claimed "w2" 10 ttl0
    env_later failed1 [job2] claim_again.2 job1 job2 created_ok H1 R H2 _ _ _).
  - by left.
  - by left.
  - vm_compute. reflexivity.
Defined.

(** ** Recovery *)

(** What a committed recovery did. *)
Lemma RecoverExpired_run reason e wd count wd' :
  let d0 := e_others e (w_tick wd) (w_db wd) in
  let lapsed := expired (e_locked e (S (w_tick wd))) (e_pgnow e (w_tick wd)) in
  db_ok d0 -> RecoverExpiredRunningJobs reason e wd = (Ok count, wd') ->
  count = Z.of_nat (length (select_where lapsed (jobs d0))) /\
  (forall k r, jobs d0 !! k = Some r -> lapsed r = true ->
     no_running_attempt (w_db wd') k /\
     exists r', jobs (w_db wd') !! k = Some r' /\ recovered_row r r') /\
  (forall k r, jobs d0 !! k = Some r -> lapsed r = false ->
     jobs (w_db wd') !! k = Some r).
Proof.
  cbv zeta. intros I H. apply with_tx_ok in H as (n' & Hb & _).
  destruct (recover_body_state _ _ _ _ _ _ _ _ I Hb) as [-> [us S]].
  set (items := select_expired _ _ _ _) in *.
  assert (Hit : forall k r, jobs (e_others e (w_tick wd) (w_db wd)) !! k = Some r ->
    k ∈ j_ID <$> items <->
    expired (e_locked e (Datatypes.S (w_tick wd))) (e_pgnow e (w_tick wd)) r = true).
  { intros k r Hk. rewrite list_elem_of_fmap. split.
    - intros (j & -> & Hj). apply (select_expired_spec _ _ _ _ _ I) in Hj
        as (r0 & Hr0 & _ & Hx). congruence.
    - intros Hx. exists (scanJob r). destruct (ok_jobs _ I _ _ Hk) as [<- _].
      split; [done|]. apply (select_expired_spec _ _ _ _ _ I). exists r. by cbn. }
  split_and!.
  - unfold items, select_expired, scanJobs. by rewrite length_fmap, order_by_perm.
  - intros k r Hk Hx. apply (Hit k r Hk) in Hx.
    apply list_elem_of_fmap in Hx as (j & -> & Hj).
    destruct (rs_pre _ _ _ _ _ S _ Hj) as (r0 & r' & Hr0 & _ & Hr' & Hrec & Hno).
    simplify_eq. eauto.
  - intros k r Hk Hx. rewrite (rs_other _ _ _ _ _ S); [done|].
    intros Hin. apply (Hit k r Hk) in Hin. congruence.
Qed.


