(* ===== verification/Framing.v ===== *)
(** * What the worker's statements leave alone

    Framing for the worker in a healthy environment: every operation of
    its loop moves the tick forward, keeps the ids still to be drawn
    fresh, and touches no job but the one it works on; and a claim then
    always succeeds. *)

From S2P Require Import Prelude GoRuntime Engine Sql Schema Effects Json Dto Repository RepositoryFacts Invariant Preservation Auth Service Executor Lock Rfc3339 Registry Worker Scenario Safety AuthFacts Outbox OutboxFacts System Finalise Process Claim.

Local Open Scope Z_scope.
Local Open Scope go_scope.

(** ** Fresh ids *)

(** From tick [n] on the environment gives ids that are not in use, and
    none of them is the nil id, which no attempt has. *)
Record fresh_run (e : env) (n : nat) (d : Db) : Prop := mk_fresh_run {
  fr_ids : fresh_ids e n d;
  fr_uuid : forall m, e_uuid e m <> uuid_Nil;
  fr_nil : job_attempts d !! uuid_Nil = None
}.

Lemma fresh_ids_step e n n' d d' :
  (n <= n')%nat -> fresh_ids e n d ->
  (forall m, (n' <= m)%nat ->
     (job_events d !! e_uuid e m = None -> job_events d' !! e_uuid e m = None) /\
     (dead_letter_jobs d !! e_uuid e m = None -> dead_letter_jobs d' !! e_uuid e m = None) /\
     (job_attempts d !! e_uuid e m = None -> job_attempts d' !! e_uuid e m = None) /\
     (jobs d !! e_uuid e m = None -> jobs d' !! e_uuid e m = None)) ->
  fresh_ids e n' d'.
Proof.
  intros Hn Hf Hd m Hm. destruct (Hf m) as (H1 & H2 & H3 & H4 & Hi); [lia|].
  destruct (Hd m Hm) as (D1 & D2 & D3 & D4). split_and!; auto.
Qed.

Lemma fresh_run_le e n n' d : (n <= n')%nat -> fresh_run e n d -> fresh_run e n' d.
Proof. intros Hn [Hf Hu Hnil]. split; [|done..]. by eapply fresh_ids_step. Qed.

Lemma fresh_run_S e n d : fresh_run e n d -> fresh_run e (S n) d.
Proof. apply fresh_run_le. lia. Qed.

(** A body of statements keeps the remaining ids fresh. *)
Definition tx_fresh {A} (body : Tx A) : Prop :=
  forall e now d n r d' n', fresh_run e n d ->
    body e now (d, n) = (r, (d', n')) -> (n <= n')%nat /\ fresh_run e n' d'.

Lemma tx_fresh_ret {A} (a : A) : tx_fresh (mret a).
Proof. intros e now d n r d' n' Hf [= _ <- <-]. done. Qed.

Lemma tx_fresh_lift {A} (a : result A) : tx_fresh (tx_lift a).
Proof. intros e now d n r d' n' Hf [= _ <- <-]. done. Qed.

Lemma tx_fresh_fail {A} err : tx_fresh (tx_fail err : Tx A).
Proof. intros e now d n r d' n' Hf [= _ <- <-]. done. Qed.

Lemma tx_fresh_bind {A B} (m : Tx A) (k : A -> Tx B) :
  tx_fresh m -> (forall a, tx_fresh (k a)) -> tx_fresh (m ≫= k).
Proof.
  intros Hm Hk e now d n r d' n' Hf. unfold mbind, Tx_bind.
  destruct (m e now (d, n)) as [[a|err] [d1 n1]] eqn:E; apply Hm in E as [Hn1 Hf1]; try done.
  - intros E2. apply Hk in E2 as [Hn2 Hf2]; [|done]. split; [lia|done].
  - intros [= _ <- <-]. done.
Qed.

Lemma tx_fresh_each {A B} (f : A -> Tx B) l : (forall x, tx_fresh (f x)) -> tx_fresh (tx_each f l).
Proof.
  intros Hf. induction l as [|x l IH]; cbn; [apply tx_fresh_ret|].
  apply tx_fresh_bind; [done|]. intros y. apply tx_fresh_bind; [done|]. intros ys.
  apply tx_fresh_ret.
Qed.

Lemma tx_fresh_require c err : tx_fresh (require_rows c err).
Proof. destruct c; [apply tx_fresh_fail|apply tx_fresh_ret]. Qed.

Lemma tx_fresh_query {A} (f : (UUID -> bool) -> (UUID -> Z) -> Time -> Db -> A) :
  tx_fresh (tx_query f).
Proof.
  intros e now d n r d' n' Hf. unfold tx_query.
  destruct (e_outcome e n); intros [= _ <- <-]; (split; [lia|]; by eapply fresh_run_le; [|done]; lia).
Qed.

Lemma tx_fresh_time : tx_fresh tx_time_Now.
Proof.
  intros e now d n r d' n' Hf [= _ <- <-]. split; [lia|]. eapply fresh_run_le; [|done]. lia.
Qed.

(** A statement that adds no row. *)
Lemma tx_fresh_exec {A} (f : Time -> Db -> result (Db * A)) :
  (forall now d d' a, f now d = Ok (d', a) -> forall i,
     (job_events d !! i = None -> job_events d' !! i = None) /\
     (dead_letter_jobs d !! i = None -> dead_letter_jobs d' !! i = None) /\
     (job_attempts d !! i = None -> job_attempts d' !! i = None) /\
     (jobs d !! i = None -> jobs d' !! i = None)) ->
  tx_fresh (tx_exec f).
Proof.
  intros Hd e now d n r d' n' Hf. pose proof (fresh_run_S _ _ _ Hf) as Hf1.
  unfold tx_exec. destruct (e_outcome e n); [|by intros [= _ <- <-]; auto..].
  destruct (f now d) as [[d1 a]|err] eqn:E; intros [= _ <- <-]; [|by auto].
  pose proof (Hd _ _ _ _ E) as Hd1. destruct Hf1 as [Hi Hu Hnil]. split; [lia|]. split; [|done|].
  - by eapply fresh_ids_step; [|exact Hi|].
  - by apply Hd1.
Qed.

Lemma update_where_new {V} (P : UUID -> V -> bool) f (t : gmap UUID V) i :
  t !! i = None -> (update_where P f t).1 !! i = None.
Proof. intros Hi. by rewrite lookup_update_where, Hi. Qed.

Lemma tx_fresh_update_jobs P f : tx_fresh (tx_update_jobs P f).
Proof.
  apply tx_fresh_exec. intros now d d' c. destruct (update_where _ _ _) as [t n] eqn:E.
  intros [= <- _] i. cbn. split_and!; try done. intros Hi.
  pose proof (update_where_new P (f now) _ _ Hi) as H. by rewrite E in H.
Qed.

Lemma tx_fresh_update_attempts P f : tx_fresh (tx_update_attempts P f).
Proof.
  apply tx_fresh_exec. intros now d d' c. destruct (update_where _ _ _) as [t n] eqn:E.
  intros [= <- _] i. cbn. split_and!; try done. intros Hi.
  pose proof (update_where_new P (f now) _ _ Hi) as H. by rewrite E in H.
Qed.

(** An insertion under an id just drawn. *)
Lemma insert_fresh e n m d d' :
  (n < m)%nat -> fresh_run e n d ->
  (forall i, i <> e_uuid e n ->
     (job_events d !! i = None -> job_events d' !! i = None) /\
     (dead_letter_jobs d !! i = None -> dead_letter_jobs d' !! i = None) /\
     (job_attempts d !! i = None -> job_attempts d' !! i = None) /\
     (jobs d !! i = None -> jobs d' !! i = None)) ->
  fresh_run e m d'.
Proof.
  intros Hn [Hi Hu Hnil] Hd. split; [|done|].
  - eapply fresh_ids_step; [|exact Hi|]; [lia|]. intros k Hk. apply Hd. intros E.
    apply eq_sym, (Hi n) in E; lia.
  - apply Hd; [|done]. intros E. by apply (Hu n).
Qed.

Lemma lookup_insert_new {V} (t : gmap UUID V) i k v :
  i <> k -> t !! i = None -> <[k := v]> t !! i = None.
Proof. intros Hne Hi. by rewrite lookup_insert_ne. Qed.

Lemma tx_insert_cases f e now d n r d' n' :
  tx_insert f e now (d, n) = (r, (d', n')) ->
  n' = S n /\ (d' = d \/ f now d = Ok d').
Proof.
  unfold tx_insert, tx_exec. repeat case_match; intros Heq; simplify_eq; auto.
Qed.

Lemma tx_fresh_event j ty src p : tx_fresh (insertJobEvent j ty src p).
Proof.
  intros e now d n r d' n' Hf. unfold insertJobEvent, mbind, Tx_bind, tx_lift, tx_uuid_New.
  destruct (json_marshal p) as [p'|err]; [|by intros [= _ <- <-]].
  intros [-> [->|Hins]]%tx_insert_cases; (split; [lia|]); [eapply fresh_run_le; [|done]; lia|].
  apply insert_job_events_ok in Hins as (_ & -> & _).
  eapply (insert_fresh e n); [lia|done|]. cbn. intros i Hi. split_and!; try done.
  by apply lookup_insert_new.
Qed.

Lemma tx_fresh_dead_letter t j m rc : tx_fresh (insert_dead_letter t j m rc).
Proof.
  intros e now d n r d' n' Hf. unfold insert_dead_letter, mbind, Tx_bind, tx_uuid_New.
  intros [-> [->|Hins]]%tx_insert_cases; (split; [lia|]); [eapply fresh_run_le; [|done]; lia|].
  apply insert_dead_letter_jobs_ok in Hins as (_ & -> & _).
  eapply (insert_fresh e n); [lia|done|]. cbn. intros i Hi. split_and!; try done.
  by apply lookup_insert_new.
Qed.

(** Drawing an id and using it for an attempt. *)
Lemma tx_fresh_attempt {B} (row : UUID -> Time -> attempt_row) (k : UUID -> Tx B) :
  (forall id now, ar_id (row id now) = id) -> (forall id, tx_fresh (k id)) ->
  tx_fresh (id ← tx_uuid_New;
            tx_insert (fun now d => insert_job_attempts (row id now) d);; k id).
Proof.
  intros Hid Hk e now d n r d' n' Hf. unfold mbind at 1, Tx_bind at 1, tx_uuid_New at 1.
  unfold mbind, Tx_bind. destruct (tx_insert _ e now (d, S n)) as [res [d1 n1]] eqn:E.
  assert (Hf1 : (n <= n1)%nat /\ fresh_run e n1 d1).
  { apply tx_insert_cases in E as [-> [->|Hins]];
      (split; [lia|]); [eapply fresh_run_le; [|done]; lia|].
    apply insert_job_attempts_ok in Hins as (_ & -> & _). rewrite Hid.
    eapply (insert_fresh e n); [lia|done|]. cbn. intros i Hi. split_and!; try done.
    by apply lookup_insert_new. }
  destruct Hf1 as [Hn1 Hf1]. destruct res as [[]|err].
  - intros [Hn2 Hf2]%Hk; [|done]. split; [lia|done].
  - by intros [= _ <- <-].
Qed.

#[export] Hint Resolve tx_fresh_ret tx_fresh_lift tx_fresh_fail tx_fresh_bind tx_fresh_each
  tx_fresh_require tx_fresh_query tx_fresh_time tx_fresh_update_jobs tx_fresh_update_attempts
  tx_fresh_event tx_fresh_dead_letter : fresh.

Lemma tx_fresh_claim_one w ttl j : tx_fresh (claim_one w ttl j).
Proof.
  unfold claim_one. apply tx_fresh_bind; [auto with fresh|]. intros _.
  apply tx_fresh_bind; [auto with fresh|]. intros clock.
  apply (tx_fresh_attempt (fun id now => new_attempt_row id (j_ID j) (j_TenantID j) w
    (int_add (j_RetryCount j) 1) now)); [done|]. intros id. auto with fresh.
Qed.

Lemma tx_fresh_claim w b ttl : tx_fresh (claim_body w b ttl).
Proof.
  unfold claim_body. case_match; [auto with fresh|].
  apply tx_fresh_bind; [auto with fresh|]. intros items.
  apply tx_fresh_each, tx_fresh_claim_one.
Qed.

Lemma tx_fresh_recover reason : tx_fresh (recover_body reason).
Proof.
  unfold recover_body. apply tx_fresh_bind; [auto with fresh|]. intros items.
  apply tx_fresh_bind; [|auto with fresh]. apply tx_fresh_each. intros j. unfold recover_one.
  repeat (apply tx_fresh_bind; [by auto with fresh|]; intros ?).
  case_match; auto with fresh.
Qed.

Lemma tx_fresh_complete j w dur res : tx_fresh (complete_body j w dur res).
Proof. unfold complete_body. auto with fresh. Qed.

Lemma tx_fresh_fail_body j w dur o ns rc ra : tx_fresh (fail_body j w dur o ns rc ra).
Proof.
  unfold fail_body. repeat (apply tx_fresh_bind; [by auto with fresh|]; intros ?).
  case_match; auto with fresh.
Qed.

(** ** What a worker's statements leave alone *)

(** What never changes of a job. *)
Definition fixed_part (r : job_row) : UUID * Z := (jr_tenant_id r, jr_max_retries r).

(** No tenant appears or goes, and no job appears or changes its fixed
    part. *)
Record tame (d d' : Db) : Prop := mk_tame {
  tm_tenants : tenants d' = tenants d;
  tm_jobs : forall k, (fixed_part <$> jobs d' !! k) = (fixed_part <$> jobs d !! k)
}.

(** Moreover job [k] and its attempts are as they were, and no attempt
    changes its job. *)
Record spares (k : UUID) (d d' : Db) : Prop := mk_spares {
  sp_tame : tame d d';
  sp_row : jobs d' !! k = jobs d !! k;
  sp_attempts : forall i a, job_attempts d !! i = Some a -> exists a',
    job_attempts d' !! i = Some a' /\ ar_job_id a' = ar_job_id a /\
    (ar_job_id a = k -> a' = a)
}.

#[export] Instance tame_preorder : PreOrder tame.
Proof.
  split; [by intros d; split|]. intros d1 d2 d3 [T1 J1] [T2 J2].
  split; [congruence|]. intros k. by rewrite J2.
Qed.

#[export] Instance spares_preorder k : PreOrder (spares k).
Proof.
  split; [intros d; by split; eauto|]. intros d1 d2 d3 [T1 R1 A1] [T2 R2 A2].
  split; [by etrans|congruence|]. intros i a Ha.
  destruct (A1 _ _ Ha) as (a1 & Ha1 & E1 & Hk1).
  destruct (A2 _ _ Ha1) as (a2 & Ha2 & E2 & Hk2). exists a2.
  split_and!; [done|congruence|]. intros Hk. rewrite Hk2 by congruence. by apply Hk1.
Qed.

(** The attempt a worker carries for [j] is one of [j]. *)
Definition attempt_of (j : Job) (d : Db) : Prop :=
  exists a, job_attempts d !! j_ActiveAttemptID j = Some a /\ ar_job_id a = j_ID j.

Lemma attempt_of_spares k j d d' : spares k d d' -> attempt_of j d -> attempt_of j d'.
Proof.
  intros S (a & Ha & Hj). destruct (sp_attempts _ _ _ S _ _ Ha) as (a' & Ha' & Hj' & _).
  exists a'. split; [done|congruence].
Qed.

Definition spares_but (k : UUID) (l : list Job) (d d' : Db) : Prop :=
  Forall (fun j => attempt_of j d) l -> spares k d d'.

#[export] Instance spares_but_preorder k l : PreOrder (spares_but k l).
Proof.
  split; [by intros d _|]. intros d1 d2 d3 S12 S23 H. specialize (S12 H).
  etrans; [done|]. apply S23. eapply Forall_impl; [exact H|]. intros j.
  by eapply attempt_of_spares.
Qed.

(** The judgement: in a healthy environment with fresh ids, the tick moves
    forward, the remaining ids stay fresh, and the database changes within
    [R]. *)
Definition steps {A} (R : Db -> Db -> Prop) (m : M A) : Prop :=
  forall e w, healthy e -> fresh_run e (w_tick w) (w_db w) ->
    (w_tick w <= w_tick (m e w).2)%nat /\
    fresh_run e (w_tick (m e w).2) (w_db (m e w).2) /\ R (w_db w) (w_db (m e w).2).

Section Steps.
Context (R : Db -> Db -> Prop) `{!PreOrder R}.

Lemma steps_frame {A} (m : M A) : forward m -> db_frame m -> steps R m.
Proof.
  intros Hf Hd e w He Hw. rewrite Hd. split_and!; [done| |done].
  by eapply fresh_run_le; [apply Hf|].
Qed.

Lemma steps_ret {A} (a : A) : steps R (mret a).
Proof. apply steps_frame; [apply forward_ret|done]. Qed.

Lemma steps_fail {A} err : steps R (fail err : M A).
Proof. apply steps_frame; [apply forward_fail|done]. Qed.

Lemma steps_bind {A B} (m : M A) (k : A -> M B) :
  steps R m -> (forall a, steps R (k a)) -> steps R (m ≫= k).
Proof.
  intros Hm Hk e w He Hw. destruct (Hm e w He Hw) as (Hn & Hf & HR).
  unfold mbind, M_bind. destruct (m e w) as [[a|err] w1]; cbn in *; [|done].
  destruct (Hk a e w1 He Hf) as (Hn2 & Hf2 & HR2). split_and!; [lia|done|by etrans].
Qed.

Lemma steps_ret_bind {A B} (a : A) (k : A -> M B) : steps R (k a) -> steps R (mret a ≫= k).
Proof. intros H. exact H. Qed.

Lemma steps_try {A} (m : M A) : steps R m -> steps R (try m).
Proof. intros Hm e w He Hw. specialize (Hm e w He Hw). unfold try. by destruct (m e w). Qed.

Lemma steps_check {A} act (m : M A) : steps R m -> steps R (check act m).
Proof.
  intros Hm e w He Hw. specialize (Hm e w He Hw). unfold check.
  by destruct (m e w) as [[]].
Qed.

Lemma steps_deferred {A} (m : M A) c : steps R m -> steps R c -> steps R (deferred m c).
Proof.
  intros Hm Hc e w He Hw. destruct (Hm e w He Hw) as (Hn & Hf & HR). unfold deferred.
  destruct (m e w) as [r w1]. cbn in *.
  destruct (Hc e w1 He Hf) as (Hn2 & Hf2 & HR2). split_and!; [lia|done|by etrans].
Qed.

Lemma steps_tx {A} (body : Tx A) : tx_fresh body -> tx_rel R body -> steps R (with_tx body).
Proof.
  intros Hb HR e w He Hw. rewrite (with_tx_healthy _ He).
  destruct (body e (e_pgnow e (w_tick w)) (w_db w, S (w_tick w))) as [res [d' n']] eqn:E.
  pose proof (fresh_run_S _ _ _ Hw) as Hw1.
  destruct (Hb _ _ _ _ _ _ _ Hw1 E) as [Hn Hf]. destruct res as [a|err]; cbn.
  - split_and!; [lia|eapply fresh_run_le; [|done]; lia|by eapply HR].
  - split_and!; [lia|eapply fresh_run_le; [|done]; lia|done].
Qed.

Lemma steps_jobs_stmt P f :
  (forall now d, R d (d <| jobs := (update_where P (f now) (jobs d)).1 |>)) ->
  steps R (pool_update_jobs P f).
Proof.
  intros HR e w He Hw. unfold pool_update_jobs. rewrite (pool_exec_healthy _ He).
  pose proof (fresh_run_S _ _ _ Hw) as [Hi Hu Hnil].
  specialize (HR (e_pgnow e (w_tick w)) (w_db w)).
  pose proof (update_where_new P (f (e_pgnow e (w_tick w))) (jobs (w_db w))) as Hnew.
  destruct (update_where _ _ _) as [t c]; cbn in *. split_and!; [lia| |done].
  split; cbn; [|done..]. eapply fresh_ids_step; [|exact Hi|]; [lia|]. cbn. auto.
Qed.
End Steps.

(** Apply a rule at the relation of the goal. *)
Ltac steps_rule lem := match goal with |- steps ?R _ => apply (lem R _) end.

Lemma steps_mono {A} (R R' : Db -> Db -> Prop) (m : M A) :
  (forall d d', R d d' -> R' d d') -> steps R m -> steps R' m.
Proof. intros HR Hm e w He Hw. destruct (Hm e w He Hw) as (? & ? & ?). auto. Qed.

(** ** Processing another job *)

Section Another.
Context (s : Worker) `{!WorkerLaws s, !WorkerTicks s} (k : UUID) (j : Job).
Context (Hne : j_ID j <> k).

Lemma owned_update_spares wid (f : Time -> job_row -> job_row) now d :
  (forall r, fixed_part (f now r) = fixed_part r) ->
  spares k d (d <| jobs := (update_where (owned_running (j_ID j) wid) (f now) (jobs d)).1 |>).
Proof.
  intros Hf. split; [split; [done|]|..]; cbn [jobs job_attempts].
  - intros i. cbn. rewrite lookup_update_where. destruct (jobs d !! i) as [r|]; [|done]. cbn.
    case_match; [by rewrite Hf|done].
  - cbn. rewrite lookup_update_where. destruct (jobs d !! k) as [r|]; [|done]. cbn.
    destruct (owned_running _ _ _ _) eqn:E; [|done]. apply owned_running_pin in E. congruence.
  - cbn. eauto.
Qed.

Lemma insert_tame d i r' :
  (fixed_part <$> jobs d !! i) = Some (fixed_part r') ->
  forall i', (fixed_part <$> <[i := r']> (jobs d) !! i') = (fixed_part <$> jobs d !! i').
Proof.
  intros H i'. rewrite lookup_insert. case_decide as E; subst; cbn; [|done]. by rewrite H.
Qed.

(** Closing the attempt of [j] spares the attempts of [k]. *)
Lemma close_attempt_spares d a0 a1 :
  attempt_of j d -> job_attempts d !! j_ActiveAttemptID j = Some a0 ->
  ar_job_id a1 = ar_job_id a0 ->
  forall i a, job_attempts d !! i = Some a -> exists a',
    <[j_ActiveAttemptID j := a1]> (job_attempts d) !! i = Some a' /\
    ar_job_id a' = ar_job_id a /\ (ar_job_id a = k -> a' = a).
Proof.
  intros (a2 & Ha2 & Hj) Ha0 H1 i a Ha. rewrite lookup_insert.
  case_decide as E; subst; [|by eauto]. simplify_eq. eexists. split_and!; [done..|congruence].
Qed.

Lemma complete_spares w dur res : tx_rel (spares_but k [j]) (complete_body j w dur res).
Proof.
  intros e now d n u d' n' (r & a & id & Hr & _ & _ & Ht & Ha & _ & _ & ->)%complete_body_ok
    [Hat _]%Forall_cons.
  split; [split; [done|]|..]; cbn.
  - apply insert_tame. by rewrite Hr.
  - by rewrite lookup_insert_ne.
  - by eapply close_attempt_spares.
Qed.

Lemma fail_spares w dur o ns rc ra : tx_rel (spares_but k [j]) (fail_body j w dur o ns rc ra).
Proof.
  intros e now d n u d' n' (r & a & id1 & id2 & Hr & _ & _ & Ha & _ & _ & _ & _ & HA & HT & _
    & Hjobs)%fail_body_ok [Hat _]%Forall_cons.
  assert (HJ : exists r', fixed_part r' = fixed_part r /\
    jobs d' = <[j_ID j := r']> (jobs d)).
  { destruct Hjobs as [(_ & HJ & _)|(_ & HJ & _)]; eexists; (split; [|exact HJ]); done. }
  destruct HJ as (r' & Ht & HJ). split; [split; [done|]|..]; rewrite ?HJ, ?HA.
  - apply insert_tame. by rewrite Hr, Ht.
  - by rewrite lookup_insert_ne.
  - by eapply close_attempt_spares.
Qed.

Lemma steps_extend wid ttl : steps (spares k) (ExtendLease (j_ID j) wid ttl).
Proof.
  steps_rule steps_bind; [|intros; by steps_rule steps_ret].
  apply steps_jobs_stmt. intros. by apply owned_update_spares.
Qed.

Lemma steps_renew ticks key ttl : steps (spares k) (renewLease ticks s key (j_ID j) ttl).
Proof.
  induction ticks as [|ticks IH]; cbn; [by steps_rule steps_ret|].
  steps_rule steps_bind; [apply steps_try, steps_extend|].
  intros [[|]|]; try (by steps_rule steps_ret).
  destruct (lm_Extend (wk_lockManager s)) as [ext|] eqn:E; [|done].
  steps_rule steps_bind; [|intros [[|]|]; first [done|steps_rule steps_ret]].
  apply steps_try; steps_rule steps_frame; [by apply (wt_extend ext)|by apply (extend_frame (L := wk_lockManager s))].
Qed.

Lemma steps_finalise dur (r : result string) :
  steps (spares_but k [j])
    match r with
    | Ok res => check "mark succeeded" (CompleteExecution j (wk_workerID s) dur res);;
                wk_metrics s (JobCompleted (j_JobType j) dur)
    | Err err => finalize_failure s j dur err
    end.
Proof.
  assert (Hm : forall m, steps (spares_but k [j]) (wk_metrics s m)).
  { intros m. steps_rule steps_frame; [apply wt_metrics|apply wl_metrics]. }
  destruct r as [res|err].
  - steps_rule steps_bind; [|by intros _]. apply steps_check; steps_rule steps_tx.
    + apply tx_fresh_complete.
    + apply complete_spares.
  - unfold finalize_failure. steps_rule steps_bind; [done|]. intros _.
    steps_rule steps_bind; [by steps_rule steps_frame; [apply forward_time|]|].
    intros now. steps_rule steps_bind.
    { unfold next_run_at. case_match; [|by steps_rule steps_ret].
      steps_rule steps_frame; [auto with forward|done]. }
    intros ra. steps_rule steps_bind.
    { apply steps_try; steps_rule steps_tx; [apply tx_fresh_fail_body|apply fail_spares]. }
    intros [u|failErr]; case_match; first [apply Hm|steps_rule steps_ret|steps_rule steps_fail].
Qed.

Lemma steps_process : j_ActiveAttemptID j <> uuid_Nil -> steps (spares_but k [j]) (ProcessJob s j).
Proof.
  intros Hid. assert (Hs : forall A (m : M A), steps (spares k) m -> steps (spares_but k [j]) m).
  { intros A m. apply steps_mono. by intros d d' ? _. }
  unfold ProcessJob. steps_rule steps_bind.
  { apply steps_check; steps_rule steps_frame; [apply wt_acquire|apply acquire_frame]. }
  intros [|]; cbn [negb].
  - steps_rule steps_deferred.
    + unfold process_locked, ensure_attempt. rewrite bool_decide_eq_false_2 by done.
      apply steps_ret_bind.
      steps_rule steps_bind; [by steps_rule steps_frame; [apply forward_time|]|].
      intros started.
      steps_rule steps_bind; [by steps_rule steps_frame; [apply forward_renewals|]|].
      intros ticks. steps_rule steps_bind; [apply Hs, steps_renew|]. intros cancelled.
      steps_rule steps_bind.
      { apply steps_try; steps_rule steps_frame; [apply wt_executor|apply wl_executor]. }
      intros r. steps_rule steps_bind; [by steps_rule steps_frame; [apply forward_time|]|].
      intros finished. apply steps_finalise.
    + steps_rule steps_bind; [|intros; by steps_rule steps_ret].
      steps_rule steps_frame; [apply wt_release|apply release_frame].
  - apply Hs, steps_check; steps_rule steps_bind.
    + apply steps_jobs_stmt. intros. by apply owned_update_spares.
    + intros c. case_match; [by steps_rule steps_fail|by steps_rule steps_ret].
Qed.
End Another.

(** Processing a batch without [k] spares it. *)
Lemma steps_consume (s : Worker) `{!WorkerLaws s, !WorkerTicks s} k items :
  Forall (fun j => j_ID j <> k /\ j_ActiveAttemptID j <> uuid_Nil) items ->
  steps (spares_but k items) (consume s items).
Proof.
  induction 1 as [|j items [Hne Hid] _ IH]; cbn; [steps_rule steps_ret|].
  steps_rule steps_bind.
  - apply steps_try. eapply steps_mono; [|by apply (steps_process s k j)].
    intros d d' HS [Hj _]%Forall_cons. apply HS. by constructor.
  - intros _. eapply steps_mono; [|exact IH]. intros d d' HS [_ Hl]%Forall_cons. by apply HS.
Qed.

(** ** Recovery and claim *)

(** Every job's tenant exists, as the foreign key of the table demands,
    and its budget leaves room for the number of one more attempt. *)
Definition well_kept (d : Db) : Prop :=
  forall k r, jobs d !! k = Some r ->
    has_tenant d (jr_tenant_id r) = true /\ jr_max_retries r < 2 ^ 31 - 1.

Lemma well_kept_tame d d' : tame d d' -> well_kept d -> well_kept d'.
Proof.
  intros [HT HJ] Hd k r' Hr'. specialize (HJ k). rewrite Hr' in HJ.
  destruct (jobs d !! k) as [r|] eqn:Hr; [|done]. injection HJ as Ht Hm.
  unfold has_tenant. rewrite HT, Ht, Hm. by eapply Hd.
Qed.

Lemma tame_update d P f t :
  (forall r, fixed_part (f r) = fixed_part r) -> tenants d = t ->
  forall d', jobs d' = (update_where P f (jobs d)).1 -> tenants d' = t -> tame d d'.
Proof.
  intros Hf <- d' HJ HT. split; [done|]. intros k. rewrite HJ, lookup_update_where.
  destruct (jobs d !! k) as [r|]; [|done]. cbn. case_match; [by rewrite Hf|done].
Qed.

Lemma recover_tame reason : tx_rel tame (recover_body reason).
Proof.
  intros e now d n c d' n' H. unfold recover_body in H. tx_inv H.
  refine (tx_each_ind _ (fun _ _ d1 _ => tame d d1) e now _ _ [] _ _ [] _ _ _ _ Htx);
    [|reflexivity].
  intros pre x1 l d1 n1 y1 d2 n2 ys Hd1 Hone. etrans; [exact Hd1|].
  apply recover_one_ok in Hone as (clock & ev & _ & _ & _ & HT & _ & Hjobs).
  destruct Hjobs as [(_ & HJ & _)|(_ & HJ & _)]; (eapply tame_update; [..|exact HJ|exact HT]; done).
Qed.

Lemma claim_tame w b ttl : tx_rel tame (claim_body w b ttl).
Proof.
  intros e now d n c d' n' H. unfold claim_body in H. case_match; [done|]. tx_inv H.
  refine (tx_each_ind _ (fun _ _ d1 _ => tame d d1) e now _ _ [] _ _ [] _ _ _ _ H);
    [|reflexivity].
  intros pre x1 l d1 n1 y1 d2 n2 ys Hd1 Hone. etrans; [exact Hd1|].
  apply claim_one_ok in Hone as (r & aid & until & ev & p & Hr & _ & _ & _ & _ & _ & ->).
  split; [done|]. cbn. apply insert_tame. by rewrite Hr.
Qed.

Lemma steps_recover reason : steps tame (RecoverExpiredRunningJobs reason).
Proof. steps_rule steps_tx; [apply tx_fresh_recover|apply recover_tame]. Qed.

Lemma steps_claim w b ttl : steps tame (ClaimDueJobs w b ttl).
Proof. steps_rule steps_tx; [apply tx_fresh_claim|apply claim_tame]. Qed.

(** A job that is not RUNNING is none of recovery's business. *)
Lemma recover_row reason e w k r :
  healthy e -> db_ok (w_db w) -> jobs (w_db w) !! k = Some r -> jr_status r <> StatusRunning ->
  jobs (w_db (RecoverExpiredRunningJobs reason e w).2) !! k = Some r.
Proof.
  intros He I Hr Hs. destruct (RecoverExpiredRunningJobs reason e w) as [[c|err] w'] eqn:E.
  - rewrite <- (h_others _ He (w_tick w) (w_db w)) in I, Hr.
    apply (RecoverExpired_run _ _ _ _ _ I E); [done|]. unfold expired.
    by rewrite bool_decide_eq_false_2.
  - unfold RecoverExpiredRunningJobs in E. rewrite (with_tx_healthy _ He) in E.
    destruct (recover_body _ _ _ _) as [[] []]; simplify_eq. done.
Qed.

(** ** A claim in a healthy environment succeeds *)

Section ClaimRuns.
Context (wid : string) (ttl : Duration) (e : env) (He : healthy e) (now : Time).

Lemma claim_one_run j d n r :
  fresh_run e n d -> jobs d !! j_ID j = Some r -> has_tenant d (j_TenantID j) = true ->
  int4_ok (int_add (j_RetryCount j) 1) = true ->
  exists out s', claim_one wid ttl j e now (d, n) = (Ok out, s').
Proof.
  intros [Hf _ _] Hr Ht Hi. unfold claim_one.
  erewrite Tx_bind_run by (by apply tx_update_jobs_healthy). cbn [fst snd].
  rewrite (update_where_key _ _ _ _ _ Hr) by (intros; by bool_prop || by apply bool_decide_eq_true_2).
  unfold tx_time_Now, tx_uuid_New. unfold mbind at 1, Tx_bind at 1.
  unfold mbind at 1, Tx_bind at 1. erewrite Tx_bind_run.
  2:{ unfold tx_insert. rewrite (tx_exec_healthy _ He). unfold insert_job_attempts, insert_row.
      cbn. rewrite Hi. cbn. destruct (Hf (S (S n))) as (_ & _ & -> & _); [lia|].
      unfold has_job. cbn. rewrite lookup_insert_eq, (bool_decide_eq_true_2 (is_Some _)) by eauto.
      unfold has_tenant in Ht |- *. cbn. by rewrite Ht. }
  erewrite Tx_bind_run.
  2:{ apply insertJobEvent_healthy; [done|done| |done]. cbn. apply Hf. lia. }
  by do 2 eexists.
Qed.

Lemma claim_each_run d0 : well_kept d0 -> forall l pre d n ys,
  claim_state wid ttl now d0 pre l d ys -> tame d0 d -> fresh_run e n d ->
  exists out s', tx_each (claim_one wid ttl) l e now (d, n) = (Ok out, s').
Proof.
  intros Hfk. induction l as [|x l IH]; intros pre d n ys C T Hf; cbn; [by do 2 eexists|].
  destruct (cs_rest _ _ _ _ _ _ _ _ C x) as (r & Hr0 & -> & Hc); [by left|].
  assert (Hnin : j_ID (scanJob r) ∉ j_ID <$> pre).
  { pose proof (cs_nodup _ _ _ _ _ _ _ _ C) as N. rewrite fmap_app, fmap_cons in N.
    apply NoDup_app in N as (_ & N & _). intros Hin. apply (N _ Hin). by left. }
  pose proof (cs_jobs _ _ _ _ _ _ _ _ C (j_ID (scanJob r))) as Hr.
  rewrite decide_False, Hr0 in Hr by done.
  destruct (well_kept_tame _ _ T Hfk _ _ Hr) as [Hten Hmax].
  destruct (ok_jobs _ (cs_ok _ _ _ _ _ _ _ _ C) _ _ Hr) as [_ Hok].
  assert (Hnd : jr_status r <> StatusDeadLettered).
  { apply claimable_status_spec in Hc. by destruct Hc as [->|[->| ->]]. }
  destruct (claim_one_run (scanJob r) d n r Hf Hr Hten) as (out & [d1 n1] & E).
  { cbn. rewrite (next_count_small _ Hok Hnd). apply int4_ok_spec.
    destruct Hok as [_ _ Hb Hlb Hi]. specialize (Hlb Hnd). lia. }
  erewrite Tx_bind_run by exact E.
  destruct (tx_fresh_claim_one _ _ _ _ _ _ _ _ _ _ Hf E) as [_ Hf1].
  destruct (IH (pre ++ [scanJob r]) d1 n1 (ys ++ [out])) as (outs & s' & E2); [..|done|].
  - by eapply claim_state_step.
  - etrans; [exact T|]. apply claim_one_ok in E as (r1 & aid & until & ev & p & Hr1 & _ & _ & _
      & _ & _ & ->). split; [done|]. cbn. apply insert_tame. cbn in Hr1. by rewrite Hr1.
  - erewrite Tx_bind_run by exact E2. by do 2 eexists.
Qed.
End ClaimRuns.

Lemma claim_run wid b ttl e w :
  healthy e -> db_ok (w_db w) -> well_kept (w_db w) -> fresh_run e (w_tick w) (w_db w) ->
  0 <= b -> exists out w', ClaimDueJobs wid b ttl e w = (Ok out, w').
Proof.
  intros He I Hk Hf Hb. unfold ClaimDueJobs. rewrite (with_tx_healthy _ He). unfold claim_body.
  destruct (Z.ltb_spec b 0); [lia|]. unfold tx_query.
  erewrite Tx_bind_run by (by rewrite (h_outcome _ He)).
  destruct (claim_each_run wid ttl e He (e_pgnow e (w_tick w)) (w_db w) Hk
    (select_due b (e_locked e (S (w_tick w))) (e_pgnow e (w_tick w)) (w_db w)) []
    (w_db w) (S (S (w_tick w))) []) as (out & [d' n'] & E).
  - by apply claim_state_start.
  - done.
  - by apply fresh_run_S, fresh_run_S.
  - rewrite E. by do 2 eexists.
Qed.
