(* ===== verification/Progress.v ===== *)
(** * The worker makes progress

    One tick of the worker's loop (recovery, claim, processing of the
    batch), end to end: a due job whose turn has come is claimed, run and
    recorded, whatever else is in the batch, and a job is run at most
    [max_retries - retry_count + 1] times before it has succeeded or is in
    the dead-letter queue. *)

From S2P Require Import Prelude GoRuntime Engine Sql Schema Effects Json Dto Rows Repository RepositoryFacts Invariant Preservation Auth Service Executor Lock Rfc3339 Registry Worker Scenario Safety AuthFacts Outbox OutboxFacts System Finalise Process Claim Framing.

Local Open Scope Z_scope.
Local Open Scope go_scope.

(** ** What a claim hands over *)

(** The job a worker carries for row [r]. *)
Definition carried (wid : string) (r : job_row) (j : Job) : Prop :=
  exists aid until, j = claimed_job wid aid until (scanJob r).

Section Claimed.
Context (wid : string) (b : Z) (ttl : Duration) (e : env) (He : healthy e).
Context (w w' : world) (out : list Job) (I : db_ok (w_db w)).
Context (Hf : fresh_run e (w_tick w') (w_db w')).
Context (Hrun : ClaimDueJobs wid b ttl e w = (Ok out, w')).

Let now := e_pgnow e (w_tick w).
Let due := due_rows (e_locked e (S (w_tick w))) now (w_db w).

Lemma claimed_state :
  claim_state wid ttl now (w_db w) (select_due b (e_locked e (S (w_tick w))) now (w_db w)) []
    (w_db w') out.
Proof.
  pose proof (h_others _ He (w_tick w) (w_db w)) as Ho.
  destruct (claim_run_state wid b ttl e w w' out) as [_ C]; [by rewrite Ho|done|].
  by rewrite Ho in C.
Qed.

(** What is handed over is in the batch once, with an open attempt. *)
Lemma claimed_attempts :
  Forall (fun j => attempt_of j (w_db w')) out /\
  Forall (fun j => j_ActiveAttemptID j <> uuid_Nil) out /\ NoDup (j_ID <$> out).
Proof.
  pose proof claimed_state as C. pose proof (cs_done _ _ _ _ _ _ _ _ C) as D.
  assert (Hids : j_ID <$> out = j_ID <$> select_due b (e_locked e (S (w_tick w))) now (w_db w)).
  { clear -D. induction D as [|j j' l l' (r & u & _ & _ & _ & E & _) _ IH]; [done|].
    cbn. rewrite IH. f_equal. by rewrite E. }
  split_and!.
  - apply Forall_forall. intros j' Hj'. destruct (Forall2_elem_of_r _ _ _ _ D Hj')
      as (j & _ & r & u & _ & _ & _ & E & Ha). eexists. split; [done|]. cbn. by rewrite E.
  - apply Forall_forall. intros j' Hj' Hnil. destruct (Forall2_elem_of_r _ _ _ _ D Hj')
      as (j & _ & r & u & _ & _ & _ & E & Ha). rewrite Hnil, (fr_nil _ _ _ Hf) in Ha. done.
  - rewrite Hids. by apply select_due_nodup.
Qed.

(** A job among the first [b] due rows is handed over. *)
Lemma claimed_turn k :
  k ∈ jr_id <$> take (Z.to_nat b) due ->
  exists r j, jobs (w_db w) !! k = Some r /\ claimable_status (jr_status r) = true /\
    j ∈ out /\ carried wid r j /\
    jobs (w_db w') !! k = Some (set_claimed wid (duration_seconds ttl) now r) /\
    exists a, job_attempts (w_db w') !! j_ActiveAttemptID j = Some a /\
              ar_status a = AttemptRunning.
Proof.
  intros Hk. pose proof claimed_state as C.
  assert (Hin : k ∈ j_ID <$> select_due b (e_locked e (S (w_tick w))) now (w_db w)).
  { unfold select_due, scanJobs, limit_offset. cbn [Z.to_nat]. rewrite drop_0, <- list_fmap_compose. done. }
  pose proof (cs_jobs _ _ _ _ _ _ _ _ C k) as HJ. rewrite decide_True in HJ by done.
  apply list_elem_of_fmap in Hin as (j0 & -> & Hj0).
  destruct (Forall2_elem_of_l _ _ _ _ (cs_done _ _ _ _ _ _ _ _ C) Hj0)
    as (j & Hj & r & u & Hr & -> & Hc & E & Ha).
  exists r, j. rewrite Hr in HJ. split_and!; [done..| |done|].
  - eexists _, u. exact E.
  - eexists. by split.
Qed.
End Claimed.

(** ** What processing leaves of the job's row *)

Definition recorded (e : env) (j : Job) (outcome : result string) (r' : job_row) : Prop :=
  match outcome with
  | Ok _ => jr_status r' = StatusSucceeded /\ jr_retry_count r' = j_RetryCount j
  | Err err =>
      jr_status r' = failure_status j err /\ jr_retry_count r' = j_RetryCount j + 1 /\
      jr_last_error r' = Some (er_Message (ClassifyError err)) /\
      (failure_status j err = StatusRetryScheduled ->
       exists n, jr_run_at r' = failure_run_at j err (e_time e n))
  end.

Lemma processed_row s j e outcome d d' r :
  processed s j e outcome d d' -> jobs d !! j_ID j = Some r ->
  jr_retry_count r = j_RetryCount j ->
  exists r', jobs d' !! j_ID j = Some r' /\ recorded e j outcome r' /\
             jr_max_retries r' = jr_max_retries r.
Proof.
  intros (d1 & (r0 & r1 & Hr0 & L & ->) & Hd) Hr Hrc. simplify_eq.
  assert (Hr1 : jobs (d <| jobs := <[j_ID j := r1]> (jobs d) |>) !! j_ID j = Some r1)
    by (cbn; apply lookup_insert_eq).
  assert (Hkeep : jr_retry_count r1 = jr_retry_count r0 /\
                  jr_max_retries r1 = jr_max_retries r0) by (by rewrite L).
  destruct Hkeep as [Hc Hm]. destruct outcome as [res|err].
  - destruct Hd as (ms & now & C).
    destruct (row_changed_lookup _ _ _ _ _ (co_job _ _ _ _ _ _ _ C) Hr1) as (r' & Hr' & S & Q & _ & Hst & _).
    exists r'. split; [done|]. unfold same_definition, same_retries in *. destruct_and!.
    split; [split; congruence|congruence].
  - destruct Hd as (o & ms & n & now & Ho & F).
    assert (Ho' : er_Message o = er_Message (ClassifyError err) /\
      outcome_status j o = failure_status j err).
    { pose proof (ClassifyError_classified err) as Hx. unfold classified in *.
      assert (Hr' : er_Message o = er_Message (ClassifyError err) /\
        er_Retryable o = er_Retryable (ClassifyError err))
        by (destruct (as_ExecutionError err); destruct_and!; split; congruence).
      destruct Hr' as [? Hr']. split; [done|]. unfold failure_status, outcome_status. by rewrite Hr'. }
    destruct Ho' as [Ho1 Ho2].
    destruct (row_changed_lookup _ _ _ _ _ (fl_job _ _ _ _ _ _ _ _ _ _ F) Hr1) as (r' & Hr' & HR).
    exists r'. split; [done|]. rewrite Ho1, Ho2 in HR.
    assert (Hst : failure_status j err = StatusDeadLettered \/ failure_status j err = StatusRetryScheduled)
      by (unfold failure_status, outcome_status; destruct (_ || _); auto).
    destruct Hst as [Hst|Hst]; rewrite Hst in HR; cbn in HR;
      destruct HR as ((S & _ & Hcount & Hle & _) & Hs & Hra); unfold same_definition in S; destruct_and! S;
      (split; [|congruence]); unfold recorded; rewrite Hst; split_and!; try done. by eauto.
Qed.

(** ** One tick of the loop *)

(** Recovery, claim and the batch, as in one iteration of [Run]. *)
Definition round (s : Worker) : M unit := run_loop 1 (fun _ => None) s.

Definition recovery : M Z := RecoverExpiredRunningJobs "worker lease expired before completion".

(** What a tick needs in order to attend to job [k]: the services answer
    and ids are fresh; when the claim runs, the job is among the first
    [batchSize] due rows; the lock manager grants its lock; and a retry
    would be scheduled at a time that can be printed. *)
Record attended (s : Worker) (k : UUID) (e : env) (w : world) : Prop := mk_attended {
  at_healthy : healthy e;
  at_fresh : fresh_run e (w_tick w) (w_db w);
  at_turn : let w1 := (recovery e w).2 in
    k ∈ jr_id <$> take (Z.to_nat (wk_batchSize s))
      (due_rows (e_locked e (S (w_tick w1))) (e_pgnow e (w_tick w1)) (w_db w1));
  at_lock : forall r j w', jobs (w_db w) !! k = Some r -> carried (wk_workerID s) r j ->
    (lm_Acquire (wk_lockManager s) (lock_key j) (wk_workerID s) (lease_ttl s j) e w').1 = Ok true;
  at_clock : forall r j err n, jobs (w_db w) !! k = Some r -> carried (wk_workerID s) r j ->
    executes s j e (Err err) -> json_year_ok (failure_run_at j err (e_time e n)) = true
}.

Section Round.
Context (s : Worker) `{!WorkerLaws s, !WorkerTicks s}.
Context (metrics_total : forall m e w, (wk_metrics s m e w).1 = Ok tt).
Context (Hb : 0 <= wk_batchSize s).
Context (e : env) (w : world) (I : db_ok (w_db w)) (Hk : well_kept (w_db w)).
Context (He : healthy e) (Hf : fresh_run e (w_tick w) (w_db w)).

Let Hr : rely e.
Proof. intros n d Hd. rewrite (h_others _ He). by apply reaches_refl. Qed.

(** The poll succeeds; after it the claim's results hold. *)
Lemma poll_run : exists out w1 w2,
  (recovery e w).2 = w1 /\ db_ok (w_db w1) /\ well_kept (w_db w1) /\
  ClaimDueJobs (wk_workerID s) (wk_batchSize s) (wk_lockTTL s) e w1 = (Ok out, w2) /\
  fresh_run e (w_tick w2) (w_db w2) /\ db_ok (w_db w2) /\ well_kept (w_db w2) /\
  exists w3, poll s e w = (Ok out, w3) /\ w_db w3 = w_db w2 /\ fresh_run e (w_tick w3) (w_db w3).
Proof.
  destruct (steps_recover "worker lease expired before completion" e w He Hf) as (_ & Hf1 & T1).
  destruct (RecoverExpiredRunningJobs_safe "worker lease expired before completion" e w Hr I
    Logic.I) as [R1 _].
  unfold recovery. destruct (RecoverExpiredRunningJobs _ e w) as [res w1] eqn:E1. cbn in *.
  pose proof (re_ok _ _ R1) as I1. pose proof (well_kept_tame _ _ T1 Hk) as Hk1.
  destruct (claim_run (wk_workerID s) (wk_batchSize s) (wk_lockTTL s) e w1 He I1 Hk1 Hf1 Hb)
    as (out & w2 & E2).
  destruct (steps_claim (wk_workerID s) (wk_batchSize s) (wk_lockTTL s) e w1 He Hf1)
    as (_ & Hf2 & T2).
  destruct (ClaimDueJobs_safe (wk_workerID s) (wk_batchSize s) (wk_lockTTL s) e w1 Hr I1 Logic.I)
    as [R2 _]. rewrite E2 in Hf2, T2, R2. cbn in Hf2, T2, R2.
  destruct (metric_run s e metrics_total (WorkerClaimed (Z.of_nat (length out))) w2)
    as (w3 & E3 & D3 & Ht3).
  exists out, w1, w2. split_and!; try done; [apply R2|by eapply well_kept_tame|].
  exists w3. split_and!; [|done|rewrite D3; by eapply fresh_run_le].
  unfold poll, mbind, M_bind, try. by rewrite E1, E2, E3.
Qed.

(** The batch is processed in order, whatever the outcomes. *)
Lemma consume_ok l w0 : (consume s l e w0).1 = Ok tt.
Proof.
  revert w0. induction l as [|j l IH]; intros w0; cbn; [done|].
  unfold mbind, M_bind, try. by destruct (ProcessJob s j e w0).
Qed.

Lemma consume_app l1 l2 w0 :
  (consume s (l1 ++ l2) e w0).2 = (consume s l2 e (consume s l1 e w0).2).2.
Proof.
  revert w0. induction l1 as [|j l1 IH]; intros w0; cbn; [done|].
  unfold mbind, M_bind, try. destruct (ProcessJob s j e w0) as [res w1]. apply IH.
Qed.

(** A claimed job is ready to be finalised, also after others of the batch
    have been processed. *)
Lemma claimed_ready n k r j d2 d3 :
  carried (wk_workerID s) r j -> jr_id r = k -> well_kept d2 ->
  (exists ttl now, jobs d2 !! k = Some (set_claimed (wk_workerID s) ttl now r)) ->
  (exists a, job_attempts d2 !! j_ActiveAttemptID j = Some a /\ ar_status a = AttemptRunning) ->
  attempt_of j d2 -> spares k d2 d3 -> fresh_run e n d3 ->
  ready e n j (wk_workerID s) d3.
Proof.
  intros (aid & until & Hj) Hid Hk2 (ttl & now & Hrow) (a & Ha & Hrun) (a' & Ha' & Haj) S [Hf3 _ _].
  assert (HjID : j_ID j = k) by (by rewrite Hj).
  assert (HjT : j_TenantID j = jr_tenant_id r) by (by rewrite Hj).
  simplify_eq. pose proof (sp_row _ _ _ S) as Hrow3. rewrite Hrow in Hrow3.
  destruct (sp_attempts _ _ _ S _ _ Ha) as (a3 & Ha3 & _ & Heq).
  rewrite Heq in Ha3 by congruence.
  split; [done|..].
  - rewrite HjT. apply (well_kept_tame _ _ (sp_tame _ _ _ S) Hk2 _ _ Hrow3).
  - by rewrite HjID, Hrow3, HjT.
  - rewrite owns_where, HjID, Hrow3, Ha3. apply andb_true_iff. split.
    + by apply owned_running_spec.
    + by apply running_attempt_spec.
Qed.

(** Processing the batch records an outcome for each of its jobs. *)
Lemma batch_run k r j out w3 :
  well_kept (w_db w3) -> fresh_run e (w_tick w3) (w_db w3) ->
  Forall (fun j => attempt_of j (w_db w3)) out ->
  Forall (fun j => j_ActiveAttemptID j <> uuid_Nil) out -> NoDup (j_ID <$> out) ->
  j ∈ out -> carried (wk_workerID s) r j -> jr_id r = k ->
  0 <= jr_retry_count r < 2 ^ 31 - 1 ->
  (exists ttl now, jobs (w_db w3) !! k = Some (set_claimed (wk_workerID s) ttl now r)) ->
  (exists a, job_attempts (w_db w3) !! j_ActiveAttemptID j = Some a /\
             ar_status a = AttemptRunning) ->
  (forall w', (lm_Acquire (wk_lockManager s) (lock_key j) (wk_workerID s) (lease_ttl s j) e w').1
              = Ok true) ->
  (forall n err, executes s j e (Err err) ->
                 json_year_ok (failure_run_at j err (e_time e n)) = true) ->
  exists outcome r', executes s j e outcome /\
    jobs (w_db (consume s out e w3).2) !! k = Some r' /\ recorded e j outcome r' /\
    jr_max_retries r' = jr_max_retries r.
Proof.
  intros Hk3 Hf3 Hat Hnil Hnd Hj Hcar Hid Hrc Hrow Hrun Hlock Hclock.
  assert (HjID : j_ID j = k) by (destruct Hcar as (? & ? & ->); by cbn).
  assert (Hjrc : j_RetryCount j = jr_retry_count r) by (by destruct Hcar as (? & ? & ->)).
  apply list_elem_of_split in Hj as (l1 & l2 & ->).
  rewrite fmap_app, fmap_cons in Hnd. apply NoDup_app in Hnd as (_ & Hn1 & [Hn2 _]%NoDup_cons).
  apply Forall_app in Hat as [Hat1 [Hatj Hat2]%Forall_cons].
  apply Forall_app in Hnil as [Hnil1 [Hnilj Hnil2]%Forall_cons].
  assert (Hl1 : Forall (fun j' => j_ID j' <> k /\ j_ActiveAttemptID j' <> uuid_Nil) l1).
  { apply Forall_and. split; [|done]. apply Forall_forall. intros j' Hj' E.
    apply (Hn1 (j_ID j')); [by apply list_elem_of_fmap_2|]. rewrite E, HjID. by left. }
  assert (Hl2 : Forall (fun j' => j_ID j' <> k /\ j_ActiveAttemptID j' <> uuid_Nil) l2).
  { apply Forall_and. split; [|done]. apply Forall_forall. intros j' Hj' E.
    apply Hn2. rewrite HjID, <- E. by apply list_elem_of_fmap_2. }
  rewrite consume_app.
  destruct (steps_consume s k l1 Hl1 e w3 He Hf3) as (_ & Hf4 & S1). specialize (S1 Hat1).
  set (w4 := (consume s l1 e w3).2) in *. clearbody w4.
  pose proof (claimed_ready (w_tick w4) k r j _ _ Hcar Hid Hk3 Hrow Hrun Hatj S1 Hf4) as Hready.
  cbn [consume]. unfold mbind, M_bind, try.
  assert (Hjrc' : 0 <= j_RetryCount j < 2 ^ 31 - 1) by lia.
  destruct (ProcessJob_run s j e He (w_tick w4) metrics_total Hjrc' Hclock true w4 Hready
    ltac:(done) Hnilj (Hlock w4)) as [Hok (outcome & Hx & HP)].
  assert (Hne : j_ID j <> (k + 1)%N) by lia.
  destruct (steps_process s (k + 1)%N j Hne Hnilj e w4 He Hf4) as (_ & Hf5 & S5).
  assert (Hat4 : Forall (fun j => attempt_of j (w_db w4)) (j :: l2)).
  { eapply Forall_impl; [exact (Forall_cons_2 (fun j => attempt_of j (w_db w3)) j l2 Hatj Hat2)|]. intros j'.
    by eapply attempt_of_spares. }
  apply Forall_cons in Hat4 as [Hatj4 Hat4]. specialize (S5 ltac:(by constructor)).
  destruct (ProcessJob s j e w4) as [res w5]. cbn in Hok, HP, Hf5, S5 |- *.
  destruct (steps_consume s k l2 Hl2 e w5 He Hf5) as (_ & _ & S6).
  destruct Hrow as (ttl & now & Hrow). rewrite <- (sp_row _ _ _ S1), <- HjID in Hrow.
  destruct (processed_row _ _ _ _ _ _ _ HP Hrow (eq_sym Hjrc)) as (r' & Hr' & Hrec & Hmax).
  exists outcome, r'. rewrite (sp_row k (w_db w5)); [by rewrite <- HjID|]. apply S6.
  eapply Forall_impl; [exact Hat4|]. intros j'. by eapply attempt_of_spares.
Qed.

(** The whole batch changes no tenant and no fixed part of a job. *)
Lemma batch_tame out w3 :
  fresh_run e (w_tick w3) (w_db w3) -> db_ok (w_db w3) ->
  Forall (fun j => attempt_of j (w_db w3)) out ->
  Forall (fun j => j_ActiveAttemptID j <> uuid_Nil) out ->
  tame (w_db w3) (w_db (consume s out e w3).2).
Proof.
  intros Hf3 I3 Hat Hnil. pose (k' := e_uuid e (w_tick w3)).
  destruct (steps_consume s k' out) with (e := e) (w := w3) as (_ & _ & S); [|done..|by apply S].
  apply Forall_and. split; [|done]. eapply Forall_impl; [exact Hat|].
  intros j (a & Ha & Hj) E. destruct (ok_attempts _ I3 _ _ Ha) as (_ & r & Hrow & _).
  rewrite Hj, E in Hrow. unfold k' in Hrow.
  by rewrite (proj1 (proj2 (proj2 (proj2 (fr_ids _ _ _ Hf3 _ (le_n _)))))) in Hrow.
Qed.

(** A tick that attends to the job. *)
Lemma round_run k r :
  jobs (w_db w) !! k = Some r -> jr_status r <> StatusRunning -> attended s k e w ->
  claimable_status (jr_status r) = true /\ (round s e w).1 = Ok tt /\
  reaches (w_db w) (w_db (round s e w).2) /\ well_kept (w_db (round s e w).2) /\
  exists j outcome r', carried (wk_workerID s) r j /\ executes s j e outcome /\
    jobs (w_db (round s e w).2) !! k = Some r' /\ recorded e j outcome r' /\
    jr_max_retries r' = jr_max_retries r.
Proof.
  intros Hrow Hs [_ _ Hturn Hlock Hclock]. cbv zeta in Hturn.
  destruct (run_loop_safe s 1 (fun _ => None) e w Hr I Logic.I) as [R _].
  destruct poll_run as (out & w1 & w2 & E1 & I1 & Hk1 & E2 & Hf2 & I2 & Hk2 & w3 & E3 & D3 & Hf3).
  pose proof (recover_row "worker lease expired before completion" e w k r He I Hrow Hs) as Hrow1.
  rewrite E1 in Hturn. unfold recovery in E1. rewrite E1 in Hrow1.
  destruct (claimed_turn _ _ _ _ He _ _ _ I1 E2 k Hturn)
    as (r0 & j & Hr0 & Hc & Hj & Hcar & Hclaimed & Hrun). simplify_eq.
  destruct (claimed_attempts _ _ _ _ He _ _ _ I1 Hf2 E2) as (Hat & Hnil & Hnd).
  rewrite <- D3 in Hat, Hclaimed, Hrun, Hk2, I2.
  destruct (ok_jobs _ I _ _ Hrow) as [Hid [_ _ Hbud Hlive _]].
  assert (Hmax := proj2 (Hk _ _ Hrow)).
  assert (Hround : round s e w = consume s out e w3).
  { unfold round, run_loop, mbind, M_bind, try. rewrite E3.
    pose proof (consume_ok out w3) as Hok. by destruct (consume s out e w3) as [[[]|] w4]. }
  unfold round in *. rewrite Hround in R |- *.
  split_and!; [done|apply consume_ok|done| |].
  - eapply well_kept_tame; [|exact Hk2]. by apply batch_tame.
  - assert (Hlive' : jr_retry_count r <= jr_max_retries r).
    { apply Hlive. apply claimable_status_spec in Hc. by destruct Hc as [->|[->| ->]]. }
    destruct (batch_run k r j out w3) as (outcome & r' & Hx & Hr' & Hrec & Hm); try done; eauto.
    + lia.
    + exists j, outcome, r'. done.
Qed.
End Round.

(** ** Until the job is done *)

Definition finished (st : Status) : Prop := st = StatusSucceeded \/ st = StatusDeadLettered.

(** [n] ticks of the worker that attend to job [k], each in an environment
    of its own, with other processes acting between them on anything but
    [k]. *)
Inductive rounds (s : Worker) (k : UUID) : nat -> world -> world -> Prop :=
| rounds_none w : rounds s k 0 w w
| rounds_tick n e w w' :
    attended s k e w -> rounds s k n (round s e w).2 w' -> rounds s k (S n) w w'
| rounds_others n w w1 w' :
    reaches (w_db w) (w_db w1) -> well_kept (w_db w1) ->
    jobs (w_db w1) !! k = jobs (w_db w) !! k ->
    rounds s k n w1 w' -> rounds s k n w w'.

Lemma not_running st : claimable_status st = true \/ finished st -> st <> StatusRunning.
Proof.
  intros [Hc|[->| ->]]; [|done..]. apply claimable_status_spec in Hc.
  by destruct Hc as [->|[->| ->]].
Qed.

(** The row after one attempt: finished, or due again with one retry less. *)
Lemma recorded_cases wid e j r outcome r' :
  carried wid r j -> recorded e j outcome r' -> jr_max_retries r' = jr_max_retries r ->
  finished (jr_status r') \/
  (claimable_status (jr_status r') = true /\ jr_retry_count r' = jr_retry_count r + 1 /\
   jr_retry_count r' <= jr_max_retries r').
Proof.
  intros (aid & until & ->) Hrec Hm. destruct outcome as [res|err].
  - destruct Hrec as [-> _]. by left; left.
  - destruct Hrec as (-> & -> & _). unfold failure_status, outcome_status. cbn [j_MaxRetries j_RetryCount].
    destruct (_ || _) eqn:E; [by left; right|]. right. apply orb_false_iff in E as [E _].
    apply Z.leb_gt in E. cbn in E |- *. split_and!; [done|done|lia].
Qed.

Section Rounds.
Context (s : Worker) `{!WorkerLaws s, !WorkerTicks s}.
Context (metrics_total : forall m e w, (wk_metrics s m e w).1 = Ok tt).
Context (Hb : 0 <= wk_batchSize s).

(** A finished job is not attended to. *)
Lemma finished_unattended k e w r :
  db_ok (w_db w) -> well_kept (w_db w) -> jobs (w_db w) !! k = Some r ->
  finished (jr_status r) -> ~ attended s k e w.
Proof.
  intros I Hk Hr Hfin A. destruct (round_run s metrics_total Hb e w I Hk (at_healthy _ _ _ _ A)
    (at_fresh _ _ _ _ A) k r Hr (not_running _ (or_intror Hfin)) A) as [Hc _].
  apply claimable_status_spec in Hc. destruct Hfin; intuition congruence.
Qed.

Lemma rounds_finished k n w w' r :
  rounds s k n w w' -> db_ok (w_db w) -> well_kept (w_db w) ->
  jobs (w_db w) !! k = Some r -> finished (jr_status r) ->
  n = 0%nat /\ jobs (w_db w') !! k = Some r.
Proof.
  induction 1 as [w|n e w w' A _ _|n w w1 w' R Hk1 Hrow _ IH]; intros I Hk Hr Hfin; [done|..].
  - by destruct (finished_unattended k e w r I Hk Hr Hfin).
  - apply IH; [apply R|done|congruence|done].
Qed.

Lemma rounds_run k n w w' r :
  rounds s k n w w' -> db_ok (w_db w) -> well_kept (w_db w) ->
  jobs (w_db w) !! k = Some r -> claimable_status (jr_status r) = true ->
  Z.of_nat n <= jr_max_retries r - jr_retry_count r + 1 /\
  exists r', jobs (w_db w') !! k = Some r' /\
    (finished (jr_status r') \/
     (claimable_status (jr_status r') = true /\
      jr_retry_count r' = jr_retry_count r + Z.of_nat n /\
      jr_retry_count r' <= jr_max_retries r)).
Proof.
  intros Hrs. revert r.
  induction Hrs as [w|n e w w' A Hrs IH|n w w1 w' R Hk1 Hrow _ IH]; intros r I Hk Hr Hc.
  - destruct (ok_jobs _ I _ _ Hr) as [_ [_ _ _ Hlive _]].
    assert (Hle : jr_retry_count r <= jr_max_retries r).
    { apply Hlive. apply claimable_status_spec in Hc. by destruct Hc as [->|[->| ->]]. }
    split; [lia|]. exists r. split; [done|]. right. split_and!; [done|lia|done].
  - destruct (round_run s metrics_total Hb e w I Hk (at_healthy _ _ _ _ A)
      (at_fresh _ _ _ _ A) k r Hr (not_running _ (or_introl Hc)) A)
      as (_ & _ & R1 & Hk1 & j & outcome & r1 & Hcar & _ & Hr1 & Hrec & Hm).
    destruct (recorded_cases _ _ _ _ _ _ Hcar Hrec Hm) as [Hfin|(Hc1 & Hn1 & Hle1)].
    + destruct (rounds_finished _ _ _ _ _ Hrs (re_ok _ _ R1) Hk1 Hr1 Hfin) as [-> Hr'].
      destruct (ok_jobs _ I _ _ Hr) as [_ [_ _ _ Hlive _]].
      assert (Hle : jr_retry_count r <= jr_max_retries r).
      { apply Hlive. apply claimable_status_spec in Hc. by destruct Hc as [->|[->| ->]]. }
      split; [lia|]. exists r1. by split; [|left].
    + destruct (IH r1 (re_ok _ _ R1) Hk1 Hr1 Hc1) as (Hn & r' & Hr' & Hcase).
      split; [lia|]. exists r'. split; [done|]. destruct Hcase as [|(? & ? & ?)]; [by left|].
      right. split_and!; [done|lia|lia].
  - apply IH; [apply R|done|congruence|done].
Qed.
End Rounds.

(** ** The theorems *)

(** C6. One tick of the worker's loop, end to end.  The services answer;
    the job is not RUNNING and, when the claim of this tick runs, it is
    among the first [batchSize] due rows; the lock manager grants its
    lock.  Then, whatever expired leases the tick recovers, whatever else
    is in the batch and however those jobs end, the tick succeeds, the
    executor is called for the job as it was claimed, and what it answers
    is recorded: SUCCEEDED, or RETRY_SCHEDULED with one retry more at the
    time the backoff or the target asks for, or DEAD_LETTERED when the
    budget is spent or the error is permanent. *)
Theorem worker_tick_spec s k e w r :
  WorkerLaws s -> WorkerTicks s -> (forall m e w, (wk_metrics s m e w).1 = Ok tt) ->
  0 <= wk_batchSize s -> db_ok (w_db w) -> well_kept (w_db w) ->
  jobs (w_db w) !! k = Some r -> jr_status r <> StatusRunning -> attended s k e w ->
  (round s e w).1 = Ok tt /\
  exists j outcome r', carried (wk_workerID s) r j /\ executes s j e outcome /\
    jobs (w_db (round s e w).2) !! k = Some r' /\ recorded e j outcome r'.
Proof.
  intros L T Hm Hb I Hk Hr Hs A.
  destruct (round_run s Hm Hb e w I Hk (at_healthy _ _ _ _ A) (at_fresh _ _ _ _ A) k r Hr Hs A)
    as (_ & Hok & _ & _ & j & outcome & r' & Hcar & Hx & Hr' & Hrec & _).
  split; [done|]. by exists j, outcome, r'.
Qed.

(** C5. Every job finishes.  A job that is PENDING, SCHEDULED or
    RETRY_SCHEDULED is attended to by the worker at most
    [max_retries - retry_count + 1] times, whatever the executor answers
    and whatever other processes do between the ticks to anything else:
    after [n] such ticks it has SUCCEEDED or is DEAD_LETTERED, or it waits
    for its next run with [n] of its retries used up and some left. *)
Theorem job_finishes s k n w w' r :
  WorkerLaws s -> WorkerTicks s -> (forall m e w, (wk_metrics s m e w).1 = Ok tt) ->
  0 <= wk_batchSize s -> db_ok (w_db w) -> well_kept (w_db w) ->
  jobs (w_db w) !! k = Some r -> claimable_status (jr_status r) = true ->
  rounds s k n w w' ->
  Z.of_nat n <= jr_max_retries r - jr_retry_count r + 1 /\
  exists r', jobs (w_db w') !! k = Some r' /\
    (finished (jr_status r') \/
     (claimable_status (jr_status r') = true /\
      jr_retry_count r' = jr_retry_count r + Z.of_nat n /\
      jr_retry_count r' <= jr_max_retries r)).
Proof. intros L T Hm Hb I Hk Hr Hc Hrs. by apply (rounds_run s Hm Hb k n w w'). Qed.

(** ** Witnesses: a job that fails until its budget is spent *)

(** A healthy environment at time [t] whose ids start at [base]. *)
Definition env_at (base : N) (t : Time) : env :=
  {| e_uuid := fun n => (base + N.of_nat n)%N;
     e_time := fun _ => t;
     e_pgnow := fun _ => t;
     e_redisnow := fun _ => t;
     e_outcome := fun _ => Applied;
     e_others := fun _ d => d;
     e_redis_others := fun _ r => r;
     e_renewals := fun _ => 2%nat;
     e_locked := fun _ _ => false;
     e_rank := fun _ u => Z.of_N u;
     e_rows := fun _ => 0%nat |}.

Lemma env_at_healthy base t : healthy (env_at base t).
Proof. by split. Qed.

Lemma env_at_fresh base t n d :
  (0 < base)%N -> ids_below base d = true -> job_attempts d !! uuid_Nil = None ->
  fresh_run (env_at base t) n d.
Proof.
  intros Hb Hids Hnil. split; [|intros m; cbn; unfold uuid_Nil; lia|done].
  revert Hids. unfold ids_below. rewrite !forallb_app, !andb_true_iff.
  intros (H1 & H2 & H3 & H4) m Hm. cbn.
  split_and!; try (eapply below_fresh; [done|lia]). intros m' Hm'. lia.
Qed.

(** A worker without Redis whose executor always fails. *)
Definition failing : Worker := worker_with executor_err noopLockManager.

#[local] Instance failing_laws : WorkerLaws failing.
Proof. by split; [apply _|..]. Qed.

#[local] Instance failing_ticks : WorkerTicks failing.
Proof.
  split; cbn; [apply forward_metric|intros; apply forward_fail|intros; apply forward_ret..|done].
Qed.

Definition tick1 : env := env_at 10000 (clock0 10).
Definition tick2 : env := env_at 20000 (clock0 100000).
Definition round1 : world := (round failing tick1 created).2.
Definition round2 : world := (round failing tick2 round1).2.

Example rounds_example :
  (jr_status <$> jobs (w_db created) !! 100%N) = Some StatusPending /\
  (jr_status <$> jobs (w_db round1) !! 100%N) = Some StatusRetryScheduled /\
  (jr_status <$> jobs (w_db round2) !! 100%N) = Some StatusDeadLettered.
Proof. vm_compute. done. Qed.

Lemma created_kept : well_kept (w_db created).
Proof.
  apply (bool_decide_unpack (map_Forall (fun (_ : UUID) r =>
    has_tenant (w_db created) (jr_tenant_id r) = true /\ jr_max_retries r < 2 ^ 31 - 1)
    (jobs (w_db created)))). by vm_compute.
Qed.

(** The executor of [failing] fails with the same error for every job. *)
Lemma failing_attended e w k :
  healthy e -> fresh_run e (w_tick w) (w_db w) ->
  (let w1 := (recovery e w).2 in
   k ∈ jr_id <$> take 10
      (due_rows (e_locked e (S (w_tick w1))) (e_pgnow e (w_tick w1)) (w_db w1))) ->
  (forall r n, jobs (w_db w) !! k = Some r ->
     json_year_ok (failure_run_at (scanJob r) (ErrorString "boom") (e_time e n)) = true) ->
  attended failing k e w.
Proof.
  intros He Hf Ht Hy. split; [done..|].
  intros r j err n Hr (aid & until & ->) (c & w' & [= <-]). by apply (Hy r n).
Qed.

Lemma checked_row {V} (P : V -> bool) (o : option V) :
  match o with Some v => P v | None => true end = true -> forall v, o = Some v -> P v = true.
Proof. by intros H v ->. Qed.

Lemma tick_attended base t w :
  (0 < base)%N -> ids_below base (w_db w) = true -> job_attempts (w_db w) !! uuid_Nil = None ->
  (let w1 := (recovery (env_at base t) w).2 in
   100%N ∈ jr_id <$> take 10 (due_rows (fun _ => false) t (w_db w1))) ->
  match jobs (w_db w) !! 100%N with
  | Some r => json_year_ok (failure_run_at (scanJob r) (ErrorString "boom") t)
  | None => true
  end = true ->
  attended failing 100%N (env_at base t) w.
Proof.
  intros Hb Hids Hnil Hturn Hy. apply failing_attended; [apply env_at_healthy| |done|].
  - by apply env_at_fresh.
  - intros r n. cbn [e_time env_at]. apply (checked_row _ _ Hy).
Qed.

Lemma tick1_attended : attended failing 100%N tick1 created.
Proof.
  apply tick_attended; [done|vm_compute; reflexivity..| |vm_compute; reflexivity].
  apply (bool_decide_unpack _). vm_compute. exact Logic.I.
Qed.

Lemma tick2_attended : attended failing 100%N tick2 round1.
Proof.
  apply tick_attended; [done|vm_compute; reflexivity..| |vm_compute; reflexivity].
  apply (bool_decide_unpack _). vm_compute. exact Logic.I.
Qed.

Definition created_row : job_row := default (job_insert_row new0 0) (jobs (w_db created) !! 100%N).

Lemma created_row_eq : jobs (w_db created) !! 100%N = Some created_row.
Proof. vm_compute. reflexivity. Qed.

Lemma worker_tick_spec_witness :
  (round failing tick1 created).1 = Ok tt /\
  exists j outcome r', carried "w1" created_row j /\ executes failing j tick1 outcome /\
    jobs (w_db (round failing tick1 created).2) !! 100%N = Some r' /\
    recorded tick1 j outcome r'.
Proof.
  apply (worker_tick_spec failing 100%N tick1 created created_row failing_laws failing_ticks
    (fun _ _ _ => eq_refl) ltac:(done) created_ok created_kept created_row_eq);
    [by vm_compute|apply tick1_attended].
Defined.

Lemma job_finishes_witness :
  2 <= jr_max_retries created_row - jr_retry_count created_row + 1 /\
  exists r', jobs (w_db round2) !! 100%N = Some r' /\
    (finished (jr_status r') \/
     (claimable_status (jr_status r') = true /\
      jr_retry_count r' = jr_retry_count created_row + 2 /\
      jr_retry_count r' <= jr_max_retries created_row)).
Proof.
  apply (job_finishes failing 100%N 2 created round2 created_row failing_laws failing_ticks
    (fun _ _ _ => eq_refl) ltac:(done) created_ok created_kept created_row_eq);
    [by vm_compute|].
  apply (rounds_tick _ _ _ tick1); [apply tick1_attended|].
  apply (rounds_tick _ _ _ tick2); [apply tick2_attended|]. apply rounds_none.
Defined.
