(* ===== verification/Lifecycle.v ===== *)
(** * Operator actions

    [Cancel], [Pause], [Resume], [Retry] and requeueing through the job
    service: every branch, the fencing of cancelled work, and what cannot
    happen. *)

From S2P Require Import Prelude GoRuntime Engine Sql Schema Effects Json Dto Rows Repository RepositoryFacts Invariant Preservation Auth Service Executor Lock Rfc3339 Registry Worker Scenario Safety System Finalise.

Local Open Scope Z_scope.
Local Open Scope go_scope.

(** ** Reading one job *)

(** The one row [GetByID] can find. *)
Definition visible (d : Db) (tenant id : UUID) : option job_row :=
  match jobs d !! id with
  | Some r => if bool_decide (jr_tenant_id r = tenant) then Some r else None
  | None => None
  end.

Lemma select_one d tenant id :
  db_ok d ->
  select_where (fun r => bool_decide (jr_tenant_id r = tenant) &&
                         bool_decide (jr_id r = id)) (jobs d) =
  match visible d tenant id with Some r => [r] | None => [] end.
Proof.
  intros I. set (P := fun r : job_row => _).
  assert (Hall : forall r, r ∈ select_where P (jobs d) <-> visible d tenant id = Some r).
  { intros r. rewrite elem_of_select_where. unfold P, visible. split.
    - intros [HP [k Hk]]. bool_prop. destruct (ok_jobs _ I _ _ Hk) as [E _]. subst.
      rewrite Hk. by rewrite bool_decide_eq_true_2.
    - destruct (jobs d !! id) as [r0|] eqn:Hr; [|done]. case_bool_decide; [|done].
      intros ?; simplify_eq. destruct (ok_jobs _ I _ _ Hr) as [E _].
      split; [|eauto]. by rewrite !bool_decide_eq_true_2. }
  pose proof (select_where_nodup jr_id P (jobs d)
    (fun k v Hk => proj1 (ok_jobs _ I _ _ Hk))) as ND.
  destruct (select_where P (jobs d)) as [|r1 [|r2 l]].
  - destruct (visible d tenant id) as [r|]; [|done].
    assert (Hin : r ∈ []) by (by apply Hall). by apply not_elem_of_nil in Hin.
  - assert (Hv : visible d tenant id = Some r1) by (apply Hall; left). by rewrite Hv.
  - exfalso. assert (E1 : visible d tenant id = Some r1) by (apply Hall; left).
    assert (E2 : visible d tenant id = Some r2) by (apply Hall; right; left).
    rewrite E1 in E2. injection E2 as <-. cbn in ND. apply NoDup_cons in ND as [ND _].
    apply ND. left.
Qed.

Lemma GetByID_healthy e tenant id w :
  healthy e -> db_ok (w_db w) ->
  GetByID tenant id e w =
  (match visible (w_db w) tenant id with
   | Some r => Ok (scanJob r) | None => Err ErrNotFound end,
   w <| w_tick := S (w_tick w) |>).
Proof.
  intros H I. unfold GetByID, mbind, M_bind, try. rewrite (pool_query_healthy _ H).
  rewrite (select_one _ _ _ I). destruct (visible _ _ _); [done|].
  cbn [first_row fmap list_fmap]. by rewrite errors_Is_refl.
Qed.

(** ** Transitions *)

(** What a committed transition leaves: the job in its new state and
    unleased, by a cancellation every RUNNING attempt of it closed, one
    event, and nothing else. *)
Record transitioned (tenant id : UUID) (to : Status) (now : Time) (d d' : Db) : Prop :=
  mk_transitioned {
  tn_job : row_changed (moved_row to now) id (jobs d) (jobs d');
  tn_attempts : forall i, match job_attempts d !! i with
    | None => job_attempts d' !! i = None
    | Some a => exists a', job_attempts d' !! i = Some a' /\
        if bool_decide (to = StatusCancelled /\ ar_job_id a = id /\ ar_status a = AttemptRunning)
        then cancelled_attempt now a a' else a' = a
    end;
  tn_event : row_added (fun ev => recorded_event ev id tenant
               match to with
               | StatusCancelled => "job.cancelled"
               | StatusPaused => "job.paused"
               | StatusScheduled => "job.scheduled"
               | _ => "job.retry_scheduled"
               end "scheduler-api" [("status", JStr (status_string to))] now)
               (job_events d) (job_events d');
  tn_dead : dead_letter_jobs d' = dead_letter_jobs d;
  tn_accounts : same_accounts d d'
}.

(** The same with the repository's own updates. *)
Definition transitioned_db (tenant id : UUID) (to : Status) (ev : UUID) (now : Time)
    (d : Db) : Db :=
  d <| jobs := alter (set_transition to now) id (jobs d) |>
    <| job_attempts := if bool_decide (to = StatusCancelled)
                       then (update_where (running_attempt_of id)
                               (set_attempt_cancelled now) (job_attempts d)).1
                       else job_attempts d |>
    <| job_events := <[ev := new_event_row ev (job_ref id tenant)
         ("job." +:+ ToLower (status_string to)) "scheduler-api"
         [("status", JStr (status_string to))] now]> (job_events d) |>.

Lemma transition_body_run e tenant id from to now d n r :
  healthy e -> fresh_ids e n d -> has_tenant d tenant = true ->
  visible d tenant id = Some r -> jr_status r ∈ from ->
  exists ev n', job_events d !! ev = None /\ transition_body tenant id from to e now (d, n) =
                (Ok tt, (transitioned_db tenant id to ev now d, n')).
Proof.
  intros H Hf Hten Hv Hs. unfold visible in Hv.
  destruct (jobs d !! id) as [r0|] eqn:Hr; [|done]. case_bool_decide; [|done]. simplify_eq.
  unfold transition_body. erewrite Tx_bind_run by (by apply tx_update_jobs_healthy).
  rewrite (update_where_key _ _ _ _ _ Hr).
  2:{ by rewrite !bool_decide_eq_true_2. }
  2:{ intros k v Hk. by bool_prop. }
  cbn. rewrite Tx_bind_ret. unfold transitioned_db. rewrite (alter_insert _ _ _ _ Hr).
  case_bool_decide.
  - exists (e_uuid e (S (S n))). eexists. split; [apply (Hf (S (S n))); lia|]. erewrite Tx_bind_run.
    2:{ erewrite Tx_bind_run by (by apply tx_update_attempts_healthy). done. }
    erewrite (insertJobEvent_healthy e H); try done. apply (Hf (S (S n))). lia.
  - exists (e_uuid e (S n)). eexists. split; [apply (Hf (S n)); lia|]. rewrite Tx_bind_ret.
    erewrite (insertJobEvent_healthy e H); try done. apply (Hf (S n)). lia.
Qed.

Lemma transitioned_db_spec tenant id from to ev now d r :
  operator_transition from to -> visible d tenant id = Some r -> job_events d !! ev = None ->
  transitioned tenant id to now d (transitioned_db tenant id to ev now d).
Proof.
  intros Hop Hv Hev. unfold visible in Hv. destruct (jobs d !! id) as [r0|] eqn:Hr; [|done].
  clear Hv. split; [| | |done|done]; unfold transitioned_db; cbn.
  - apply (row_altered _ _ _ _ _ Hr). unfold moved_row, set_transition. cbn.
    split_and!; try done; intros; by case_bool_decide.
  - intros i. destruct (job_attempts d !! i) as [a|] eqn:Ha; case_bool_decide as Hc.
    + rewrite lookup_update_where, Ha. cbn. eexists. split; [done|]. unfold running_attempt_of.
      destruct (decide (ar_job_id a = id /\ ar_status a = AttemptRunning)) as [[E1 E2]|Hn].
      * by rewrite !bool_decide_eq_true_2.
      * rewrite (bool_decide_eq_false_2 (to = _ /\ _)) by naive_solver.
        assert (E : bool_decide (ar_job_id a = id) && bool_decide (ar_status a = AttemptRunning) = false).
        { by rewrite <- bool_decide_and, bool_decide_eq_false_2. }
        by rewrite E.
    + exists a. split; [done|]. rewrite bool_decide_eq_false_2; [done|]. naive_solver.
    + by rewrite lookup_update_where, Ha.
    + done.
  - apply row_inserted; [done|]. destruct Hop as [[-> _]|[[-> _]|[[-> _]|[-> _]]]]; done.
Qed.

(** C28. An operator's transition in a healthy environment: for a job of the
    caller's tenant in one of the allowed states the row moves to the
    target state and loses its lease, a cancellation also dates it and
    closes every RUNNING attempt as cancelled, and the event is stored, all
    at once and nothing else; a job in
    another state is refused as an invalid transition, a job the tenant
    cannot see as not found, and then nothing changes. *)
Theorem transition_spec e ctx id from to w :
  let tenant := pr_TenantID (PrincipalOrDefault ctx) in
  healthy e -> db_ok (w_db w) -> fresh_ids e (w_tick w) (w_db w) ->
  has_tenant (w_db w) tenant = true -> operator_transition from to ->
  let out := transition ctx id to from e w in
  match visible (w_db w) tenant id with
  | None => out.1 = Err ErrNotFound /\ w_db out.2 = w_db w
  | Some r =>
      if bool_decide (jr_status r ∈ from)
      then out.1 = Ok tt /\
           transitioned tenant id to (e_pgnow e (S (w_tick w))) (w_db w) (w_db out.2)
      else (exists err, out.1 = Err err /\ errors_Is err ErrInvalidTransition = true) /\
           w_db out.2 = w_db w
  end.
Proof.
  cbv zeta. intros H I Hf Hten Hop. unfold transition, mbind, M_bind.
  rewrite (GetByID_healthy _ _ _ _ H I).
  destruct (visible (w_db w) _ id) as [r|] eqn:Hv; [|done].
  cbn [j_Status scanJob]. destruct (bool_decide (jr_status r ∈ from)) eqn:Hs; cbn [negb orb].
  2:{ split; [|done]. eexists. split; [done|]. by vm_compute. }
  apply bool_decide_eq_true in Hs.
  assert (Hcan : CanTransition (status_string (jr_status r)) (status_string to) = true).
  { destruct Hop as [[-> ->]|[[-> ->]|[[-> ->]|[-> ->]]]];
      repeat (apply elem_of_cons in Hs as [->|Hs]; [by vm_compute|]);
      by apply not_elem_of_nil in Hs. }
  rewrite Hcan. cbn [negb]. unfold TransitionJob. rewrite (with_tx_healthy _ H).
  destruct (transition_body_run e (pr_TenantID (PrincipalOrDefault ctx)) id from to
    (e_pgnow e (S (w_tick w))) (w_db w) (S (S (w_tick w))) r H) as (ev & n' & Hev & Hrun);
    [by do 2 apply fresh_ids_S|done|done|done|].
  cbn [w_db w_tick upd upd_w_tick]. rewrite Hrun. cbn. split; [done|].
  by eapply transitioned_db_spec.
Qed.

(** Cancelling the claimed job of the scenario; resuming it is refused. *)
Lemma transition_spec_witness :
  (let out := Cancel None 100%N env0 claimed in
   out.1 = Ok tt /\
   transitioned DefaultTenantID 100%N StatusCancelled (e_pgnow env0 (S (w_tick claimed)))
     (w_db claimed) (w_db out.2)) /\
  (let out := Resume None 100%N env0 claimed in
   (exists err, out.1 = Err err /\ errors_Is err ErrInvalidTransition = true) /\
   w_db out.2 = w_db claimed).
Proof.
  assert (Hf : fresh_ids env0 (w_tick claimed) (w_db claimed))
    by (apply env0_fresh; vm_compute; reflexivity).
  assert (Hv : exists r, visible (w_db claimed) DefaultTenantID 100%N = Some r /\
                         jr_status r = StatusRunning).
  { eexists. split; vm_compute; reflexivity. }
  assert (Hten : has_tenant (w_db claimed) (pr_TenantID (PrincipalOrDefault None)) = true)
    by (vm_compute; reflexivity).
  destruct Hv as (r & Hv & Hs). split.
  - pose proof (transition_spec env0 None 100%N
      [StatusPending; StatusScheduled; StatusRetryScheduled; StatusRunning] StatusCancelled
      claimed env0_healthy (sk_db _ claimed_ok) Hf Hten
      (or_introl (conj eq_refl eq_refl))) as X.
    cbv zeta in X. change (pr_TenantID (PrincipalOrDefault None)) with DefaultTenantID in X.
    rewrite Hv, Hs in X. exact X.
  - pose proof (transition_spec env0 None 100%N [StatusPaused] StatusScheduled
      claimed env0_healthy (sk_db _ claimed_ok) Hf Hten
      (or_intror (or_intror (or_introl (conj eq_refl eq_refl))))) as X.
    cbv zeta in X. change (pr_TenantID (PrincipalOrDefault None)) with DefaultTenantID in X.
    rewrite Hv, Hs in X. exact X.
Defined.

(** C21. Cancellation fences the worker, in any environment: once a
    cancellation of a job has been committed, no attempt of it is RUNNING,
    its lease is gone, and from then on, whatever else happens, a worker
    that still carries one of its attempts can neither complete nor fail
    it. *)
Theorem cancel_fences tenant id e w w' j wid dur res o ns rc ra e2 w2 :
  db_ok (e_others e (w_tick w) (w_db w)) ->
  TransitionJob tenant id
    [StatusPending; StatusScheduled; StatusRetryScheduled; StatusRunning]
    StatusCancelled e w = (Ok tt, w') ->
  in_flight (w_db w') j -> j_ID j = id ->
  reaches (w_db w') (w_db w2) -> (forall n d, e_others e2 n d = d) ->
  no_running_attempt (w_db w') id /\
  (exists r, jobs (w_db w') !! id = Some r /\ jr_status r = StatusCancelled /\
             jr_locked_by r = None) /\
  (exists err, (CompleteExecution j wid dur res e2 w2).1 = Err err) /\
  w_db (CompleteExecution j wid dur res e2 w2).2 = w_db w2 /\
  (exists err, (FailExecution j wid dur o ns rc ra e2 w2).1 = Err err) /\
  w_db (FailExecution j wid dur o ns rc ra e2 w2).2 = w_db w2.
Proof.
  intros I H (r0 & a0 & _ & _ & _ & _ & Ha0 & Hj0) <- R He.
  apply with_tx_ok in H as (n' & Hb & _). cbv zeta in Hb.
  apply transition_body_ok in Hb as (r & ev & Hr & _ & _ & _ & HJ & HA & _).
  rewrite bool_decide_eq_true_2 in HA by done.
  assert (Hno : no_running_attempt (w_db w') (j_ID j)).
  { intros i a. rewrite HA, lookup_update_where.
    destruct (job_attempts _ !! i) as [a1|]; [|done]. unfold running_attempt_of.
    intros [= <-]. repeat case_bool_decide; cbn; done. }
  split; [done|]. split.
  { rewrite HJ, lookup_insert_eq. eexists. by split_and!. }
  assert (Hc : closed_attempt (w_db w2) (j_ActiveAttemptID j)).
  { apply (closed_attempt_stable _ _ _ R). exists a0. split; [done|]. by eapply Hno. }
  pose proof (closed_refused j wid dur res o ns rc ra e2 w2 Hc He) as H4. cbv zeta in H4.
  by destruct_and! H4; split_and!.
Qed.

Lemma cancel_fences_witness :
  let cancelled := (TransitionJob DefaultTenantID 100%N
    [StatusPending; StatusScheduled; StatusRetryScheduled; StatusRunning]
    StatusCancelled env0 claimed).2 in
  no_running_attempt (w_db cancelled) 100%N /\
  (exists err, (CompleteExecution job1 "w1" Second "{}" env0 cancelled).1 = Err err) /\
  (exists err, (FailExecution job1 "w1" Second result0 StatusRetryScheduled 1 0 env0
                  cancelled).1 = Err err).
Proof.
  set (out := TransitionJob DefaultTenantID 100%N
    [StatusPending; StatusScheduled; StatusRetryScheduled; StatusRunning]
    StatusCancelled env0 claimed).
  assert (H : out = (Ok tt, out.2)).
  { assert (E : out.1 = Ok tt) by (vm_compute; reflexivity).
    rewrite <- E. apply surjective_pairing. }
  assert (R : reaches (w_db claimed) (w_db out.2)).
  { exact (proj1 (TransitionJob_safe DefaultTenantID 100%N _ StatusCancelled
      (or_introl (conj eq_refl eq_refl)) env0 claimed rely0 (sk_db _ claimed_ok) Logic.I)). }
  assert (F : in_flight (w_db out.2) job1).
  { apply (in_flight_evolves _ _ _ (re_evolves _ _ R)), (sk_flight _ claimed_ok "w1").
    by left. }
  destruct (cancel_fences DefaultTenantID 100%N env0 claimed out.2 job1 "w1" Second "{}"
    result0 StatusRetryScheduled 1 0 env0 out.2 (sk_db _ claimed_ok) H F ltac:(vm_compute; reflexivity)
    (reaches_refl _ (re_ok _ _ R)) (fun _ _ => eq_refl)) as (H1 & _ & H3 & _ & H4 & _).
  exact (conj H1 (conj H3 H4)).
Defined.

(** The manual retry of a failed job never succeeds: no operation ever
    puts a job into FAILED, the only state [Retry] accepts, so in every
    environment that keeps the invariant it answers an error and changes
    nothing itself. *)
Theorem Retry_never_succeeds ctx id e w :
  rely e -> db_ok (w_db w) ->
  (exists err, (Retry ctx id e w).1 = Err err) /\
  w_db (Retry ctx id e w).2 = e_others e (w_tick w) (w_db w).
Proof.
  intros He I. unfold Retry, transition, GetByID, mbind, M_bind, try.
  set (q := pool_query _).
  pose proof (pool_query_db (fun (rank : UUID -> Z) (now : Time) d => first_row (scanJob <$>
    select_where (fun r => bool_decide (jr_tenant_id r = pr_TenantID (PrincipalOrDefault ctx))
      && bool_decide (jr_id r = id)) (jobs d))) e w) as Hd.
  fold q in Hd. destruct (q e w) as [[j|err] w1] eqn:Eq; cbn [snd] in Hd.
  2:{ cbn. destruct (errors_Is err ErrNoRows); cbn; split; eauto. }
  apply pool_query_ok in Eq as [Eq _].
  assert (Hnf : j_Status j <> StatusFailed).
  { pose proof (He (w_tick w) _ I) as [I0 _ _].
    rewrite (select_one _ _ _ I0) in Eq. unfold visible in Eq.
    destruct (jobs _ !! id) as [r|] eqn:Hr; [|discriminate].
    case_bool_decide; [|discriminate]. injection Eq as <-.
    apply (ok_jobs _ I0 _ _ Hr). }
  cbn. rewrite (bool_decide_eq_false_2 (j_Status j ∈ [StatusFailed])) by set_solver.
  cbn. split; eauto.
Qed.

Lemma Retry_never_succeeds_witness :
  (exists err, (Retry None 100%N env0 claimed).1 = Err err) /\
  w_db (Retry None 100%N env0 claimed).2 = w_db claimed.
Proof. exact (Retry_never_succeeds None 100%N env0 claimed rely0 (sk_db _ claimed_ok)). Defined.

(** ** Requeueing *)

(** C29. Requeueing a dead letter creates one new job of the same tenant,
    name, type and payload, with a fresh retry budget, linked to the dead
    letter, which is marked with it; the dead-lettered job itself is not
    touched.  It happens at most once: after it, whatever the system does,
    every further requeue of that dead letter fails and changes nothing. *)
Theorem requeue_once tenant id ra e w j w' tenant2 ra2 e2 w2 :
  let d0 := e_others e (w_tick w) (w_db w) in
  db_ok d0 -> Repository.RequeueDeadLetter tenant id ra e w = (Ok j, w') ->
  reaches (w_db w') (w_db w2) -> (forall n d, e_others e2 n d = d) ->
  (exists dl r, dead_letter_jobs d0 !! id = Some dl /\ dl_TenantID dl = tenant /\
     dl_RequeuedAt dl = None /\ jobs d0 !! j_ID j = None /\
     jobs (w_db w') = <[j_ID j := r]> (jobs d0) /\ j = scanJob r /\
     jr_tenant_id r = tenant /\ jr_name r = dl_Name dl /\ jr_payload r = dl_Payload dl /\
     jr_job_type r = dl_JobType dl /\ jr_retry_count r = 0 /\
     jr_source_dead_letter_id r = Some id /\
     (dl_RequeuedJobID <$> dead_letter_jobs (w_db w') !! id) = Some (Some (j_ID j))) /\
  (exists err, (Repository.RequeueDeadLetter tenant2 id ra2 e2 w2).1 = Err err) /\
  w_db (Repository.RequeueDeadLetter tenant2 id ra2 e2 w2).2 = w_db w2.
Proof.
  cbv zeta. intros I H R He. apply with_tx_ok in H as (n' & Hb & _). cbv zeta in Hb.
  pose proof (requeue_sound _ _ _ _ _ _ _ _ _ _ I Hb) as [I' _ _].
  apply requeue_body_ok in Hb as (dl & k & newID & clock & ev & p & Hk & Hid & Ht & Hrq &
    Hfresh & _ & _ & -> & HJ & _ & HD & _).
  destruct (ok_dead _ I _ _ Hk) as [Ek _]. rewrite Hid in Ek. subst k.
  assert (Hmark : exists dl', dead_letter_jobs (w_db w') !! id = Some dl' /\
    is_Some (dl_RequeuedAt dl') /\ dl_RequeuedJobID dl' = Some newID).
  { rewrite HD, lookup_update_where, Hk. eexists. split; [done|].
    rewrite bool_decide_eq_true_2 by done. by cbn. }
  destruct Hmark as (dl' & Hdl' & Hs' & Hj'). split; [|].
  - exists dl. eexists. split_and!; try done. rewrite Hdl'. cbn. by rewrite Hj'.
  - destruct (ev_dead _ _ (re_evolves _ _ R) _ _ Hdl') as (dl2 & Hdl2 & _ & Hkeep).
    specialize (Hkeep Hs'). subst dl2. unfold Repository.RequeueDeadLetter.
    destruct (with_tx_cases (requeue_body tenant2 id ra2) e2 w2) as (_ & _ & _ & [[-> ?]|X]).
    { by rewrite He. }
    exfalso. destruct X as (u & n2 & Hb & _). rewrite He in Hb.
    apply requeue_body_ok in Hb as (dl3 & k & _ & _ & _ & _ & Hk3 & Hid3 & _ & Hrq3 & _).
    destruct (ok_dead _ (re_ok _ _ R) _ _ Hk3) as [Ek3 _].
    assert (E : dl3 = dl') by congruence. subst dl3. rewrite Hrq3 in Hs'. by destruct Hs'.
Qed.

Lemma requeue_once_witness :
  let out := Repository.RequeueDeadLetter DefaultTenantID dlid1 0 env0 dead1 in
  (exists err, (Repository.RequeueDeadLetter DefaultTenantID dlid1 0 env0 out.2).1 = Err err) /\
  (dl_RequeuedJobID <$> dead_letter_jobs (w_db out.2) !! dlid1) = Some (Some 126%N).
Proof.
  set (out := Repository.RequeueDeadLetter DefaultTenantID dlid1 0 env0 dead1).
  pose (j := value new0 out).
  assert (H : out = (Ok j, out.2)).
  { assert (E : out.1 = Ok j) by (vm_compute; reflexivity).
    rewrite <- E. apply surjective_pairing. }
  assert (F : in_flight (w_db claimed) job1)
    by (apply (sk_flight _ claimed_ok "w1"); by left).
  assert (R1 : reaches (w_db claimed) (w_db dead1)).
  { exact (proj1 (FailExecution_safe job1 "w1" Second result0 StatusDeadLettered 1 0
      eq_refl (fun H => match H eq_refl with end) env0 claimed rely0
      (sk_db _ claimed_ok) F)). }
  assert (R2 : reaches (w_db dead1) (w_db out.2)).
  { exact (proj1 (RequeueDeadLetter_safe DefaultTenantID dlid1 0 env0 dead1 rely0
      (re_ok _ _ R1) Logic.I)). }
  destruct (requeue_once DefaultTenantID dlid1 0 env0 dead1 j out.2 DefaultTenantID 0 env0
    out.2 (re_ok _ _ R1) H (reaches_refl _ (re_ok _ _ R2)) (fun _ _ => eq_refl))
    as ((dl & r & _ & _ & _ & _ & _ & _ & _ & _ & _ & _ & _ & _ & Hm) & H2 & _).
  assert (Ej : j_ID j = 126%N) by (vm_compute; reflexivity).
  rewrite Ej in Hm. exact (conj H2 Hm).
Defined.
