(* ===== verification/Tenancy.v ===== *)
(** * Tenant isolation and paging

    What the API lets a tenant see and change, and how [List] cuts the
    result into pages. *)

From S2P Require Import Prelude GoRuntime Engine Sql Schema Effects Json Dto Repository RepositoryFacts Invariant Preservation Auth Service Executor Lock Rfc3339 Registry Worker Scenario Safety System Finalise Lifecycle.

Local Open Scope Z_scope.
Local Open Scope go_scope.

(** ** Reads *)

Lemma lift_result_bind {A B} (r : result A) (k : A -> M B) e w b w' :
  (lift_result r ≫= k) e w = (Ok b, w') -> exists a, r = Ok a /\ k a e w = (Ok b, w').
Proof. unfold mbind, M_bind, lift_result. destruct r; [eauto|discriminate]. Qed.

Lemma GetByID_ok tenant id e w j w' :
  GetByID tenant id e w = (Ok j, w') -> j_TenantID j = tenant /\ j_ID j = id.
Proof.
  unfold GetByID, mbind, M_bind, try. set (q := pool_query _).
  destruct (q e w) as [[j0|err] w1] eqn:Eq; cbn.
  - intros H. unfold mret, M_ret in H. simplify_eq. apply pool_query_ok in Eq as [Eq _].
    apply first_row_in, list_elem_of_fmap in Eq as (r & -> & Hr).
    apply elem_of_select_where in Hr as [HP _]. bool_prop. by cbn.
  - case_match; discriminate.
Qed.

(** Members of a page are matching rows. *)
Lemma elem_of_limit_order {V} (key : V -> list Z) P (t : gmap UUID V) n o v :
  v ∈ limit_offset n o (order_by key (select_where P t)) -> P v = true.
Proof.
  intros H. eapply elem_of_submseteq in H; [|apply sublist_submseteq, limit_offset_sublist].
  rewrite elem_of_order_by, elem_of_select_where in H. apply H.
Qed.

Lemma List_ok tenant f e w p w' :
  Repository.List tenant f e w = (Ok p, w') ->
  forall j, j ∈ pg_Items p -> exists r, j = scanJob r /\ list_matches tenant f r = true.
Proof.
  unfold Repository.List. intros H. apply M_bind_ok in H as (total & w1 & _ & H).
  apply M_bind_ok in H as (items & w2 & Hq & H). unfold mret, M_ret in H. simplify_eq.
  apply pool_query_ok in Hq as [Hq _]. cbn. intros j Hj.
  destruct (sort_column _); [|discriminate]. destruct (sort_direction _); [|discriminate].
  destruct (page_offset _ _ <? 0); [discriminate|]. simplify_eq.
  apply list_elem_of_fmap in Hj as (r & -> & Hr). exists r. split; [done|].
  by eapply elem_of_limit_order.
Qed.

(** C31. The API shows a tenant only its own data, whatever else is in the
    database: a job, every job of a page, every attempt, event and dead
    letter returned belongs to the caller's tenant (and to the job asked
    for). *)
Theorem reads_are_tenant_scoped ctx id filter page size e w :
  let tenant := pr_TenantID (PrincipalOrDefault ctx) in
  (forall j w', Get ctx id e w = (Ok j, w') -> j_TenantID j = tenant /\ j_ID j = id) /\
  (forall p w' j, Service.List ctx filter e w = (Ok p, w') -> j ∈ pg_Items p ->
     j_TenantID j = tenant) /\
  (forall l w' a, Attempts ctx id e w = (Ok l, w') -> a ∈ l ->
     a_JobID a = id /\ exists row, a = scanAttempt row /\ ar_tenant_id row = tenant) /\
  (forall l w' v, Events ctx id e w = (Ok l, w') -> v ∈ l ->
     ev_JobID v = id /\ ev_TenantID v = tenant) /\
  (forall l w' dl, Service.ListDeadLetters ctx page size e w = (Ok l, w') -> dl ∈ l ->
     dl_TenantID dl = tenant).
Proof.
  cbv zeta. split_and!.
  - intros j w'. apply GetByID_ok.
  - intros p w' j H Hj. unfold Service.List in H.
    apply lift_result_bind in H as (f & _ & H).
    destruct (List_ok _ _ _ _ _ _ H j Hj) as (r & -> & Hm). unfold list_matches in Hm.
    by bool_prop.
  - intros l w' a [H _]%pool_query_ok Ha. simplify_eq.
    apply list_elem_of_fmap in Ha as (r & -> & Hr).
    rewrite elem_of_order_by, elem_of_select_where in Hr. destruct Hr as [HP _].
    bool_prop. split; [done|]. by exists r.
  - intros l w' v [H _]%pool_query_ok Hv. simplify_eq.
    apply list_elem_of_fmap in Hv as (r & -> & Hr).
    rewrite elem_of_order_by, elem_of_select_where in Hr. destruct Hr as [HP _].
    by bool_prop.
  - intros l w' dl [H _]%pool_query_ok Hdl.
    destruct (page_offset _ _ <? 0); [discriminate|]. simplify_eq.
    apply elem_of_limit_order in Hdl. by bool_prop.
Qed.

(** ** Writes *)

(** The rows of the other tenants are as they were: none changed, none
    gone, none new. *)
Definition same_others {V} (tenant_of : V -> UUID) (tenant : UUID) (t t' : gmap UUID V) : Prop :=
  forall k v, tenant_of v <> tenant -> t !! k = Some v <-> t' !! k = Some v.

Definition others_untouched (tenant : UUID) (d d' : Db) : Prop :=
  same_others jr_tenant_id tenant (jobs d) (jobs d') /\
  same_others ar_tenant_id tenant (job_attempts d) (job_attempts d') /\
  same_others dl_TenantID tenant (dead_letter_jobs d) (dead_letter_jobs d') /\
  same_others vr_tenant_id tenant (job_events d) (job_events d').

Section Others.
Context {V : Type} (tenant_of : V -> UUID) (tenant : UUID).

Lemma same_others_refl t : same_others tenant_of tenant t t.
Proof. done. Qed.

(** A row of the tenant is added or rewritten. *)
Lemma same_others_insert k v t :
  tenant_of v = tenant -> (forall v0, t !! k = Some v0 -> tenant_of v0 = tenant) ->
  same_others tenant_of tenant t (<[k := v]> t).
Proof.
  intros Hv Hold k' v' Hne. rewrite lookup_insert_Some. split.
  - intros Hk. right. split; [|done]. intros ->. by apply Hne, Hold.
  - by intros [[-> ->]|[_ Hk]].
Qed.

Lemma same_others_update P f t :
  (forall k v, t !! k = Some v -> P k v = true -> tenant_of v = tenant) ->
  (forall v, tenant_of (f v) = tenant_of v) ->
  same_others tenant_of tenant t (update_where P f t).1.
Proof.
  intros HP Hf k v Hne. rewrite lookup_update_where, fmap_Some. split.
  - intros Hk. exists v. split; [done|]. destruct (P k v) eqn:E; [|done].
    by destruct (Hne (HP _ _ Hk E)).
  - intros (v0 & Hk & ->). destruct (P k v0) eqn:E; [|done].
    rewrite Hf in Hne. by destruct (Hne (HP _ _ Hk E)).
Qed.
End Others.

Lemma others_untouched_refl t d : others_untouched t d d.
Proof. by split_and!; apply same_others_refl. Qed.

Lemma transition_untouched t id from to e now d n u d' n' :
  db_ok d -> transition_body t id from to e now (d, n) = (Ok u, (d', n')) ->
  others_untouched t d d'.
Proof.
  intros I (r & ev & Hr & Ht & _ & Hev & HJ & HA & HD & _ & _ & HE)%transition_body_ok.
  unfold others_untouched. rewrite HJ, HA, HD, HE. split_and!.
  - apply same_others_insert; [done|]. intros v0 Hv. by simplify_eq.
  - case_bool_decide; [|apply same_others_refl]. apply same_others_update; [|done].
    intros i a Ha Hr'. unfold running_attempt_of in Hr'. bool_prop.
    destruct (ok_attempts _ I _ _ Ha) as (_ & r1 & Hr1 & Ht1). congruence.
  - apply same_others_refl.
  - apply same_others_insert; [done|]. intros v0 Hv. congruence.
Qed.

Lemma requeue_untouched t dlid ra e now d n out d' n' :
  db_ok d -> requeue_body t dlid ra e now (d, n) = (Ok out, (d', n')) ->
  others_untouched t d d'.
Proof.
  intros I (dl & k & newID & clock & ev & p & Hk & Hid & Ht & _ & Hfresh & _ & Hev & Eout &
    HJ & HA & HD & _ & _ & HE)%requeue_body_ok.
  unfold others_untouched. rewrite HJ, HA, HD, HE. split_and!.
  - apply same_others_insert; [by rewrite ?Eout|congruence].
  - apply same_others_refl.
  - apply same_others_update; [|done]. intros i dl1 Hi Hp. bool_prop. subst i.
    destruct (ok_dead _ I _ _ Hk) as [Ek _]. congruence.
  - apply same_others_insert; [by rewrite ?Eout|congruence].
Qed.

Lemma create_untouched j e now d n out d' n' :
  create_body j e now (d, n) = (Ok out, (d', n')) -> others_untouched (j_TenantID j) d d'.
Proof.
  intros (ev & p & -> & Hfresh & _ & _ & _ & Hev & ->)%create_body_ok.
  unfold others_untouched. cbn. split_and!; try apply same_others_refl;
    (apply same_others_insert; [done|congruence]).
Qed.

Section Writes.
Context (e : env) (He : forall n d, e_others e n d = d).

Lemma tx_untouched {A} t (body : Tx A) w :
  (forall now n a d' n', body e now (w_db w, n) = (Ok a, (d', n')) ->
     others_untouched t (w_db w) d') ->
  others_untouched t (w_db w) (w_db (with_tx body e w).2).
Proof.
  intros Hb. destruct (with_tx_cases body e w) as (_ & _ & _ & [[-> _]|X]).
  - rewrite He. apply others_untouched_refl.
  - destruct X as (a & n' & Hrun & _). rewrite He in Hrun. by eapply Hb.
Qed.

Lemma query_same {A} (f : (UUID -> Z) -> Time -> Db -> result A) w :
  w_db (pool_query f e w).2 = w_db w.
Proof. by rewrite pool_query_db, He. Qed.

Lemma GetByID_same t id w : w_db (GetByID t id e w).2 = w_db w.
Proof.
  unfold GetByID, mbind, M_bind, try. set (q := pool_query _).
  pose proof (query_same (fun (rank : UUID -> Z) (now : Time) d => first_row (scanJob <$>
    select_where (fun r => bool_decide (jr_tenant_id r = t) && bool_decide (jr_id r = id))
      (jobs d))) w) as Hq.
  fold q in Hq. destruct (q e w) as [[j|err] w1]; cbn in *; [done|].
  by destruct (errors_Is err ErrNoRows).
Qed.

Lemma transition_scoped ctx id to from w :
  db_ok (w_db w) ->
  others_untouched (pr_TenantID (PrincipalOrDefault ctx)) (w_db w)
    (w_db (transition ctx id to from e w).2).
Proof.
  intros I. unfold transition, mbind, M_bind.
  pose proof (GetByID_same (pr_TenantID (PrincipalOrDefault ctx)) id w) as Hs.
  destruct (GetByID _ _ e w) as [[j|err] w1]; cbn in Hs; cbn;
    [|rewrite Hs; apply others_untouched_refl].
  case_match; cbn; [rewrite Hs; apply others_untouched_refl|].
  rewrite <- Hs in *. apply tx_untouched. intros now n a d' n'. by apply transition_untouched.
Qed.

Lemma repository_Create_scoped j w :
  others_untouched (j_TenantID j) (w_db w) (w_db (Repository.Create j e w).2).
Proof.
  assert (U : others_untouched (j_TenantID j) (w_db w) (w_db (with_tx (create_body j) e w).2)).
  { apply tx_untouched. intros now n a d' n'. apply create_untouched. }
  destruct (Create_cases j e w) as [[-> _]|[(key & err & _ & _ & ->)|(err & err' & _ & ->)]];
    [done| |done].
  set (w1 := (with_tx (create_body j) e w).2) in *.
  assert (Hg : w_db (getByIdempotencyKey (j_TenantID j) key e w1).2 = w_db w1)
    by (apply query_same).
  unfold resolve_duplicate, mbind, M_bind.
  destruct (getByIdempotencyKey _ _ e w1) as [[ex|er] w2]; cbn in *; [case_match|];
    cbn; by rewrite Hg.
Qed.
End Writes.

(** The operations of the service. *)
Lemma service_Create_scoped marshal Sum256 s ctx req e w :
  (forall n d, e_others e n d = d) -> (forall m, db_frame (sv_metrics s m)) ->
  others_untouched (pr_TenantID (PrincipalOrDefault ctx)) (w_db w)
    (w_db (Service.Create marshal Sum256 s ctx req e w).2).
Proof.
  intros He Hm. unfold Service.Create. cbv zeta.
  destruct (create_check _); [apply others_untouched_refl|].
  rewrite uuid_New_bind, time_Now_bind.
  set (w2 := upd w_tick _ (upd w_tick _ w)). set (j := new_job _ _ _ _ _ _).
  pose proof (repository_Create_scoped e He j w2) as U.
  unfold mbind, M_bind. destruct (Repository.Create j e w2) as [[ins|err] w3];
    cbn in U |- *; [|done].
  specialize (Hm (JobCreated (j_JobType ins)) e w3).
  destruct (sv_metrics s _ e w3) as [[u|err] w4]; cbn in *; by rewrite Hm.
Qed.

Lemma service_Requeue_scoped ctx id e w :
  (forall n d, e_others e n d = d) -> db_ok (w_db w) ->
  others_untouched (pr_TenantID (PrincipalOrDefault ctx)) (w_db w)
    (w_db (Service.RequeueDeadLetter ctx id e w).2).
Proof.
  intros He I. unfold Service.RequeueDeadLetter. rewrite time_Now_bind.
  set (w2 := upd w_tick _ w). change (w_db w) with (w_db w2) in *.
  apply (tx_untouched e He). intros now n a d' n'. by apply requeue_untouched.
Qed.

(** ** Paging *)

(** The rows a filter matches, in the requested order. *)
Definition matching_rows (tenant : UUID) (f : ListFilter) (column : job_row -> Z) (dir : Z)
    (d : Db) : list job_row :=
  order_by (list_key column dir) (select_where (list_matches tenant f) (jobs d)).

Definition page_rows (size page : Z) (rows : list job_row) : list job_row :=
  limit_offset size ((page - 1) * size) rows.

(** Listing in a healthy environment: a filter that passes the checks
    gives the requested page of the matching rows in the requested order,
    with the page size held between 1 and 100 and the total of all
    matches, as long as the page number does not overflow the offset. *)
Theorem List_spec ctx filter f column dir e w :
  healthy e -> list_check filter = Ok f ->
  sort_column (lf_Sort f) = Some column -> sort_direction (lf_Order f) = Some dir ->
  let page := normalizePage (lf_Page f) in
  let size := normalizePageSize (lf_PageSize f) in
  (page - 1) * size < 2 ^ 63 ->
  let rows := matching_rows (pr_TenantID (PrincipalOrDefault ctx)) f column dir (w_db w) in
  (Service.List ctx filter e w).1 =
  Ok {| pg_Items := scanJob <$> page_rows size page rows;
        pg_Page := page; pg_PageSize := size; pg_Total := Z.of_nat (length rows) |} /\
  1 <= size <= 100.
Proof.
  cbv zeta. intros H Hc Hcol Hdir Ho. split; [|apply normalizePageSize_range].
  pose proof (normalizePage_range (lf_Page f)) as Hp.
  pose proof (normalizePageSize_range (lf_PageSize f)) as Hs.
  unfold Service.List, mbind, M_bind, lift_result. rewrite Hc.
  unfold Repository.List, mbind, M_bind. rewrite !(pool_query_healthy _ H).
  rewrite Hcol, Hdir.
  rewrite page_offset_small by done.
  destruct (Z.ltb_spec ((normalizePage (lf_Page f) - 1) * normalizePageSize (lf_PageSize f)) 0);
    [nia|]. cbn. unfold matching_rows, page_rows. do 3 f_equal.
  apply Permutation_length, symmetry, order_by_perm.
Qed.

Lemma List_spec_witness :
  (Service.List None (mkListFilter "" "" 1 20 "" "" None None) env0 created).1 =
  Ok {| pg_Items := scanJob <$> page_rows 20 1 (matching_rows DefaultTenantID
          (mkListFilter "" "" 1 20 "created_at" "desc" None None) jr_created_at (-1)
          (w_db created));
        pg_Page := 1; pg_PageSize := 20;
        pg_Total := Z.of_nat (length (matching_rows DefaultTenantID
          (mkListFilter "" "" 1 20 "created_at" "desc" None None) jr_created_at (-1)
          (w_db created))) |}.
Proof.
  apply (List_spec None (mkListFilter "" "" 1 20 "" "" None None)
    (mkListFilter "" "" 1 20 "created_at" "desc" None None) jr_created_at (-1) env0 created
    env0_healthy); vm_compute; reflexivity.
Defined.

Lemma pages_concat size n (rows : list job_row) :
  1 <= size ->
  concat ((fun p => page_rows size (Z.of_nat p) rows) <$> seq 1 n) =
  take (n * Z.to_nat size) rows.
Proof.
  intros Hs. induction n as [|n IH]; [done|].
  rewrite seq_S, fmap_app, concat_app, IH. cbn. rewrite app_nil_r.
  unfold page_rows, limit_offset.
  replace (Z.to_nat ((Z.of_nat (S n) - 1) * size)) with (n * Z.to_nat size)%nat by nia.
  rewrite Nat.add_comm, take_take_drop. done.
Qed.

(** Pages neither overlap nor skip: put together in order, the first
    pages are the beginning of the full result, and once there are enough
    of them, the whole of it, each row on exactly one page. *)
Theorem pages_partition size n rows :
  1 <= size -> NoDup rows ->
  concat ((fun p => page_rows size (Z.of_nat p) rows) <$> seq 1 n) =
    take (n * Z.to_nat size) rows /\
  (Z.of_nat (length rows) <= Z.of_nat n * size ->
   concat ((fun p => page_rows size (Z.of_nat p) rows) <$> seq 1 n) = rows /\
   NoDup (concat ((fun p => page_rows size (Z.of_nat p) rows) <$> seq 1 n))).
Proof.
  intros Hs Hnd. rewrite pages_concat by done. split; [done|]. intros Hn.
  rewrite take_ge by nia. done.
Qed.

Lemma pages_partition_witness :
  let rows := [row2; job_insert_row new0 0; job_insert_row new2 5] in
  concat ((fun p => page_rows 2 (Z.of_nat p) rows) <$> seq 1 2) = rows.
Proof.
  cbv zeta. apply (pages_partition 2 2 [row2; job_insert_row new0 0; job_insert_row new2 5]).
  - lia.
  - rewrite !NoDup_cons, !elem_of_cons, !elem_of_nil. split_and!; [..|apply NoDup_nil; done];
      intros X; repeat destruct X as [X|X]; try done; vm_compute in X; discriminate X.
  - vm_compute. discriminate.
Defined.

(** A page number past the range of the offset is not an empty page but
    a database error: the product wraps to a negative OFFSET. *)
Theorem List_page_overflow e w :
  healthy e ->
  exists err, (Service.List None (mkListFilter "" "" 9223372036854775807 100 "" "" None None)
                 e w).1 = Err err /\ err = PgError "2201X".
Proof.
  intros H. eexists. split; [|done].
  assert (Hc : list_check (mkListFilter "" "" 9223372036854775807 100 "" "" None None) =
    Ok (mkListFilter "" "" 9223372036854775807 100 "created_at" "desc" None None))
    by (vm_compute; reflexivity).
  unfold Service.List, mbind, M_bind, lift_result. rewrite Hc.
  unfold Repository.List, mbind, M_bind. by rewrite !(pool_query_healthy _ H).
Qed.

Lemma List_page_overflow_witness :
  exists err, (Service.List None (mkListFilter "" "" 9223372036854775807 100 "" "" None None)
                 env0 created).1 = Err err /\ err = PgError "2201X".
Proof. exact (List_page_overflow env0 created env0_healthy). Defined.

