(* ===== verification/Idempotency.v ===== *)
(** * Idempotent creation

    Creating a job through the service: what is stored, what a repeated
    request gets, and what a different request under the same key gets. *)

From S2P Require Import Prelude GoRuntime Engine Sql Schema Effects Json Dto Repository RepositoryFacts Invariant Preservation Auth Service Executor Lock Rfc3339 Registry Worker Scenario Safety System Finalise Lifecycle.

Local Open Scope Z_scope.
Local Open Scope go_scope.

(** ** The key *)

(** A row carries the tenant's idempotency key. *)
Definition keyed (tenant : UUID) (key : string) (r : job_row) : bool :=
  bool_decide (jr_tenant_id r = tenant) && bool_decide (jr_idempotency_key r = Some key).

Lemma select_keyed d tenant key k r :
  db_ok d -> jobs d !! k = Some r -> keyed tenant key r = true ->
  select_where (keyed tenant key) (jobs d) = [r].
Proof.
  intros I Hk Hr. set (l := select_where _ _).
  assert (Hall : forall r', r' ∈ l -> r' = r).
  { intros r' Hin. apply elem_of_select_where in Hin as [HP [k' Hk']].
    unfold keyed in Hr, HP. bool_prop.
    assert (k' = k) by (eapply (ok_idempotency _ I k' k); eauto; congruence). congruence. }
  pose proof (select_where_nodup jr_id (keyed tenant key) (jobs d)
    (fun k v Hk => proj1 (ok_jobs _ I _ _ Hk))) as ND. fold l in ND.
  assert (Hin : r ∈ l) by (apply elem_of_select_where; eauto).
  destruct l as [|r1 [|r2 l]].
  - by apply not_elem_of_nil in Hin.
  - f_equal. apply Hall. left.
  - exfalso. rewrite (Hall r1), (Hall r2) in ND by (repeat constructor).
    cbn in ND. apply NoDup_cons in ND as [ND _]. apply ND. left.
Qed.

Lemma getByIdempotencyKey_healthy e tenant key k r w :
  healthy e -> db_ok (w_db w) -> jobs (w_db w) !! k = Some r -> keyed tenant key r = true ->
  getByIdempotencyKey tenant key e w = (Ok (scanJob r), w <| w_tick := S (w_tick w) |>).
Proof.
  intros H I Hk Hr. unfold getByIdempotencyKey. rewrite (pool_query_healthy _ H).
  change (select_where _ (jobs (w_db w)))
    with (select_where (keyed tenant key) (jobs (w_db w))).
  rewrite (select_keyed _ _ _ _ _ I Hk Hr).
  assert (E : forall f, order_by f [r] = [r]).
  { intros f. apply Permutation_singleton_r, order_by_perm. }
  by rewrite E.
Qed.

(** ** The repository *)

(** The integers fit their columns. *)
Definition storable (j : Job) : bool :=
  forallb int4_ok [j_Priority j; j_RetryCount j; j_MaxRetries j;
                   j_RetryBackoffSeconds j; j_TimeoutSeconds j].

Lemma create_body_taken e j now d n key :
  healthy e -> storable j = true -> j_IdempotencyKey j = Some key ->
  idempotency_taken (j_TenantID j) (Some key) (jobs d) = true ->
  create_body j e now (d, n) = (Err (insert_mark err_unique), (d, S n)).
Proof.
  intros H Hs Hkey Ht. unfold create_body. apply Tx_bind_err.
  unfold tx_insert_job. rewrite (tx_exec_healthy _ H). unfold insert_jobs.
  change (forallb int4_ok _) with (storable j). rewrite Hs. cbn.
  by rewrite Hkey, Ht.
Qed.

(** A key that is already used decides by the request hash alone. *)
Lemma Create_keyed e j w k r key :
  healthy e -> db_ok (w_db w) -> storable j = true -> j_IdempotencyKey j = Some key ->
  jobs (w_db w) !! k = Some r -> keyed (j_TenantID j) key r = true ->
  (Repository.Create j e w).1 =
    (if same_hash (jr_request_hash r) (j_RequestHash j) then Ok (scanJob r)
     else Err ErrIdempotency) /\
  w_db (Repository.Create j e w).2 = w_db w.
Proof.
  intros H I Hs Hkey Hk Hr.
  assert (Ht : idempotency_taken (j_TenantID j) (Some key) (jobs (w_db w)) = true).
  { apply idempotency_taken_spec. unfold keyed in Hr. bool_prop. eauto. }
  unfold Repository.Create, mbind, M_bind, try. rewrite (with_tx_healthy _ H).
  rewrite (create_body_taken _ _ _ _ _ _ H Hs Hkey Ht). cbn. rewrite Hkey.
  unfold resolve_duplicate, mbind, M_bind.
  rewrite (getByIdempotencyKey_healthy _ _ _ k r _ H) by done.
  cbn [j_RequestHash scanJob]. by destruct (same_hash _ _).
Qed.

(** The event of a creation carries [run_at], which has to be printable. *)
Lemma create_body_year j e now d n out s' :
  create_body j e now (d, n) = (Ok out, s') -> json_year_ok (j_RunAt j) = true.
Proof.
  unfold create_body. intros H. tx_inv H.
  apply tx_insert_job_ok in Htx as (dj & Hins & -> & E). simplify_eq.
  unfold insertJobEvent in Htx0. tx_inv Htx0.
  match goal with H : tx_lift (json_marshal _) _ _ _ = _ |- _ => rename H into Hj
    | H : json_marshal _ = Ok _ |- _ => rename H into Hj end.
  unfold json_marshal in Hj. cbn [forallb snd jval_ok andb j_RunAt scanJob jr_run_at
    job_insert_row] in Hj. by destruct (json_year_ok (j_RunAt j)).
Qed.

(** A creation that commits under a key leaves that key on its row. *)
Lemma Create_stores e j w out w' :
  healthy e -> Repository.Create j e w = (Ok out, w') ->
  j_ID out = j_ID j ->
  (forall k r, jobs (w_db w) !! k = Some r -> k <> j_ID j) -> db_ok (w_db w) ->
  storable j = true /\ json_year_ok (j_RunAt j) = true /\
  exists r, jobs (w_db w') !! j_ID j = Some r /\ out = scanJob r /\
    r = job_insert_row j (e_pgnow e (w_tick w)).
Proof.
  intros H Hrun Hid Hfresh I.
  destruct (Create_cases j e w) as [[E [a Ha]]|[(key & err & _ & Herr & E)|(err & err' & _ & E)]];
    rewrite E in Hrun; [|exfalso|discriminate].
  - apply with_tx_ok in Hrun as (n' & Hb & _). rewrite (h_others _ H) in Hb.
    pose proof (create_body_year _ _ _ _ _ _ _ Hb) as Hy.
    apply create_body_ok in Hb as (ev & p & -> & _ & _ & _ & Hi4 & _ & ->).
    split; [exact Hi4|]. split; [exact Hy|]. eexists. cbn. rewrite lookup_insert_eq. eauto.
  - assert (Ed : w_db (with_tx (create_body j) e w).2 = w_db w).
    { destruct (with_tx_cases (create_body j) e w) as (_ & _ & _ & [[-> _]|X]).
      - apply (h_others _ H).
      - destruct X as (a & n' & _ & [X|[ft X]]); [congruence|].
        rewrite (with_tx_healthy _ H) in *.
        destruct (create_body _ _ _ _) as [[?|?] [? ?]]; [discriminate|done]. }
    unfold resolve_duplicate in Hrun. apply M_bind_ok in Hrun as (x & w2 & Hq & Hrun).
    apply pool_query_ok in Hq as [Hq _]. rewrite (h_others _ H), Ed in Hq.
    apply first_row_in, list_elem_of_fmap in Hq as (r & -> & Hr).
    rewrite elem_of_order_by, elem_of_select_where in Hr. destruct Hr as [_ [k Hk]].
    destruct (ok_jobs _ I _ _ Hk) as [Ek _]. case_match; [|discriminate].
    unfold mret, M_ret in Hrun. simplify_eq. cbn in Hid. by eapply Hfresh.
Qed.

(** ** The service *)

(** What the service may assume of a recorder: metric calls return and
    keep out of the database. *)
Class RecorderLaws (rec : Recorder) : Prop := {
  recorder_total : forall m e w, (rec m e w).1 = Ok tt;
  recorder_frame : forall m, db_frame (rec m)
}.

#[export] Instance NoopRecorder_laws : RecorderLaws NoopRecorder.
Proof. by split. Qed.

#[export] Instance record_metric_laws : RecorderLaws record_metric.
Proof. by split. Qed.

Section Replay.
Context (marshal : CreateRequest -> result string) (Sum256 : string -> string).
Context (s : Service) (Hrec : RecorderLaws (sv_metrics s)).

(** [Service.Create] on a request that passes the checks. *)
Lemma service_Create_run ctx req e w :
  create_check (prepared s req) = None ->
  let w2 := w <| w_tick := S (S (w_tick w)) |> in
  let j := new_job marshal Sum256 (e_uuid e (w_tick w)) (PrincipalOrDefault ctx)
             (prepared s req) (e_time e (S (w_tick w))) in
  let inner := Repository.Create j e w2 in
  w_db (Service.Create marshal Sum256 s ctx req e w).2 = w_db inner.2 /\
  (Service.Create marshal Sum256 s ctx req e w).1 =
  match inner.1 with
  | Err err => Err err
  | Ok ins => Ok {| cp_JobID := j_ID ins; cp_Status := j_Status ins;
                    cp_Replayed := negb (bool_decide (j_ID ins = j_ID j)) |}
  end.
Proof.
  intros Hc. cbv zeta. unfold Service.Create. rewrite Hc, uuid_New_bind, time_Now_bind.
  cbn [w_tick upd upd_w_tick].
  change (upd_w_tick (S (S (w_tick w))) (upd_w_tick (S (w_tick w)) w))
    with (upd_w_tick (S (S (w_tick w))) w).
  set (j := new_job _ _ _ _ _ _). unfold mbind, M_bind.
  destruct (Repository.Create j e _) as [[ins|err] w3]; [|done].
  pose proof (recorder_total (JobCreated (j_JobType ins)) e w3) as Ht.
  pose proof (recorder_frame (JobCreated (j_JobType ins)) e w3) as Hf.
  destruct (sv_metrics s _ e w3) as [[u|err] w4]; cbn in *; [done|discriminate].
Qed.

Lemma fresh_tick e n d k : fresh_ids e n d -> (n <= k)%nat -> jobs d !! e_uuid e k = None.
Proof. intros Hf Hk. apply (Hf k Hk). Qed.

Lemma service_Create_key ctx req e w resp w1 :
  let p := prepared s req in
  healthy e -> db_ok (w_db w) -> fresh_ids e (w_tick w) (w_db w) ->
  cq_IdempotencyKey p <> "" ->
  Service.Create marshal Sum256 s ctx req e w = (Ok resp, w1) -> cp_Replayed resp = false ->
  create_check p = None /\ json_year_ok (cq_RunAt p) = true /\
  (exists id now, storable (new_job marshal Sum256 id (PrincipalOrDefault ctx) p now) = true) /\
  exists r, jobs (w_db w1) !! cp_JobID resp = Some r /\
    jr_request_hash r = Some (request_hash marshal Sum256 p) /\
    keyed (pr_TenantID (PrincipalOrDefault ctx)) (cq_IdempotencyKey p) r = true.
Proof.
  cbv zeta. intros H I Hf Hkey Hrun Hrep.
  destruct (create_check (prepared s req)) eqn:Hc.
  { unfold Service.Create in Hrun. rewrite Hc in Hrun. discriminate. }
  destruct (service_Create_run ctx req e w Hc) as [Ed Er]. rewrite Hrun in Ed, Er.
  cbn [fst snd] in Ed, Er. set (j := new_job _ _ _ _ _ _) in *.
  set (w2 := w <| w_tick := S (S (w_tick w)) |>) in *.
  destruct (Repository.Create j e w2) as [[ins|err] w3] eqn:Ec; [|discriminate].
  cbn in Er, Ed. simplify_eq. cbn in Hrep. apply negb_false_iff, bool_decide_eq_true in Hrep.
  assert (Hnew : forall k r, jobs (w_db w2) !! k = Some r -> k <> j_ID j).
  { intros k r Hk ->. cbn in Hk. rewrite (fresh_tick e (w_tick w)) in Hk; [done|done|lia]. }
  destruct (Create_stores _ _ _ _ _ H Ec Hrep Hnew I) as (Hst & Hy & r & Hr & -> & ->).
  split; [done|]. split; [exact Hy|]. split; [by exists (j_ID j), (e_time e (S (w_tick w)))|].
  exists (job_insert_row j (e_pgnow e (w_tick w2))). rewrite Ed. cbn in Hrep |- *.
  split_and!; [done|done|]. unfold keyed. cbn.
  rewrite (bool_decide_eq_false_2 _ Hkey). by rewrite !bool_decide_eq_true_2.
Qed.

(** The next request under the key of a job that was created: the stored
    hash decides, whatever the system has done in between. *)
Lemma Create_second ctx req e w resp w1 other e2 w2 :
  healthy e -> db_ok (w_db w) -> fresh_ids e (w_tick w) (w_db w) ->
  cq_IdempotencyKey (prepared s req) <> "" ->
  Service.Create marshal Sum256 s ctx req e w = (Ok resp, w1) -> cp_Replayed resp = false ->
  reaches (w_db w1) (w_db w2) -> healthy e2 -> fresh_ids e2 (w_tick w2) (w_db w2) ->
  cq_IdempotencyKey (prepared s other) = cq_IdempotencyKey (prepared s req) ->
  create_check (prepared s other) = None ->
  storable (new_job marshal Sum256 0 (PrincipalOrDefault ctx) (prepared s other) 0) = true ->
  let next := Service.Create marshal Sum256 s ctx other e2 w2 in
  (if bool_decide (request_hash marshal Sum256 (prepared s other) =
                   request_hash marshal Sum256 (prepared s req))
   then exists st, next.1 = Ok {| cp_JobID := cp_JobID resp; cp_Status := st;
                                  cp_Replayed := true |}
   else next.1 = Err ErrIdempotency) /\
  w_db next.2 = w_db w2.
Proof.
  intros H I Hf Hkey Hrun Hrep R H2 Hf2 Ekey Hco Hsto. cbv zeta.
  destruct (service_Create_key ctx req e w resp w1 H I Hf Hkey Hrun Hrep)
    as (_ & _ & _ & r & Hr & Hhash & Hk).
  destruct (ev_jobs _ _ (re_evolves _ _ R) _ _ Hr) as (r' & Hr' & _ & Et & Ek & _ & Eh).
  destruct (ok_jobs _ (re_ok _ _ R) _ _ Hr') as [Eid _].
  assert (Hk' : keyed (pr_TenantID (PrincipalOrDefault ctx))
    (cq_IdempotencyKey (prepared s req)) r' = true) by (unfold keyed in *; by rewrite Et, Ek).
  destruct (service_Create_run ctx other e2 w2 Hco) as [-> ->].
  set (j := new_job _ _ _ _ _ _). set (w3 := w2 <| w_tick := _ |>).
  destruct (Create_keyed e2 j w3 (cp_JobID resp) r' (cq_IdempotencyKey (prepared s req)))
    as [-> ->]; try done; [apply (re_ok _ _ R)| |].
  { unfold j. cbn [j_IdempotencyKey new_job]. by rewrite Ekey, bool_decide_eq_false_2. }
  rewrite Eh, Hhash. split; [|done].
  change (j_RequestHash j) with (Some (request_hash marshal Sum256 (prepared s other))).
  cbn [same_hash]. case_bool_decide as E1; case_bool_decide as E2; try congruence.
  cbn [j_ID scanJob]. rewrite Eid, (bool_decide_eq_false_2 (cp_JobID resp = j_ID j)); [by eauto|].
  intros E. rewrite E in Hr'. cbn in Hr'. by rewrite (fresh_tick e2 (w_tick w2)) in Hr'.
Qed.
End Replay.

(** Creation is idempotent per key.  When a request with an
    Idempotency-Key has created a job, then, after anything the system has
    done since, repeating the request returns that same job, marked as
    replayed, and a different request under the same key is refused as an
    idempotency conflict; neither changes the database. *)
Theorem Create_is_idempotent marshal Sum256 s ctx req e w resp w1 other e2 w2 :
  RecorderLaws (sv_metrics s) ->
  healthy e -> db_ok (w_db w) -> fresh_ids e (w_tick w) (w_db w) ->
  cq_IdempotencyKey (prepared s req) <> "" ->
  Service.Create marshal Sum256 s ctx req e w = (Ok resp, w1) -> cp_Replayed resp = false ->
  reaches (w_db w1) (w_db w2) -> healthy e2 -> fresh_ids e2 (w_tick w2) (w_db w2) ->
  let again := Service.Create marshal Sum256 s ctx req e2 w2 in
  let conflicting := Service.Create marshal Sum256 s ctx other e2 w2 in
  ((exists st, again.1 = Ok {| cp_JobID := cp_JobID resp; cp_Status := st;
                               cp_Replayed := true |}) /\
   w_db again.2 = w_db w2) /\
  (cq_IdempotencyKey (prepared s other) = cq_IdempotencyKey (prepared s req) ->
   create_check (prepared s other) = None ->
   storable (new_job marshal Sum256 0 (PrincipalOrDefault ctx) (prepared s other) 0) = true ->
   request_hash marshal Sum256 (prepared s other) <>
     request_hash marshal Sum256 (prepared s req) ->
   conflicting.1 = Err ErrIdempotency /\ w_db conflicting.2 = w_db w2).
Proof.
  intros Hrec H I Hf Hkey Hrun Hrep R H2 Hf2. cbv zeta.
  destruct (service_Create_key marshal Sum256 s Hrec ctx req e w resp w1 H I Hf Hkey Hrun Hrep)
    as (Hc & _ & (id0 & now0 & Hst) & _).
  pose proof (fun q => Create_second marshal Sum256 s Hrec ctx req e w resp w1 q e2 w2
    H I Hf Hkey Hrun Hrep R H2 Hf2) as Hnext. split.
  - specialize (Hnext req eq_refl Hc Hst). by rewrite bool_decide_eq_true_2 in Hnext.
  - intros Ekey Hco Hsto Hne. specialize (Hnext other Ekey Hco Hsto).
    by rewrite bool_decide_eq_false_2 in Hnext.
Qed.

(** The scenario's request twice, and another one under its key. *)
Definition created_svc : result CreateResponse * world :=
  Service.Create marshal0 sum0 svc0 None req0 env0 world0.
Definition other0 : CreateRequest :=
  {| cq_Name := "weekly"; cq_JobType := "CALL_WEBHOOK"; cq_Payload := "{}";
     cq_RunAt := 5 * Second; cq_Priority := 7; cq_MaxRetries := 1;
     cq_RetryBackoffSeconds := 30; cq_TimeoutSeconds := 60;
     cq_IdempotencyKey := " key-1 " |}.

Lemma Create_is_idempotent_witness :
  let again := Service.Create marshal0 sum0 svc0 None req0 env0 created_svc.2 in
  let conflicting := Service.Create marshal0 sum0 svc0 None other0 env0 created_svc.2 in
  (exists st, again.1 = Ok {| cp_JobID := 100%N; cp_Status := st; cp_Replayed := true |}) /\
  conflicting.1 = Err ErrIdempotency.
Proof.
  pose (resp := {| cp_JobID := 100%N; cp_Status := StatusPending; cp_Replayed := false |}).
  assert (Hrun : created_svc = (Ok resp, created_svc.2)).
  { assert (E : created_svc.1 = Ok resp) by (vm_compute; reflexivity).
    rewrite <- E. apply surjective_pairing. }
  assert (R : reaches (w_db world0) (w_db created_svc.2)).
  { exact (proj1 (service_Create_safe marshal0 sum0 svc0 None req0 (fun _ _ _ => eq_refl)
      env0 world0 rely0 (sk_db _ (initial_ok _ initial0)) Logic.I)). }
  assert (F0 : fresh_ids env0 (w_tick world0) (w_db world0))
    by (apply env0_fresh; vm_compute; reflexivity).
  assert (F1 : fresh_ids env0 (w_tick created_svc.2) (w_db created_svc.2))
    by (apply env0_fresh; vm_compute; reflexivity).
  assert (Hk : cq_IdempotencyKey (prepared svc0 req0) <> "") by (vm_compute; discriminate).
  destruct (Create_is_idempotent marshal0 sum0 svc0 None req0 env0 world0 resp created_svc.2
    other0 env0 created_svc.2 NoopRecorder_laws env0_healthy
    (sk_db _ (initial_ok _ initial0)) F0 Hk Hrun eq_refl (reaches_refl _ (re_ok _ _ R))
    env0_healthy F1) as [[H1 _] H2].
  split; [exact H1|]. apply H2; vm_compute; reflexivity || discriminate.
Defined.
