(* ===== verification/Delivery.v ===== *)
(** * Delivery of events

    A lease on an event is exclusive; an event is marked published only
    after the publisher accepted it; and every event of a batch is either
    published or due again after its backoff. *)

From S2P Require Import Prelude GoRuntime Engine Sql Schema Effects Json Dto Repository RepositoryFacts Invariant Preservation Auth Service Executor Lock Rfc3339 Registry Worker Scenario Safety Outbox OutboxFacts AuthFacts System Journal Rows.

Local Open Scope Z_scope.
Local Open Scope go_scope.

(** ** Leasing *)

(** The batch size a claim uses. *)
Definition batch_size (batch : Z) : Z := if batch <? 1 then 50 else batch.

Lemma elem_of_pending b locked now d r :
  r ∈ pending b locked now d ->
  publishable locked now r = true /\ exists k, job_events d !! k = Some r.
Proof.
  intros H. unfold pending in H.
  eapply elem_of_sublist in H; [|apply limit_offset_sublist].
  rewrite elem_of_order_by in H. by apply elem_of_select_where in H.
Qed.

Lemma Claim_ok relay batch lease e w items w' :
  Claim relay batch lease e w = (Ok items, w') ->
  let d0 := e_others e (w_tick w) (w_db w) in
  let now := e_pgnow e (w_tick w) in
  let rows := pending (batch_size batch) (e_locked e (w_tick w)) now d0 in
  items = scanOutboxEvent <$> order_by (fun r => [e_rank e (w_tick w) (vr_id r)]) rows /\
  job_events (w_db w') = map_imap (fun k r => Some
    (if bool_decide (k ∈ vr_id <$> rows)
     then set_leased relay (duration_seconds lease) now r else r)) (job_events d0).
Proof.
  intros H. unfold Claim, pool_returning in H. apply pool_exec_ok in H as [H _].
  injection H as Hd Hi. rewrite <- Hd. by split.
Qed.

Lemma pending_nodup b locked now d : db_ok d -> NoDup (vr_id <$> pending b locked now d).
Proof.
  intros I. unfold pending.
  eapply sublist_NoDup; [|apply fmap_sublist, limit_offset_sublist].
  rewrite order_by_perm. apply select_where_nodup. intros k r Hr. by apply (ok_events _ I).
Qed.

Lemma leased_ids (key : event_row -> list Z) rows :
  oe_EventID <$> (scanOutboxEvent <$> order_by key rows) ≡ₚ vr_id <$> rows.
Proof. rewrite order_by_perm, <- list_fmap_compose. done. Qed.

(** Leasing events, in any environment: the relay receives the oldest
    unpublished events that are due, not leased and not locked, at most
    the batch size (50 when none is configured) and none twice; exactly
    those rows are now leased to it until [now] plus the lease time, and
    nothing else of them or of any other row changes. *)
Theorem outbox_Claim_spec relay batch lease e w items w' :
  let d0 := e_others e (w_tick w) (w_db w) in
  let now := e_pgnow e (w_tick w) in
  let rows := pending (batch_size batch) (e_locked e (w_tick w)) now d0 in
  db_ok d0 -> Claim relay batch lease e w = (Ok items, w') ->
  items ≡ₚ scanOutboxEvent <$> rows /\
  (length items <= Z.to_nat (batch_size batch))%nat /\ NoDup (oe_EventID <$> items) /\
  (forall k, job_events (w_db w') !! k =
     if decide (k ∈ oe_EventID <$> items)
     then set_leased relay (duration_seconds lease) now <$> job_events d0 !! k
     else job_events d0 !! k).
Proof.
  intros d0 now rows I H. apply Claim_ok in H as [-> Hd]. fold d0 now rows in Hd |- *.
  assert (P : scanOutboxEvent <$> order_by (fun r => [e_rank e (w_tick w) (vr_id r)]) rows
    ≡ₚ scanOutboxEvent <$> rows) by by rewrite order_by_perm.
  split_and!; [done|..].
  - rewrite P, length_fmap. unfold rows, pending, limit_offset. rewrite length_take. lia.
  - rewrite leased_ids. by apply pending_nodup.
  - intros k. rewrite Hd, map_lookup_imap.
    case_decide as Hk; rewrite leased_ids in Hk; destruct (job_events d0 !! k); cbn; try done.
    + by rewrite bool_decide_eq_true_2.
    + by rewrite bool_decide_eq_false_2.
Qed.

(** An event that is leased is not handed out before its lease expires. *)
Lemma claimed_event_row relay batch lease e w items w' ev :
  let d0 := e_others e (w_tick w) (w_db w) in
  let now := e_pgnow e (w_tick w) in
  db_ok d0 -> Claim relay batch lease e w = (Ok items, w') -> ev ∈ items ->
  exists r, job_events d0 !! oe_EventID ev = Some r /\ ev = scanOutboxEvent r /\
    publishable (e_locked e (w_tick w)) now r = true /\
    job_events (w_db w') !! oe_EventID ev =
      Some (set_leased relay (duration_seconds lease) now r).
Proof.
  intros d0 now I H Hev. apply Claim_ok in H as [-> Hd]. fold d0 now in Hd.
  apply list_elem_of_fmap in Hev as (r & -> & Hr). rewrite elem_of_order_by in Hr.
  pose proof (elem_of_pending _ _ _ _ _ Hr) as [Hp [k Hk]].
  destruct (ok_events _ I _ _ Hk) as [<- _]. exists r. split_and!; try done.
  rewrite Hd, map_lookup_imap. cbn. fold d0 in Hk. rewrite Hk. cbn.
  rewrite bool_decide_eq_true_2; [done|]. apply list_elem_of_fmap. by exists r.
Qed.

Lemma update_counting_miss P f e w :
  (forall n d, e_others e n d = d) ->
  (forall k r, job_events (w_db w) !! k = Some r -> P k r = false) ->
  (forall k r, job_events (w_db w) !! k = Some r -> vr_id r = k) ->
  w_db (update_counting P f e w).2 = w_db w /\
  ((update_counting P f e w).1 = Ok 0%nat \/ exists err, (update_counting P f e w).1 = Err err).
Proof.
  intros He Hno Hk.
  assert (E : select_where (fun r => P (vr_id r) r && negb (int4_ok (vr_publish_attempts r + 1)))
    (job_events (w_db w)) = []).
  { destruct (select_where _ _) as [|r l] eqn:E; [done|].
    assert (Hin : r ∈ r :: l) by left. rewrite <- E in Hin.
    apply elem_of_select_where in Hin as [Hb [k Hr]].
    rewrite (Hk _ _ Hr), (Hno _ _ Hr) in Hb. done. }
  unfold update_counting, pool_exec. rewrite He, E. rewrite bool_decide_eq_true_2 by done.
  cbn [negb]. rewrite update_where_none by done.
  destruct (e_outcome e (w_tick w)); cbn; split; eauto; by destruct (w_db w).
Qed.

(** Without the lease, a relay's calls change nothing. *)
Lemma lease_lost_frame id relay e w attempts message :
  (forall n d, e_others e n d = d) ->
  (forall k r, job_events (w_db w) !! k = Some r -> leased_by id relay k r = false) ->
  (forall k r, job_events (w_db w) !! k = Some r -> vr_id r = k) ->
  w_db (MarkPublished id relay e w).2 = w_db w /\
  (exists err, (MarkPublished id relay e w).1 = Err err) /\
  w_db (MarkFailed id relay attempts message e w).2 = w_db w.
Proof.
  intros He Hno Hk. unfold MarkPublished, MarkFailed, mbind, M_bind.
  destruct (update_counting_miss _ set_published e w He Hno Hk) as [H1 H2].
  destruct (update_counting_miss _ (set_publish_failed message
    (duration_seconds (int_mul (backoff_seconds attempts) Second))) e w He Hno Hk) as [H3 H4].
  destruct (update_counting _ set_published e w) as [res1 w1],
    (update_counting _ (set_publish_failed _ _) e w) as [res2 w2]. cbn in *.
  split_and!.
  - destruct H2 as [->|[err ->]]; done.
  - destruct H2 as [->|[err ->]]; cbn; eauto.
  - destruct H4 as [->|[err ->]]; done.
Qed.

(** Leases on events are exclusive.  When a second relay is handed an
    event whose row is still as the first relay's claim left it, the first
    lease has expired; and from then on the first relay can neither mark
    the event published nor push its next attempt back: its calls change
    nothing, whatever faults occur. *)
Theorem outbox_leases_exclusive r1 b1 l1 e1 w1 items1 w1' r2 b2 l2 e2 w2 items2 w2' ev1 ev2
    attempts message e3 :
  let d2 := e_others e2 (w_tick w2) (w_db w2) in
  db_ok (e_others e1 (w_tick w1) (w_db w1)) -> db_ok d2 ->
  Claim r1 b1 l1 e1 w1 = (Ok items1, w1') -> Claim r2 b2 l2 e2 w2 = (Ok items2, w2') ->
  ev1 ∈ items1 -> ev2 ∈ items2 -> oe_EventID ev1 = oe_EventID ev2 ->
  job_events d2 !! oe_EventID ev1 = job_events (w_db w1') !! oe_EventID ev1 ->
  r1 <> r2 -> (forall n d, e_others e3 n d = d) ->
  e_pgnow e1 (w_tick w1) + duration_seconds l1 * Second < e_pgnow e2 (w_tick w2) /\
  w_db (MarkPublished (oe_EventID ev1) r1 e3 w2').2 = w_db w2' /\
  (exists err, (MarkPublished (oe_EventID ev1) r1 e3 w2').1 = Err err) /\
  w_db (MarkFailed (oe_EventID ev1) r1 attempts message e3 w2').2 = w_db w2'.
Proof.
  intros d2 I1 I2 H1 H2 Hev1 Hev2 Hid Hrow Hr He3.
  destruct (claimed_event_row _ _ _ _ _ _ _ _ I1 H1 Hev1) as (ra & _ & _ & _ & Ha).
  destruct (claimed_event_row _ _ _ _ _ _ _ _ I2 H2 Hev2) as (rb & Hb & _ & Hp & Hb').
  fold d2 in Hb. rewrite <- Hid in Hb, Hb'. rewrite Hrow, Ha in Hb. injection Hb as <-.
  assert (Hk : forall k r, job_events (w_db w2') !! k = Some r -> vr_id r = k).
  { apply Claim_ok in H2 as [_ Hd]. intros k r. rewrite Hd, map_lookup_imap.
    intros (r0 & Hr0 & [= <-])%bind_Some. destruct (ok_events _ I2 _ _ Hr0) as [<- _].
    by case_match. }
  assert (Hno : forall k r, job_events (w_db w2') !! k = Some r ->
    leased_by (oe_EventID ev1) r1 k r = false).
  { intros k r Hkr. apply not_true_is_false. unfold leased_by.
    rewrite andb_true_iff, !bool_decide_eq_true. intros [-> Hl].
    rewrite Hb' in Hkr. injection Hkr as <-. cbn in *. congruence. }
  destruct (lease_lost_frame _ r1 e3 w2' attempts message He3 Hno Hk) as (H3 & H4 & H5).
  split_and!; [|done..]. unfold publishable in Hp. bool_prop. cbn in *. by apply Z.ltb_lt.
Qed.

(** ** Published means accepted *)

Definition published (d : Db) (k : UUID) : Prop :=
  exists r, job_events d !! k = Some r /\ is_Some (vr_published_at r).

Definition on_bus (w : world) (k : UUID) : Prop :=
  exists ev, ev ∈ w_bus w /\ oe_EventID ev = k.

(** What the relay assumes of its publisher: it keeps out of PostgreSQL,
    does not take messages back, and has the event when it says so. *)
Class PublisherLaws (pub : Publisher) : Prop := {
  pub_frame : forall ev, db_frame (pub ev);
  pub_grows : forall ev e w x, x ∈ w_bus w -> x ∈ w_bus (pub ev e w).2;
  pub_accepts : forall ev e w, (pub ev e w).1 = Ok tt -> on_bus (pub ev e w).2 (oe_EventID ev)
}.

(** Only events in [B] become published. *)
Definition publishes (B : UUID -> Prop) (d d' : Db) : Prop :=
  forall k, published d' k -> published d k \/ B k.

#[export] Instance publishes_refl B : Reflexive (publishes B).
Proof. intros d k. by left. Qed.

Lemma publishes_update (B : UUID -> Prop) (P : UUID -> event_row -> bool) f d :
  (forall k r, P k r = true ->
     B k \/ (is_Some (vr_published_at (f k r)) -> is_Some (vr_published_at r))) ->
  publishes B d (d <| job_events :=
    map_imap (fun k r => Some (if P k r then f k r else r)) (job_events d) |>).
Proof.
  intros Hf k (r' & Hr' & Hp). cbn in Hr'. rewrite map_lookup_imap in Hr'.
  apply bind_Some in Hr' as (r & Hr & [= <-]). unfold published.
  destruct (P k r) eqn:E; [destruct (Hf _ _ E)|]; eauto.
Qed.

Section Delivery.
(** The events other relays publish, each with its own acceptance. *)
Context (A : UUID -> Prop) (e : env).
Context (others : forall n d, publishes A d (e_others e n d)).

Definition delivered (w : world) : Prop :=
  forall k, published (w_db w) k -> A k \/ on_bus w k.

Lemma pool_exec_delivered {X} (f : Time -> Db -> result (Db * X)) w :
  stmt_rel (publishes (on_bus w)) f -> delivered w -> delivered (pool_exec f e w).2.
Proof.
  intros Hf Hw k Hk. unfold on_bus.
  destruct (pool_exec_frame f e w) as (_ & -> & _).
  destruct (pool_exec_rel (publishes (on_bus w)) f e w Hf k Hk) as [Hk'|Hk']; [|by right].
  destruct (others _ _ _ Hk') as [Hk''|]; [|by left]. by apply Hw.
Qed.

Lemma update_counting_delivered P f w :
  (forall k r, P k r = true -> on_bus w k \/
     forall now, is_Some (vr_published_at (f now r)) -> is_Some (vr_published_at r)) ->
  delivered w -> delivered (update_counting P f e w).2.
Proof.
  intros Hf. apply pool_exec_delivered. intros now d d' n. case_match; [done|].
  intros [= <- _]. apply (publishes_update _ P (fun _ => f now)).
  intros k r HP. destruct (Hf k r HP) as [|H0]; [by left | right; apply H0].
Qed.

Lemma Claim_delivered relay batch lease w :
  delivered w -> delivered (Claim relay batch lease e w).2.
Proof.
  apply (pool_exec_delivered (fun now d => _)). intros now d d' items [= <- _].
  apply (publishes_update _ (fun k _ => bool_decide (k ∈ vr_id <$> _))
           (fun _ => set_leased relay _ now)). by right.
Qed.

Lemma MarkPublished_delivered id relay w :
  on_bus w id -> delivered w -> delivered (MarkPublished id relay e w).2.
Proof.
  intros Hb Hw. assert (H : delivered (update_counting (leased_by id relay) set_published e w).2).
  { apply update_counting_delivered; [|done]. unfold leased_by.
    intros k r [Hk _]%andb_prop. apply bool_decide_eq_true in Hk as ->. by left. }
  unfold MarkPublished, mbind, M_bind.
  destruct (update_counting _ _ _ _) as [[n|err] w']; [by case_bool_decide|done].
Qed.

Lemma MarkFailed_delivered id relay attempts message w :
  delivered w -> delivered (MarkFailed id relay attempts message e w).2.
Proof.
  intros Hw. unfold MarkFailed, mbind, M_bind.
  pose proof (update_counting_delivered (leased_by id relay) (set_publish_failed message
    (duration_seconds (int_mul (backoff_seconds attempts) Second))) w) as H.
  destruct (update_counting _ _ _ _) as [[n|err] w']; (apply H; [by right|done]).
Qed.

(** Counters, latencies and tickers touch neither table nor bus. *)
Lemma delivered_frame w w' :
  w_db w' = w_db w -> w_bus w' = w_bus w -> delivered w -> delivered w'.
Proof. unfold delivered, on_bus. by intros -> ->. Qed.

Lemma publish_items_delivered r items w :
  PublisherLaws (rl_publisher r) ->
  delivered w -> delivered (publish_items r items e w).2.
Proof.
  intros L. revert w. induction items as [|ev items IH]; intros w Hw; [done|].
  cbn. unfold mbind at 1, M_bind at 1, try at 1.
  pose proof (pub_frame ev e w) as Hf. pose proof (pub_accepts ev e w) as Ha.
  pose proof (pub_grows ev e w) as Hg.
  destruct (rl_publisher r ev e w) as [res w1]. cbn in Hf, Ha, Hg.
  assert (Hw1 : delivered w1).
  { intros k. rewrite Hf. intros Hk. destruct (Hw k Hk) as [|(x & Hx & <-)]; [by left|].
    right. exists x. auto. }
  destruct res as [[]|err]; unfold mbind, M_bind.
  - unfold check. assert (Hb : on_bus w1 (oe_EventID ev)) by auto.
    pose proof (MarkPublished_delivered _ (rl_id r) w1 Hb Hw1) as Hm.
    destruct (MarkPublished _ _ _ _) as [[[]|err] w2]; [|done]. cbn.
    by apply IH, (delivered_frame w2).
  - unfold try. cbn.
    match goal with |- context [MarkFailed _ _ _ _ e ?x] => set (w1' := x) end.
    pose proof (MarkFailed_delivered (oe_EventID ev) (rl_id r)
      (oe_PublishAttempts ev) (truncate (error_text err) 1000) w1'
      (delivered_frame w1 w1' eq_refl eq_refl Hw1)) as Hm.
    destruct (MarkFailed _ _ _ _ _ _) as [r2 w2]. by apply IH.
Qed.

Lemma publishBatch_delivered r w :
  PublisherLaws (rl_publisher r) -> delivered w -> delivered (publishBatch r e w).2.
Proof.
  intros L Hw. unfold publishBatch, mbind, M_bind.
  pose proof (Claim_delivered (rl_id r) (rl_batch r) (rl_lease r) w Hw) as Hc.
  destruct (Claim _ _ _ _ _) as [[items|err] w1]; [by apply publish_items_delivered|done].
Qed.

Lemma relay_Run_delivered turns r w :
  PublisherLaws (rl_publisher r) -> delivered w -> delivered (relay_Run turns r e w).2.
Proof.
  intros L Hw. unfold relay_Run, time_NewTicker. destruct (_ <=? _); [done|].
  change (delivered (relay_loop turns r e w).2).
  revert w Hw. induction turns as [|n IH]; intros w Hw; [done|].
  cbn. unfold mbind at 1, M_bind at 1, try. pose proof (publishBatch_delivered r w L Hw) as H.
  destruct (publishBatch r e w) as [res w1]. by apply IH.
Qed.

(** At-least-once delivery: a relay marks an event published only
    after its publisher has accepted it.  Whatever faults occur, and
    whatever the other relays publish meanwhile, every event that is
    marked published after any number of batches was published by another
    relay ([A]) or has been accepted by this one's publisher. *)
Theorem published_is_accepted turns r w :
  PublisherLaws (rl_publisher r) -> delivered w -> delivered (relay_Run turns r e w).2.
Proof. apply relay_Run_delivered. Qed.
End Delivery.

(** ** What a batch achieves *)

Lemma backoff_seconds_range a : 0 <= a -> 1 <= backoff_seconds a <= 300.
Proof.
  intros Ha. unfold backoff_seconds. destruct (Z.ltb_spec a 0); [lia|].
  pose proof (Z.pow_pos_nonneg 2 a). lia.
Qed.

Lemma delay_seconds a : duration_seconds (int_mul (backoff_seconds a) Second) = backoff_seconds a.
Proof.
  assert (H : 0 <= backoff_seconds a <= 300).
  { unfold backoff_seconds. destruct (Z.ltb_spec a 0); [lia|].
    pose proof (Z.pow_nonneg 2 a). lia. }
  unfold int_mul, Second, duration_seconds. rewrite wrap64_id by lia.
  by rewrite Z.quot_mul by (unfold Second; lia).
Qed.

Lemma update_leased id relay f r e w :
  healthy e -> (forall k v, job_events (w_db w) !! k = Some v -> vr_id v = k) ->
  job_events (w_db w) !! id = Some r -> vr_claimed_by r = Some relay ->
  int4_ok (vr_publish_attempts r + 1) = true ->
  update_counting (leased_by id relay) f e w =
  (Ok 1%nat, w <| w_db := (w_db w) <| job_events :=
                   <[id := f (e_pgnow e (w_tick w)) r]> (job_events (w_db w)) |> |>
               <| w_tick := S (w_tick w) |>).
Proof.
  intros He Hk Hr Hc Hi. unfold update_counting. rewrite (pool_exec_healthy _ He).
  assert (Hpin : forall k v, leased_by id relay k v = true -> k = id).
  { unfold leased_by. intros k v [H _]%andb_prop. by apply bool_decide_eq_true in H. }
  rewrite bool_decide_eq_true_2.
  - cbn [negb]. rewrite (update_where_key _ _ _ _ _ Hr); [done| |done].
    unfold leased_by. by rewrite !bool_decide_eq_true_2.
  - destruct (select_where _ _) as [|v l] eqn:E; [done|]. exfalso.
    assert (Hin : v ∈ v :: l) by left. rewrite <- E in Hin.
    apply elem_of_select_where in Hin as [[Hl Hn]%andb_prop [k Hv]].
    apply Hpin in Hl. rewrite (Hk _ _ Hv) in Hl. subst k.
    rewrite Hr in Hv. injection Hv as <-. by rewrite Hi in Hn.
Qed.

Section Batch.
(** A publisher that answers [accepts ev] and delivers what it accepts. *)
Context (accepts : OutboxEvent -> result unit) (r : Relay) (e : env).

Definition scripted : Prop := forall ev e w,
  (rl_publisher r ev e w).1 = accepts ev /\ w_db (rl_publisher r ev e w).2 = w_db w /\
  w_bus (rl_publisher r ev e w).2 =
    w_bus w ++ match accepts ev with Ok _ => [ev] | Err _ => [] end.

Lemma scripted_frame : scripted -> forall ev, db_frame (rl_publisher r ev).
Proof. intros H ev e' w. by destruct (H ev e' w) as (_ & ? & _). Qed.

Definition accepted (ev : OutboxEvent) : bool :=
  match accepts ev with Ok _ => true | Err _ => false end.

(** The row of an event after the relay has dealt with it. *)
Definition settle (ev : OutboxEvent) (now : Time) (v : event_row) : event_row :=
  match accepts ev with
  | Ok _ => set_published now v
  | Err err => set_publish_failed (truncate (error_text err) 1000)
                 (backoff_seconds (oe_PublishAttempts ev)) now v
  end.

Definition leased_event (w : world) (ev : OutboxEvent) : Prop :=
  exists v, job_events (w_db w) !! oe_EventID ev = Some v /\
    vr_claimed_by v = Some (rl_id r) /\ int4_ok (vr_publish_attempts v + 1) = true.

Context (Hs : scripted) (He : healthy e).

(** One event: the publisher's answer is recorded in its row. *)
Lemma publish_one ev items w :
  (forall k v, job_events (w_db w) !! k = Some v -> vr_id v = k) -> leased_event w ev ->
  exists w1 v n, job_events (w_db w) !! oe_EventID ev = Some v /\
    publish_items r (ev :: items) e w = publish_items r items e w1 /\
    job_events (w_db w1) = <[oe_EventID ev := settle ev (e_pgnow e n) v]> (job_events (w_db w)) /\
    w_bus w1 = w_bus w ++ List.filter accepted [ev].
Proof.
  intros Hk (v & Hv & Hc & Hi). destruct (Hs ev e w) as (H1 & H2 & H3).
  cbn [publish_items]. unfold mbind at 1, M_bind at 1, try at 1.
  destruct (rl_publisher r ev e w) as [res w1]. cbn in H1, H2, H3. subst res.
  rewrite <- H2 in Hk, Hv. unfold settle, accepted. cbn [List.filter].
  destruct (accepts ev) as [[]|err]; cbn [mbind].
  - unfold MarkPublished. unfold check, mbind, M_bind.
    rewrite (update_leased _ _ _ _ _ _ He Hk Hv Hc Hi). cbn.
    do 3 eexists. split; [by rewrite <- H2|]. split; [reflexivity|]. cbn.
    by rewrite H2.
  - unfold MarkFailed, try, mbind, M_bind.
    cbn. match goal with |- context [update_counting _ _ e ?x] =>
      rewrite (update_leased _ _ _ _ _ x He Hk Hv Hc Hi), delay_seconds end. cbn.
    do 3 eexists. split; [by rewrite <- H2|]. split; [reflexivity|]. cbn.
    by rewrite H2.
Qed.

Lemma publish_items_run items w :
  (forall k v, job_events (w_db w) !! k = Some v -> vr_id v = k) ->
  Forall (leased_event w) items -> NoDup (oe_EventID <$> items) ->
  let out := publish_items r items e w in
  out.1 = Ok tt /\ w_bus out.2 = w_bus w ++ List.filter accepted items /\
  (forall k, k ∉ oe_EventID <$> items ->
     job_events (w_db out.2) !! k = job_events (w_db w) !! k) /\
  (forall ev, ev ∈ items -> exists v n, job_events (w_db w) !! oe_EventID ev = Some v /\
     job_events (w_db out.2) !! oe_EventID ev = Some (settle ev (e_pgnow e n) v)).
Proof.
  revert w. induction items as [|ev items IH]; intros w Hk Hl Hnd.
  { cbn. rewrite app_nil_r. split_and!; try done. intros ev H. by apply not_elem_of_nil in H. }
  apply Forall_cons in Hl as [Hev Hl]. apply NoDup_cons in Hnd as [Hni Hnd].
  destruct (publish_one ev items w Hk Hev) as (w1 & v & now & Hv & -> & Hd & Hb).
  destruct (IH w1) as (H1 & H2 & H3 & H4); [..|done|].
  { intros k v'. rewrite Hd. intros [[<- <-]|[_ Hv']]%lookup_insert_Some; [|by apply Hk].
    rewrite <- (Hk _ _ Hv). unfold settle. by case_match. }
  { apply Forall_forall. intros ev' Hin. eapply Forall_forall in Hl; [|done].
    destruct Hl as (v' & Hv' & ?). exists v'. split; [|done]. rewrite Hd.
    rewrite lookup_insert_ne; [done|]. intros Heq. apply Hni. rewrite Heq.
    apply list_elem_of_fmap. by exists ev'. }
  cbn zeta. rewrite H2, Hb, <- app_assoc. split_and!; [done|by cbn; case_match|..].
  - intros k [Hne Hk']%not_elem_of_cons. by rewrite H3, Hd, lookup_insert_ne.
  - intros ev' [->|Hin]%elem_of_cons.
    + exists v, now. by rewrite H3, Hd, lookup_insert_eq.
    + destruct (H4 _ Hin) as (v' & now' & Hv' & Hs'). exists v', now'. split; [|done].
      rewrite Hd, lookup_insert_ne in Hv'; [done|]. intros Heq. apply Hni. rewrite Heq.
      apply list_elem_of_fmap. by exists ev'.
Qed.
End Batch.

(** A claim in a healthy environment, row by row. *)
Lemma Claim_healthy relay batch lease e w :
  healthy e -> db_ok (w_db w) ->
  let now := e_pgnow e (w_tick w) in
  let rows := pending (batch_size batch) (e_locked e (w_tick w)) now (w_db w) in
  exists items w1, Claim relay batch lease e w = (Ok items, w1) /\ w_bus w1 = w_bus w /\
    items ≡ₚ scanOutboxEvent <$> rows /\ NoDup (oe_EventID <$> items) /\
    (forall k, k ∈ vr_id <$> rows -> exists v, scanOutboxEvent v ∈ items /\
       job_events (w_db w) !! k = Some v /\
       job_events (w_db w1) !! k = Some (set_leased relay (duration_seconds lease) now v)) /\
    (forall k, k ∉ vr_id <$> rows -> job_events (w_db w1) !! k = job_events (w_db w) !! k).
Proof.
  intros He I now rows. unfold Claim, pool_returning. rewrite (pool_exec_healthy _ He).
  fold now rows. change (pending (if batch <? 1 then 50 else batch)
    (e_locked e (w_tick w)) now (w_db w)) with rows.
  do 2 eexists. split; [reflexivity|]. split; [done|]. cbn.
  split; [by rewrite order_by_perm|].
  split; [rewrite leased_ids; by apply pending_nodup|]. split; intros k Hk.
  - pose proof Hk as (v & -> & Hv)%list_elem_of_fmap. exists v.
    pose proof (elem_of_pending _ _ _ _ _ Hv) as [_ [k Hkv]].
    destruct (ok_events _ I _ _ Hkv) as [<- _]. split_and!; [|done|].
    + apply list_elem_of_fmap. exists v. by rewrite elem_of_order_by.
    + rewrite map_lookup_imap, Hkv. cbn. by rewrite bool_decide_eq_true_2.
  - rewrite map_lookup_imap. destruct (job_events (w_db w) !! k); [|done]. cbn.
    by rewrite bool_decide_eq_false_2.
Qed.

Lemma publishBatch_run accepts r e w :
  healthy e -> scripted accepts r -> db_ok (w_db w) ->
  (forall k v, job_events (w_db w) !! k = Some v -> vr_published_at v = None ->
     int4_ok (vr_publish_attempts v + 1) = true) ->
  let rows := pending (batch_size (rl_batch r)) (e_locked e (w_tick w))
                (e_pgnow e (w_tick w)) (w_db w) in
  let out := publishBatch r e w in
  out.1 = Ok tt /\
  (exists items, items ≡ₚ scanOutboxEvent <$> rows /\
     w_bus out.2 = w_bus w ++ List.filter (accepted accepts) items) /\
  (forall k v, job_events (w_db w) !! k = Some v ->
     if decide (k ∈ vr_id <$> rows)
     then exists n, job_events (w_db out.2) !! k =
                    Some (settle accepts (scanOutboxEvent v) (e_pgnow e n) v)
     else job_events (w_db out.2) !! k = Some v) /\
  (forall k, job_events (w_db w) !! k = None -> job_events (w_db out.2) !! k = None).
Proof.
  intros He Hs I Hi rows. unfold publishBatch, mbind, M_bind. cbv zeta.
  destruct (Claim_healthy (rl_id r) (rl_batch r) (rl_lease r) e w He I)
    as (items & w1 & Hc & Hbus & Hperm & Hnd & Hin & Hout). fold rows in Hperm, Hin, Hout.
  rewrite Hc, <- Hbus.
  assert (Hids : forall k, k ∈ oe_EventID <$> items <-> k ∈ vr_id <$> rows).
  { intros k. rewrite Hperm, <- list_fmap_compose. done. }
  destruct (publish_items_run accepts r e Hs He items w1) as (H1 & H2 & H3 & H4); [..|done|].
  { intros k v Hv. destruct (decide (k ∈ vr_id <$> rows)) as [Hk|Hk].
    - destruct (Hin k Hk) as (v0 & _ & Hv0 & Hl). rewrite Hl in Hv. injection Hv as <-.
      cbn. by apply (ok_events _ I).
    - rewrite (Hout k Hk) in Hv. by apply (ok_events _ I). }
  { apply Forall_forall. intros ev Hev.
    destruct (Hin (oe_EventID ev)) as (v0 & _ & Hv0 & Hl).
    { apply Hids, list_elem_of_fmap. by exists ev. }
    eexists. split; [exact Hl|]. split; [done|]. cbn. eapply Hi; [exact Hv0|].
    assert (Hr : oe_EventID ev ∈ vr_id <$> rows)
      by (apply Hids, list_elem_of_fmap; by exists ev).
    apply list_elem_of_fmap in Hr as (v & Hev' & [Hp [k Hkv]]%elem_of_pending).
    pose proof (proj1 (ok_events _ I _ _ Hkv)) as Hid. rewrite Hev', Hid, Hkv in Hv0.
    injection Hv0 as <-. unfold publishable in Hp. by bool_prop. }
  split; [done|]. split; [by exists items|]. split; [intros k v Hv; case_decide as Hk|].
  - destruct (Hin k Hk) as (v0 & Hev & Hv0 & Hl). rewrite Hv in Hv0. injection Hv0 as <-.
    destruct (H4 _ Hev) as (v1 & now & Hv1 & Hset). cbn in Hv1, Hset.
    pose proof (proj1 (ok_events _ I _ _ Hv)) as Hid. rewrite Hid in Hv1, Hset.
    rewrite Hl in Hv1. injection Hv1 as <-. exists now. rewrite Hset.
    unfold settle. by destruct (accepts _).
  - rewrite H3, (Hout k Hk); [done|]. by rewrite Hids.
  - intros k Hk. assert (Hn : k ∉ vr_id <$> rows).
    { intros Hr. destruct (Hin k Hr) as (v & _ & Hv & _). congruence. }
    rewrite H3, (Hout k Hn); [done|]. by rewrite Hids.
Qed.

(** ** The batch, column by column *)

Definition due_event (locked : UUID -> bool) (now : Time) (v : event_row) : Prop :=
  vr_published_at v = None /\ vr_next_publish_at v <= now /\
  (forall t, vr_claimed_until v = Some t -> t < now) /\ locked (vr_id v) = false.

Lemma publishable_due locked now v : publishable locked now v = true <-> due_event locked now v.
Proof.
  unfold publishable, due_event.
  rewrite !andb_true_iff, bool_decide_eq_true, Z.leb_le, negb_true_iff.
  destruct (vr_claimed_until v) as [t|].
  - rewrite Z.ltb_lt. naive_solver.
  - naive_solver.
Qed.

(** The older event first; the smaller id among events of one time. *)
Definition older_event (u v : event_row) : Prop :=
  vr_created_at u < vr_created_at v \/
  vr_created_at u = vr_created_at v /\ (vr_id u < vr_id v)%N.

Lemma created_key_older u v :
  vr_id u <> vr_id v -> key_le (fun r => [vr_created_at r; Z.of_N (vr_id r)]) u v ->
  older_event u v.
Proof.
  unfold key_le, older_event. cbn [lexb]. intros Hne.
  repeat match goal with |- context [?x <? ?y] => destruct (Z.ltb_spec x y) end;
    intros; try done; lia.
Qed.

(** The envelope that tells of a row. *)
Definition envelope_of (v : event_row) (ev : OutboxEvent) : Prop :=
  oe_EventID ev = vr_id v /\ oe_SchemaVersion ev = vr_schema_version v /\
  oe_TenantID ev = vr_tenant_id v /\ oe_EventType ev = vr_event_type v /\
  oe_Source ev = vr_source v /\ oe_EntityType ev = "job" /\
  oe_EntityID ev = uuid_String (vr_job_id v) /\ oe_OccurredAt ev = vr_created_at v /\
  oe_CorrelationID ev = default "" (vr_correlation_id v) /\
  oe_CausationID ev = vr_causation_id v /\ oe_Payload ev = vr_payload v /\
  oe_PublishAttempts ev = vr_publish_attempts v.

(** Only events differ. *)
Definition only_events (d d' : Db) : Prop := d' = d <| job_events := job_events d' |>.

#[export] Instance only_events_preorder : PreOrder only_events.
Proof.
  split; unfold only_events; [by intros []|]. intros d1 d2 d3 H12 H23. rewrite H23, H12. done.
Qed.

Lemma substring_whole n t : (String.length t <= n)%nat -> String.substring 0 n t = t.
Proof.
  revert n. induction t as [|c t IH]; intros [|n] H; cbn in *; try done; [lia|].
  rewrite IH by lia. done.
Qed.

Lemma truncate_substring t : truncate t 1000 = String.substring 0 1000 t.
Proof.
  unfold truncate, string_len. destruct (Z.ltb_spec 1000 (Z.of_nat (String.length t))); [done|].
  rewrite substring_whole; [done|lia].
Qed.

Lemma backoff_power a : backoff_seconds a = Z.min 300 (2 ^ a).
Proof.
  unfold backoff_seconds. destruct (Z.ltb_spec a 0); [|done]. by rewrite Z.pow_neg_r.
Qed.

Definition batch_limit (batch : Z) : nat := if batch <? 1 then 50%nat else Z.to_nat batch.

Lemma pending_first b locked now d :
  db_ok d -> first_due (due_event locked now) older_event (batch_limit b) (job_events d)
    (pending (batch_size b) locked now d).
Proof.
  intros I. assert (E : batch_limit b = Z.to_nat (batch_size b)).
  { unfold batch_limit, batch_size. by case_match. }
  rewrite E. apply (order_by_first _ _ vr_id);
    [by intros k v Hv; destruct (ok_events _ I _ _ Hv)|apply publishable_due|apply created_key_older].
Qed.

(** What became of an event, by the publisher's answer. *)
Definition answered (accepts : OutboxEvent -> result unit) (ev : OutboxEvent) (now : Time)
    (v v' : event_row) : Prop :=
  match accepts ev with
  | Ok _ => published_event now v v'
  | Err err => refused_event (String.substring 0 1000 (error_text err))
                 (Z.min 300 (2 ^ vr_publish_attempts v)) now v v'
  end.

Lemma settle_answered accepts v now :
  answered accepts (scanOutboxEvent v) now v (settle accepts (scanOutboxEvent v) now v).
Proof.
  unfold answered, settle. destruct (accepts (scanOutboxEvent v)) as [u|err].
  - by repeat split.
  - rewrite truncate_substring, backoff_power. by repeat split.
Qed.

(** C32. One batch in a healthy environment, for a publisher that accepts
    some events and refuses others.  The relay takes the oldest events
    that are unpublished, due, not leased and not locked, up to the batch
    size (50 when none is configured), and hands each of them over once,
    with what its row says.  Those the publisher accepts are on the bus,
    and their rows are marked published, one attempt more, without error
    and lease; those it refuses stay unpublished, with one attempt more,
    the first 1000 bytes of the error, no lease, and due again after
    min(300, 2^attempts) seconds.  No other event changes, and no other
    table. *)
Theorem publishBatch_spec accepts r e w :
  healthy e -> scripted accepts r -> db_ok (w_db w) ->
  (forall k v, job_events (w_db w) !! k = Some v -> vr_published_at v = None ->
     int4_ok (vr_publish_attempts v + 1) = true) ->
  let out := publishBatch r e w in
  exists rows events items,
    first_due (due_event (e_locked e (w_tick w)) (e_pgnow e (w_tick w))) older_event
      (if rl_batch r <? 1 then 50%nat else Z.to_nat (rl_batch r)) (job_events (w_db w)) rows /\
    Forall2 envelope_of rows events /\ items ≡ₚ events /\ NoDup (oe_EventID <$> items) /\
    out.1 = Ok tt /\ w_bus out.2 = w_bus w ++ List.filter (accepted accepts) items /\
    (forall k v, job_events (w_db w) !! k = Some v ->
       if decide (k ∈ vr_id <$> rows)
       then exists ev n v', envelope_of v ev /\ job_events (w_db out.2) !! k = Some v' /\
              match accepts ev with
              | Ok _ => published_event (e_pgnow e n) v v'
              | Err err => refused_event (String.substring 0 1000 (error_text err))
                             (Z.min 300 (2 ^ vr_publish_attempts v)) (e_pgnow e n) v v'
              end
       else job_events (w_db out.2) !! k = Some v) /\
    (forall k, job_events (w_db w) !! k = None -> job_events (w_db out.2) !! k = None) /\
    w_db out.2 = (w_db w) <| job_events := job_events (w_db out.2) |>.
Proof.
  intros He Hs I Hi. cbv zeta.
  destruct (publishBatch_run accepts r e w He Hs I Hi) as (H1 & (items & Hp & Hb) & H3 & H4).
  set (rows := pending _ _ _ _) in Hp, H3. exists rows, (scanOutboxEvent <$> rows), items.
  split; [by apply pending_first|]. split.
  { clear. induction rows as [|v rows IH]; cbn; constructor; [by repeat split|done]. }
  split; [done|]. split.
  { rewrite Hp, <- list_fmap_compose. by apply pending_nodup. }
  split; [done|]. split; [done|]. split; [|split; [done|]].
  - intros k v Hv. specialize (H3 k v Hv). case_decide; [|done]. destruct H3 as [n ->].
    exists (scanOutboxEvent v), n. eexists. split; [by repeat split|]. split; [done|].
    apply settle_answered.
  - apply (publishBatch_effects only_events) with (r := r) (e := e).
    + by intros d d' [E _].
    + by apply (scripted_frame accepts).
    + intros n d. rewrite (h_others _ He). done.
Qed.

(** ** Witnesses: the event of the scenario's job *)

(** An in-memory bus that accepts what [f] accepts. *)
Definition bus_publisher (f : OutboxEvent -> result unit) : Publisher := fun ev e w =>
  match f ev with
  | Ok _ => (Ok tt, w <| w_bus := w_bus w ++ [ev] |>)
  | Err err => (Err err, w)
  end.

#[export] Instance bus_publisher_laws f : PublisherLaws (bus_publisher f).
Proof.
  split; unfold bus_publisher.
  - intros ev e w. by case_match.
  - intros ev e w x Hx. case_match; cbn; set_solver.
  - intros ev e w. case_match; cbn; [|done]. intros _. exists ev. cbn. set_solver.
Qed.

Definition relay_with (f : OutboxEvent -> result unit) : Relay :=
  {| rl_publisher := bus_publisher f; rl_id := "relay-1"; rl_batch := 10;
     rl_interval := Second; rl_lease := 30 * Second |}.

Lemma bus_scripted f : scripted f (relay_with f).
Proof.
  intros ev e w. cbn. unfold bus_publisher. destruct (f ev) as [[]|err]; cbn; [done|].
  by rewrite app_nil_r.
Qed.

Definition accept_all (_ : OutboxEvent) : result unit := Ok tt.

Definition outbox_claim1 : result (list OutboxEvent) * world :=
  Claim "relay-1" 10 (30 * Second) env0 created.
Definition outbox_claim2 : result (list OutboxEvent) * world :=
  Claim "relay-2" 10 (30 * Second) env_later outbox_claim1.2.
Definition event0 : OutboxEvent :=
  default (mkOutboxEvent 0 0 0 "" "" "" "" 0 "" None [] 0) (head (value [] outbox_claim1)).

Lemma outbox_Claim_spec_witness :
  outbox_claim1 = (Ok [event0], outbox_claim1.2) /\ NoDup (oe_EventID <$> [event0]).
Proof.
  assert (E : outbox_claim1.1 = Ok [event0]) by by vm_compute.
  assert (H : outbox_claim1 = (Ok [event0], outbox_claim1.2))
    by (rewrite <- E; apply surjective_pairing).
  split; [exact H|].
  exact (proj1 (proj2 (proj2 (outbox_Claim_spec "relay-1" 10 (30 * Second) env0 created
           [event0] outbox_claim1.2 created_ok H)))).
Defined.

Lemma outbox_claim1_ok : db_ok (w_db outbox_claim1.2).
Proof.
  exact (re_ok _ _ (proj1 (Claim_safe "relay-1" 10 (30 * Second) env0 created rely0
           created_ok Logic.I))).
Qed.

Lemma outbox_leases_exclusive_witness :
  w_db (MarkPublished (oe_EventID event0) "relay-1" env0 outbox_claim2.2).2
    = w_db outbox_claim2.2.
Proof.
  assert (E1 : outbox_claim1.1 = Ok [event0]) by by vm_compute.
  assert (E2 : outbox_claim2.1 = Ok [event0]) by by vm_compute.
  assert (H1 : outbox_claim1 = (Ok [event0], outbox_claim1.2))
    by (rewrite <- E1; apply surjective_pairing).
  assert (H2 : outbox_claim2 = (Ok [event0], outbox_claim2.2))
    by (rewrite <- E2; apply surjective_pairing).
  refine (proj1 (proj2 (outbox_leases_exclusive "relay-1" 10 (30 * Second) env0 created [event0]
    outbox_claim1.2 "relay-2" 10 (30 * Second) env_later outbox_claim1.2 [event0]
    outbox_claim2.2 event0 event0 0 "" env0 created_ok outbox_claim1_ok H1 H2 _ _ eq_refl
    eq_refl _ (fun _ _ => eq_refl)))); [by left | by left | done].
Defined.

Lemma created_delivered : delivered (fun _ => False) created.
Proof.
  intros k (r & Hr & Hp). exfalso.
  assert (H : forallb (fun kr : UUID * event_row => bool_decide (vr_published_at kr.2 = None))
    (map_to_list (job_events (w_db created))) = true) by by vm_compute.
  rewrite forallb_forall in H. specialize (H (k, r)).
  rewrite <- list_elem_of_In, elem_of_map_to_list in H. specialize (H Hr).
  apply bool_decide_eq_true in H. cbn in H. rewrite H in Hp. by destruct Hp.
Qed.

Lemma published_is_accepted_witness :
  let w := (relay_Run 1 (relay_with accept_all) env0 created).2 in
  delivered (fun _ => False) w /\ published (w_db w) (oe_EventID event0).
Proof.
  split.
  - apply (published_is_accepted (fun _ => False) env0 (fun n d => reflexivity d) 1
             (relay_with accept_all) created); [apply _|apply created_delivered].
  - eexists. split; [by vm_compute|]. by eexists.
Defined.

(** Of the two events of the scenario's jobs, the one the bus refuses is
    due again after a second, the other is published. *)
Definition refuse_first (ev : OutboxEvent) : result unit :=
  if bool_decide (oe_EventID ev = oe_EventID event0) then Err (ErrorString "down") else Ok tt.

Definition batch2 : result unit * world := publishBatch (relay_with refuse_first) env0 created2.

Lemma publishBatch_spec_witness :
  batch2.1 = Ok tt /\ length (w_bus batch2.2) = 1%nat /\
  exists v n v', job_events (w_db created2) !! oe_EventID event0 = Some v /\
    job_events (w_db batch2.2) !! oe_EventID event0 = Some v' /\
    refused_event "down" 1 (e_pgnow env0 n) v v'.
Proof.
  destruct (publishBatch_spec refuse_first (relay_with refuse_first) env0 created2
    env0_healthy (bus_scripted _) created2_ok) as (rows & events & items & F & _ & _ & _ & H1 & _ & H3 & _).
  { intros k v Hv _.
    assert (H : forallb (fun kr : UUID * event_row => int4_ok (vr_publish_attempts kr.2 + 1))
      (map_to_list (job_events (w_db created2))) = true) by by vm_compute.
    rewrite forallb_forall in H. apply (H (k, v)).
    by rewrite <- list_elem_of_In, elem_of_map_to_list. }
  split; [exact H1|]. split; [by vm_compute|].
  destruct (job_events (w_db created2) !! oe_EventID event0) as [v|] eqn:Hv; [|by vm_compute in Hv].
  specialize (H3 _ _ Hv). case_decide as Hin.
  - destruct H3 as (ev & n & v' & Hev & Hv' & H). exists v, n, v'. split; [done|]. split; [exact Hv'|].
    assert (Ea : vr_publish_attempts v = 0 /\ vr_id v = oe_EventID event0).
    { clear -Hv. vm_compute in Hv. injection Hv as <-. by vm_compute. }
    destruct Ea as [Ea Ei]. destruct Hev as [Hid _]. unfold refuse_first in H.
    rewrite bool_decide_eq_true_2, Ea in H by congruence. exact H.
  - exfalso. clear -H3 Hv. vm_compute in H3. vm_compute in Hv. injection Hv as <-. discriminate H3.
Defined.
