(* ===== verification/Liveness.v ===== *)
(** * The outbox drains

    Safety says that what is marked published was delivered; here is the
    converse for a system at rest: once PostgreSQL and the publisher
    answer again, enough turns of one relay publish every event that is
    due, however many have piled up. *)

From S2P Require Import Prelude GoRuntime Engine Sql Schema Effects Json Dto Repository RepositoryFacts Invariant Auth Service Executor Lock Rfc3339 Registry Worker Scenario Safety Outbox OutboxFacts System Delivery.

Local Open Scope Z_scope.
Local Open Scope go_scope.

Definition unpublished (d : Db) : gmap UUID event_row :=
  filter (fun kv => vr_published_at kv.2 = None) (job_events d).

Lemma unpublished_lookup d k v :
  unpublished d !! k = Some v <-> job_events d !! k = Some v /\ vr_published_at v = None.
Proof. unfold unpublished. by rewrite map_lookup_filter_Some. Qed.

(** [NoDup] keys taken out of a map. *)
Lemma size_without {V} (m : gmap UUID V) (ks : list UUID) :
  NoDup ks -> (forall k, k ∈ ks -> is_Some (m !! k)) ->
  (size (filter (fun kv => kv.1 ∉ ks) m) + length ks = size m)%nat.
Proof.
  intros Hnd Hin. rewrite <- !size_dom.
  assert (E : dom (filter (fun kv => kv.1 ∉ ks) m) = dom m ∖ (list_to_set ks : gset UUID)).
  { apply set_eq. intros k. rewrite elem_of_difference, elem_of_list_to_set, !elem_of_dom.
    unfold is_Some. setoid_rewrite map_lookup_filter_Some. naive_solver. }
  assert (Hsub : (list_to_set ks : gset UUID) ⊆ dom m).
  { intros k. rewrite elem_of_list_to_set, elem_of_dom. apply Hin. }
  rewrite E, size_difference by done. pose proof (subseteq_size _ _ Hsub) as Hs.
  rewrite size_list_to_set in * by done. lia.
Qed.

Section Drain.
Context (r : Relay) (e : env) (He : healthy e) (Hs : scripted (fun _ => Ok tt) r).
Context (unlocked : forall n id, e_locked e n id = false).

(** Due whenever the relay comes round, and with room in its counter. *)
Definition due (v : event_row) : Prop :=
  int4_ok (vr_publish_attempts v + 1) = true /\
  forall n, vr_next_publish_at v <= e_pgnow e n /\
    match vr_claimed_until v with None => True | Some t => t < e_pgnow e n end.

Definition all_due (d : Db) : Prop := forall k v, unpublished d !! k = Some v -> due v.

Lemma due_publishable n v :
  due v -> publishable (e_locked e n) (e_pgnow e n) v = bool_decide (vr_published_at v = None).
Proof.
  intros [_ H]. destruct (H n) as [H1 H2]. unfold publishable. rewrite unlocked.
  rewrite (proj2 (Z.leb_le _ _) H1). cbn [negb].
  destruct (vr_claimed_until v); rewrite ?(proj2 (Z.ltb_lt _ _) H2), !andb_true_r; done.
Qed.

(** A batch takes as many of them as it can hold. *)
Lemma pending_length b n d :
  all_due d ->
  length (pending b (e_locked e n) (e_pgnow e n) d) =
  Nat.min (Z.to_nat b) (size (unpublished d)).
Proof.
  intros Hd. unfold pending, limit_offset. rewrite drop_0, length_take, order_by_perm.
  f_equal. rewrite length_select_where. f_equal. apply map_filter_ext. intros k v Hv. cbn.
  destruct (decide (vr_published_at v = None)) as [Hp|Hp].
  - rewrite due_publishable; [by rewrite bool_decide_eq_true|].
    apply (Hd k). by apply unpublished_lookup.
  - split; [|done]. unfold publishable. rewrite bool_decide_eq_false_2 by done. done.
Qed.

Lemma batch_drains w :
  db_ok (w_db w) -> all_due (w_db w) ->
  let out := publishBatch r e w in
  exists ks,
    out.1 = Ok tt /\ db_ok (w_db out.2) /\ NoDup ks /\
    (forall k, k ∈ ks -> is_Some (unpublished (w_db w) !! k) /\ on_bus out.2 k) /\
    length ks = Nat.min (Z.to_nat (batch_size (rl_batch r))) (size (unpublished (w_db w))) /\
    unpublished (w_db out.2) = filter (fun kv => kv.1 ∉ ks) (unpublished (w_db w)) /\
    (forall k, on_bus w k -> on_bus out.2 k).
Proof.
  intros I Hd out. set (d := w_db w) in *.
  set (rows := pending (batch_size (rl_batch r)) (e_locked e (w_tick w)) (e_pgnow e (w_tick w)) d).
  destruct (publishBatch_run (fun _ => Ok tt) r e w He Hs I) as (H1 & (items & Hp & Hb) & H3 & H4).
  { intros k v Hv Hn. apply (Hd k). by apply unpublished_lookup. }
  fold rows out d in Hp, Hb, H1, H3, H4.
  assert (Hbus : w_bus out.2 = w_bus w ++ items).
  { rewrite Hb. f_equal. clear. induction items as [|x l IH]; [done|]. cbn. by rewrite IH. }
  assert (Hrow : forall k, k ∈ vr_id <$> rows ->
    is_Some (unpublished d !! k) /\ exists v, v ∈ rows /\ vr_id v = k).
  { intros k (v & -> & Hv)%list_elem_of_fmap. split; [|by exists v].
    apply elem_of_pending in Hv as [Hpub [k Hk]].
    pose proof (proj1 (ok_events _ I _ _ Hk)) as <-. exists v. apply unpublished_lookup.
    split; [done|]. unfold publishable in Hpub. by bool_prop. }
  exists (vr_id <$> rows). split_and!.
  - exact H1.
  - apply (re_ok d), (publishBatch_safe r (fun ev => scripted_frame _ _ Hs ev) e w); [|done|done].
    intros n d0 I0. rewrite (h_others _ He). by apply reaches_refl.
  - by apply pending_nodup.
  - intros k Hk. destruct (Hrow k Hk) as [Hu (v & Hv & <-)]. split; [done|].
    exists (scanOutboxEvent v). split; [|done]. rewrite Hbus, elem_of_app. right.
    rewrite Hp. by apply list_elem_of_fmap_2.
  - rewrite length_fmap. by apply pending_length.
  - apply map_eq. intros k. apply option_eq. intros v.
    rewrite unpublished_lookup, map_lookup_filter_Some, unpublished_lookup. cbn.
    destruct (job_events d !! k) as [v0|] eqn:Ek; [|rewrite (H4 k Ek); naive_solver].
    specialize (H3 k v0 Ek). case_decide as Hk.
    + destruct H3 as [now ->]. unfold settle. split; [|naive_solver]. intros [[= <-] [=]].
    + rewrite H3. naive_solver.
  - intros k (x & Hx & <-). exists x. rewrite Hbus. set_solver.
Qed.

(** C33. The backlog drains: if PostgreSQL answers, no other session holds
    or changes events, the publisher accepts, and the unpublished events
    are due, then one relay publishes all of them in backlog / batch turns
    (rounded up): none is left unpublished and each is on the bus. *)
Theorem outbox_drains turns w :
  0 < rl_interval r -> db_ok (w_db w) -> all_due (w_db w) ->
  Z.of_nat (size (unpublished (w_db w))) <= Z.of_nat turns * batch_size (rl_batch r) ->
  let out := relay_Run turns r e w in
  out.1 = Ok tt /\ unpublished (w_db out.2) = ∅ /\
  forall k, is_Some (unpublished (w_db w) !! k) -> on_bus out.2 k.
Proof.
  intros Hi I Hd Hn. unfold relay_Run, time_NewTicker. cbv zeta.
  rewrite (proj2 (Z.leb_gt _ _) Hi). change ((mret tt;; relay_loop turns r) e w)
    with (relay_loop turns r e w).
  assert (G : forall turns w, db_ok (w_db w) -> all_due (w_db w) ->
    Z.of_nat (size (unpublished (w_db w))) <= Z.of_nat turns * batch_size (rl_batch r) ->
    let out := relay_loop turns r e w in
    out.1 = Ok tt /\ unpublished (w_db out.2) = ∅ /\
    (forall k, is_Some (unpublished (w_db w) !! k) -> on_bus out.2 k) /\
    (forall k, on_bus w k -> on_bus out.2 k)); [|by destruct (G turns w I Hd Hn) as (?&?&?&_)].
  clear turns w I Hd Hn. induction turns as [|n IH]; intros w I Hd Hn.
  { assert (Hz : unpublished (w_db w) = ∅) by (apply map_size_empty_inv; lia).
    split_and!; [done|done| |done]. intros k. rewrite Hz, lookup_empty. by intros []. }
  cbn [relay_loop]. rewrite M_bind_eq. unfold try.
  destruct (batch_drains w I Hd) as (ks & H1 & I1 & Hnd & Hks & Hl & Hu & Hg).
  destruct (publishBatch r e w) as [res w1]. cbn [fst snd] in H1, I1, Hu, Hg, Hks.
  assert (Hsz : (size (unpublished (w_db w1)) + length ks = size (unpublished (w_db w)))%nat).
  { rewrite Hu. apply size_without; [done|]. intros k Hk. by apply Hks. }
  assert (Hb : 1 <= batch_size (rl_batch r))
    by (unfold batch_size; destruct (Z.ltb_spec (rl_batch r) 1); lia).
  destruct (IH w1 I1) as (O1 & O2 & O3 & O4).
  - intros k v. rewrite Hu, map_lookup_filter_Some. intros [Hk _]. by apply (Hd k).
  - nia.
  - split_and!; [done|done| |by auto]. intros k Hk. destruct (decide (k ∈ ks)) as [Hin|Hin].
    + by apply O4, Hks.
    + apply O3. destruct Hk as [v Hv]. exists v. rewrite Hu. by apply map_lookup_filter_Some.
Qed.
End Drain.

(** ** Witness: two jobs, a batch size of one *)

Definition relay_small : Relay :=
  {| rl_publisher := bus_publisher (fun _ => Ok tt); rl_id := "relay-1"; rl_batch := 1;
     rl_interval := Second; rl_lease := 30 * Second |}.

(** The clock stands an hour after the jobs were created. *)
Definition env_rest : env :=
  {| e_uuid := fun n => N.of_nat (100 + n); e_time := fun _ => clock_later 0;
     e_pgnow := fun _ => clock_later 0; e_redisnow := fun _ => clock_later 0;
     e_outcome := fun _ => Applied; e_others := fun _ d => d; e_redis_others := fun _ r => r;
     e_renewals := fun _ => 1%nat; e_locked := fun _ _ => false; e_rank := fun _ u => Z.of_N u;
     e_rows := fun _ => 0%nat |}.

Lemma outbox_drains_witness :
  size (unpublished (w_db created2)) = 2%nat /\
  unpublished (w_db (relay_Run 2 relay_small env_rest created2).2) = ∅.
Proof.
  split; [by vm_compute|].
  assert (Hdue : all_due env_rest (w_db created2)).
  { intros k v Hv. apply unpublished_lookup in Hv as [Hv _].
    assert (H : forallb (fun kv : UUID * event_row =>
      int4_ok (vr_publish_attempts kv.2 + 1) && (vr_next_publish_at kv.2 <=? clock_later 0) &&
      bool_decide (vr_claimed_until kv.2 = None)) (map_to_list (job_events (w_db created2))) = true)
      by by vm_compute.
    rewrite forallb_forall in H. specialize (H (k, v)).
    rewrite <- list_elem_of_In, elem_of_map_to_list in H. specialize (H Hv). cbn [snd] in H.
    rewrite !andb_true_iff, bool_decide_eq_true, Z.leb_le in H. destruct H as [[H1 H2] H3].
    split; [exact H1|]. intros n. rewrite H3. by split. }
  refine (proj1 (proj2 (outbox_drains relay_small env_rest _ _ _ 2 created2 _ created2_ok Hdue _))).
  - by split.
  - by intros ev e w.
  - done.
  - done.
  - by vm_compute.
Defined.
