(* ===== verification/Pool.v ===== *)
(** * The goroutines of a worker process: [Run], [consume], [heartbeatLoop], [renewLease]

    [Worker] has the code of one goroutine after the other; here they run
    side by side.  A worker is its main goroutine (the loop of [Run]), a
    goroutine per slot (the loop of [consume]) with the renewal goroutine
    of the job it executes, and the heartbeat.  Each is a state machine
    whose states are the points where it can be overtaken: before a call
    to PostgreSQL or Redis, at a [select], at the unbuffered channel
    [jobs], at [wg.Wait()].  A step runs one call to its end; between two
    steps of a goroutine any other goroutine, any other worker and any
    other process of the system may move. *)

From S2P Require Import Prelude GoRuntime Engine Sql Schema Effects Json Dto Repository RepositoryFacts Invariant Auth Service Executor Lock Rfc3339 Registry Worker Safety System.

Local Open Scope Z_scope.
Local Open Scope go_scope.

(** ** Calls *)

(** Nobody else moves during the call, and [uuid.New()] gives no nil id. *)
Record solo (e : env) : Prop := mk_solo {
  so_others : forall n d, e_others e n d = d;
  so_redis : forall n r, e_redis_others e n r = r;
  so_uuid : forall n, e_uuid e n <> uuid_Nil
}.

(** A call whose context is done fails before it reaches a server. *)
Definition canceled (e : env) : Prop := forall n, exists f, e_outcome e n = Rejected f.

(** One call, under a context that is done or not. *)
Definition call {A} (done : bool) (m : M A) (w : world) (r : result A) (w' : world) : Prop :=
  exists e, solo e /\ (done = true -> canceled e) /\ m e w = (r, w').

(** ** States *)

(** The goroutine of [renewLease]: at its [select], between the database
    and the lock manager, or past [close(done)]. *)
Inductive renewal := RWaiting | RLocking | RDone.

(** A slot: [consume] and, inside it, [ProcessJob]. *)
Inductive slot :=
| Idle
| Acquiring (j : Job)
| Missed (j : Job)
| Attempting (j : Job)
| Executing (j : Job) (started : Time) (cancelled : bool) (r : renewal)
| Joining (j : Job) (started : Time) (res : result string) (r : renewal)
| Finishing (j : Job) (started : Time) (res : result string)
| Releasing (j : Job)
| Exited.

(** The goroutine of [Run]. *)
Inductive main_state :=
| MSelect
| MRecover
| MClaim
| MSend (items : list Job)
| MReturn
| MWait
| MStopped
| MPanicked.

Inductive beat := BCall | BWait | BExited.

Record local := mklocal {
  l_done : bool;
  l_closed : bool;
  l_main : main_state;
  l_slots : list slot;
  l_beat : beat
}.

#[export] Instance eta_local : Eta local := fun l =>
  mklocal (l_done l) (l_closed l) (l_main l) (l_slots l) (l_beat l).
#[export] Instance upd_l_done : Upd l_done := ltac:(mk_upd l_done).
#[export] Instance upd_l_closed : Upd l_closed := ltac:(mk_upd l_closed).
#[export] Instance upd_l_main : Upd l_main := ltac:(mk_upd l_main).
#[export] Instance upd_l_slots : Upd l_slots := ltac:(mk_upd l_slots).
#[export] Instance upd_l_beat : Upd l_beat := ltac:(mk_upd l_beat).

(** What a step is due to: the signal, a ticker that won its [select], the
    program itself; [Execute] is the step that starts the handler of an
    attempt. *)
Inductive label :=
| Signal
| Ticker
| Work
| Execute (attempt : UUID).

Section Goroutines.
Context (s : Worker).

(** ** A slot *)

(** [ProcessJob] up to the handler, once the lock is held. *)
Definition start_attempt (j : Job) : M (Job * Time) :=
  j ← ensure_attempt s j;
  started ← time_Now;
  mret (j, started).

(** [ProcessJob] from the end of the renewal goroutine. *)
Definition finalize (j : Job) (started : Time) (res : result string) : M unit :=
  finished ← time_Now;
  let duration := time_Sub finished started in
  match res with
  | Ok result =>
      check "mark succeeded" (CompleteExecution j (wk_workerID s) duration result);;
      wk_metrics s (JobCompleted (j_JobType j) duration)
  | Err err => finalize_failure s j duration err
  end.

Definition after_acquire (j : Job) (r : result bool) : slot :=
  match r with
  | Ok true => Attempting j
  | Ok false => Missed j
  | Err _ => Idle
  end.

(** After [ExtendLease]: the lock manager is next where it can renew. *)
Definition after_extend (r : result bool) : renewal :=
  match r with
  | Ok true => match lm_Extend (wk_lockManager s) with Some _ => RLocking | None => RWaiting end
  | _ => RDone
  end.

Definition after_lock (r : result bool) : renewal :=
  match r with Ok true => RWaiting | _ => RDone end.

Definition stopped (r : renewal) : bool :=
  match r with RDone => true | _ => false end.

(** A step of the renewal goroutine under [execCtx]. *)
Inductive renew_step (execDone : bool) (j : Job) :
    label -> world * renewal -> world * renewal -> Prop :=
| rn_tick w w' r :
    call execDone (ExtendLease (j_ID j) (wk_workerID s) (lease_ttl s j)) w r w' ->
    renew_step execDone j Ticker (w, RWaiting) (w', after_extend r)
| rn_lock w w' r extend :
    lm_Extend (wk_lockManager s) = Some extend ->
    call execDone (extend (lock_key j) (wk_workerID s) (lease_ttl s j)) w r w' ->
    renew_step execDone j Work (w, RLocking) (w', after_lock r)
| rn_done w :
    execDone = true -> renew_step execDone j Work (w, RWaiting) (w, RDone).

(** A step of a slot that has a job, under the context of the process. *)
Inductive slot_step (done : bool) : label -> world * slot -> world * slot -> Prop :=
| sl_acquire j w w' r :
    call done (lm_Acquire (wk_lockManager s) (lock_key j) (wk_workerID s) (lease_ttl s j)) w r w' ->
    slot_step done Work (w, Acquiring j) (w', after_acquire j r)
| sl_missed j w w' r :
    call done (ReleaseClaim (j_ID j) (wk_workerID s) StatusRetryScheduled) w r w' ->
    slot_step done Work (w, Missed j) (w', Idle)
| sl_start j j' t w w' :
    call done (start_attempt j) w (Ok (j', t)) w' ->
    slot_step done (Execute (j_ActiveAttemptID j')) (w, Attempting j)
      (w', Executing j' t false RWaiting)
| sl_start_failed j err w w' :
    call done (start_attempt j) w (Err err) w' ->
    slot_step done Work (w, Attempting j) (w', Releasing j)
| sl_renew lab j t c r r' w w' :
    (** Its own failure cancels the execution; so does the end of the process. *)
    renew_step (done || c) j lab (w, r) (w', r') ->
    slot_step done lab (w, Executing j t c r) (w', Executing j t (c || stopped r') r')
| sl_deadline j t r w :
    slot_step done Work (w, Executing j t false r) (w, Executing j t true r)
| sl_handler j t c r res w w' :
    (** What is cancelled the handler learns from its context. *)
    call false (wk_executor s {| xc_Timeout := exec_timeout j; xc_Cancelled := done || c |} j) w res w' ->
    slot_step done Work (w, Executing j t c r) (w', Joining j t res r)
| sl_renew_join lab j t res r r' w w' :
    (** [cancel()] came before. *)
    renew_step true j lab (w, r) (w', r') ->
    slot_step done lab (w, Joining j t res r) (w', Joining j t res r')
| sl_join j t res w :
    slot_step done Work (w, Joining j t res RDone) (w, Finishing j t res)
| sl_finish j t res w w' r :
    call done (finalize j t res) w r w' ->
    slot_step done Work (w, Finishing j t res) (w', Releasing j)
| sl_release j w w' r :
    (** With [context.Background()]. *)
    call false (lm_Release (wk_lockManager s) (lock_key j) (wk_workerID s)) w r w' ->
    slot_step done Work (w, Releasing j) (w', Idle).

(** ** The process *)

(** The claim of a tick and its metric. *)
Definition claim_turn : M (list Job) :=
  claimed ← ClaimDueJobs (wk_workerID s) (wk_batchSize s) (wk_lockTTL s);
  wk_metrics s (WorkerClaimed (Z.of_nat (length claimed)));;
  mret claimed.

Definition after_claim (r : result (list Job)) : main_state :=
  match r with Ok claimed => MSend claimed | Err _ => MSelect end.

Inductive local_step : label -> world * local -> world * local -> Prop :=
| ls_signal l w :
    local_step Signal (w, l) (w, l <| l_done := true |>)
| ls_tick l w :
    l_main l = MSelect ->
    local_step Ticker (w, l) (w, l <| l_main := MRecover |>)
| ls_recover l w w' r :
    l_main l = MRecover ->
    call (l_done l) (RecoverExpiredRunningJobs "worker lease expired before completion") w r w' ->
    local_step Work (w, l) (w', l <| l_main := MClaim |>)
| ls_claim l w w' r :
    l_main l = MClaim ->
    call (l_done l) claim_turn w r w' ->
    local_step Work (w, l) (w', l <| l_main := after_claim r |>)
| ls_sent l w :
    l_main l = MSend [] ->
    local_step Work (w, l) (w, l <| l_main := MSelect |>)
| ls_hand l w j items i :
    (** [jobs <- item] meets a slot at its [select]. *)
    l_main l = MSend (j :: items) -> l_closed l = false -> l_slots l !! i = Some Idle ->
    local_step Work (w, l)
      (w, l <| l_main := MSend items |> <| l_slots := <[i := Acquiring j]> (l_slots l) |>)
| ls_send_closed l w j items :
    l_main l = MSend (j :: items) -> l_closed l = true ->
    local_step Work (w, l) (w, l <| l_main := MPanicked |>)
| ls_return l w :
    l_done l = true -> l_main l = MSelect ->
    local_step Work (w, l) (w, l <| l_main := MReturn |>)
| ls_return_send l w j items :
    (** The items that were not handed over are dropped. *)
    l_done l = true -> l_main l = MSend (j :: items) ->
    local_step Work (w, l) (w, l <| l_main := MReturn |>)
| ls_close l w :
    l_main l = MReturn ->
    local_step Work (w, l)
      (w, l <| l_main := if l_closed l then MPanicked else MWait |> <| l_closed := true |>)
| ls_wait l w :
    l_main l = MWait -> Forall (eq Exited) (l_slots l) ->
    local_step Work (w, l) (w, l <| l_main := MStopped |>)
| ls_exit l w i :
    l_slots l !! i = Some Idle -> l_done l || l_closed l = true ->
    local_step Work (w, l) (w, l <| l_slots := <[i := Exited]> (l_slots l) |>)
| ls_slot l lab w w' i t t' :
    l_slots l !! i = Some t -> slot_step (l_done l) lab (w, t) (w', t') ->
    local_step lab (w, l) (w', l <| l_slots := <[i := t']> (l_slots l) |>)
| ls_beat l w w' r :
    l_beat l = BCall ->
    call (l_done l) (rg_Heartbeat (wk_registry s) (wk_workerID s) (wk_heartbeatTTL s)) w r w' ->
    local_step Work (w, l) (w', l <| l_beat := BWait |>)
| ls_beat_tick l w :
    l_beat l = BWait -> local_step Ticker (w, l) (w, l <| l_beat := BCall |>)
| ls_beat_exit l w :
    l_beat l = BWait -> l_done l = true ->
    local_step Work (w, l) (w, l <| l_beat := BExited |>).

(** A run of one worker; between its steps the world may change. *)
Inductive local_run : world * local -> list label -> world * local -> Prop :=
| lr_refl x : local_run x [] x
| lr_step x tr w w1 l lab y :
    local_run x tr (w, l) -> local_step lab (w1, l) y -> local_run x (tr ++ [lab]) y.

Lemma lr_app x tr1 y tr2 z :
  local_run x tr1 y -> local_run y tr2 z -> local_run x (tr1 ++ tr2) z.
Proof.
  intros H1. induction 1 as [y|y tr w w1 l lab z _ IH Hs]; [by rewrite app_nil_r|].
  rewrite (assoc_L (++)). by eapply lr_step; [apply IH|].
Qed.

(** [Run] once its goroutines are started and its tickers made. *)
Definition booted : local :=
  {| l_done := false; l_closed := false; l_main := MSelect;
     l_slots := replicate (Z.to_nat (wk_concurrency s)) Idle; l_beat := BCall |}.
End Goroutines.

(** ** Workers beside each other *)

Record cluster := mkcluster {
  c_world : world;
  c_locals : list local
}.

(** The processes of [ws] on one PostgreSQL and one Redis.  A process may
    crash and be started again; API, relay and administration commit as in
    [sys_step], and Redis is open to them. *)
Inductive cluster_step (ws : list Worker) : option label -> cluster -> cluster -> Prop :=
| cl_worker i s l l' lab w w' ls :
    ws !! i = Some s -> ls !! i = Some l -> local_step s lab (w, l) (w', l') ->
    cluster_step ws (Some lab) (mkcluster w ls) (mkcluster w' (<[i := l']> ls))
| cl_crash i s w ls :
    ws !! i = Some s ->
    cluster_step ws None (mkcluster w ls) (mkcluster w (<[i := booted s]> ls))
| cl_outside w ls d' r' n' :
    sys_step (mksys (w_db w) []) (mksys d' []) ->
    cluster_step ws None (mkcluster w ls)
      (mkcluster (w <| w_db := d' |> <| w_redis := r' |> <| w_tick := n' |>) ls).

(** Runs, with what happened on the way. *)
Inductive cluster_run (ws : list Worker) : cluster -> list label -> cluster -> Prop :=
| cr_refl c : cluster_run ws c [] c
| cr_step c1 c2 c3 lab tr :
    cluster_run ws c1 tr c2 -> cluster_step ws lab c2 c3 ->
    cluster_run ws c1 (tr ++ option_list lab) c3.

Definition executed (lab : label) : option UUID :=
  match lab with Execute a => Some a | _ => None end.

(** ** The jobs a process carries *)

Definition slot_job (t : slot) : option Job :=
  match t with
  | Idle | Releasing _ | Exited => None
  | Acquiring j | Missed j | Attempting j => Some j
  | Executing j _ _ _ | Joining j _ _ _ | Finishing j _ _ => Some j
  end.

(** Those whose handler has not been started. *)
Definition slot_waiting (t : slot) : option Job :=
  match t with Acquiring j | Attempting j => Some j | _ => None end.

Definition unsent (m : main_state) : list Job :=
  match m with MSend items => items | _ => [] end.

Definition held (l : local) : list Job := unsent (l_main l) ++ omap slot_job (l_slots l).
Definition waiting (l : local) : list Job := unsent (l_main l) ++ omap slot_waiting (l_slots l).

(** What [sys] keeps of a cluster. *)
Definition abs (ws : list Worker) (c : cluster) : sys :=
  mksys (w_db (c_world c))
    (concat (zip_with (fun s l => pair (wk_workerID s) <$> held l) ws (c_locals c))).
