(* ===== verification/Schedule.v ===== *)
(** * Schedules of a worker, played

    The step relation of [Pool] as a function: a choice says which
    goroutine moves and how its [select] decides, an environment what the
    calls answer.  [play] runs a list of choices; what it reaches is
    reached by [local_step] ([play_sound]).  The schedules below carry a
    job through a worker, and interrupt one by a signal. *)

From S2P Require Import Prelude GoRuntime Engine Sql Schema Effects Json Dto Repository Auth Service Executor Lock Rfc3339 Registry Worker Scenario Safety System Pool.

Local Open Scope Z_scope.
Local Open Scope go_scope.

(** Who moves. *)
Inductive choice :=
| CSignal
| CTick                      (** the poll ticker fires *)
| CMain                      (** the main goroutine, by its own next step *)
| CReturn                    (** the main goroutine sees [ctx.Done()] *)
| CHand (i : nat)            (** slot [i] receives *)
| CExit (i : nat)            (** slot [i] leaves its loop *)
| CSlot (i : nat)            (** slot [i], by its own next step *)
| CRenew (i : nat)           (** the renewal goroutine of slot [i] *)
| CBeat                      (** the heartbeat calls *)
| CBeatTick
| CBeatExit.

Definition is_exited (t : slot) : bool := match t with Exited => true | _ => false end.

Section Play.
Context (s : Worker) (live down : env).

(** A call and what comes after it; [down] answers when its context is
    done. *)
Definition after {A B} (done : bool) (m : M A) (w : world) (k : result A -> B)
    : label * (world * B) :=
  let '(r, w') := m (if done then down else live) w in (Work, (w', k r)).

Definition play_slot (done : bool) (w : world) (t : slot) : option (label * (world * slot)) :=
  match t with
  | Idle | Exited => None
  | Acquiring j =>
      Some (after done (lm_Acquire (wk_lockManager s) (lock_key j) (wk_workerID s) (lease_ttl s j)) w
        (after_acquire j))
  | Missed j =>
      Some (after done (ReleaseClaim (j_ID j) (wk_workerID s) StatusRetryScheduled) w (fun _ => Idle))
  | Attempting j =>
      match start_attempt s j (if done then down else live) w with
      | (Ok (j', t'), w') =>
          Some (Execute (j_ActiveAttemptID j'), (w', Executing j' t' false RWaiting))
      | (Err _, w') => Some (Work, (w', Releasing j))
      end
  | Executing j t' c r =>
      Some (after false (wk_executor s {| xc_Timeout := exec_timeout j; xc_Cancelled := done || c |} j) w
        (fun res => Joining j t' res r))
  | Joining j t' res RDone => Some (Work, (w, Finishing j t' res))
  | Joining _ _ _ _ => None
  | Finishing j t' res => Some (after done (finalize s j t' res) w (fun _ => Releasing j))
  | Releasing j =>
      Some (after false (lm_Release (wk_lockManager s) (lock_key j) (wk_workerID s)) w (fun _ => Idle))
  end.

(** The renewal goroutine: the ticker if its context is alive. *)
Definition play_renew (execDone : bool) (j : Job) (w : world) (r : renewal)
    : option (label * (world * renewal)) :=
  match r with
  | RWaiting =>
      if execDone then Some (Work, (w, RDone))
      else let '(_, out) := after false (ExtendLease (j_ID j) (wk_workerID s) (lease_ttl s j)) w
                              (after_extend s) in Some (Ticker, out)
  | RLocking =>
      match lm_Extend (wk_lockManager s) with
      | None => None
      | Some extend =>
          Some (after execDone (extend (lock_key j) (wk_workerID s) (lease_ttl s j)) w after_lock)
      end
  | RDone => None
  end.

Definition play_slot_renew (done : bool) (w : world) (t : slot)
    : option (label * (world * slot)) :=
  match t with
  | Executing j t' c r =>
      '(lab, (w', r')) ← play_renew (done || c) j w r;
      Some (lab, (w', Executing j t' (c || stopped r') r'))
  | Joining j t' res r =>
      '(lab, (w', r')) ← play_renew true j w r;
      Some (lab, (w', Joining j t' res r'))
  | _ => None
  end.

Definition play_main (w : world) (l : local) : option (label * (world * local)) :=
  match l_main l with
  | MRecover =>
      Some (after (l_done l) (RecoverExpiredRunningJobs "worker lease expired before completion") w
        (fun _ => l <| l_main := MClaim |>))
  | MClaim => Some (after (l_done l) (claim_turn s) w (fun r => l <| l_main := after_claim r |>))
  | MSend [] => Some (Work, (w, l <| l_main := MSelect |>))
  | MReturn => Some (Work, (w, l <| l_main := if l_closed l then MPanicked else MWait |>
                                 <| l_closed := true |>))
  | MWait => if forallb is_exited (l_slots l) then Some (Work, (w, l <| l_main := MStopped |>)) else None
  | _ => None
  end.

(** Slot [i] moves by [f]. *)
Definition at_slot (f : world -> slot -> option (label * (world * slot))) (i : nat)
    (w : world) (l : local) : option (label * (world * local)) :=
  t ← l_slots l !! i;
  '(lab, (w', t')) ← f w t;
  Some (lab, (w', l <| l_slots := <[i := t']> (l_slots l) |>)).

Definition play_step (c : choice) (w : world) (l : local) : option (label * (world * local)) :=
  match c with
  | CSignal => Some (Signal, (w, l <| l_done := true |>))
  | CTick => match l_main l with
             | MSelect => Some (Ticker, (w, l <| l_main := MRecover |>))
             | _ => None
             end
  | CMain => play_main w l
  | CReturn =>
      if l_done l then
        match l_main l with
        | MSelect | MSend (_ :: _) => Some (Work, (w, l <| l_main := MReturn |>))
        | _ => None
        end
      else None
  | CHand i =>
      match l_main l, l_closed l, l_slots l !! i with
      | MSend (j :: items), false, Some Idle =>
          Some (Work, (w, l <| l_main := MSend items |>
                            <| l_slots := <[i := Acquiring j]> (l_slots l) |>))
      | _, _, _ => None
      end
  | CExit i =>
      match l_done l || l_closed l, l_slots l !! i with
      | true, Some Idle => Some (Work, (w, l <| l_slots := <[i := Exited]> (l_slots l) |>))
      | _, _ => None
      end
  | CSlot i => at_slot (play_slot (l_done l)) i w l
  | CRenew i => at_slot (play_slot_renew (l_done l)) i w l
  | CBeat =>
      match l_beat l with
      | BCall => Some (after (l_done l) (rg_Heartbeat (wk_registry s) (wk_workerID s) (wk_heartbeatTTL s)) w
                         (fun _ => l <| l_beat := BWait |>))
      | _ => None
      end
  | CBeatTick => match l_beat l with
                 | BWait => Some (Ticker, (w, l <| l_beat := BCall |>))
                 | _ => None
                 end
  | CBeatExit => match l_beat l, l_done l with
                 | BWait, true => Some (Work, (w, l <| l_beat := BExited |>))
                 | _, _ => None
                 end
  end.

(** ** Soundness *)

Context (Hlive : solo live) (Hdown : solo down) (Hcanceled : canceled down).

Lemma answer_call {A} done (m : M A) w :
  call done m w (m (if done then down else live) w).1 (m (if done then down else live) w).2.
Proof.
  exists (if done then down else live). split; [by destruct done|]. split; [by intros ->|].
  by destruct (m _ w).
Qed.

Lemma after_call {A B} done (m : M A) w (k : result A -> B) lab w' b :
  after done m w k = (lab, (w', b)) -> lab = Work /\ exists r, call done m w r w' /\ b = k r.
Proof.
  pose proof (answer_call done m w) as Hc. unfold after. destruct (m _ w) as [r w1].
  intros [= <- <- <-]. eauto.
Qed.

(** Inverts a played call. *)
Ltac played H :=
  match type of H with
  | Some _ = Some _ => apply Some_inj in H; apply after_call in H as (-> & ? & ? & ->)
  | Some _ = Some _ => injection H as <- <- <-
  end.

Lemma play_slot_sound done w t lab w' t' :
  play_slot done w t = Some (lab, (w', t')) -> slot_step s done lab (w, t) (w', t').
Proof.
  destruct t as [|j|j|j|j u c r|j u res r|j u res|j|]; cbn; try done; intros H.
  - played H. by eapply sl_acquire.
  - played H. by eapply sl_missed.
  - pose proof (answer_call done (start_attempt s j) w) as Hc.
    destruct (start_attempt s j _ w) as [[[j' u]|err] w1]; injection H as <- <- <-.
    + by apply sl_start.
    + by eapply sl_start_failed.
  - played H. by eapply sl_handler.
  - destruct r; try done. played H. apply sl_join.
  - played H. by eapply sl_finish.
  - played H. by eapply sl_release.
Qed.

Lemma play_renew_sound c j w r lab w' r' :
  play_renew c j w r = Some (lab, (w', r')) -> renew_step s c j lab (w, r) (w', r').
Proof.
  destruct r; cbn; try done; intros H.
  - destruct c; [played H; by apply rn_done|].
    destruct (after false _ w _) as [la [w1 r1]] eqn:E. injection H as <- <- <-.
    apply after_call in E as (_ & x & Hx & ->). by apply rn_tick.
  - destruct (lm_Extend _) as [ext|] eqn:E; [|done]. played H. by eapply rn_lock.
Qed.

Lemma play_slot_renew_sound done w t lab w' t' :
  play_slot_renew done w t = Some (lab, (w', t')) -> slot_step s done lab (w, t) (w', t').
Proof.
  destruct t as [|j|j|j|j u c r|j u res r|j u res|j|]; cbn; try done; intros H;
    apply bind_Some in H as ([la [w1 r1]] & H & [= <- <- <-]); apply play_renew_sound in H.
  - by apply sl_renew.
  - by apply sl_renew_join.
Qed.

Lemma at_slot_sound f i w l lab w' l' :
  (forall t w1 t1 la, f w t = Some (la, (w1, t1)) -> slot_step s (l_done l) la (w, t) (w1, t1)) ->
  at_slot f i w l = Some (lab, (w', l')) -> local_step s lab (w, l) (w', l').
Proof.
  intros Hf H. apply bind_Some in H as (t & Ht & H).
  apply bind_Some in H as ([la [w1 t1]] & H & [= <- <- <-]).
  eapply ls_slot; [done|]. by apply Hf.
Qed.

Lemma exited_all ts : forallb is_exited ts = true -> Forall (eq Exited) ts.
Proof.
  rewrite forallb_forall, Forall_forall. intros H t Ht. apply list_elem_of_In in Ht.
  specialize (H t Ht). by destruct t.
Qed.

Lemma play_main_sound w l lab w' l' :
  play_main w l = Some (lab, (w', l')) -> local_step s lab (w, l) (w', l').
Proof.
  unfold play_main. destruct (l_main l) as [| | |[|j items]| | | |] eqn:E; try done; intros H.
  - played H. by eapply ls_recover.
  - played H. by eapply ls_claim.
  - played H. by apply ls_sent.
  - played H. by apply ls_close.
  - destruct (forallb _ _) eqn:Ex; [|done]. played H. apply ls_wait; [done|]. by apply exited_all.
Qed.

Lemma play_step_sound c w l lab w' l' :
  play_step c w l = Some (lab, (w', l')) -> local_step s lab (w, l) (w', l').
Proof.
  destruct c as [| | | |i|i|i|i| | |]; cbn; intros H.
  - played H. apply ls_signal.
  - destruct (l_main l) eqn:E; try done. played H. by apply ls_tick.
  - by apply play_main_sound.
  - destruct (l_done l) eqn:Ed; [|done]. destruct (l_main l) as [| | |[|j items]| | | |] eqn:E;
      try done; played H; [by apply ls_return|by eapply ls_return_send].
  - destruct (l_main l) as [| | |[|j items]| | | |] eqn:E; try done.
    destruct (l_closed l) eqn:Ec; [done|]. destruct (l_slots l !! i) as [[]|] eqn:Hi; try done.
    played H. by eapply ls_hand.
  - destruct (_ || _) eqn:Ed; [|done]. destruct (l_slots l !! i) as [[]|] eqn:Hi; try done.
    played H. by eapply ls_exit.
  - eapply at_slot_sound; [|done]. intros. by apply play_slot_sound.
  - eapply at_slot_sound; [|done]. intros. by apply play_slot_renew_sound.
  - destruct (l_beat l) eqn:E; try done. played H. by eapply ls_beat.
  - destruct (l_beat l) eqn:E; try done. played H. by apply ls_beat_tick.
  - destruct (l_beat l) eqn:E; try done. destruct (l_done l) eqn:Ed; [|done]. played H.
    by apply ls_beat_exit.
Qed.
(** ** Schedules *)

Fixpoint play (cs : list choice) (w : world) (l : local) : option (list label * (world * local)) :=
  match cs with
  | [] => Some ([], (w, l))
  | c :: cs' =>
      '(lab, (w1, l1)) ← play_step c w l;
      '(tr, x) ← play cs' w1 l1;
      Some (lab :: tr, x)
  end.
End Play.

Lemma cluster_run_app ws c1 tr1 c2 tr2 c3 :
  cluster_run ws c1 tr1 c2 -> cluster_run ws c2 tr2 c3 -> cluster_run ws c1 (tr1 ++ tr2) c3.
Proof.
  intros H1. induction 1 as [c|c2 c3 c4 lab tr _ IH Hs]; [by rewrite app_nil_r|].
  rewrite (assoc_L (++)). eapply cr_step; [by apply IH|done].
Qed.

Section Sound.
Context (s : Worker) (live down : env).
Context (Hlive : solo live) (Hdown : solo down) (Hcanceled : canceled down).

Lemma play_local_run cs w l tr w' l' :
  play s live down cs w l = Some (tr, (w', l')) -> local_run s (w, l) tr (w', l').
Proof.
  revert w l tr. induction cs as [|c cs IH]; intros w l tr H; cbn in H.
  { injection H as <- <- <-. apply lr_refl. }
  apply bind_Some in H as ([lab [w1 l1]] & H1 & H). apply bind_Some in H as ([tr1 x] & H2 & H).
  injection H as <- ->. eapply (lr_app s _ [lab]); [|by apply IH].
  apply (lr_step s (w, l) [] w w l lab); [apply lr_refl|]. by eapply (play_step_sound s live down).
Qed.

Lemma play_sound cs w l tr w' l' :
  play s live down cs w l = Some (tr, (w', l')) ->
  cluster_run [s] (mkcluster w [l]) tr (mkcluster w' [l']).
Proof.
  revert w l tr. induction cs as [|c cs IH]; intros w l tr H; cbn in H.
  { injection H as <- <- <-. apply cr_refl. }
  apply bind_Some in H as ([lab [w1 l1]] & H1 & H). apply bind_Some in H as ([tr1 x] & H2 & H).
  injection H as <- ->. eapply (cluster_run_app _ _ [lab]); [|by apply IH].
  apply (cr_step _ _ (mkcluster w [l]) _ (Some lab) []); [apply cr_refl|].
  eapply (cl_worker [s] 0%nat s l l1 lab w w1 [l]); [done|done|]. by eapply (play_step_sound s live down).
Qed.
End Sound.

(** The environment of the scenario, and one in which contexts are done. *)
Definition env_down : env :=
  {| e_uuid := e_uuid env0; e_time := e_time env0; e_pgnow := e_pgnow env0;
     e_redisnow := e_redisnow env0; e_outcome := fun _ => Rejected FCanceled;
     e_others := fun _ d => d; e_redis_others := fun _ r => r; e_renewals := e_renewals env0;
     e_locked := e_locked env0; e_rank := e_rank env0; e_rows := e_rows env0 |}.

Lemma solo0 : solo env0.
Proof. split; [done..|]. intros n. unfold uuid_Nil. cbn [e_uuid env0 env_down]. lia. Qed.

Lemma solo_down : solo env_down.
Proof. split; [done..|]. intros n. unfold uuid_Nil. cbn [e_uuid env0 env_down]. lia. Qed.

Lemma canceled_down : canceled env_down.
Proof. intros n. by eexists. Qed.

(** Two slots suffice here. *)
Definition worker2 : Worker :=
  {| wk_executor := executor_ok; wk_workerID := "w1"; wk_concurrency := 2; wk_batchSize := 10;
     wk_pollInterval := 5 * Second; wk_lockTTL := ttl0; wk_lockManager := RedisLock;
     wk_metrics := record_metric; wk_registry := NoopRegistry;
     wk_heartbeatTTL := 30 * Second; wk_heartbeatInterval := 10 * Second |}.

#[export] Instance worker2_laws : WorkerLaws worker2.
Proof. by split; [apply _|..]. Qed.

Abbreviation play2 := (play worker2 env0 env_down).

(** A tick, the claim, and slot 1 up to the start of the handler. *)
Definition begin_job : list choice := [CTick; CMain; CMain; CHand 1; CMain; CSlot 1; CSlot 1].

(** The job to its end: two renewals, the handler, the outcome. *)
Definition whole_job : list choice :=
  begin_job ++ [CRenew 1; CRenew 1; CSlot 1; CRenew 1; CSlot 1; CSlot 1; CSlot 1].

(** A signal while the handler runs, down to the return of [Run] and the
    end of the heartbeat. *)
Definition interrupted_job : list choice :=
  begin_job ++ [CSignal; CExit 0; CReturn; CMain; CSlot 1; CRenew 1; CSlot 1; CSlot 1; CSlot 1;
                CExit 1; CMain; CBeat; CBeatExit].

Definition outcome_of (x : option (list label * (world * local)))
    : option (main_state * option Status * list UUID) :=
  match x with
  | Some (tr, (w, l)) => Some (l_main l, jr_status <$> jobs (w_db w) !! 100%N, omap executed tr)
  | None => None
  end.

Example whole_job_succeeds :
  outcome_of (play2 whole_job created (booted worker2)) =
  Some (MSelect, Some StatusSucceeded, [112%N]).
Proof. by vm_compute. Qed.

(** The handler of attempt 112 succeeded, but nothing was recorded. *)
Example interrupted_job_is_open :
  outcome_of (play2 interrupted_job created (booted worker2)) =
  Some (MStopped, Some StatusRunning, [112%N]).
Proof. by vm_compute. Qed.
