(* ===== verification/PoolFacts.v ===== *)
(** * What the goroutines of the workers do together

    A run of any number of workers, with all their goroutines interleaved
    call by call, is a run of the system, and no attempt is executed twice
    in it. *)

From S2P Require Import Prelude GoRuntime Engine Sql Schema Effects Json Dto Repository RepositoryFacts Invariant Preservation Auth Service Executor Lock Rfc3339 Registry Worker Scenario Safety System Finalise Process Claim Pool Schedule.

Local Open Scope Z_scope.
Local Open Scope go_scope.

(** ** Lists *)

Abbreviation attempts js := (j_ActiveAttemptID <$> js).

(** A list of optional contributions with one element replaced. *)
Lemma omap_split {A B} (f : A -> option B) (l : list A) i x :
  l !! i = Some x -> exists rest, omap f l ≡ₚ option_list (f x) ++ rest /\
    forall y, omap f (<[i := y]> l) ≡ₚ option_list (f y) ++ rest.
Proof.
  intros Hi. exists (omap f (take i l) ++ omap f (drop (S i) l)).
  assert (Hcons : forall y k, omap f (y :: k) = option_list (f y) ++ omap f k).
  { intros y k. cbn. by destruct (f y). }
  split; [|intros y; rewrite insert_take_drop by (by eapply lookup_lt_Some)].
  - rewrite <- (take_drop_middle l i x Hi) at 1. rewrite omap_app, Hcons. solve_Permutation.
  - rewrite omap_app, Hcons. solve_Permutation.
Qed.

Lemma concat_split {A} (l : list (list A)) i x :
  l !! i = Some x -> exists rest, concat l ≡ₚ x ++ rest /\
    forall y, concat (<[i := y]> l) ≡ₚ y ++ rest.
Proof.
  intros Hi. exists (concat (take i l) ++ concat (drop (S i) l)).
  split; [|intros y; rewrite insert_take_drop by (by eapply lookup_lt_Some)].
  - rewrite <- (take_drop_middle l i x Hi) at 1. rewrite concat_app. cbn. solve_Permutation.
  - rewrite concat_app. cbn. solve_Permutation.
Qed.

Lemma submseteq_NoDup {A} (l k : list A) : l ⊆+ k -> NoDup k -> NoDup l.
Proof. intros [k' ->]%submseteq_Permutation. by intros [? _]%NoDup_app. Qed.

(** Closes inclusions of short lists of contributions. *)
Ltac within := first [reflexivity | apply submseteq_nil_l].

(** ** Calls *)

Lemma call_commits {A} done (m : M A) w r w' :
  call done m w r w' -> commits m (w_db w) r (w_db w').
Proof. intros (e & [Ho _ _] & _ & H). by exists e, w, w'. Qed.

Lemma call_frame {A} done (m : M A) w r w' :
  db_frame m -> call done m w r w' -> w_db w' = w_db w.
Proof. intros Hm (e & _ & _ & H). specialize (Hm e w). by rewrite H in Hm. Qed.

(** Nothing is written under a context that is done. *)
Lemma canceled_tx {A} (body : Tx A) e w :
  solo e -> canceled e -> exists err, with_tx body e w = (Err err, w <| w_tick := S (w_tick w) |>).
Proof.
  intros [Ho _ _] Hc. unfold with_tx. rewrite Ho. destruct (Hc (w_tick w)) as [f ->].
  eexists. by destruct w.
Qed.

Lemma canceled_stmt {A} (f : Time -> Db -> result (Db * A)) e w :
  solo e -> canceled e -> exists err, pool_exec f e w = (Err err, w <| w_tick := S (w_tick w) |>).
Proof.
  intros [Ho _ _] Hc. unfold pool_exec. rewrite Ho. destruct (Hc (w_tick w)) as [g ->].
  eexists. by destruct w.
Qed.

(** ** Claimed attempts are new *)

Lemma claim_one_attempt w ttl j e now d n out d' n' :
  claim_one w ttl j e now (d, n) = (Ok out, (d', n')) ->
  (exists m, j_ActiveAttemptID out = e_uuid e m) /\
  job_attempts d !! j_ActiveAttemptID out = None /\
  exists a, job_attempts d' = <[j_ActiveAttemptID out := a]> (job_attempts d).
Proof.
  intros H. split; [|by apply claim_one_ok in H as (r & aid & until & ev & p & _ & -> & _ & Hn
    & _ & _ & ->); split; [done|eexists; cbn; reflexivity]].
  unfold claim_one in H. repo_inv H. cbn. eauto.
Qed.

Lemma claim_each_attempts w ttl e now items d n out d' n' :
  tx_each (claim_one w ttl) items e now (d, n) = (Ok out, (d', n')) ->
  NoDup (attempts out) /\
  (forall j, j ∈ out -> (exists m, j_ActiveAttemptID j = e_uuid e m) /\
     job_attempts d !! j_ActiveAttemptID j = None) /\
  (forall k, job_attempts d' !! k = None <-> job_attempts d !! k = None /\ k ∉ attempts out).
Proof.
  revert d n out. induction items as [|x items IH]; intros d n out H; cbn in H; tx_inv H.
  { split; [constructor|]. split; [by intros j ?%not_elem_of_nil|]. set_solver. }
  match goal with H1 : claim_one _ _ x _ _ _ = (Ok ?y, _) |- _ =>
    rename y into j0; apply claim_one_attempt in H1 as (Hm & Hn & a & Ha) end.
  match goal with H1 : tx_each _ items _ _ _ = (Ok ?ys, _) |- _ =>
    rename ys into out; apply IH in H1 as (HD & Hold & Hnew) end.
  assert (Hno : j_ActiveAttemptID j0 ∉ attempts out).
  { intros (j & E & Hj)%list_elem_of_fmap. destruct (Hold j Hj) as [_ Hn'].
    by rewrite Ha, E, lookup_insert_eq in Hn'. }
  split; [by constructor|]. split.
  - intros j [->|Hj]%elem_of_cons; [done|]. destruct (Hold j Hj) as [? Hn']. split; [done|].
    by rewrite Ha, lookup_insert_None in Hn'; destruct Hn'.
  - intros k. rewrite Hnew, Ha, lookup_insert_None. cbn. rewrite not_elem_of_cons. naive_solver.
Qed.

(** The jobs a claim hands out: their attempts are new, distinct and not nil. *)
Record new_claims (d d' : Db) (new : list Job) : Prop := mk_new_claims {
  nc_distinct : NoDup (attempts new);
  nc_not_nil : Forall (fun j => j_ActiveAttemptID j <> uuid_Nil) new;
  nc_unused : Forall (fun j => job_attempts d !! j_ActiveAttemptID j = None) new;
  nc_stored : Forall (fun j => is_Some (job_attempts d' !! j_ActiveAttemptID j)) new
}.

Lemma new_claims_nil d d' : new_claims d d' [].
Proof. split; constructor. Qed.

Lemma claim_new_claims done w b ttl wd out wd' :
  call done (ClaimDueJobs w b ttl) wd (Ok out) wd' -> new_claims (w_db wd) (w_db wd') out.
Proof.
  intros (e & [Ho _ Hu] & _ & H). apply with_tx_ok in H as (n' & H & _). rewrite Ho in H.
  unfold claim_body in H. case_match; [done|]. tx_inv H.
  apply claim_each_attempts in H as (HD & Hold & Hnew).
  split; [done|..]; apply Forall_forall; intros j Hj.
  - destruct (Hold j Hj) as [[m ->] _]. apply Hu.
  - by apply Hold.
  - apply not_eq_None_Some. rewrite Hnew. intros [_ Hno]. by apply Hno, list_elem_of_fmap_2.
Qed.

(** ** A slot refines the system *)

(** The database moved as the system may, while workers carry [G]. *)
Definition moves (G : list (string * Job)) (d d' : Db) : Prop :=
  rtc sys_step (mksys d G) (mksys d' G).

Lemma next_run_at_frame dec err : db_frame (next_run_at dec err).
Proof. unfold next_run_at. destruct (_ <? _); auto with sched. Qed.

Section Slots.
Context (s : Worker) `{!WorkerLaws s}.
Abbreviation me := (wk_workerID s).

Lemma moves_once G d d' : sys_step (mksys d G) (mksys d' G) -> moves G d d'.
Proof. apply rtc_once. Qed.

Lemma moves_same G d d' : d' = d -> moves G d d'.
Proof. intros ->. apply rtc_refl. Qed.

Lemma finalize_failure_moves j dur err e w G :
  solo e -> (me, j) ∈ G ->
  moves G (w_db w) (w_db (finalize_failure s j dur err e w).2).
Proof.
  intros [Ho _ _] Hj. unfold finalize_failure.
  rewrite M_bind_eq. pose proof (wl_metrics (JobFailed (j_JobType j)) e w) as Hf.
  destruct (wk_metrics s _ e w) as [[[]|er] w1]; cbn in Hf; [|by apply moves_same].
  rewrite time_Now_bind. set (now := e_time e _). set (w2 := w1 <| w_tick := _ |>).
  set (dec := DecideFailure now _ _ _). rewrite M_bind_eq.
  pose proof (next_run_at_frame dec err e w2) as Hr.
  replace (w_db w2) with (w_db w) in Hr by done.
  destruct (next_run_at dec err e w2) as [[ra|er] w3]; cbn in Hr; [|by apply moves_same].
  rewrite M_bind_eq. unfold try. rewrite <- Hr.
  destruct (FailExecution _ _ _ _ _ _ _ e w3) as [r w4] eqn:E.
  assert (Hm : moves G (w_db w3) (w_db w4)).
  { apply moves_once. eapply (st_fail me j dur err now ra r); [done|]. by exists e, w3, w4. }
  cbn. destruct r as [[]|er]; [|by case_match].
  case_match; [|done]. pose proof (wl_metrics (JobDeadLettered (j_JobType j)) e w4) as Hd.
  by rewrite Hd.
Qed.

Lemma finalize_moves done j t res w r w' G :
  call done (finalize s j t res) w r w' -> (me, j) ∈ G -> moves G (w_db w) (w_db w').
Proof.
  intros (e & He & _ & H) Hj. unfold finalize in H. rewrite time_Now_bind in H. cbv zeta in H.
  set (w1 := w <| w_tick := _ |>) in H. change (w_db w) with (w_db w1). destruct res as [res|err].
  - rewrite M_bind_eq in H. unfold check in H.
    destruct (CompleteExecution _ _ _ _ e w1) as [r2 w2] eqn:E.
    assert (Hm : moves G (w_db w1) (w_db w2)).
    { apply moves_once. eapply (st_complete me j _ res r2); [done|]. exists e, w1, w2.
      by split; [apply (so_others _ He)|]. }
    destruct r2 as [u|er]; [|by simplify_eq/=].
    pose proof (wl_metrics (JobCompleted (j_JobType j) (time_Sub (e_time e (w_tick w)) t)) e w2)
      as Hf. rewrite H in Hf. cbn in Hf. by rewrite Hf.
  - pose proof (finalize_failure_moves j (time_Sub (e_time e (w_tick w)) t) err e w1 G He Hj) as Hm.
    by rewrite H in Hm.
Qed.

Lemma start_attempt_same done j w r w' :
  j_ActiveAttemptID j <> uuid_Nil -> call done (start_attempt s j) w r w' ->
  w_db w' = w_db w /\ exists t, r = Ok (j, t).
Proof.
  intros Hn (e & _ & _ & H). unfold start_attempt, ensure_attempt in H.
  rewrite bool_decide_eq_false_2, M_ret_bind, time_Now_bind in H by done.
  injection H as <- <-. by eauto.
Qed.

Lemma renew_moves c j lab w r w' r' G :
  renew_step s c j lab (w, r) (w', r') -> executed lab = None /\ moves G (w_db w) (w_db w').
Proof.
  inversion 1 as [w1 w2 rr Hc|w1 w2 rr ext Hx Hc|w1 Hd]; subst; (split; [done|]).
  - apply moves_once. eapply st_extend. by apply call_commits in Hc.
  - apply moves_same. eapply call_frame; [|done]. by apply (extend_frame (L := wk_lockManager s)).
  - by apply moves_same.
Qed.

(** What a slot does: the database moves as the system may, no job appears
    from nowhere, and starting a handler uses up a waiting attempt. *)
Lemma slot_step_refines done lab w t w' t' :
  slot_step s done lab (w, t) (w', t') ->
  (forall j, slot_job t = Some j -> j_ActiveAttemptID j <> uuid_Nil) ->
  (forall G, (forall j, slot_job t = Some j -> (me, j) ∈ G) -> moves G (w_db w) (w_db w')) /\
  option_list (slot_job t') ⊆+ option_list (slot_job t) /\
  option_list (executed lab) ++ attempts (option_list (slot_waiting t')) ⊆+
    attempts (option_list (slot_waiting t)).
Proof.
  inversion 1 as [j w1 w2 r Hc|j w1 w2 r Hc|j j' u w1 w2 Hc|j err w1 w2 Hc|la j u c r r2 w1 w2 Hr
    |j u r w1|j u c r res w1 w2 Hc|la j u res r r2 w1 w2 Hr|j u res w1|j u res w1 w2 r Hc
    |j w1 w2 r Hc]; subst; intros Hn; cbn [slot_job slot_waiting option_list executed] in *.
  - split; [intros; eapply moves_same, call_frame, Hc; apply acquire_frame|].
    destruct r as [[]|]; split; cbn; within.
  - split; [|split; cbn; within]. intros G _. eapply moves_once, st_release. by apply call_commits in Hc.
  - destruct (start_attempt_same done j w _ w' (Hn j eq_refl) Hc) as [Hd (t & [= <- <-])].
    split; [intros; by apply moves_same|]. split; cbn; within.
  - by destruct (start_attempt_same done j w _ w' (Hn j eq_refl) Hc) as [_ (? & ?)].
  - split; [intros G _; by eapply renew_moves|]. rewrite (proj1 (renew_moves _ _ _ _ _ _ _ [] Hr)).
    split; cbn; within.
  - split; [intros; by apply moves_same|]. split; cbn; within.
  - split; [intros; eapply moves_same, call_frame, Hc; apply wl_executor|]. split; cbn; within.
  - split; [intros G _; by eapply renew_moves|]. rewrite (proj1 (renew_moves _ _ _ _ _ _ _ [] Hr)).
    split; cbn; within.
  - split; [intros; by apply moves_same|]. split; cbn; within.
  - split; [|split; cbn; within]. intros G HG. eapply finalize_moves; [done|]. by apply HG.
  - split; [intros; eapply moves_same, call_frame, Hc; apply release_frame|]. split; cbn; within.
Qed.
End Slots.

(** ** A worker refines the system *)

(** How a step of a worker looks from outside: the attempts it claimed are
    new, the database moves as the system may, it carries no job but the
    ones it had and the ones it claimed, and a handler that starts uses up
    an attempt that was waiting. *)
Record refines (s : Worker) (d : Db) (l : local) (lab : option UUID) (d' : Db) (l' : local)
    (new : list Job) : Prop := mk_refines {
  rf_new : new_claims d d' new;
  rf_moves : forall G, (pair (wk_workerID s) <$> held l) ⊆ G ->
    rtc sys_step (mksys d G) (mksys d' (G ++ (pair (wk_workerID s) <$> new)));
  rf_held : held l' ⊆+ held l ++ new;
  rf_once : option_list lab ++ attempts (waiting l') ⊆+ attempts (waiting l) ++ attempts new
}.

Section Locals.
Context (s : Worker) `{!WorkerLaws s}.

(** The main goroutine goes on, the slots stay. *)
Lemma refines_main d l d' l' new :
  new_claims d d' new ->
  (forall G, rtc sys_step (mksys d G) (mksys d' (G ++ (pair (wk_workerID s) <$> new)))) ->
  l_slots l' = l_slots l -> unsent (l_main l') ⊆+ unsent (l_main l) ++ new ->
  refines s d l None d' l' new.
Proof.
  intros Hn Hm Hs Hu. split; [done|intros G _; apply Hm|..]; unfold held, waiting; rewrite Hs.
  - etrans; [by apply submseteq_skips_r|]. apply Permutation_submseteq. solve_Permutation.
  - cbn. rewrite <- fmap_app. apply fmap_submseteq. etrans; [by apply submseteq_skips_r|].
    apply Permutation_submseteq. solve_Permutation.
Qed.

(** The same with nothing claimed. *)
Lemma refines_quiet d l d' l' :
  (forall G, moves G d d') -> l_slots l' = l_slots l ->
  unsent (l_main l') ⊆+ unsent (l_main l) -> refines s d l None d' l' [].
Proof.
  intros Hm Hs Hu. apply refines_main; [apply new_claims_nil| |done|by rewrite app_nil_r].
  intros G. rewrite fmap_nil, app_nil_r. apply Hm.
Qed.

(** A slot goes on. *)
Lemma refines_slot d l lab d' l' i t t' :
  l_slots l !! i = Some t -> l_slots l' = <[i := t']> (l_slots l) ->
  (forall G, (forall j, slot_job t = Some j -> (wk_workerID s, j) ∈ G) -> moves G d d') ->
  unsent (l_main l') ++ option_list (slot_job t') ⊆+
    unsent (l_main l) ++ option_list (slot_job t) ->
  option_list lab ++ attempts (unsent (l_main l') ++ option_list (slot_waiting t')) ⊆+
    attempts (unsent (l_main l) ++ option_list (slot_waiting t)) ->
  refines s d l lab d' l' [].
Proof.
  intros Hi Hs Hm Hh Hw.
  destruct (omap_split slot_job _ _ _ Hi) as (rest & E1 & E2).
  destruct (omap_split slot_waiting _ _ _ Hi) as (rest' & W1 & W2).
  split; [apply new_claims_nil|..]; unfold held, waiting; rewrite ?Hs.
  - intros G HG. rewrite fmap_nil, app_nil_r. apply Hm. intros j Hj. apply HG.
    apply list_elem_of_fmap_2. unfold held. rewrite E1, Hj. set_solver.
  - rewrite E1, E2, app_nil_r, !(assoc_L (++)). by apply submseteq_skips_r.
  - rewrite W1, W2, fmap_nil, app_nil_r, !(assoc_L (++)), !(fmap_app _ _ rest'), (assoc_L (++)).
    by apply submseteq_skips_r.
Qed.

Lemma claim_turn_refines done w l r w' :
  l_main l = MClaim -> call done (claim_turn s) w r w' ->
  exists new, refines s (w_db w) l None (w_db w') (l <| l_main := after_claim r |>) new.
Proof.
  intros Hl (e & He & Hd & H). unfold claim_turn in H. rewrite M_bind_eq in H.
  destruct (ClaimDueJobs _ _ _ e w) as [[out|er] w1] eqn:E.
  2:{ injection H as <- <-. exists []. apply refines_quiet; [|done|by rewrite Hl].
      intros G. eapply moves_once, st_claim_lost. apply (call_commits done). by exists e. }
  assert (Hcall : call done (ClaimDueJobs (wk_workerID s) (wk_batchSize s) (wk_lockTTL s)) w
    (Ok out) w1) by (by exists e).
  pose proof (wl_metrics (s := s) (WorkerClaimed (Z.of_nat (length out))) e w1) as Hf.
  rewrite M_bind_eq in H. destruct (wk_metrics s _ e w1) as [[u|er] w2]; cbn in Hf; injection H as <- <-.
  - exists out. rewrite Hf. apply refines_main; [by eapply claim_new_claims| |done|by rewrite Hl].
    intros G. eapply rtc_once, st_claim. by apply call_commits in Hcall.
  - exists []. rewrite Hf. apply refines_quiet; [|done|by rewrite Hl]. intros G.
    eapply rtc_l; [eapply st_claim; by apply call_commits in Hcall|].
    apply rtc_once, st_forget. set_solver.
Qed.

Lemma local_step_refines lab w l w' l' :
  local_step s lab (w, l) (w', l') ->
  Forall (fun j => j_ActiveAttemptID j <> uuid_Nil) (held l) ->
  exists new, refines s (w_db w) l (executed lab) (w_db w') l' new.
Proof.
  inversion 1 as [? ? | ? ? E | ? ? ? r E Hc | ? ? ? r E Hc | ? ? E | ? ? j items i E Ecl Hi
    | ? ? j items E Ecl | ? ? Ed E | ? ? j items Ed E | ? ? E | ? ? E Hx | ? ? i Hi Ed
    | ? ? ? ? i t t' Hi Hs | ? ? ? r E Hc | ? ? E | ? ? E Ed]; subst; intros Hn;
    cbn [executed]; try (exists []; apply refines_quiet; cbn; rewrite ?E;
      [intros G; by apply moves_same|done|by within]).
  - exists []. apply refines_quiet; [|done|cbn; within]. intros G.
    eapply moves_once, st_recover. by apply call_commits in Hc.
  - by eapply claim_turn_refines.
  - exists []. eapply (refines_slot _ _ _ _ _ i Idle); [done|cbn; reflexivity|..]; cbn; rewrite ?E.
    + intros G _. by apply moves_same.
    + apply Permutation_submseteq. cbn. solve_Permutation.
    + apply Permutation_submseteq. cbn. rewrite !fmap_app. cbn. solve_Permutation.
  - exists []. apply refines_quiet; cbn; [intros G; by apply moves_same|done|].
    rewrite E. by destruct (l_closed l).
  - exists []. eapply (refines_slot _ _ _ _ _ i Idle); [done|cbn; reflexivity|..]; cbn; [|done..].
    intros G _. by apply moves_same.
  - exists []. destruct (slot_step_refines s _ _ _ _ _ _ Hs) as (Hm & Hh & Hw).
    { intros j Hj. rewrite Forall_forall in Hn. apply Hn. apply elem_of_app. right.
      apply list_elem_of_omap. exists t. split; [by eapply list_elem_of_lookup_2|done]. }
    eapply (refines_slot _ _ _ _ _ i t); [done|cbn; reflexivity|done|..]; cbn.
    + by apply submseteq_skips_l.
    + rewrite !fmap_app, (assoc_L (++)), (Permutation_app_comm (option_list _)), <- (assoc_L (++)).
      by apply submseteq_skips_l.
  - exists []. apply refines_quiet; cbn; [|done|done]. intros G. eapply moves_same, call_frame, Hc.
    apply heartbeat_frame.
Qed.
End Locals.

(** ** A cluster refines the system *)

Section Cluster.
Context (ws : list Worker) (laws : Forall WorkerLaws ws).
Context (x0 : sys) (start : reachable x0).

Definition flights (ls : list local) : list (string * Job) :=
  concat (zip_with (fun s l => pair (wk_workerID s) <$> held l) ws ls).

Definition all_waiting (ls : list local) : list UUID :=
  concat ((fun l => attempts (waiting l)) <$> ls).

(** What holds of a cluster after [past] handlers were started. *)
Record cluster_ok (c : cluster) (past : list UUID) : Prop := mk_cluster_ok {
  co_run : rtc sys_step x0 (abs ws c);
  co_length : length (c_locals c) = length ws;
  co_not_nil : Forall (fun l => Forall (fun j => j_ActiveAttemptID j <> uuid_Nil) (held l))
                 (c_locals c);
  co_distinct : NoDup (past ++ all_waiting (c_locals c));
  co_stored : Forall (fun a => is_Some (job_attempts (w_db (c_world c)) !! a))
                (past ++ all_waiting (c_locals c))
}.

Lemma flights_split ls i s l :
  ws !! i = Some s -> ls !! i = Some l -> exists rest,
    flights ls ≡ₚ (pair (wk_workerID s) <$> held l) ++ rest /\
    forall l', flights (<[i := l']> ls) ≡ₚ (pair (wk_workerID s) <$> held l') ++ rest.
Proof.
  intros Hs Hl. destruct (concat_split (zip_with (fun s l => pair (wk_workerID s) <$> held l) ws ls) i
    (pair (wk_workerID s) <$> held l)) as (rest & E1 & E2).
  { rewrite lookup_zip_with, Hs. cbn. by rewrite Hl. }
  exists rest. split; [done|]. intros l'. rewrite <- E2. unfold flights.
  pose proof (insert_zip_with (fun s l => pair (wk_workerID s) <$> held l) ws ls i s l') as Hz.
  rewrite (list_insert_id ws i s Hs) in Hz. by rewrite <- Hz.
Qed.

Lemma waiting_split ls i l :
  ls !! i = Some l -> exists rest, all_waiting ls ≡ₚ attempts (waiting l) ++ rest /\
    forall l', all_waiting (<[i := l']> ls) ≡ₚ attempts (waiting l') ++ rest.
Proof.
  intros Hl. destruct (concat_split ((fun l => attempts (waiting l)) <$> ls) i (attempts (waiting l)))
    as (rest & E1 & E2). { by rewrite list_lookup_fmap, Hl. }
  exists rest. split; [done|]. intros l'. rewrite <- E2. unfold all_waiting.
  by rewrite list_fmap_insert.
Qed.

Lemma run_evolves x y : rtc sys_step x0 x -> rtc sys_step x y ->
  rtc sys_step x0 y /\ evolves (sy_db x) (sy_db y).
Proof.
  intros H Hxy. split; [by etrans|]. destruct start as (i & H0 & Hi).
  destruct (sys_steps_sound i x) as [Hok _]; [by etrans|by apply initial_ok|].
  by destruct (sys_steps_sound _ _ Hxy Hok) as [_ [_ ? _]].
Qed.

Lemma stored_evolves d d' ids :
  evolves d d' -> Forall (fun a => is_Some (job_attempts d !! a)) ids ->
  Forall (fun a => is_Some (job_attempts d' !! a)) ids.
Proof.
  intros E H. eapply Forall_impl; [exact H|]. intros a [r Hr].
  destruct (ev_attempts _ _ E _ _ Hr) as (r' & Hr' & _). eauto.
Qed.

(** A step of the others that are not workers. *)
Lemma outside_lift d d' G :
  sys_step (mksys d []) (mksys d' []) -> rtc sys_step (mksys d G) (mksys d' G).
Proof.
  inversion 1; subst; try (by apply rtc_once; econstructor; eauto);
    try (match goal with H : _ ∈ [] |- _ => by apply not_elem_of_nil in H end).
  eapply rtc_l; [by eapply st_claim|]. apply rtc_once, st_forget. set_solver.
Qed.

Lemma held_booted s : held (booted s) = [] /\ waiting (booted s) = [].
Proof.
  unfold held, waiting. cbn. induction (Z.to_nat (wk_concurrency s)) as [|n IH]; cbn in *; done.
Qed.

Lemma cluster_worker_ok i s l l' lab w w' ls past :
  ws !! i = Some s -> ls !! i = Some l -> local_step s lab (w, l) (w', l') ->
  cluster_ok (mkcluster w ls) past ->
  cluster_ok (mkcluster w' (<[i := l']> ls)) (past ++ option_list (executed lab)).
Proof.
  intros Hs Hl Hstep [Hr Hlen Hnil HD HS]. cbn in *.
  assert (L : WorkerLaws s) by (by eapply Forall_lookup_1).
  pose proof (Forall_lookup_1 _ _ _ _ Hnil Hl) as Hn.
  destruct (local_step_refines s _ _ _ _ _ Hstep Hn) as (new & [Hnew Hm Hh Ho]).
  destruct (flights_split ls i s l Hs Hl) as (rest & F1 & F2).
  destruct (waiting_split ls i l Hl) as (wrest & W1 & W2).
  set (G := flights ls). assert (HG : abs ws (mkcluster w ls) = mksys (w_db w) G) by done.
  rewrite HG in Hr.
  assert (Hsub : (pair (wk_workerID s) <$> held l) ⊆ G) by (unfold G; rewrite F1; set_solver).
  destruct (run_evolves _ _ Hr (Hm G Hsub)) as [Hr' E].
  assert (Hall : past ++ option_list (executed lab) ++ all_waiting (<[i := l']> ls) ⊆+
                 (past ++ all_waiting ls) ++ attempts new).
  { rewrite W1, W2, <- (assoc_L (++) past). apply submseteq_skips_l.
    rewrite (assoc_L (++)). etrans; [by apply submseteq_skips_r|].
    apply Permutation_submseteq. solve_Permutation. }
  assert (Hfl : flights (<[i := l']> ls) ⊆ G ++ (pair (wk_workerID s) <$> new)).
  { unfold G. intros x. rewrite F1, F2, !elem_of_app. intros [(j & -> & Hj)%list_elem_of_fmap|]; [|by auto].
    eapply elem_of_submseteq in Hj; [|exact Hh]. apply elem_of_app in Hj as [Hj|Hj].
    - left. left. by apply list_elem_of_fmap_2.
    - right. by apply list_elem_of_fmap_2. }
  split; cbn.
  - apply (run_evolves _ (abs ws (mkcluster w' (<[i := l']> ls)))) in Hr'; [apply Hr'|].
    apply rtc_once, st_forget. exact Hfl.
  - by rewrite length_insert.
  - apply Forall_insert; [done|]. apply Forall_forall. intros j Hj.
    eapply elem_of_submseteq in Hj; [|exact Hh]. revert j Hj. apply Forall_forall, Forall_app.
    split; [done|]. apply (nc_not_nil _ _ _ Hnew).
  - rewrite <- (assoc_L (++)). eapply submseteq_NoDup; [exact Hall|].
    apply NoDup_app. split; [done|]. split; [|apply (nc_distinct _ _ _ Hnew)].
    intros a Ha (j & -> & Hj)%list_elem_of_fmap.
    pose proof (proj1 (Forall_forall _ _) (nc_unused _ _ _ Hnew) j Hj) as Hu.
    destruct (proj1 (Forall_forall _ _) HS _ Ha) as [? Hx]. cbn in Hu, Hx. congruence.
  - rewrite <- (assoc_L (++)). apply Forall_forall. intros a Ha.
    eapply elem_of_submseteq in Ha; [|exact Hall]. revert a Ha. apply Forall_forall.
    apply Forall_app. split; [by eapply stored_evolves|]. apply Forall_fmap.
    apply (nc_stored _ _ _ Hnew).
Qed.

Lemma cluster_step_ok lab c c' past :
  cluster_step ws lab c c' -> cluster_ok c past ->
  cluster_ok c' (past ++ omap executed (option_list lab)).
Proof.
  destruct 1 as [i s l l' lab w w' ls Hs Hl Hstep|i s w ls Hs|w ls d' r' n' Hstep]; intros Hok.
  - replace (omap executed (option_list (Some lab))) with (option_list (executed lab))
      by (cbn; by destruct (executed lab)).
    by eapply cluster_worker_ok.
  - cbn. rewrite app_nil_r. destruct Hok as [Hr Hlen Hnil HD HS]. cbn in *.
    destruct (lookup_lt_is_Some_2 ls i) as [l Hl].
    { rewrite Hlen. by eapply lookup_lt_Some. }
    destruct (held_booted s) as [Hh Hw].
    destruct (flights_split ls i s l Hs Hl) as (rest & F1 & F2).
    destruct (waiting_split ls i l Hl) as (wrest & W1 & W2).
    assert (Hsub : past ++ all_waiting (<[i := booted s]> ls) ⊆+ past ++ all_waiting ls).
    { rewrite W1, W2, Hw. apply submseteq_skips_l. cbn. by apply submseteq_inserts_l. }
    assert (Hfl : flights (<[i := booted s]> ls) ⊆ flights ls).
    { intros x. rewrite F1, F2, Hh. set_solver. }
    split; cbn.
    + apply (run_evolves _ (mksys (w_db w) (flights (<[i := booted s]> ls)))) in Hr; [apply Hr|].
      by apply rtc_once, st_forget.
    + by rewrite length_insert.
    + apply Forall_insert; [done|]. by rewrite Hh.
    + by eapply submseteq_NoDup.
    + apply Forall_forall. intros a Ha. eapply elem_of_submseteq in Ha; [|exact Hsub].
      rewrite Forall_forall in HS. by apply HS.
  - cbn. rewrite app_nil_r. destruct Hok as [Hr Hlen Hnil HD HS]. cbn in *.
    apply (outside_lift _ _ (flights ls)) in Hstep.
    destruct (run_evolves _ _ Hr Hstep) as [Hr' E].
    split; cbn; [done..|]. by eapply stored_evolves.
Qed.

Lemma cluster_start_ok w :
  x0 = mksys (w_db w) [] -> cluster_ok (mkcluster w (booted <$> ws)) [].
Proof.
  intros Hx.
  assert (Hf : flights (booted <$> ws) = []).
  { unfold flights. clear laws. induction ws as [|s ws' IH]; [done|].
    rewrite fmap_cons. cbn [zip_with concat]. by rewrite (proj1 (held_booted s)). }
  assert (Hw : all_waiting (booted <$> ws) = []).
  { unfold all_waiting. clear laws Hf. induction ws as [|s ws' IH]; [done|].
    rewrite !fmap_cons. cbn [concat]. by rewrite (proj2 (held_booted s)). }
  split; cbn [c_locals c_world app].
  - change (rtc sys_step x0 (mksys (w_db w) (flights (booted <$> ws)))). by rewrite Hf, Hx.
  - by rewrite length_fmap.
  - apply Forall_fmap, Forall_forall. intros s _. unfold compose. by rewrite (proj1 (held_booted s)).
  - rewrite Hw. constructor.
  - by rewrite Hw.
Qed.

Lemma cluster_run_ok c tr c' :
  cluster_run ws c tr c' -> cluster_ok c [] -> cluster_ok c' (omap executed tr).
Proof.
  intros Hrun Hok. induction Hrun as [c|c1 c2 c3 lab tr _ IH Hstep]; [done|].
  rewrite omap_app. by eapply cluster_step_ok; [|apply IH].
Qed.
End Cluster.

(** ** The theorems *)

(** C3. The goroutines refine the system: whatever any number of worker
    processes do from their start, with every call of every slot, renewal,
    heartbeat and poll loop interleaved in any order, with signals, crashes
    and restarts, beside the API, the relays and the administration, the
    database and the jobs the workers carry go through steps of [System]
    only.  So all that is proved of its runs holds of theirs. *)
Theorem cluster_refines ws w tr c :
  Forall WorkerLaws ws -> reachable (mksys (w_db w) []) ->
  cluster_run ws (mkcluster w (booted <$> ws)) tr c ->
  rtc sys_step (mksys (w_db w) []) (abs ws c).
Proof.
  intros laws start H.
  apply (co_run ws (mksys (w_db w) []) c (omap executed tr)).
  eapply cluster_run_ok; [done|done|exact H|]. by apply cluster_start_ok.
Qed.

(** C7. No attempt is executed twice: in any such run of any number of
    workers the handler is started at most once for each attempt, however
    the slots race, leases expire and processes crash. *)
Theorem attempts_start_once ws w tr c :
  Forall WorkerLaws ws -> reachable (mksys (w_db w) []) ->
  cluster_run ws (mkcluster w (booted <$> ws)) tr c ->
  NoDup (omap executed tr).
Proof.
  intros laws start H.
  assert (Hok : cluster_ok ws (mksys (w_db w) []) c (omap executed tr)).
  { eapply cluster_run_ok; [done|done|exact H|]. by apply cluster_start_ok. }
  by destruct (proj1 (NoDup_app _ _) (co_distinct _ _ _ _ Hok)) as [? _].
Qed.

(** ** Witnesses: the job of the scenario through a worker of two slots *)

Definition played : list label * (world * local) :=
  default ([], (created, booted worker2)) (play2 whole_job created (booted worker2)).

Lemma played_run :
  cluster_run [worker2] (mkcluster created (booted <$> [worker2])) played.1
    (mkcluster played.2.1 [played.2.2]).
Proof.
  eapply (play_sound worker2 env0 env_down solo0 solo_down canceled_down whole_job).
  vm_compute. reflexivity.
Qed.

Lemma created_reachable : reachable (mksys (w_db created) []).
Proof. exists (mksys db0 []). split; [apply initial0|]. apply rtc_once, created_step. Qed.

Lemma cluster_refines_witness :
  rtc sys_step (mksys (w_db created) []) (abs [worker2] (mkcluster played.2.1 [played.2.2])) /\
  (jr_status <$> jobs (w_db played.2.1) !! 100%N) = Some StatusSucceeded.
Proof.
  split; [|by vm_compute].
  exact (cluster_refines [worker2] created played.1 (mkcluster played.2.1 [played.2.2])
    (Forall_cons_2 _ _ _ worker2_laws (Forall_nil_2 _)) created_reachable played_run).
Defined.

Lemma attempts_start_once_witness :
  NoDup (omap executed played.1) /\ omap executed played.1 = [112%N].
Proof.
  split; [|by vm_compute].
  exact (attempts_start_once [worker2] created played.1 (mkcluster played.2.1 [played.2.2])
    (Forall_cons_2 _ _ _ worker2_laws (Forall_nil_2 _)) created_reachable played_run).
Defined.
