(* ===== verification/Shutdown.v ===== *)
(** * A worker never gets stuck, and a signal stops it

    The goroutines of [Pool] never panic on their channel and never wait
    for each other in vain; after the signal every run of them comes to an
    end, in which all have returned; and after the signal nothing is
    written any more, not even the outcome of a job that was executed. *)

From S2P Require Import Prelude GoRuntime Engine Sql Schema Effects Json Dto Repository RepositoryFacts Invariant Preservation Auth Service Executor Lock Rfc3339 Registry Worker Scenario Safety System Finalise Process Claim Pool Schedule PoolFacts.

Local Open Scope Z_scope.
Local Open Scope go_scope.

(** ** The channel and the wait group *)

Section Worker.
Context (s : Worker).

(** The renewal goroutine waits for a lock manager that can renew. *)
Definition renewal_ok (r : renewal) : Prop :=
  r = RLocking -> is_Some (lm_Extend (wk_lockManager s)).

Definition slot_ok (t : slot) : Prop :=
  match t with
  | Executing _ _ _ r | Joining _ _ _ r => renewal_ok r
  | _ => True
  end.

(** [Run] is past its loop. *)
Definition leaving (m : main_state) : bool :=
  match m with MReturn | MWait | MStopped => true | _ => false end.

Definition waited (m : main_state) : bool :=
  match m with MWait | MStopped => true | _ => false end.

(** The channel is closed once, after the loop, and the loop is left only
    when the context is done; a slot or the heartbeat that has exited had
    seen that too; when [Run] has returned, every slot has exited. *)
Record local_ok (l : local) : Prop := mk_local_ok {
  lo_length : length (l_slots l) = Z.to_nat (wk_concurrency s);
  lo_main : l_main l <> MPanicked;
  lo_closed : l_closed l = waited (l_main l);
  lo_leaving : leaving (l_main l) = true -> l_done l = true;
  lo_exited : Exited ∈ l_slots l -> l_done l = true;
  lo_slots : Forall slot_ok (l_slots l);
  lo_beat : l_beat l = BExited -> l_done l = true;
  lo_stopped : l_main l = MStopped -> Forall (eq Exited) (l_slots l)
}.

Lemma booted_ok : local_ok (booted s).
Proof.
  split; cbn; try done.
  - apply length_replicate.
  - by intros [? _]%elem_of_replicate.
  - by apply Forall_replicate.
Qed.

Lemma renew_step_ok c j lab w r w' r' :
  renew_step s c j lab (w, r) (w', r') -> renewal_ok r -> renewal_ok r'.
Proof.
  unfold renewal_ok.
  inversion 1 as [w1 w2 rr Hc|w1 w2 rr ext Hx Hc|w1 Hd]; subst; intros Hr; [..|done].
  - unfold after_extend. destruct rr as [[]|]; try done. by destruct (lm_Extend _).
  - by destruct rr as [[]|].
Qed.

Lemma slot_step_ok done lab w t w' t' :
  slot_step s done lab (w, t) (w', t') -> slot_ok t -> slot_ok t' /\ t <> Exited /\ t' <> Exited.
Proof.
  inversion 1; subst; cbn; intros Hok; split_and!; try done; try by eapply renew_step_ok.
  all: destruct r as [[]|]; done.
Qed.

(** Replacing a slot by one that has not exited. *)
Lemma local_ok_slot l i t t' :
  local_ok l -> l_slots l !! i = Some t -> t <> Exited -> slot_ok t' ->
  (t' = Exited -> l_done l = true) ->
  local_ok (l <| l_slots := <[i := t']> (l_slots l) |>).
Proof.
  intros [H1 H2 H3 H4 H5 H6 H7 H8] Hi Ht Hok Hx. split; cbn; try done.
  - by rewrite length_insert.
  - intros (k & Hk)%list_elem_of_lookup. apply list_lookup_insert_Some in Hk
      as [(_ & -> & _)|[_ Hk]]; [by apply Hx|]. by eapply H5, list_elem_of_lookup_2.
  - by apply Forall_insert.
  - intros Hm. apply H8 in Hm. by rewrite <- (Forall_lookup_1 _ _ _ _ Hm Hi) in Ht.
Qed.

Lemma local_step_ok lab w l w' l' :
  local_step s lab (w, l) (w', l') -> local_ok l -> local_ok l'.
Proof.
  inversion 1 as [? ? | ? ? E | ? ? ? r E Hc | ? ? ? r E Hc | ? ? E | ? ? j items i E Ecl Hi
    | ? ? j items E Ecl | ? ? Ed E | ? ? j items Ed E | ? ? E | ? ? E Hx | ? ? i Hi Ed
    | ? ? ? ? i t t' Hi Hs | ? ? ? r E Hc | ? ? E | ? ? E Ed]; subst; intros Hok;
    pose proof Hok as [H1 H2 H3 H4 H5 H6 H7 H8].
  all: try (rewrite E in *; split; cbn; by auto).
  - by split; cbn.
  - rewrite E in *. by destruct r; split; cbn.
  - assert (Hok' : local_ok (l <| l_main := MSend items |>)) by (rewrite E in *; by split; cbn).
    exact (local_ok_slot _ i Idle (Acquiring j) Hok' Hi ltac:(done) Logic.I ltac:(done)).
  - rewrite E in *. cbn in *. congruence.
  - rewrite E in *. cbn in H3. rewrite H3. by split; cbn; auto.
  - eapply local_ok_slot; [done|done|done|done|]. intros _.
    destruct (l_done l) eqn:Hd; [done|]. cbn in Ed. rewrite Ed in H3.
    apply H4. by destruct (l_main l).
  - destruct (slot_step_ok _ _ _ _ _ _ Hs) as (Hok' & Ht & Ht').
    { by eapply Forall_lookup_1. }
    eapply local_ok_slot; [done|done|done|done|]. by intros ->.
Qed.

Lemma local_run_ok x tr y : local_run s x tr y -> local_ok x.2 -> local_ok y.2.
Proof.
  induction 1 as [x|x tr w w1 l lab [w' l'] _ IH Hs]; [done|]. intros Hx.
  by eapply local_step_ok, IH.
Qed.

(** ** After the signal *)

Lemma canceled_claim w r w' :
  call true (claim_turn s) w r w' -> w_db w' = w_db w /\ exists err, r = Err err.
Proof.
  intros (e & He & Hc & H). unfold claim_turn, ClaimDueJobs in H. rewrite M_bind_eq in H.
  destruct (canceled_tx (claim_body (wk_workerID s) (wk_batchSize s) (wk_lockTTL s)) e w He)
    as [err E]; [by apply Hc|].
  rewrite E in H. injection H as <- <-. eauto.
Qed.

Lemma canceled_extend j ttl w r w' :
  call true (ExtendLease (j_ID j) (wk_workerID s) ttl) w r w' ->
  w_db w' = w_db w /\ exists err, r = Err err.
Proof.
  intros (e & He & Hc & H). unfold ExtendLease, pool_update_jobs in H. rewrite M_bind_eq in H.
  match type of H with context [pool_exec ?f e w] =>
    destruct (canceled_stmt f e w He) as [err E]; [by apply Hc|] end.
  rewrite E in H. injection H as <- <-. eauto.
Qed.

(** What is still to be done, at most. *)
Definition renewal_work (r : renewal) : nat :=
  match r with RDone => 0 | RWaiting => 1 | RLocking => 2 end.

Definition slot_work (t : slot) : nat :=
  match t with
  | Exited => 0
  | Idle => 1
  | Releasing _ | Missed _ => 2
  | Finishing _ _ _ => 3
  | Joining _ _ _ r => 4 + renewal_work r
  | Executing _ _ c r => 7 + (if c then 0 else 1) + renewal_work r
  | Attempting _ => 11
  | Acquiring _ => 12
  end%nat.

Definition main_work (m : main_state) : nat :=
  match m with
  | MStopped | MPanicked => 0
  | MWait => 1
  | MReturn => 2
  | MSelect => 3
  | MSend items => 4 + 13 * length items
  | MClaim => 4
  | MRecover => 5
  end%nat.

Definition beat_work (b : beat) : nat :=
  match b with BExited => 0 | BWait => 1 | BCall => 2 end%nat.

Definition work_left (l : local) : nat :=
  (main_work (l_main l) + sum_list_with slot_work (l_slots l) + beat_work (l_beat l))%nat.

(** Steps of the program, and firings of tickers. *)
Definition is_work (lab : label) : bool :=
  match lab with Work | Execute _ => true | Signal | Ticker => false end.

Definition is_ticker (lab : label) : bool :=
  match lab with Ticker => true | _ => false end.

Definition count (f : label -> bool) (tr : list label) : nat := length (List.filter f tr).

Lemma sum_split (ts : list slot) i t :
  ts !! i = Some t -> exists rest, sum_list_with slot_work ts = (slot_work t + rest)%nat /\
    forall t', sum_list_with slot_work (<[i := t']> ts) = (slot_work t' + rest)%nat.
Proof.
  intros Hi. exists (sum_list_with slot_work (take i ts) + sum_list_with slot_work (drop (S i) ts))%nat.
  split; [|intros t'; rewrite insert_take_drop by (by eapply lookup_lt_Some)].
  - rewrite <- (take_drop_middle ts i t Hi) at 1. rewrite sum_list_with_app. cbn. lia.
  - rewrite sum_list_with_app. cbn. lia.
Qed.

Lemma renew_step_work j lab w r w' r' :
  renew_step s true j lab (w, r) (w', r') -> (renewal_work r' < renewal_work r)%nat.
Proof.
  inversion 1 as [w1 w2 rr Hc|w1 w2 rr ext Hx Hc|w1 Hd]; subst; cbn; [..|lia].
  - destruct (canceled_extend _ _ _ _ _ Hc) as [_ [err ->]]. cbn. lia.
  - destruct rr as [[]|]; cbn; lia.
Qed.

Lemma slot_step_work lab w t w' t' :
  slot_step s true lab (w, t) (w', t') -> (slot_work t' < slot_work t)%nat.
Proof.
  inversion 1 as [j w1 w2 r Hc|j w1 w2 r Hc|j j' u w1 w2 Hc|j err w1 w2 Hc|la j u c r r2 w1 w2 Hr
    |j u r w1|j u c r res w1 w2 Hc|la j u res r r2 w1 w2 Hr|j u res w1|j u res w1 w2 r Hc
    |j w1 w2 r Hc]; subst; cbn; try lia.
  - destruct r as [[]|]; cbn; lia.
  - apply renew_step_work in Hr. destruct c, r2; cbn in *; lia.
  - apply renew_step_work in Hr. lia.
Qed.

Lemma local_step_work lab w l w' l' :
  local_step s lab (w, l) (w', l') -> l_done l = true ->
  l_done l' = true /\
  (work_left l' + Nat.b2n (is_work lab) <= work_left l + 2 * Nat.b2n (is_ticker lab))%nat.
Proof.
  inversion 1 as [? ? | ? ? E | ? ? ? r E Hc | ? ? ? r E Hc | ? ? E | ? ? j items i E Ecl Hi
    | ? ? j items E Ecl | ? ? Ed E | ? ? j items Ed E | ? ? E | ? ? E Hx | ? ? i Hi Ed
    | ? ? ? ? i t t' Hi Hs | ? ? ? r E Hc | ? ? E | ? ? E Ed]; subst; intros Hd;
    (split; [by cbn|]); unfold work_left; cbn [l_main l_slots l_beat l_done l_closed upd_l_main
      upd_l_slots upd_l_beat upd_l_done upd_l_closed]; rewrite ?E; cbn [main_work beat_work is_work
      is_ticker Nat.b2n length]; try lia.
  - rewrite Hd in Hc. destruct (canceled_claim _ _ _ Hc) as [_ [err ->]]. cbn. lia.
  - destruct (sum_split _ _ _ Hi) as (rest & E1 & E2). rewrite E1, E2. cbn. lia.
  - destruct (l_closed l); cbn; lia.
  - destruct (sum_split _ _ _ Hi) as (rest & E1 & E2). rewrite E1, E2. cbn. lia.
  - rewrite Hd in Hs. apply slot_step_work in Hs.
    destruct (sum_split _ _ _ Hi) as (rest & E1 & E2). rewrite E1, E2.
    destruct (is_work lab), (is_ticker lab); cbn; lia.
Qed.

Lemma count_app f tr tr' : count f (tr ++ tr') = (count f tr + count f tr')%nat.
Proof. unfold count. by rewrite List.filter_app, length_app. Qed.

Lemma count_one f lab : count f [lab] = Nat.b2n (f lab).
Proof. unfold count. cbn. by destruct (f lab). Qed.

Lemma local_run_work x tr y :
  local_run s x tr y -> l_done x.2 = true ->
  l_done y.2 = true /\ (work_left y.2 + count is_work tr <= work_left x.2 + 2 * count is_ticker tr)%nat.
Proof.
  induction 1 as [x|x tr w w1 l lab [w' l'] _ IH Hs]; intros Hx.
  { split; [done|]. cbn. lia. }
  destruct (IH Hx) as [Hd Hw]. destruct (local_step_work _ _ _ _ _ Hs Hd) as [Hd' Hw'].
  split; [done|]. rewrite !count_app, !count_one. cbn in *. lia.
Qed.

(** ** Progress *)

(** Only a signal or a ticker can move the worker on. *)
Definition quiet (l : local) : Prop :=
  forall lab w y, local_step s lab (w, l) y -> is_work lab = false.

(** Some environment answers every call. *)
Lemma some_call {A} done (m : M A) w : exists r w', call done m w r w'.
Proof. eexists _, _. apply (answer_call env0 env_down solo0 solo_down canceled_down). Qed.

Lemma slot_progress done w t :
  slot_ok t -> t <> Idle -> t <> Exited ->
  exists lab y, slot_step s done lab (w, t) y /\ is_work lab = true.
Proof.
  destruct t as [|j|j|j|j u c r|j u res r|j u res|j|]; cbn; intros Hok Hi He; try done.
  - destruct (some_call done (lm_Acquire (wk_lockManager s) (lock_key j) (wk_workerID s) (lease_ttl s j)) w)
      as (r & w' & H). eexists _, _. by split; [by apply sl_acquire|].
  - destruct (some_call done (ReleaseClaim (j_ID j) (wk_workerID s) StatusRetryScheduled) w)
      as (r & w' & H). eexists _, _. by split; [by eapply sl_missed|].
  - destruct (some_call done (start_attempt s j) w) as ([[j' u]|err] & w' & H); eexists _, _.
    + by split; [by apply sl_start|].
    + by split; [by eapply sl_start_failed|].
  - destruct (some_call false (wk_executor s {| xc_Timeout := exec_timeout j; xc_Cancelled := done || c |} j) w)
      as (res & w' & H). eexists _, _. by split; [by apply sl_handler|].
  - destruct r.
    + eexists _, _. split; [by apply sl_renew_join, rn_done|done].
    + destruct Hok as [ext Hx]; [done|].
      destruct (some_call true (ext (lock_key j) (wk_workerID s) (lease_ttl s j)) w) as (r & w' & H).
      eexists _, _. split; [by eapply sl_renew_join, rn_lock|done].
    + eexists _, _. by split; [apply sl_join|].
  - destruct (some_call done (finalize s j u res) w) as (r & w' & H).
    eexists _, _. by split; [by eapply sl_finish|].
  - destruct (some_call false (lm_Release (wk_lockManager s) (lock_key j) (wk_workerID s)) w)
      as (r & w' & H). eexists _, _. by split; [by eapply sl_release|].
Qed.

(** A quiet worker's slots wait at their [select], or have all exited. *)
Lemma quiet_slots l :
  local_ok l -> quiet l -> Forall (eq (if l_done l then Exited else Idle)) (l_slots l).
Proof.
  intros Hok Hq. apply Forall_lookup. intros i t Hi.
  assert (Ht : t = Idle \/ t = Exited).
  { assert (Hcases : t = Idle \/ t = Exited \/ (t <> Idle /\ t <> Exited))
      by (destruct t; by auto).
    destruct Hcases as [?|[?|[H1 H2]]]; [by auto..|].
    destruct (slot_progress (l_done l) world0 t) as (lab & [w' t'] & Hs & Hw); [|done..|].
    - by eapply Forall_lookup_1; [apply lo_slots|].
    - by rewrite (Hq _ _ _ (ls_slot s _ _ _ _ _ _ _ Hi Hs)) in Hw. }
  destruct (l_done l) eqn:Hd, Ht as [-> | ->]; try done.
  - assert (Ho : l_done l || l_closed l = true) by (by rewrite Hd).
    by specialize (Hq _ _ _ (ls_exit s l world0 i Hi Ho)).
  - exfalso. apply list_elem_of_lookup_2, (lo_exited _ Hok) in Hi. congruence.
Qed.

(** All goroutines have returned. *)
Definition all_stopped (l : local) : Prop :=
  l_main l = MStopped /\ Forall (eq Exited) (l_slots l) /\ l_beat l = BExited.

(** Everybody waits for a ticker. *)
Definition all_parked (l : local) : Prop :=
  l_main l = MSelect /\ Forall (eq Idle) (l_slots l) /\ l_beat l = BWait.

Lemma quiet_beat l :
  local_ok l -> quiet l -> l_beat l = if l_done l then BExited else BWait.
Proof.
  intros Hok Hq. destruct (l_beat l) eqn:Hb.
  - destruct (some_call (l_done l) (rg_Heartbeat (wk_registry s) (wk_workerID s) (wk_heartbeatTTL s))
      world0) as (r & w' & H). by specialize (Hq _ _ _ (ls_beat s _ _ _ _ Hb H)).
  - destruct (l_done l) eqn:Hd; [|done]. by specialize (Hq _ _ _ (ls_beat_exit s _ world0 Hb Hd)).
  - by rewrite (lo_beat _ Hok Hb).
Qed.

Lemma quiet_main l :
  1 <= wk_concurrency s -> local_ok l -> quiet l ->
  l_main l = if l_done l then MStopped else MSelect.
Proof.
  intros Hc Hok Hq. pose proof (quiet_slots l Hok Hq) as Hs.
  pose proof (lo_closed _ Hok) as Hcl. pose proof (lo_leaving _ Hok) as Hle.
  destruct (l_main l) as [| | |[|j items]| | | |] eqn:Hm.
  - destruct (l_done l) eqn:Hd; [|done]. by specialize (Hq _ _ _ (ls_return s _ world0 Hd Hm)).
  - destruct (some_call (l_done l) (RecoverExpiredRunningJobs "worker lease expired before completion")
      world0) as (r & w' & H). by specialize (Hq _ _ _ (ls_recover s _ _ _ _ Hm H)).
  - destruct (some_call (l_done l) (claim_turn s) world0) as (r & w' & H).
    by specialize (Hq _ _ _ (ls_claim s _ _ _ _ Hm H)).
  - by specialize (Hq _ _ _ (ls_sent s _ world0 Hm)).
  - destruct (l_done l) eqn:Hd.
    + by specialize (Hq _ _ _ (ls_return_send s _ world0 _ _ Hd Hm)).
    + destruct (lookup_lt_is_Some_2 (l_slots l) 0) as [t Ht]; [rewrite (lo_length _ Hok); lia|].
      pose proof (Forall_lookup_1 _ _ _ _ Hs Ht) as <-.
      by specialize (Hq _ _ _ (ls_hand s _ world0 _ _ _ Hm Hcl Ht)).
  - by specialize (Hq _ _ _ (ls_close s _ world0 Hm)).
  - rewrite Hle in Hs by done. by specialize (Hq _ _ _ (ls_wait s _ world0 Hm Hs)).
  - by rewrite Hle.
  - by destruct (lo_main _ Hok).
Qed.

Lemma quiet_cases l :
  1 <= wk_concurrency s -> local_ok l -> quiet l ->
  if l_done l then all_stopped l else all_parked l.
Proof.
  intros Hc Hok Hq. pose proof (quiet_main l Hc Hok Hq) as Hm.
  pose proof (quiet_slots l Hok Hq) as Hs. pose proof (quiet_beat l Hok Hq) as Hb.
  by destruct (l_done l).
Qed.

Lemma work_left_bound l :
  (work_left l <= 7 + 13 * length (unsent (l_main l)) + 12 * length (l_slots l))%nat.
Proof.
  assert (Hs : (sum_list_with slot_work (l_slots l) <= 12 * length (l_slots l))%nat).
  { induction (l_slots l) as [|t ts IH]; cbn; [lia|].
    assert (slot_work t <= 12)%nat; [|lia].
    destruct t as [| | | |? ? [] []|? ? ? []| | |]; cbn; lia. }
  unfold work_left. destruct (l_beat l), (l_main l); cbn -[Nat.mul]; lia.
Qed.

(** ** Nothing is written after the signal *)

Context `{!WorkerLaws s}.

Lemma finalize_canceled j t res w r w' :
  call true (finalize s j t res) w r w' -> w_db w' = w_db w.
Proof.
  intros (e & He & Hc & H). specialize (Hc eq_refl). unfold finalize in H.
  rewrite time_Now_bind in H. cbv zeta in H. set (dur := time_Sub _ _) in H.
  set (w1 := w <| w_tick := _ |>) in H. destruct res as [res|err].
  - rewrite M_bind_eq in H. unfold check, CompleteExecution in H.
    destruct (canceled_tx (complete_body j (wk_workerID s) dur res) e w1 He Hc) as [er E].
    rewrite E in H. by injection H as <- <-.
  - unfold finalize_failure in H. rewrite M_bind_eq in H.
    pose proof (wl_metrics (JobFailed (j_JobType j)) e w1) as Hf.
    destruct (wk_metrics s _ e w1) as [[[]|er] w2]; cbn in Hf; [|by simplify_eq].
    rewrite time_Now_bind, M_bind_eq in H. set (dec := DecideFailure _ _ _ _) in H.
    set (w3 := w2 <| w_tick := _ |>) in H. pose proof (next_run_at_frame dec err e w3) as Hr.
    destruct (next_run_at dec err e w3) as [[ra|er] w4]; cbn in Hr;
      [|injection H as <- <-; rewrite <- Hf; exact Hr].
    rewrite M_bind_eq in H. unfold try, FailExecution in H.
    match type of H with context [with_tx ?b e w4] =>
      destruct (canceled_tx b e w4 He Hc) as [er E] end.
    rewrite E in H. case_match; injection H as <- <-; rewrite <- Hf; exact Hr.
Qed.

Lemma start_canceled j w r w' : call true (start_attempt s j) w r w' -> w_db w' = w_db w.
Proof.
  intros (e & He & Hc & H). specialize (Hc eq_refl). unfold start_attempt, ensure_attempt in H.
  case_bool_decide.
  - rewrite M_bind_eq, M_bind_eq in H. unfold check, CreateAttempt in H. rewrite uuid_New_bind in H.
    match type of H with context [pool_exec ?f e ?x] =>
      destruct (canceled_stmt f e x He Hc) as [er E] end.
    rewrite E in H. by injection H as <- <-.
  - by injection H as <- <-.
Qed.

Lemma release_canceled id st w r w' :
  call true (ReleaseClaim id (wk_workerID s) st) w r w' -> w_db w' = w_db w.
Proof.
  intros (e & He & Hc & H). specialize (Hc eq_refl). unfold ReleaseClaim, pool_update_jobs in H.
  rewrite M_bind_eq in H. match type of H with context [pool_exec ?f e ?x] =>
    destruct (canceled_stmt f e x He Hc) as [er E] end.
  rewrite E in H. by injection H as <- <-.
Qed.

Lemma renew_canceled j lab w r w' r' :
  renew_step s true j lab (w, r) (w', r') -> w_db w' = w_db w.
Proof.
  inversion 1 as [w1 w2 rr Hc|w1 w2 rr ext Hx Hc|w1 Hd]; subst; [..|done].
  - by eapply canceled_extend.
  - eapply call_frame, Hc. by apply (extend_frame (L := wk_lockManager s)).
Qed.

Lemma slot_canceled lab w t w' t' :
  slot_step s true lab (w, t) (w', t') -> w_db w' = w_db w.
Proof.
  inversion 1 as [j w1 w2 r Hc|j w1 w2 r Hc|j j' u w1 w2 Hc|j err w1 w2 Hc|la j u c r r2 w1 w2 Hr
    |j u r w1|j u c r res w1 w2 Hc|la j u res r r2 w1 w2 Hr|j u res w1|j u res w1 w2 r Hc
    |j w1 w2 r Hc]; subst; try done.
  - eapply call_frame, Hc. apply acquire_frame.
  - by eapply release_canceled.
  - by eapply start_canceled.
  - by eapply start_canceled.
  - by eapply renew_canceled.
  - eapply call_frame, Hc. apply wl_executor.
  - by eapply renew_canceled.
  - by eapply finalize_canceled.
  - eapply call_frame, Hc. apply release_frame.
Qed.
End Worker.

(** ** The theorems *)

(** C11. The goroutines of a worker never get in each other's way: from its
    start on, however its slots, renewals, heartbeat and poll loop are
    interleaved and whatever the database, Redis and handlers answer, it
    never sends on the closed channel nor closes it twice, keeps its number
    of slots, and when [Run] has returned every slot has; and as long as
    anything is left to do some goroutine can do it: when only a ticker or
    a signal could move it, it is waiting with all slots free or has
    stopped for good. *)
Theorem worker_never_stuck s w0 tr w l :
  1 <= wk_concurrency s -> local_run s (w0, booted s) tr (w, l) ->
  l_main l <> MPanicked /\ length (l_slots l) = Z.to_nat (wk_concurrency s) /\
  (l_main l = MStopped -> l_done l = true /\ Forall (eq Exited) (l_slots l)) /\
  (quiet s l -> if l_done l then all_stopped l else all_parked l).
Proof.
  intros Hc Hrun. pose proof (local_run_ok s _ _ _ Hrun (booted_ok s)) as Hok.
  cbn [snd] in Hok. split_and!; [apply (lo_main _ _ Hok)|apply (lo_length _ _ Hok)|..].
  - intros Hm. split; [apply (lo_leaving _ _ Hok); by rewrite Hm|by apply (lo_stopped _ _ Hok)].
  - by apply quiet_cases.
Qed.

(** C12. A signal stops a worker: from any state it can be in when its
    context is done, however long it is watched, the program takes at most
    12 steps for each slot, 13 for each claimed job not handed out, seven
    more, and two for each time a ticker wins against the cancellation in
    a [select]; and when no step of the program is left, the loop, all
    slots and the heartbeat have returned. *)
Theorem shutdown_completes s w0 tr0 w l tr w' l' :
  1 <= wk_concurrency s -> local_run s (w0, booted s) tr0 (w, l) -> l_done l = true ->
  local_run s (w, l) tr (w', l') ->
  (count is_work tr <= 7 + 13 * length (unsent (l_main l)) + 12 * Z.to_nat (wk_concurrency s) +
                       2 * count is_ticker tr)%nat /\
  (quiet s l' -> all_stopped l').
Proof.
  intros Hc Hrun0 Hd Hrun. pose proof (local_run_ok s _ _ _ Hrun0 (booted_ok s)) as Hok.
  pose proof (local_run_ok s _ _ _ Hrun Hok) as Hok'.
  destruct (local_run_work s _ _ _ Hrun Hd) as [Hd' Hw]. cbn [snd] in *. split.
  - pose proof (work_left_bound l) as Hb. rewrite (lo_length _ _ Hok) in Hb. lia.
  - intros Hq. pose proof (quiet_cases s l' Hc Hok' Hq) as H. by rewrite Hd' in H.
Qed.

(** C13. After the signal nothing is recorded any more: no step that a
    worker takes once its context is done changes the database.  The
    outcome of a handler that returns then, success or failure, is lost:
    the job stays RUNNING under its lease until another worker's recovery
    charges it as an expired attempt. *)
Theorem canceled_writes_nothing s lab w l w' l' :
  WorkerLaws s -> l_done l = true -> local_step s lab (w, l) (w', l') -> w_db w' = w_db w.
Proof.
  intros Hs Hd. inversion 1 as [? ? | ? ? E | ? ? ? r E Hc | ? ? ? r E Hc | ? ? E | ? ? j items i E Ecl Hi
    | ? ? j items E Ecl | ? ? Ed E | ? ? j items Ed E | ? ? E | ? ? E Hx | ? ? i Hi Ed
    | ? ? ? ? i t t' Hi Hst | ? ? ? r E Hc | ? ? E | ? ? E Ed]; subst; try done; rewrite Hd in *.
  - destruct Hc as (e & He & Hc & Hr). specialize (Hc eq_refl).
    destruct (canceled_tx (recover_body "worker lease expired before completion") e w He Hc) as [er E2].
    unfold RecoverExpiredRunningJobs in Hr. rewrite E2 in Hr. by injection Hr as <- <-.
  - by eapply canceled_claim.
  - by eapply slot_canceled.
  - eapply call_frame, Hc. apply heartbeat_frame.
Qed.

(** ** Witnesses: the job of the scenario, interrupted *)

Definition after_signal : list choice := begin_job ++ [CSignal].
Definition winding_down : list choice := drop (length after_signal) interrupted_job.

Definition at_signal : list label * (world * local) :=
  default ([], (created, booted worker2)) (play2 after_signal created (booted worker2)).
Definition at_end : list label * (world * local) :=
  default ([], (created, booted worker2)) (play2 winding_down at_signal.2.1 at_signal.2.2).

Lemma signal_run : local_run worker2 (created, booted worker2) at_signal.1 (at_signal.2.1, at_signal.2.2).
Proof.
  eapply (play_local_run worker2 env0 env_down solo0 solo_down canceled_down after_signal).
  vm_compute. reflexivity.
Qed.

Lemma end_run : local_run worker2 (at_signal.2.1, at_signal.2.2) at_end.1 (at_end.2.1, at_end.2.2).
Proof.
  eapply (play_local_run worker2 env0 env_down solo0 solo_down canceled_down winding_down).
  vm_compute. reflexivity.
Qed.

Lemma worker_never_stuck_witness :
  l_main at_signal.2.2 <> MPanicked /\ length (l_slots at_signal.2.2) = 2%nat.
Proof.
  destruct (worker_never_stuck worker2 created at_signal.1 at_signal.2.1 at_signal.2.2
    ltac:(done) signal_run) as (H1 & H2 & _).
  exact (conj H1 H2).
Defined.

Lemma shutdown_completes_witness :
  (count is_work at_end.1 <= 31)%nat /\ l_main at_end.2.2 = MStopped.
Proof.
  split; [|by vm_compute].
  pose proof (proj1 (shutdown_completes worker2 created at_signal.1 at_signal.2.1 at_signal.2.2
    at_end.1 at_end.2.1 at_end.2.2 ltac:(done) signal_run ltac:(by vm_compute) end_run)) as H.
  etrans; [exact H|]. by vm_compute.
Defined.

(** The handler has succeeded; the next step of its slot is to record it. *)
Definition finishing : world * local :=
  default (created, booted worker2)
    (snd <$> play2 (take 14 interrupted_job) created (booted worker2)).
Definition finished : label * (world * local) :=
  default (Work, finishing) (play_step worker2 env0 env_down (CSlot 1) finishing.1 finishing.2).

Lemma canceled_writes_nothing_witness :
  (match l_slots finishing.2 !! 1%nat with Some (Finishing _ _ r) => r = Ok "{}" | _ => False end) /\
  w_db finished.2.1 = w_db finishing.1.
Proof.
  split; [by vm_compute|].
  assert (Hs : local_step worker2 finished.1 (finishing.1, finishing.2) (finished.2.1, finished.2.2)).
  { apply (play_step_sound worker2 env0 env_down solo0 solo_down canceled_down (CSlot 1)).
    vm_compute. reflexivity. }
  exact (canceled_writes_nothing worker2 finished.1 finishing.1 finishing.2 finished.2.1 finished.2.2
    worker2_laws ltac:(by vm_compute) Hs).
Defined.
