(* ===== verification/Sequential.v ===== *)
(** * The loop of [Worker] is one of the schedules

    [Worker.run_loop] polls and then processes the claimed jobs one after
    the other, the renewals of a job before its handler.  Here: that is a
    run of the goroutines of [Pool], with one slot at work and nobody else
    moving.  So what is proved of [run_loop] and [ProcessJob] is proved of
    a schedule that the step relation admits. *)

From S2P Require Import Prelude GoRuntime Engine Sql Schema Effects Json Dto Repository Auth Service Executor Lock Rfc3339 Registry Worker Scenario Safety System Pool Schedule.

Local Open Scope Z_scope.
Local Open Scope go_scope.

(** The world is the same but for the index of the environment's answers. *)
Definition retimed (w w1 : world) : Prop := exists n, w1 = w <| w_tick := n |>.

Lemma retimed_refl w : retimed w w.
Proof. exists (w_tick w). by destruct w. Qed.

Lemma retimed_trans w w1 w2 : retimed w w1 -> retimed w1 w2 -> retimed w w2.
Proof. intros [n ->] [m ->]. by exists m. Qed.

Section Sequential.
Context (s : Worker) (e : env) (He : solo e).

(** Runs of a slot and of the worker in which nobody else moves: each step
    is one of this worker's goroutines, none is due to the signal, and
    between two steps the database, Redis, the bus and the metrics stay as
    they are. *)
Inductive slot_run : world * slot -> world * slot -> Prop :=
| sr_end w w1 t : retimed w w1 -> slot_run (w, t) (w1, t)
| sr_step w w1 t lab x y :
    retimed w w1 -> lab <> Signal -> slot_step s false lab (w1, t) x -> slot_run x y ->
    slot_run (w, t) y.

Inductive alone_run : world * local -> world * local -> Prop :=
| ar_end w w1 l : retimed w w1 -> alone_run (w, l) (w1, l)
| ar_step w w1 l lab x y :
    retimed w w1 -> lab <> Signal -> local_step s lab (w1, l) x -> alone_run x y ->
    alone_run (w, l) y.

Lemma sr_retime w w1 t y : retimed w w1 -> slot_run (w1, t) y -> slot_run (w, t) y.
Proof.
  intros H. inversion 1; subst; [apply sr_end|eapply sr_step; [|done..]]; by eapply retimed_trans.
Qed.

Lemma ar_retime w w1 l y : retimed w w1 -> alone_run (w1, l) y -> alone_run (w, l) y.
Proof.
  intros H. inversion 1; subst; [apply ar_end|eapply ar_step; [|done..]]; by eapply retimed_trans.
Qed.

Lemma slot_run_app x y z : slot_run x y -> slot_run y z -> slot_run x z.
Proof. induction 1; eauto using sr_retime, sr_step. Qed.

Lemma alone_run_app x y z : alone_run x y -> alone_run y z -> alone_run x z.
Proof. induction 1; eauto using ar_retime, ar_step. Qed.

Lemma sr_refl x : slot_run x x.
Proof. destruct x. apply sr_end, retimed_refl. Qed.

Lemma ar_refl x : alone_run x x.
Proof. destruct x. apply ar_end, retimed_refl. Qed.

Lemma slot_step_label lab x y : slot_step s false lab x y -> lab <> Signal.
Proof. by destruct 1 as [| | | |? ? ? ? ? ? ? ? []| | |? ? ? ? ? ? ? ? []| | |]. Qed.

Lemma sr_now w t lab x y : slot_step s false lab (w, t) x -> slot_run x y -> slot_run (w, t) y.
Proof. intros Hs. eapply sr_step; [apply retimed_refl|by eapply slot_step_label|exact Hs]. Qed.

Lemma ar_now w l lab x y :
  local_step s lab (w, l) x -> lab <> Signal -> alone_run x y -> alone_run (w, l) y.
Proof. intros Hs Hl. eapply ar_step; [apply retimed_refl|exact Hl|exact Hs]. Qed.

Lemma calls {A} (m : M A) w : call false m w (m e w).1 (m e w).2.
Proof. exists e. split_and!; [done..|]. by destruct (m e w). Qed.

Lemma calls_eq {A} (m : M A) w r w' : m e w = (r, w') -> call false m w r w'.
Proof. intros H. pose proof (calls m w) as Hc. by rewrite H in Hc. Qed.

(** ** One job *)

(** The renewals of [renewLease], while the handler runs. *)
Lemma renewLease_run ticks j t w :
  exists c r w', renewLease ticks s (lock_key j) (j_ID j) (lease_ttl s j) e w = (Ok c, w') /\
    r <> RLocking /\ slot_run (w, Executing j t false RWaiting) (w', Executing j t c r).
Proof.
  revert w. induction ticks as [|ticks IH]; intros w; cbn.
  { exists false, RWaiting, w. split_and!; [done..|apply sr_refl]. }
  rewrite M_bind_eq. unfold try at 1.
  destruct (ExtendLease _ _ _ e w) as [r1 w1] eqn:E1. apply calls_eq in E1.
  assert (H1 : slot_step s false Ticker (w, Executing j t false RWaiting)
    (w1, Executing j t (stopped (after_extend s r1)) (after_extend s r1)))
    by (apply (sl_renew s false Ticker j t false), rn_tick, E1).
  assert (Hstop : after_extend s r1 = RDone -> exists c r w', (Ok true, w1) = (Ok c, w') /\
    r <> RLocking /\ slot_run (w, Executing j t false RWaiting) (w', Executing j t c r)).
  { intros Hr. rewrite Hr in H1. exists true, RDone, w1. split_and!; [done..|].
    eapply sr_now; [exact H1|apply sr_refl]. }
  destruct r1 as [[]|err]; [|by apply Hstop..]. cbn in H1.
  destruct (lm_Extend (wk_lockManager s)) as [ext|] eqn:Hx.
  2:{ destruct (IH w1) as (c & r & w' & HR & Hr & Hrun). exists c, r, w'. split_and!; [done..|].
      eapply sr_now; [exact H1|done]. }
  rewrite M_bind_eq. unfold try. destruct (ext _ _ _ e w1) as [r2 w2] eqn:E2. apply calls_eq in E2.
  assert (H2 : slot_step s false Work (w1, Executing j t false RLocking)
    (w2, Executing j t (stopped (after_lock r2)) (after_lock r2)))
    by (apply (sl_renew s false Work j t false); by eapply rn_lock).
  assert (Hboth : forall y, slot_run (w2, Executing j t (stopped (after_lock r2)) (after_lock r2)) y ->
    slot_run (w, Executing j t false RWaiting) y).
  { intros y Hy. eapply sr_now; [exact H1|]. by eapply sr_now. }
  destruct r2 as [[]|err]; cbn in Hboth.
  - destruct (IH w2) as (c & r & w' & HR & Hr & Hrun). exists c, r, w'. by split_and!; [..|apply Hboth].
  - exists true, RDone, w2. split_and!; [done..|]. apply Hboth, sr_refl.
  - exists true, RDone, w2. split_and!; [done..|]. apply Hboth, sr_refl.
Qed.

(** From the handler's return to the end of the renewals. *)
Lemma joining_run w j t res r :
  r <> RLocking -> slot_run (w, Joining j t res r) (w, Finishing j t res).
Proof.
  intros Hr. destruct r; [|done|].
  - eapply sr_now; [by apply sl_renew_join, rn_done|]. eapply sr_now; [apply sl_join|apply sr_refl].
  - eapply sr_now; [apply sl_join|apply sr_refl].
Qed.

Lemma ensure_attempt_id j w j' w' :
  ensure_attempt s j e w = (Ok j', w') -> j_ID j' = j_ID j.
Proof.
  unfold ensure_attempt. case_bool_decide; [|by intros [= <- <-]].
  rewrite M_bind_eq. destruct (check _ _ e w) as [[a|err] w1]; [|done]. by intros [= <- <-].
Qed.

Lemma process_locked_schedule j w :
  exists j', j_ID j' = j_ID j /\
    slot_run (w, Attempting j) ((process_locked s j e w).2, Releasing j').
Proof.
  unfold process_locked. rewrite M_bind_eq.
  destruct (ensure_attempt s j e w) as [[j'|err] w1] eqn:E1.
  2:{ exists j. split; [done|]. eapply sr_now; [|apply sr_refl]. eapply (sl_start_failed s false j err).
      apply calls_eq. unfold start_attempt. by rewrite M_bind_eq, E1. }
  exists j'. split; [by eapply ensure_attempt_id|]. rewrite time_Now_bind.
  set (t := e_time e (w_tick w1)). set (w2 := w1 <| w_tick := _ |>).
  assert (Hs : call false (start_attempt s j) w (Ok (j', t)) w2).
  { apply calls_eq. unfold start_attempt. by rewrite M_bind_eq, E1. }
  eapply sr_now; [apply sl_start, Hs|]. rewrite M_bind_eq. unfold renewals.
  set (w3 := w2 <| w_tick := _ |>). apply (sr_retime _ w3); [by eexists|].
  destruct (renewLease_run (e_renewals e (w_tick w2)) j' t w3) as (c & r & w4 & HR & Hr & Hrun).
  eapply slot_run_app; [exact Hrun|]. rewrite M_bind_eq, HR, M_bind_eq. unfold try.
  destruct (wk_executor s _ j' e w4) as [res w5] eqn:E5. apply calls_eq in E5.
  eapply sr_now; [by apply sl_handler|]. eapply slot_run_app; [by apply joining_run|].
  eapply sr_now; [|apply sr_refl]. eapply sl_finish. apply (calls (finalize s j' t res)).
Qed.

(** [ProcessJob] is a run of a slot from receiving the job to being idle. *)
Lemma ProcessJob_schedule j w : slot_run (w, Acquiring j) ((ProcessJob s j e w).2, Idle).
Proof.
  unfold ProcessJob. rewrite M_bind_eq. unfold check at 1.
  destruct (lm_Acquire _ _ _ _ e w) as [r w1] eqn:E. apply calls_eq in E.
  assert (H1 : slot_step s false Work (w, Acquiring j) (w1, after_acquire j r)) by (by apply sl_acquire).
  destruct r as [[]|err]; cbn [negb after_acquire] in *; (eapply sr_now; [exact H1|]); [..|apply sr_refl].
  - destruct (process_locked_schedule j w1) as (j' & Hid & Hrun). unfold deferred.
    destruct (process_locked s j e w1) as [r2 w2]. cbn [snd] in *.
    eapply slot_run_app; [exact Hrun|]. assert (Hk : lock_key j' = lock_key j) by
      (unfold lock_key; by rewrite Hid).
    eapply sr_now; [eapply sl_release, calls|]. rewrite Hk, M_bind_eq.
    destruct (lm_Release _ _ _ e w2) as [[b|err] w3]; apply sr_refl.
  - unfold check. destruct (ReleaseClaim _ _ _ e w1) as [[b|err] w2] eqn:E2; apply calls_eq in E2;
      (eapply sr_now; [by eapply sl_missed|apply sr_refl]).
Qed.

(** ** The loop *)

Context (Hconc : 1 <= wk_concurrency s).

(** All slots free, the main goroutine at [m]. *)
Definition free (m : main_state) : local := (booted s) <| l_main := m |>.

Lemma first_slot m : l_slots (free m) !! 0%nat = Some Idle.
Proof. apply lookup_replicate. split; [done|lia]. Qed.

Lemma slot_run_alone l x y :
  l_done l = false -> slot_run x y -> l_slots l !! 0%nat = Some x.2 ->
  alone_run (x.1, l) (y.1, l <| l_slots := <[0%nat := y.2]> (l_slots l) |>).
Proof.
  intros Hd Hrun. revert l Hd. induction Hrun as [w w1 t Hw|w w1 t lab [w2 t2] y Hw Hsig Hs _ IH];
    intros l Hd Hl; cbn [fst snd] in *.
  - assert (El : l <| l_slots := <[0%nat := t]> (l_slots l) |> = l).
    { destruct l. cbn in *. by rewrite list_insert_id. }
    rewrite El. by apply ar_end.
  - eapply ar_step; [exact Hw|exact Hsig| |].
    + eapply ls_slot; [exact Hl|]. rewrite Hd. exact Hs.
    + set (l2 := l <| l_slots := <[0%nat := t2]> (l_slots l) |>).
      assert (Hd2 : l_done l2 = false) by exact Hd.
      assert (Hl2 : l_slots l2 !! 0%nat = Some t2).
      { cbn. rewrite list_lookup_insert_eq; [done|]. by eapply lookup_lt_Some. }
      specialize (IH l2 Hd2 Hl2). cbn in IH. by rewrite list_insert_insert_eq in IH.
Qed.

Lemma consume_run items w :
  alone_run (w, free (MSend items)) ((consume s items e w).2, free MSelect).
Proof.
  revert w. induction items as [|j items IH]; intros w; cbn [consume].
  { eapply ar_now; [by apply ls_sent|done|]. apply ar_refl. }
  rewrite M_bind_eq. unfold try. pose proof (ProcessJob_schedule j w) as Hp.
  destruct (ProcessJob s j e w) as [r w1]. cbn [snd] in Hp.
  eapply ar_now; [by eapply (ls_hand s _ _ _ _ 0%nat); [..|apply first_slot]|done|].
  set (l1 := (free (MSend (j :: items))) <| l_main := MSend items |> <| l_slots := _ |>).
  assert (H1 : l_slots l1 !! 0%nat = Some (Acquiring j)).
  { cbn. rewrite list_lookup_insert_eq; [done|]. by eapply lookup_lt_Some, (first_slot MSelect). }
  pose proof (slot_run_alone l1 _ _ eq_refl Hp H1) as Hrun. cbn [fst snd] in Hrun.
  eapply alone_run_app; [exact Hrun|].
  assert (El : l1 <| l_slots := <[0%nat := Idle]> (l_slots l1) |> = free (MSend items)).
  { unfold l1, free. cbn. unfold upd_l_slots, upd_l_main. cbn.
    by rewrite list_insert_insert_eq, list_insert_id by apply (first_slot MSelect). }
  rewrite El. apply IH.
Qed.

Lemma poll_schedule w :
  alone_run (w, free MSelect) ((poll s e w).2, free (after_claim (poll s e w).1)).
Proof.
  eapply ar_now; [by apply ls_tick|done|]. unfold poll. rewrite M_bind_eq. unfold try.
  destruct (RecoverExpiredRunningJobs _ e w) as [r w1] eqn:E. apply calls_eq in E.
  eapply ar_now; [by eapply ls_recover|done|].
  eapply ar_now; [apply (ls_claim s (free MClaim)); [done|apply (calls (claim_turn s))]|done|].
  apply ar_refl.
Qed.

Lemma run_loop_run ticks w :
  alone_run (w, free MSelect) ((run_loop ticks (fun _ => None) s e w).2, free MSelect).
Proof.
  revert w. induction ticks as [|ticks IH]; intros w; [apply ar_refl|]. cbn [run_loop].
  rewrite M_bind_eq. unfold try. pose proof (poll_schedule w) as Hp.
  destruct (poll s e w) as [[claimed|err] w1]; cbn [fst snd after_claim] in Hp;
    (eapply alone_run_app; [exact Hp|]); [|apply IH].
  rewrite M_bind_eq. pose proof (consume_run claimed w1) as Hc.
  assert (Hok : (consume s claimed e w1).1 = Ok tt).
  { clear. revert w1. induction claimed as [|j js IHj]; intros w1; cbn [consume]; [done|].
    rewrite M_bind_eq. unfold try. destruct (ProcessJob s j e w1). apply IHj. }
  destruct (consume s claimed e w1) as [rc w2]. cbn in Hok, Hc. subst rc.
  eapply alone_run_app; [exact Hc|]. apply IH.
Qed.
End Sequential.

(** C14. The loop as it is read is what the goroutines can do on their own.
    Polling and then processing the claimed jobs in turn, as [run_loop] and
    [ProcessJob] do call by call, ends in a world that the goroutines of
    the worker reach by their own steps alone: no other process commits,
    none crashes, no signal arrives, and between two steps database, Redis,
    bus and metrics do not change.  The run begins and ends with every slot
    free and the main goroutine at its [select].  So what a tick is proved
    to achieve is achieved by a schedule of the goroutines. *)
Theorem loop_is_a_schedule s e ticks w :
  solo e -> 1 <= wk_concurrency s ->
  alone_run s (w, booted s) ((run_loop ticks (fun _ => None) s e w).2, booted s).
Proof. intros He Hc. exact (run_loop_run s e He Hc ticks w). Qed.

Lemma loop_is_a_schedule_witness :
  alone_run worker2 (created, booted worker2)
    ((run_loop 1 (fun _ => None) worker2 env0 created).2, booted worker2) /\
  (jr_status <$> jobs (w_db (run_loop 1 (fun _ => None) worker2 env0 created).2) !! 100%N) =
    Some StatusSucceeded.
Proof.
  split; [|by vm_compute].
  exact (loop_is_a_schedule worker2 env0 1 created solo0 ltac:(done)).
Defined.
