(* ===== verification/Http.v ===== *)
(** * The HTTP layer

    internal/response/response.go, internal/job/handler.go and
    internal/auth/middleware.go.  A handler is a function from a request
    to the one response it writes; every error becomes a response, and the
    error channel of [M] is left to panics.  The JSON decoder of the request body (with its
    size limit), [uuid.Parse] and [time.Parse] are parameters. *)

From S2P Require Import Prelude GoRuntime Engine Sql Schema Effects Json Dto Repository Auth Service Executor Lock Rfc3339 Registry.

Local Open Scope Z_scope.
Local Open Scope go_scope.

(** ** Requests and responses *)

(** What the handlers read of [*http.Request]: a missing query parameter,
    header or path parameter reads as the empty string. *)
Record Request := mkRequest {
  rq_Method : string;
  rq_Path : string;
  rq_URLParam : string -> string;
  rq_Query : string -> string;
  rq_Header : string -> string;
  rq_Body : string;
  rq_Context : Ctx;
  rq_RequestID : string
}.

#[export] Instance eta_Request : Eta Request := fun r =>
  mkRequest (rq_Method r) (rq_Path r) (rq_URLParam r) (rq_Query r) (rq_Header r) (rq_Body r)
    (rq_Context r) (rq_RequestID r).
#[export] Instance upd_rq_URLParam : Upd rq_URLParam := ltac:(mk_upd rq_URLParam).
#[export] Instance upd_rq_Context : Upd rq_Context := ltac:(mk_upd rq_Context).
#[export] Instance upd_rq_RequestID : Upd rq_RequestID := ltac:(mk_upd rq_RequestID).

(** [r.WithContext(ctx)]. *)
Definition WithContext (r : Request) (ctx : Ctx) : Request := r <| rq_Context := ctx |>.

Record ErrorBody := mkErrorBody {
  eb_Code : string;
  eb_Message : string
}.

(** The [Data any] the endpoints put into the envelope. *)
Inductive ApiData :=
| DNil
| DCreated (resp : CreateResponse)
| DPage (page : Page)
| DJob (j : Job)
| DAttempts (items : list Attempt)
| DEvents (items : list Event)
| DDeadLetters (items : list DeadLetterJob)
| DWorkers (items : list Info)
| DPrincipal (p : option Principal)
| DSummary (summary : DashboardSummary)
| DStrings (fields : list (string * string)).

Record Envelope := mkEnvelope {
  en_Success : bool;
  en_Data : ApiData;
  en_Error : option ErrorBody;
  en_RequestID : string
}.

(** A response carries an envelope, some text, or nothing. *)
Inductive Body :=
| BEnvelope (en : Envelope)
| BText (text : string)
| BEmpty.

Record Response := mkResponse {
  rs_Status : Z;
  rs_Header : gmap string string;
  rs_Body : Body
}.

(** [write]. *)
Definition write (status : Z) (body : Envelope) : Response :=
  {| rs_Status := status; rs_Header := {[ "Content-Type" := "application/json" ]};
     rs_Body := BEnvelope body |}.

(** [w.Header().Set(key, value)] before [resp] is written: what [resp]
    sets itself wins. *)
Definition set_header (key value : string) (resp : Response) : Response :=
  {| rs_Status := rs_Status resp;
     rs_Header := rs_Header resp ∪ {[ key := value ]};
     rs_Body := rs_Body resp |}.

Definition RequestID (r : Request) : string := rq_RequestID r.

(** [response.JSON]. *)
Definition JSON (r : Request) (status : Z) (data : ApiData) : Response :=
  write status {| en_Success := true; en_Data := data; en_Error := None;
                  en_RequestID := RequestID r |}.

(** [response.Error]. *)
Definition Error (r : Request) (status : Z) (code message : string) : Response :=
  write status {| en_Success := false; en_Data := DNil;
                  en_Error := Some {| eb_Code := code; eb_Message := message |};
                  en_RequestID := RequestID r |}.

Abbreviation Handler := (Request -> M Response).

(** ** Helpers *)

Definition queryInt (r : Request) (key : string) (fallback : Z) : result Z :=
  let value := rq_Query r key in
  if bool_decide (value = "") then Ok fallback
  else match Atoi value with
       | None => Err (ErrorString (key +:+ " must be an integer"))
       | Some parsed =>
           if parsed <? 1 then Err (ErrorString (key +:+ " must be at least 1"))
           else Ok parsed
       end.

Definition writeError (r : Request) (err : error) : Response :=
  if errors_Is err ErrInvalidInput
  then Error r 400 "INVALID_INPUT" (error_text err)
  else if errors_Is err ErrInvalidTransition
  then Error r 409 "INVALID_TRANSITION" (error_text err)
  else if errors_Is err ErrConflict
  then Error r 409 "CONFLICT" (error_text err)
  else if errors_Is err ErrIdempotency
  then Error r 409 "IDEMPOTENCY_CONFLICT" (error_text err)
  else if errors_Is err ErrNotFound
  then Error r 404 "NOT_FOUND" "resource not found"
  else Error r 500 "INTERNAL_ERROR" "internal server error".

(** [resp, err := m; if err != nil { writeError; return }; ...]. *)
Definition respond {A} (r : Request) (m : M A) (ok : A -> Response) : M Response :=
  res ← try m;
  mret match res with Ok a => ok a | Err err => writeError r err end.

Section Handlers.
(** [decoder.Decode] of at most [limit] bytes with unknown fields refused,
    [uuid.Parse] and [time.Parse(time.RFC3339, _)]. *)
Context (json_Decode : Z -> string -> option CreateRequest)
        (uuid_Parse : string -> option UUID)
        (time_Parse : string -> option Time).
Context (marshal : CreateRequest -> result string) (Sum256 : string -> string)
        (service : Service).

Definition parseUUID (r : Request) (param : string) : result UUID :=
  match uuid_Parse (rq_URLParam r param) with
  | None => Err (ErrorString (param +:+ " must be a valid UUID"))
  | Some id => Ok id
  end.

(** [id, ok := parseUUID(w, r, param); if !ok { return }]. *)
Definition with_UUID (r : Request) (param : string) (k : UUID -> M Response) : M Response :=
  match parseUUID r param with
  | Err err => mret (Error r 400 "INVALID_UUID" (error_text err))
  | Ok id => k id
  end.

Definition create : Handler := fun r =>
  match json_Decode (2 ^ 20) (rq_Body r) with
  | None => mret (Error r 400 "INVALID_JSON" "request body must be valid JSON")
  | Some req =>
      let req := req <| cq_IdempotencyKey := rq_Header r "Idempotency-Key" |> in
      respond r (Service.Create marshal Sum256 service (rq_Context r) req)
        (fun resp => JSON r (if cp_Replayed resp then 200 else 201) (DCreated resp))
  end.

(** An optional RFC 3339 bound of the listing. *)
Definition queryTime (r : Request) (key : string) : result (option Time) :=
  let value := rq_Query r key in
  if bool_decide (value = "") then Ok None
  else match time_Parse value with
       | None => Err (ErrorString (key +:+ " must be RFC3339"))
       | Some t => Ok (Some t)
       end.

Definition list_filter (r : Request) : result ListFilter :=
  match queryInt r "page" 1 with
  | Err err => Err err
  | Ok page =>
      match queryInt r "page_size" 20 with
      | Err err => Err err
      | Ok pageSize =>
          match queryTime r "created_after" with
          | Err err => Err err
          | Ok after =>
              match queryTime r "created_before" with
              | Err err => Err err
              | Ok before =>
                  Ok {| lf_Status := rq_Query r "status";
                        lf_JobType := rq_Query r "job_type";
                        lf_Page := page; lf_PageSize := pageSize;
                        lf_Sort := rq_Query r "sort"; lf_Order := rq_Query r "order";
                        lf_CreatedAfter := after; lf_CreatedBefore := before |}
              end
          end
      end
  end.

Definition list : Handler := fun r =>
  match list_filter r with
  | Err err => mret (Error r 400 "INVALID_INPUT" (error_text err))
  | Ok filter =>
      respond r (Service.List (rq_Context r) filter) (fun page => JSON r 200 (DPage page))
  end.

Definition events : Handler := fun r =>
  with_UUID r "jobID" (fun id =>
    respond r (Events (rq_Context r) id) (fun items => JSON r 200 (DEvents items))).

Definition get : Handler := fun r =>
  with_UUID r "jobID" (fun id =>
    respond r (Get (rq_Context r) id) (fun j => JSON r 200 (DJob j))).

Definition attempts : Handler := fun r =>
  with_UUID r "jobID" (fun id =>
    respond r (Attempts (rq_Context r) id) (fun items => JSON r 200 (DAttempts items))).

Definition transition (fn : Ctx -> UUID -> M unit) : Handler := fun r =>
  with_UUID r "jobID" (fun id =>
    respond r (fn (rq_Context r) id)
      (fun _ => JSON r 200 (DStrings [("job_id", uuid_String id)]))).

Definition cancel : Handler := transition Cancel.
Definition pause : Handler := transition Pause.
Definition resume : Handler := transition Resume.
Definition retry : Handler := transition Retry.

Definition deadLetters : Handler := fun r =>
  match queryInt r "page" 1 with
  | Err err => mret (Error r 400 "INVALID_INPUT" (error_text err))
  | Ok page =>
      match queryInt r "page_size" 20 with
      | Err err => mret (Error r 400 "INVALID_INPUT" (error_text err))
      | Ok pageSize =>
          respond r (Service.ListDeadLetters (rq_Context r) page pageSize)
            (fun items => JSON r 200 (DDeadLetters items))
      end
  end.

Definition requeueDeadLetter : Handler := fun r =>
  with_UUID r "deadLetterID" (fun id =>
    respond r (Service.RequeueDeadLetter (rq_Context r) id) (fun j => JSON r 201 (DJob j))).

(** ** Access control *)

(** [auth.Require]. *)
Definition Require (role : Role) (next : Handler) : Handler := fun r =>
  match FromContext (rq_Context r) with
  | Some principal =>
      if Allows principal role then next r
      else mret (Error r 403 "FORBIDDEN" "insufficient permissions")
  | None => mret (Error r 403 "FORBIDDEN" "insufficient permissions")
  end.

(** [auth.Middleware] over some [Authenticator]. *)
Definition Middleware (authenticate : string -> M Principal) (enabled : bool)
    (next : Handler) : Handler := fun r =>
  if negb enabled
  then next (WithContext r (WithPrincipal (rq_Context r) (PrincipalOrDefault (rq_Context r))))
  else
    let key := TrimSpace (rq_Header r "X-API-Key") in
    if bool_decide (key = "")
    then mret (Error r 401 "UNAUTHORIZED" "X-API-Key is required")
    else
      res ← try (authenticate key);
      match res with
      | Err _ => mret (Error r 401 "UNAUTHORIZED" "invalid API key")
      | Ok principal => next (WithContext r (WithPrincipal (rq_Context r) principal))
      end.

(** [Routes] and [DeadLetterRoutes]: method, pattern and endpoint as they
    are registered with the router. *)
Definition Routes : Datatypes.list (string * string * Handler) :=
  [("POST", "/", Require RoleOperator create);
   ("GET", "/", list);
   ("GET", "/{jobID}", get);
   ("GET", "/{jobID}/attempts", attempts);
   ("GET", "/{jobID}/events", events);
   ("POST", "/{jobID}/cancel", Require RoleOperator cancel);
   ("POST", "/{jobID}/pause", Require RoleOperator pause);
   ("POST", "/{jobID}/resume", Require RoleOperator resume);
   ("POST", "/{jobID}/retry", Require RoleOperator retry)].

Definition DeadLetterRoutes : Datatypes.list (string * string * Handler) :=
  [("GET", "/", deadLetters);
   ("POST", "/{deadLetterID}/requeue", Require RoleOperator requeueDeadLetter)].
End Handlers.
