(* ===== verification/Wire.v ===== *)
(** * A create request on the wire

    [json.Decoder.Decode] of a [CreateRequest] with unknown fields refused,
    behind the body limit of internal/job/handler.go, and [json.Marshal] of
    the fields that internal/job/service.go hashes.  The two structs have
    the same JSON names, so what the service hashes is also a body the
    handler accepts. *)

From S2P Require Import Prelude GoRuntime Strings Engine Sql Schema Effects Json Dto Repository Auth Service Executor Lock Rfc3339 JsonText JsonRaw JsonDecode JsonScan.

Local Open Scope Z_scope.
Local Open Scope go_scope.

#[export] Instance upd_cq_Name : Upd cq_Name := ltac:(mk_upd cq_Name).
#[export] Instance upd_cq_JobType : Upd cq_JobType := ltac:(mk_upd cq_JobType).
#[export] Instance upd_cq_Payload : Upd cq_Payload := ltac:(mk_upd cq_Payload).
#[export] Instance upd_cq_RunAt : Upd cq_RunAt := ltac:(mk_upd cq_RunAt).

(** ** Decoding *)

Inductive create_field :=
| FName | FJobType | FPayload | FRunAt | FPriority | FMaxRetries | FRetryBackoffSeconds
| FTimeoutSeconds.

(** The JSON names of [CreateRequest]; [IdempotencyKey] has none. *)
Definition create_fields : list (string * create_field) :=
  [("name", FName); ("job_type", FJobType); ("payload", FPayload); ("run_at", FRunAt);
   ("priority", FPriority); ("max_retries", FMaxRetries);
   ("retry_backoff_seconds", FRetryBackoffSeconds); ("timeout_seconds", FTimeoutSeconds)].

(** [var req CreateRequest]. *)
Definition zero_request : CreateRequest :=
  {| cq_Name := ""; cq_JobType := ""; cq_Payload := ""; cq_RunAt := zero_time;
     cq_Priority := 0; cq_MaxRetries := 0; cq_RetryBackoffSeconds := 0;
     cq_TimeoutSeconds := 0; cq_IdempotencyKey := "" |}.

Section Decode.
Context (time_Parse : string -> option Time).

(** One member; a name that is no field is an error. *)
Definition set_create_field (req : CreateRequest) (key raw : list N) : option CreateRequest :=
  f ← match_field create_fields key;
  match f with
  | FName => s ← decode_string (cq_Name req) raw; Some (req <| cq_Name := s |>)
  | FJobType => s ← decode_string (cq_JobType req) raw; Some (req <| cq_JobType := s |>)
  | FPayload => Some (req <| cq_Payload := text raw |>)
  | FRunAt => t ← decode_time time_Parse (cq_RunAt req) raw; Some (req <| cq_RunAt := t |>)
  | FPriority => z ← decode_int (cq_Priority req) raw; Some (req <| cq_Priority := z |>)
  | FMaxRetries => z ← decode_int (cq_MaxRetries req) raw; Some (req <| cq_MaxRetries := z |>)
  | FRetryBackoffSeconds =>
      z ← decode_int (cq_RetryBackoffSeconds req) raw;
      Some (req <| cq_RetryBackoffSeconds := z |>)
  | FTimeoutSeconds =>
      z ← decode_int (cq_TimeoutSeconds req) raw; Some (req <| cq_TimeoutSeconds := z |>)
  end.

(** [json.NewDecoder(http.MaxBytesReader(w, r.Body, limit))] with
    [DisallowUnknownFields]: the first value of the first [limit] bytes.
    A value that ends only at the next byte, as [null] does, must have one
    or be the end of the body. *)
Definition Decode (limit : Z) (body : string) : option CreateRequest :=
  let l := take (Z.to_nat limit) (codes body) in
  fs ← object_fields l;
  if bool_decide (fs = []) && bool_decide (head (skip_ws l) = Some 110%N) &&
     (limit <? string_len body) && bool_decide (length (skip_ws l) = 4%nat)
  then None
  else decode_fields set_create_field zero_request fs.
End Decode.

(** ** Encoding *)

(** A [json.RawMessage]: nil is [null]. *)
Definition raw_bytes (p : string) : list N :=
  if bool_decide (p = "") then [110; 117; 108; 108]%N else compact (codes p).

(** The fields of the hashed struct, in its order. *)
Definition request_members (req : CreateRequest) : list (string * list N) :=
  [("name", quote (codes (cq_Name req)));
   ("job_type", quote (codes (cq_JobType req)));
   ("payload", raw_bytes (cq_Payload req));
   ("run_at", quote (codes (time_Format (cq_RunAt req))));
   ("priority", print_int (cq_Priority req));
   ("max_retries", print_int (cq_MaxRetries req));
   ("retry_backoff_seconds", print_int (cq_RetryBackoffSeconds req));
   ("timeout_seconds", print_int (cq_TimeoutSeconds req))].

(** [json.Marshal] of it: the raw payload must be valid JSON, the year of
    the time within [0, 9999]. *)
Definition marshal_request (req : CreateRequest) : result string :=
  if negb (bool_decide (cq_Payload req = "")) && negb (json_Valid (cq_Payload req))
  then Err (ErrorString "json: error calling MarshalJSON for type json.RawMessage")
  else if negb (json_year_ok (cq_RunAt req))
  then Err (ErrorString "json: error calling MarshalJSON for type time.Time")
  else Ok (text (print_object (request_members req))).

Definition body0 : string :=
  text (print_object [("name", quote (codes "nightly")); ("JOB_TYPE", quote (codes "CALL_WEBHOOK"));
    ("payload", codes "[1, 2]"); ("run_at", quote (codes "2030-01-02T03:04:05+01:00"))]).

Example Decode_example :
  Decode (time_Parse (fun _ => None)) (2 ^ 20) body0 =
  Some (zero_request <| cq_Name := "nightly" |> <| cq_JobType := "CALL_WEBHOOK" |>
          <| cq_Payload := "[1, 2]" |> <| cq_RunAt := time_Date 2030 1 2 2 4 5 0 |>).
Proof. vm_compute. reflexivity. Qed.

Example Decode_unknown :
  Decode (time_Parse (fun _ => None)) (2 ^ 20)
    (text (print_object [("nmae", quote (codes "x"))])) = None.
Proof. vm_compute. reflexivity. Qed.

(** ** Text that needs no escape *)

Definition plain (l : list N) : Prop :=
  Forall (fun c => (32 <= c < 128)%N /\ c ∉ [34; 92; 60; 62; 38]%N) l.

Lemma plain_app l1 l2 : plain (l1 ++ l2) <-> plain l1 /\ plain l2.
Proof. apply Forall_app. Qed.

Lemma plain_runes l : plain l -> runes l = RAscii <$> l.
Proof.
  induction 1 as [|c l [Hc _] _ IH]; [done|]. cbn [runes].
  rewrite (proj2 (N.ltb_lt c 128)) by lia. by rewrite IH.
Qed.

Lemma quote_plain l : plain l -> quote_body l = l /\ to_valid l = l.
Proof.
  intros Hl. unfold quote_body, to_valid. rewrite plain_runes by done.
  induction Hl as [|c l [Hr Hc] _ [IH1 IH2]]; [done|]. cbn [fmap list_fmap mbind list_bind].
  rewrite IH1, IH2. split; [|done]. cbn [escape_rune]. unfold escape_ascii.
  rewrite (bool_decide_eq_false_2 (c ∈ [34; 92]%N)) by set_solver.
  rewrite (bool_decide_eq_false_2 (c ∈ [60; 62; 38]%N)) by set_solver.
  rewrite (proj2 (N.ltb_ge c 32)), (proj2 (N.eqb_neq c 8)), (proj2 (N.eqb_neq c 12)),
    (proj2 (N.eqb_neq c 10)), (proj2 (N.eqb_neq c 13)), (proj2 (N.eqb_neq c 9)) by lia. done.
Qed.

Lemma digits_plain l : digit_list l -> plain l.
Proof.
  intros Hl. eapply Forall_impl; [exact Hl|]. intros c Hc%is_digit_range. split; [lia|].
  rewrite !elem_of_cons, elem_of_nil. lia.
Qed.

Lemma digit_char_code d : 0 <= d <= 9 -> is_digit (Ascii.N_of_ascii (digit_char d)) = true.
Proof.
  intros Hd. unfold digit_char, Ascii.ascii_of_nat. rewrite Ascii.N_ascii_embedding by lia.
  apply is_digit_range. lia.
Qed.

Lemma pad_digits w n : 0 <= n < 10 ^ Z.of_nat w -> digit_list (codes (pad w n)).
Proof.
  revert n. induction w as [|w IH]; intros n Hn; [constructor|].
  unfold codes. cbn. constructor.
  - apply digit_char_code. by apply leading_digit.
  - apply IH, rest_range.
Qed.

Lemma appendInt_plain w n : 0 <= n < 10 ^ Z.of_nat w -> plain (codes (appendInt n w)).
Proof.
  intros Hn. unfold appendInt. rewrite (proj2 (Z.ltb_ge n 0)), Z.abs_eq by lia.
  rewrite (proj2 (Z.ltb_lt n _)) by lia. apply digits_plain. by apply pad_digits.
Qed.

Lemma fraction_plain w n : 0 <= n < 10 ^ Z.of_nat w -> plain (codes (fraction w n)).
Proof.
  revert n. induction w as [|w IH]; intros n Hn; [constructor|].
  cbn [fraction]. case_match; [constructor|]. unfold codes. cbn.
  constructor; [|apply IH, rest_range].
  pose proof (digit_char_code _ (leading_digit _ _ Hn)) as Hd.
  by pose proof (digits_plain [_] ltac:(by constructor)) as [? _]%Forall_cons.
Qed.

Lemma time_Format_plain t : json_year_ok t = true -> plain (codes (time_Format t)).
Proof.
  intros Hy. apply civil_year in Hy. destruct (civil_of_spec t) as [[Hm Hd Hh Hmi Hs Hn] _].
  pose proof (daysIn_range (c_year (civil_of t)) (c_month (civil_of t))) as Hdays.
  unfold time_Format, format_civil. rewrite !codes_app, !plain_app.
  assert (Hsep : forall s : string, s ∈ ["-"; "T"; ":"; "Z"; "."] -> plain (codes s)).
  { intros c Hc. repeat (apply elem_of_cons in Hc as [->|Hc]; [by apply (bool_decide_unpack _)|]).
    by apply not_elem_of_nil in Hc. }
  assert (H2 : forall n, 0 <= n <= 99 -> plain (codes (appendInt n 2))).
  { intros n ?. apply appendInt_plain. change (10 ^ Z.of_nat 2) with 100. lia. }
  split; [apply appendInt_plain; change (10 ^ Z.of_nat 4) with 10000; lia|].
  split; [apply Hsep; by left|]. split; [apply H2; lia|]. split; [apply Hsep; by left|].
  split; [apply H2; lia|]. split; [apply Hsep; by right; left|]. split; [apply H2; lia|].
  split; [apply Hsep; by do 2 right; left|]. split; [apply H2; lia|].
  split; [apply Hsep; by do 2 right; left|]. split; [apply H2; lia|].
  split; [|apply Hsep; by do 3 right; left].
  case_match; [constructor|]. rewrite codes_app, plain_app. split; [apply Hsep; by do 4 right; left|].
  by apply fraction_plain.
Qed.

(** ** Fields that were printed *)

Lemma decode_plain_time parse old s t :
  plain (codes s) -> parse s = Some t -> decode_time parse old (quote (codes s)) = Some t.
Proof.
  intros Hs Hp. unfold decode_time. rewrite is_null_quote. unfold quote.
  rewrite (proj1 (quote_plain _ Hs)). cbn [app N.eqb Pos.eqb andb].
  rewrite last_snoc, bool_decide_eq_true_2 by done.
  by rewrite removelast_last, text_codes.
Qed.

Lemma decode_print_time general old t :
  json_year_ok t = true ->
  decode_time (time_Parse general) old (quote (codes (time_Format t))) = Some t.
Proof. intros Hy. apply decode_plain_time; [by apply time_Format_plain|by apply time_Parse_Format]. Qed.

(** ** The request as the hash sees it *)

(** What is left of a request when its text is read back: invalid UTF-8
    replaced, the payload compact, no idempotency key. *)
Definition canonical (req : CreateRequest) : CreateRequest :=
  req <| cq_Name := text (to_valid (codes (cq_Name req))) |>
      <| cq_JobType := text (to_valid (codes (cq_JobType req))) |>
      <| cq_Payload := text (compact (codes (cq_Payload req))) |>
      <| cq_IdempotencyKey := "" |>.

(** Go's integers have 64 bits; the payload is nested below the limit of
    the decoder even inside an object. *)
Record printable (req : CreateRequest) : Prop := mk_printable {
  pq_priority : int64_ok (cq_Priority req) = true;
  pq_retries : int64_ok (cq_MaxRetries req) = true;
  pq_backoff : int64_ok (cq_RetryBackoffSeconds req) = true;
  pq_timeout : int64_ok (cq_TimeoutSeconds req) = true;
  pq_payload : exists r, json_value (2 * length (codes (cq_Payload req)) + 2) 1
                 (codes (cq_Payload req)) = Some r /\ skip_ws r = []
}.

Lemma printable_payload req : printable req -> cq_Payload req <> "".
Proof. intros [_ _ _ _ (r & H & _)] E. by rewrite E in H. Qed.

Lemma request_members_text req :
  printable req -> Forall (fun m => value_text 1 m.2) (request_members req).
Proof.
  intros H. pose proof (printable_payload _ H) as Hne. destruct H as [_ _ _ _ (r & Hv & Hr)].
  unfold request_members, raw_bytes. rewrite bool_decide_eq_false_2 by done.
  repeat first [apply Forall_nil_2 | apply Forall_cons_2]; cbn;
    try apply quote_text; try apply print_int_text. by eapply compact_text.
Qed.

(** One printed member is stored in its field. *)
Lemma set_field_step general req name f raw :
  match_field create_fields (to_valid (codes name)) = Some f ->
  set_create_field (time_Parse general) req (to_valid (codes name)) raw =
  match f with
  | FName => s ← decode_string (cq_Name req) raw; Some (req <| cq_Name := s |>)
  | FJobType => s ← decode_string (cq_JobType req) raw; Some (req <| cq_JobType := s |>)
  | FPayload => Some (req <| cq_Payload := text raw |>)
  | FRunAt => t ← decode_time (time_Parse general) (cq_RunAt req) raw;
              Some (req <| cq_RunAt := t |>)
  | FPriority => z ← decode_int (cq_Priority req) raw; Some (req <| cq_Priority := z |>)
  | FMaxRetries => z ← decode_int (cq_MaxRetries req) raw; Some (req <| cq_MaxRetries := z |>)
  | FRetryBackoffSeconds => z ← decode_int (cq_RetryBackoffSeconds req) raw;
                            Some (req <| cq_RetryBackoffSeconds := z |>)
  | FTimeoutSeconds => z ← decode_int (cq_TimeoutSeconds req) raw;
                       Some (req <| cq_TimeoutSeconds := z |>)
  end.
Proof. intros H. unfold set_create_field. by rewrite H. Qed.

Ltac field_step name f lem :=
  erewrite decode_fields_cons;
    [|rewrite (set_field_step _ _ name f) by (vm_compute; reflexivity); rewrite ?lem by done;
      reflexivity].

Lemma request_fields general req :
  printable req -> json_year_ok (cq_RunAt req) = true ->
  decode_fields (set_create_field (time_Parse general)) zero_request
    (seen <$> request_members req) = Some (canonical req).
Proof.
  intros H Hy. pose proof (printable_payload _ H) as Hne. destruct H as [H1 H2 H3 H4 _].
  unfold request_members, raw_bytes. rewrite bool_decide_eq_false_2 by done.
  unfold seen. cbn [fmap list_fmap fst snd].
  field_step "name" FName decode_quote. field_step "job_type" FJobType decode_quote.
  field_step "payload" FPayload decode_quote. field_step "run_at" FRunAt decode_print_time.
  field_step "priority" FPriority decode_print_int.
  field_step "max_retries" FMaxRetries decode_print_int.
  field_step "retry_backoff_seconds" FRetryBackoffSeconds decode_print_int.
  field_step "timeout_seconds" FTimeoutSeconds decode_print_int. done.
Qed.

Lemma request_members_bytes req : Forall (fun m => byte_list m.2) (request_members req).
Proof.
  assert (Hraw : byte_list (raw_bytes (cq_Payload req))).
  { unfold raw_bytes. case_bool_decide; [by repeat constructor|apply compact_bytes, codes_bytes]. }
  unfold request_members.
  do 8 (apply Forall_cons_2; [cbn [snd]; solve [done | apply quote_bytes, codes_bytes
    | apply codes_bytes]|]). apply Forall_nil_2.
Qed.

(** ** Round trip *)

Lemma marshal_request_ok req b :
  marshal_request req = Ok b ->
  json_year_ok (cq_RunAt req) = true /\ codes b = print_object (request_members req).
Proof.
  unfold marshal_request. case_match; [done|]. destruct (json_year_ok _); [|done]. intros [= <-].
  split; [done|]. apply codes_text, print_object_bytes, request_members_bytes.
Qed.

Lemma Decode_marshal general limit req b junk :
  printable req -> marshal_request req = Ok b -> string_len b <= limit ->
  Decode (time_Parse general) limit (b +:+ junk) = Some (canonical req).
Proof.
  intros Hp [Hy Hb]%marshal_request_ok Hlen. unfold Decode.
  assert (Hl : string_len b = Z.of_nat (length (codes b))).
  { unfold string_len, codes. rewrite length_fmap. f_equal. clear.
    induction b as [|c b IH]; [done|]. cbn. by rewrite IH. }
  rewrite codes_app, take_app_ge by lia. rewrite Hb.
  rewrite object_fields_print; [|done|by apply request_members_text].
  cbn [mbind option_bind]. rewrite (bool_decide_eq_false_2 (_ <$> _ = [])) by done.
  cbn [andb]. by apply request_fields.
Qed.
