(* ===== verification/WireFacts.v ===== *)
(** * Create requests from body to row

    What the decoder of internal/job/handler.go yields, printed by the
    service for its hash, and the Idempotency-Key contract of
    [POST /jobs] with both in place: only SHA-256 and the general layout
    parser of [time.Parse] remain parameters. *)

From S2P Require Import Prelude GoRuntime Strings Engine Sql Schema Effects Json JsonText JsonRaw JsonDecode JsonScan Dto Repository Invariant Preservation Auth Service Executor Lock Rfc3339 Registry Worker Scenario AuthFacts Safety Outbox System Finalise Idempotency Http Wire.

Local Open Scope Z_scope.
Local Open Scope go_scope.

(** ** Hexadecimal text *)

Definition hex_index (c : Ascii.ascii) : nat :=
  let n := Ascii.nat_of_ascii c in if (n <? 58)%nat then (n - 48)%nat else (n - 87)%nat.

Lemma hex_index_nth n : (n < 16)%nat -> hex_index (nth_char "0123456789abcdef" n) = n.
Proof. intros Hn. do 16 (destruct n as [|n]; [reflexivity|]). lia. Qed.

Lemma hex_EncodeToString_inj s1 s2 : hex_EncodeToString s1 = hex_EncodeToString s2 -> s1 = s2.
Proof.
  revert s2. induction s1 as [|c1 s1 IH]; intros [|c2 s2]; cbn [hex_EncodeToString]; try done.
  intros [= H1 H2 H3]. f_equal; [|by apply IH].
  apply (f_equal hex_index) in H1, H2.
  change (hex_index (nth_char "0123456789abcdef" (Ascii.nat_of_ascii c1 / 16)) =
    hex_index (nth_char "0123456789abcdef" (Ascii.nat_of_ascii c2 / 16)))%nat in H1.
  change (hex_index (nth_char "0123456789abcdef" (Ascii.nat_of_ascii c1 mod 16)) =
    hex_index (nth_char "0123456789abcdef" (Ascii.nat_of_ascii c2 mod 16)))%nat in H2.
  pose proof (Ascii.nat_ascii_bounded c1) as B1. pose proof (Ascii.nat_ascii_bounded c2) as B2.
  rewrite !hex_index_nth in H1 by (apply Nat.Div0.div_lt_upper_bound; lia).
  rewrite !hex_index_nth in H2 by (apply Nat.mod_upper_bound; lia).
  assert (E : Ascii.nat_of_ascii c1 = Ascii.nat_of_ascii c2).
  { rewrite (Nat.div_mod_eq (Ascii.nat_of_ascii c1) 16), H1, H2. symmetry. apply Nat.div_mod_eq. }
  apply (f_equal Ascii.ascii_of_nat) in E. by rewrite !Ascii.ascii_nat_embedding in E.
Qed.

(** ** What the decoder yields *)

(** Strings in UTF-8, integers of 64 bits, and a payload that is one JSON
    value where it stood, inside the request's object. *)
Record decoded (req : CreateRequest) : Prop := mk_decoded {
  dq_name : utf8_Valid (codes (cq_Name req)) = true;
  dq_type : utf8_Valid (codes (cq_JobType req)) = true;
  dq_priority : int64_ok (cq_Priority req) = true;
  dq_retries : int64_ok (cq_MaxRetries req) = true;
  dq_backoff : int64_ok (cq_RetryBackoffSeconds req) = true;
  dq_timeout : int64_ok (cq_TimeoutSeconds req) = true;
  dq_payload : cq_Payload req = "" \/
    json_value (2 * length (codes (cq_Payload req)) + 2) 1 (codes (cq_Payload req)) = Some []
}.

Lemma set_field_decoded parse req key raw req' :
  decoded req -> member_ok 1 (key, raw) -> set_create_field parse req key raw = Some req' ->
  decoded req'.
Proof.
  intros [H1 H2 H3 H4 H5 H6 H7] (_ & Hb & Hv) H. unfold set_create_field in H. cbn in Hb, Hv.
  apply bind_Some in H as (f & _ & H).
  destruct f; try (apply bind_Some in H as (v & Hd & [= <-]));
    try (apply decode_string_valid in Hd; [|done]); try (apply decode_int_range in Hd; [|done]);
    try (split; cbn; done).
  injection H as <-. split; try assumption. right.
  change (cq_Payload _) with (text raw). by rewrite codes_text.
Qed.

Lemma Decode_decoded parse limit body req :
  Decode parse limit body = Some req -> decoded req /\ cq_IdempotencyKey req = "".
Proof.
  intros (fs & Hf & H)%bind_Some.
  assert (Hb : byte_list (take (Z.to_nat limit) (codes body))).
  { apply Forall_take, codes_bytes. }
  pose proof (object_fields_ok _ _ Hb Hf) as Hok. case_match; [done|].
  apply (decode_fields_inv (fun q => decoded q /\ cq_IdempotencyKey q = ""))
    with (d := 1%N) in H; [done| |by repeat split; left|done].
  clear. intros q key raw q' [Hq Hk] Hm H. split; [by eapply set_field_decoded|].
  unfold set_create_field in H. apply bind_Some in H as (f & _ & H).
  destruct f; try (apply bind_Some in H as (v & Hd & [= <-])); try done. by injection H as <-.
Qed.

Lemma canonical_decoded req :
  decoded req -> canonical req =
    req <| cq_Payload := text (compact (codes (cq_Payload req))) |> <| cq_IdempotencyKey := "" |>.
Proof.
  intros [H1 H2 _ _ _ _ _]. unfold canonical. rewrite !to_valid_id, !text_codes by done.
  by destruct req.
Qed.

Lemma decoded_printable req : decoded req -> cq_Payload req <> "" -> printable req.
Proof. intros [H1 H2 H3 H4 H5 H6 [H7|H7]] Hne; [done|]. split; try done. by exists []. Qed.

(** A payload as [json.Marshal] prints it: null where the body had none,
    and else compact. *)
Definition printed_payload (p : string) : string :=
  if bool_decide (p = "") then "null" else text (compact (codes p)).

(** Printing a request that was decoded and decoding the text again. *)
Lemma Decode_printed general limit body limit' req b junk :
  Decode (time_Parse general) limit body = Some req ->
  marshal_request req = Ok b -> string_len b <= limit' ->
  Decode (time_Parse general) limit' (b +:+ junk) =
    Some (req <| cq_Payload := printed_payload (cq_Payload req) |>).
Proof.
  intros [Hd Hk]%Decode_decoded Hb Hlen.
  assert (Hgo : forall req, decoded req -> cq_IdempotencyKey req = "" -> cq_Payload req <> "" ->
    marshal_request req = Ok b -> Decode (time_Parse general) limit' (b +:+ junk) =
      Some (req <| cq_Payload := text (compact (codes (cq_Payload req))) |>)).
  { clear req Hd Hk Hb. intros req Hd Hk Hne Hb.
    rewrite (Decode_marshal general limit' req b junk) by (done || by apply decoded_printable).
    rewrite canonical_decoded by done. f_equal. destruct req. cbn in Hk. by subst. }
  unfold printed_payload. case_bool_decide as Hp; [|by apply Hgo].
  rewrite (Hgo (req <| cq_Payload := "null" |>)); [done|..].
  - destruct Hd. split; try done. right. by vm_compute.
  - done.
  - done.
  - rewrite <- Hb. unfold marshal_request, request_members, raw_bytes. cbn [cq_Payload upd upd_cq_Payload].
    rewrite Hp. done.
Qed.

(** ** The hashed text *)

(** Two requests that mean the same to the service: equal but for the key,
    with payloads that [json.Marshal] prints alike.  That is the payload
    without white space outside its strings and with the escapes \u003c,
    \u003e, \u0026, \u2028 and \u2029 for the characters they stand for;
    other spellings of one value (the order of members, other escapes,
    1.0 and 1) stay apart. *)
Definition same_request (r1 r2 : CreateRequest) : Prop :=
  cq_Name r1 = cq_Name r2 /\ cq_JobType r1 = cq_JobType r2 /\
  compact (codes (cq_Payload r1)) = compact (codes (cq_Payload r2)) /\
  cq_RunAt r1 = cq_RunAt r2 /\ cq_Priority r1 = cq_Priority r2 /\
  cq_MaxRetries r1 = cq_MaxRetries r2 /\
  cq_RetryBackoffSeconds r1 = cq_RetryBackoffSeconds r2 /\
  cq_TimeoutSeconds r1 = cq_TimeoutSeconds r2.

(** [requestBytes] of [Create]. *)
Definition hashed_text (req : CreateRequest) : string :=
  match marshal_request req with Ok b => b | Err _ => "" end.

Lemma marshal_request_total req :
  printable req -> json_year_ok (cq_RunAt req) = true -> json_Valid (cq_Payload req) = true ->
  marshal_request req = Ok (text (print_object (request_members req))).
Proof. intros Hp Hy Hv. unfold marshal_request. by rewrite Hv, Hy, andb_false_r. Qed.

Section Faithful.
Context (r1 r2 : CreateRequest).
Context (D1 : decoded r1) (D2 : decoded r2) (N1 : cq_Payload r1 <> "") (N2 : cq_Payload r2 <> "").
Context (V1 : json_Valid (cq_Payload r1) = true) (V2 : json_Valid (cq_Payload r2) = true).
Context (Y2 : json_year_ok (cq_RunAt r2) = true).

Let E2 : marshal_request r2 = Ok (text (print_object (request_members r2))) :=
  marshal_request_total _ (decoded_printable _ D2 N2) Y2 V2.

(** Reading the common text gives both requests. *)
Lemma hashed_text_inj :
  json_year_ok (cq_RunAt r1) = true -> hashed_text r1 = hashed_text r2 -> same_request r1 r2.
Proof.
  intros Y1. pose proof (decoded_printable _ D1 N1) as P1.
  pose proof (decoded_printable _ D2 N2) as P2. unfold hashed_text.
  pose proof (marshal_request_total _ P1 Y1 V1) as E1. pose proof E2 as E2'.
  rewrite E1, E2. intros E. rewrite <- E in E2'.
  pose proof (Decode_marshal (fun _ => None) _ _ _ "" P1 E1 (Z.le_refl _)) as C1.
  pose proof (Decode_marshal (fun _ => None) _ _ _ "" P2 E2' (Z.le_refl _)) as C2.
  rewrite C1 in C2. apply (inj Some) in C2 as C. rewrite !canonical_decoded in C by done.
  pose proof (f_equal cq_Name C). pose proof (f_equal cq_JobType C).
  pose proof (f_equal (fun r => codes (cq_Payload r)) C) as C4. pose proof (f_equal cq_RunAt C).
  pose proof (f_equal cq_Priority C). pose proof (f_equal cq_MaxRetries C).
  pose proof (f_equal cq_RetryBackoffSeconds C). pose proof (f_equal cq_TimeoutSeconds C).
  change (codes (text (compact (codes (cq_Payload r1)))) =
    codes (text (compact (codes (cq_Payload r2))))) in C4.
  rewrite !codes_text in C4 by (apply compact_bytes, codes_bytes). by split_and!.
Qed.

(** The text tells requests apart exactly up to [same_request], also from
    one that could not be printed. *)
Lemma hashed_text_faithful : hashed_text r1 = hashed_text r2 <-> same_request r1 r2.
Proof.
  destruct (json_year_ok (cq_RunAt r1)) eqn:Y1.
  - split; [by apply hashed_text_inj|]. intros (H1 & H2 & H3 & H4 & H5 & H6 & H7 & H8).
    pose proof (marshal_request_total _ (decoded_printable _ D1 N1) Y1 V1) as E1.
    unfold hashed_text. rewrite E1, E2. f_equal. f_equal.
    unfold request_members, raw_bytes. rewrite !bool_decide_eq_false_2 by done.
    by rewrite H1, H2, H3, H4, H5, H6, H7, H8.
  - split; [|intros (_ & _ & _ & H4 & _); congruence].
    assert (E1 : hashed_text r1 = "").
    { unfold hashed_text, marshal_request. rewrite Y1. by destruct (_ && _). }
    rewrite E1. unfold hashed_text. rewrite E2. intros E. exfalso.
    by apply (f_equal (fun s => length (codes s))) in E.
Qed.
End Faithful.

(** ** A request the service accepts *)

Lemma int4_int64 z : int4_ok z = true -> int64_ok z = true.
Proof.
  unfold int4_ok, int64_ok. rewrite !andb_true_iff, !Z.leb_le. lia.
Qed.

Lemma create_check_payload req :
  create_check req = None -> cq_Payload req <> "" /\ json_Valid (cq_Payload req) = true.
Proof.
  unfold create_check, validateCreate. intros H. repeat (case_match; try done).
  match goal with H : bool_decide (cq_Payload _ = "") || _ || _ = false |- _ =>
    apply orb_false_iff in H as [[Hp Hv]%orb_false_iff _] end.
  apply bool_decide_eq_false in Hp. by apply negb_false_iff in Hv.
Qed.

Lemma prepared_decoded marshal Sum256 id p now s q key :
  decoded q ->
  storable (new_job marshal Sum256 id p (prepared s (q <| cq_IdempotencyKey := key |>)) now) = true ->
  decoded (prepared s (q <| cq_IdempotencyKey := key |>)).
Proof.
  intros [H1 H2 _ _ _ _ H7] Hs. unfold storable in Hs. cbn [forallb j_Priority j_RetryCount
    j_MaxRetries j_RetryBackoffSeconds j_TimeoutSeconds new_job] in Hs. bool_prop.
  assert (Hf : forall q', cq_Name (prepared s q') = cq_Name q' /\
    cq_JobType (prepared s q') = cq_JobType q' /\ cq_Payload (prepared s q') = cq_Payload q').
  { intros q'. unfold prepared, withDefaults. by repeat case_match. }
  destruct (Hf (q <| cq_IdempotencyKey := key |>)) as (E1 & E2 & E3).
  split; rewrite ?E1, ?E2, ?E3; auto using int4_int64.
Qed.

(** [POST /jobs] with the decoder and the encoder in place. *)
Definition post general Sum256 s : Handler :=
  Http.create (Decode (time_Parse general)) marshal_request Sum256 s.

(** The request the service prepares from a body and a key. *)
Definition request_of (s : Service) (r : Request) (q : CreateRequest) : CreateRequest :=
  prepared s (q <| cq_IdempotencyKey := rq_Header r "Idempotency-Key" |>).

Section Contract.
Context (general : string -> option Time) (Sum256 : string -> string) (s : Service).
Context (Hrec : RecorderLaws (sv_metrics s)).

Lemma post_run r q e w :
  Decode (time_Parse general) (2 ^ 20) (rq_Body r) = Some q ->
  let c := Service.Create marshal_request Sum256 s (rq_Context r)
             (q <| cq_IdempotencyKey := rq_Header r "Idempotency-Key" |>) e w in
  post general Sum256 s r e w =
    (Ok match c.1 with
        | Ok resp => JSON r (if cp_Replayed resp then 200 else 201) (DCreated resp)
        | Err err => writeError r err
        end, c.2).
Proof.
  intros Hq. cbv zeta. unfold post, create. rewrite Hq. unfold respond, mbind, M_bind, try.
  by destruct (Service.Create _ _ _ _ _ e w) as [[?|?] ?].
Qed.

(** A 201 carries a new job. *)
Lemma post_created r q e w resp w1 :
  Decode (time_Parse general) (2 ^ 20) (rq_Body r) = Some q ->
  post general Sum256 s r e w = (Ok resp, w1) -> rs_Status resp = 201 ->
  exists cr, resp = JSON r 201 (DCreated cr) /\ cp_Replayed cr = false /\
    Service.Create marshal_request Sum256 s (rq_Context r)
      (q <| cq_IdempotencyKey := rq_Header r "Idempotency-Key" |>) e w = (Ok cr, w1).
Proof.
  intros Hq Hrun Hst. rewrite (post_run r q e w Hq) in Hrun. cbv zeta in Hrun.
  destruct (Service.Create _ _ _ _ _ e w) as [[cr|err] w']; injection Hrun as <- <-; cbn in Hst.
  - destruct (cp_Replayed cr) eqn:E; [done|]. by exists cr.
  - exfalso. revert Hst. unfold writeError. by repeat case_match.
Qed.

(** The second request under a key, by the hash. *)
Lemma post_second r1 r2 q1 q2 e w resp w1 e2 w2 :
  healthy e -> db_ok (w_db w) -> fresh_ids e (w_tick w) (w_db w) ->
  Decode (time_Parse general) (2 ^ 20) (rq_Body r1) = Some q1 ->
  Decode (time_Parse general) (2 ^ 20) (rq_Body r2) = Some q2 ->
  let p1 := request_of s r1 q1 in let p2 := request_of s r2 q2 in
  cq_IdempotencyKey p1 <> "" -> cq_IdempotencyKey p2 = cq_IdempotencyKey p1 ->
  rq_Context r2 = rq_Context r1 ->
  post general Sum256 s r1 e w = (Ok resp, w1) -> rs_Status resp = 201 ->
  reaches (w_db w1) (w_db w2) -> healthy e2 -> fresh_ids e2 (w_tick w2) (w_db w2) ->
  create_check p2 = None ->
  storable (new_job marshal_request Sum256 0 (PrincipalOrDefault (rq_Context r2)) p2 0) = true ->
  exists cr, resp = JSON r1 201 (DCreated cr) /\ cp_Replayed cr = false /\
  create_check p1 = None /\ json_year_ok (cq_RunAt p1) = true /\ decoded p1 /\ decoded p2 /\
  (if bool_decide (request_hash marshal_request Sum256 p2 = request_hash marshal_request Sum256 p1)
   then exists st, (post general Sum256 s r2 e2 w2).1 =
          Ok (JSON r2 200 (DCreated (mkCreateResponse (cp_JobID cr) st true)))
   else (post general Sum256 s r2 e2 w2).1 =
          Ok (Error r2 409 "IDEMPOTENCY_CONFLICT" (error_text ErrIdempotency))) /\
  w_db (post general Sum256 s r2 e2 w2).2 = w_db w2.
Proof.
  intros H I Hf Hq1 Hq2 p1 p2 Hkey Ekey Ectx Hrun Hst R H2 Hf2 Hc2 Hs2.
  destruct (post_created _ _ _ _ _ _ Hq1 Hrun Hst) as (cr & -> & Hrep & Hcr).
  exists cr. split; [done|]. split; [done|].
  destruct (service_Create_key marshal_request Sum256 s Hrec _ _ e w cr w1 H I Hf Hkey Hcr Hrep)
    as (Hc1 & Hy1 & (id & now & Hs1) & _). split; [exact Hc1|]. split; [exact Hy1|].
  destruct (Decode_decoded _ _ _ _ Hq1) as [D1 _]. destruct (Decode_decoded _ _ _ _ Hq2) as [D2 _].
  split; [by eapply prepared_decoded|]. split; [by eapply prepared_decoded|].
  rewrite Ectx in Hs2.
  destruct (Create_second marshal_request Sum256 s Hrec _ _ e w cr w1 _ e2 w2 H I Hf Hkey Hcr Hrep
    R H2 Hf2 Ekey Hc2 Hs2) as [Hout Hdb].
  rewrite (post_run r2 q2 e2 w2 Hq2), Ectx. cbn [fst snd]. split; [|done].
  unfold p1, p2, request_of. case_bool_decide; [|by rewrite Hout].
  destruct Hout as [st ->]. by exists st.
Qed.
End Contract.

(** ** The contract of the create endpoint *)

(** C36. What the service hashes is a request body.  A request decoded from
    any body, printed the way [Create] prints it for the hash, decodes to
    the same request with its payload as [json.Marshal] prints it (null
    where there was none; else without white space outside strings, and
    with the characters <, >, &, U+2028 and U+2029 of strings as the
    escapes \u003c, \u003e, \u0026, \u2028 and \u2029), under any limit the
    text fits and whatever bytes follow it. *)
Theorem create_body_roundtrip general limit body limit' req b junk :
  Decode (time_Parse general) limit body = Some req ->
  marshal_request req = Ok b -> string_len b <= limit' ->
  Decode (time_Parse general) limit' (b +:+ junk) =
    Some (req <| cq_Payload := if bool_decide (cq_Payload req = "") then "null"
                               else text (compact (codes (cq_Payload req))) |>).
Proof. apply Decode_printed. Qed.

(** A body with a member that is no field of [CreateRequest] is refused:
    the answer is 400 INVALID_JSON and nothing is stored, whatever the
    other members are. *)
Theorem unknown_field_refused general Sum256 s r fs key raw e w :
  object_fields (take (Z.to_nat (2 ^ 20)) (codes (rq_Body r))) = Some fs ->
  (key, raw) ∈ fs -> match_field create_fields key = None ->
  post general Sum256 s r e w =
    (Ok (Error r 400 "INVALID_JSON" "request body must be valid JSON"), w).
Proof.
  intros Hf Hin Hkey. unfold post, create, Decode. rewrite Hf. cbn [mbind option_bind].
  assert (Hnone : forall q, decode_fields (set_create_field (time_Parse general)) q fs = None).
  { clear Hf. intros q. revert q. induction fs as [|[k v] fs IH]; intros q; [by apply not_elem_of_nil in Hin|].
    cbn [decode_fields]. apply elem_of_cons in Hin as [[= <- <-]|Hin].
    - unfold set_create_field. by rewrite Hkey.
    - destruct (set_create_field _ q k v); [by apply IH|done]. }
  rewrite Hnone. by destruct (_ && _ && _ && _).
Qed.

(** C22. The Idempotency-Key contract of [POST /jobs], from body to row.
    After a request with a key was answered 201, and after anything the
    system has done since, a second request under that key that would
    itself be acceptable is answered 200 with the same job exactly when the
    two are equal after defaults with their payloads printed compact (white
    space outside strings dropped, and <, >, &, U+2028 and U+2029 inside
    strings the same as the escapes \u003c, \u003e, \u0026, \u2028 and
    \u2029), and 409 otherwise; neither writes to the database.  SHA-256
    only has to tell the two hashed texts apart. *)
Theorem idempotency_key_contract general Sum256 s r1 r2 q1 q2 e w resp w1 e2 w2 :
  let p1 := request_of s r1 q1 in let p2 := request_of s r2 q2 in
  RecorderLaws (sv_metrics s) ->
  healthy e -> db_ok (w_db w) -> fresh_ids e (w_tick w) (w_db w) ->
  Decode (time_Parse general) (2 ^ 20) (rq_Body r1) = Some q1 ->
  Decode (time_Parse general) (2 ^ 20) (rq_Body r2) = Some q2 ->
  cq_IdempotencyKey p1 <> "" -> cq_IdempotencyKey p2 = cq_IdempotencyKey p1 ->
  rq_Context r2 = rq_Context r1 ->
  post general Sum256 s r1 e w = (Ok resp, w1) -> rs_Status resp = 201 ->
  reaches (w_db w1) (w_db w2) -> healthy e2 -> fresh_ids e2 (w_tick w2) (w_db w2) ->
  create_check p2 = None ->
  storable (new_job marshal_request Sum256 0 (PrincipalOrDefault (rq_Context r2)) p2 0) = true ->
  (Sum256 (hashed_text p2) = Sum256 (hashed_text p1) -> hashed_text p2 = hashed_text p1) ->
  exists id st1, resp = JSON r1 201 (DCreated (mkCreateResponse id st1 false)) /\
  (same_request p2 p1 -> exists st, (post general Sum256 s r2 e2 w2).1 =
     Ok (JSON r2 200 (DCreated (mkCreateResponse id st true)))) /\
  (~ same_request p2 p1 -> (post general Sum256 s r2 e2 w2).1 =
     Ok (Error r2 409 "IDEMPOTENCY_CONFLICT" (error_text ErrIdempotency))) /\
  w_db (post general Sum256 s r2 e2 w2).2 = w_db w2.
Proof.
  intros p1 p2 Hrec H I Hf Hq1 Hq2 Hkey Ekey Ectx Hrun Hst R H2 Hf2 Hc2 Hs2 Hsum.
  destruct (post_second general Sum256 s Hrec r1 r2 q1 q2 e w resp w1 e2 w2 H I Hf Hq1 Hq2 Hkey Ekey
    Ectx Hrun Hst R H2 Hf2 Hc2 Hs2) as ([id st1 rep] & -> & Hrep & Hc1 & Y1 & D1 & D2 & Hout & Hdb).
  cbn in Hrep. subst rep. exists id, st1. split; [done|]. fold p1 p2 in Hc1, D1, D2, Hout.
  destruct (create_check_payload _ Hc1) as [N1 V1]. destruct (create_check_payload _ Hc2) as [N2 V2].
  assert (E : request_hash marshal_request Sum256 p2 = request_hash marshal_request Sum256 p1 <->
    same_request p2 p1).
  { rewrite <- hashed_text_faithful by done. split; [|unfold request_hash, hashed_text; congruence].
    intros Hh%hex_EncodeToString_inj. by apply Hsum. }
  split_and!; [intros Hsame|intros Hne|done].
  - by rewrite bool_decide_eq_true_2 in Hout by (by apply E).
  - by rewrite bool_decide_eq_false_2 in Hout by (by rewrite E).
Qed.

(** ** Requests on the wire *)

Definition create_text (name payload run_at : string) : string :=
  text (print_object [("name", quote (codes name)); ("job_type", quote (codes "CALL_WEBHOOK"));
    ("payload", codes payload); ("run_at", quote (codes run_at))]).

Definition post_request (body : string) : Request :=
  {| rq_Method := "POST"; rq_Path := "/api/v1/jobs"; rq_URLParam := fun _ => "";
     rq_Query := fun _ => "";
     rq_Header := fun k => if bool_decide (k = "Idempotency-Key") then " key-1" else "";
     rq_Body := body; rq_Context := None; rq_RequestID := "r-1" |}.

Definition no_layout : string -> option Time := fun _ => None.

Definition decode0 (body : string) : CreateRequest :=
  default zero_request (Decode (time_Parse no_layout) (2 ^ 20) body).

(** The world after a request, from an empty database. *)
Definition posted (body : string) : result Response * world :=
  post no_layout sum0 svc0 (post_request body) env0 world0.

Definition job_text : string := create_text "nightly" "{ }" "2030-01-02T03:04:05+01:00".
Definition again_text : string := create_text "nightly" "{}" "2030-01-02T02:04:05Z".
Definition other_text : string := create_text "weekly" "{}" "2030-01-02T02:04:05Z".
Definition late_text : string := create_text "nightly" "{}" "9999-12-31T23:59:59-01:00".

Lemma posted_ok body q :
  Decode (time_Parse no_layout) (2 ^ 20) body = Some q ->
  reaches (w_db world0) (w_db (posted body).2).
Proof.
  intros Hq. unfold posted. rewrite (post_run _ _ _ (post_request body) q _ _ Hq). cbn [snd].
  exact (proj1 (service_Create_safe marshal_request sum0 svc0 None _ (fun _ _ _ => eq_refl)
    env0 world0 rely0 (sk_db _ (initial_ok _ initial0)) Logic.I)).
Qed.

Lemma sum0_inj s1 s2 : sum0 s1 = sum0 s2 -> s1 = s2.
Proof. done. Qed.

Lemma create_body_roundtrip_witness :
  Decode (time_Parse no_layout) 4096 (hashed_text (decode0 job_text) +:+ " trailing") =
    Some ((decode0 job_text) <| cq_Payload := "{}" |>).
Proof.
  apply (create_body_roundtrip no_layout (2 ^ 20) job_text 4096 (decode0 job_text)
    (hashed_text (decode0 job_text)) " trailing");
    vm_compute; reflexivity || discriminate.
Defined.

Definition typo_text : string := text (print_object
  [("name", quote (codes "nightly")); ("max_retrys", print_int 9)]).

Lemma unknown_field_refused_witness :
  post no_layout sum0 svc0 (post_request typo_text) env0 world0 =
    (Ok (Error (post_request typo_text) 400 "INVALID_JSON" "request body must be valid JSON"),
     world0).
Proof.
  apply (unknown_field_refused no_layout sum0 svc0 (post_request typo_text)
    [(codes "name", quote (codes "nightly")); (codes "max_retrys", print_int 9)]
    (codes "max_retrys") (print_int 9)); [vm_compute; reflexivity|by right; left|].
  vm_compute; reflexivity.
Defined.

Definition created_id : UUID := 100%N.

(** The same request with other white space and another zone; another name. *)
Lemma idempotency_key_contract_witness :
  let w := (posted job_text).2 in
  (exists st, (post no_layout sum0 svc0 (post_request again_text) env0 w).1 =
    Ok (JSON (post_request again_text) 200 (DCreated (mkCreateResponse created_id st true)))) /\
  (post no_layout sum0 svc0 (post_request other_text) env0 w).1 =
    Ok (Error (post_request other_text) 409 "IDEMPOTENCY_CONFLICT" (error_text ErrIdempotency)).
Proof.
  pose (resp := JSON (post_request job_text) 201
    (DCreated (mkCreateResponse created_id StatusScheduled false))).
  assert (Hrun : post no_layout sum0 svc0 (post_request job_text) env0 world0 =
    (Ok resp, (posted job_text).2)).
  { assert (E : (posted job_text).1 = Ok resp) by (vm_compute; reflexivity).
    rewrite <- E. unfold posted. apply surjective_pairing. }
  assert (Hq : Decode (time_Parse no_layout) (2 ^ 20) job_text = Some (decode0 job_text))
    by (vm_compute; reflexivity).
  pose proof (posted_ok _ _ Hq) as R.
  assert (F0 : fresh_ids env0 (w_tick world0) (w_db world0))
    by (apply env0_fresh; vm_compute; reflexivity).
  assert (F1 : fresh_ids env0 (w_tick (posted job_text).2) (w_db (posted job_text).2))
    by (apply env0_fresh; vm_compute; reflexivity).
  pose proof (fun body => idempotency_key_contract no_layout sum0 svc0 (post_request job_text)
    (post_request body) (decode0 job_text) (decode0 body) env0 world0 resp (posted job_text).2 env0
    (posted job_text).2 NoopRecorder_laws env0_healthy (sk_db _ (initial_ok _ initial0)) F0 Hq) as T.
  split.
  - destruct (T again_text ltac:(vm_compute; reflexivity) ltac:(vm_compute; discriminate)
      ltac:(vm_compute; reflexivity) (@eq_refl Ctx None) Hrun eq_refl (reaches_refl _ (re_ok _ _ R)) env0_healthy
      F1 ltac:(vm_compute; reflexivity) ltac:(vm_compute; reflexivity) (sum0_inj _ _))
      as (id & st1 & Hr & H1 & _).
    injection Hr as <- _. apply H1. vm_compute. by split_and!.
  - destruct (T other_text ltac:(vm_compute; reflexivity) ltac:(vm_compute; discriminate)
      ltac:(vm_compute; reflexivity) (@eq_refl Ctx None) Hrun eq_refl (reaches_refl _ (re_ok _ _ R)) env0_healthy
      F1 ltac:(vm_compute; reflexivity) ltac:(vm_compute; reflexivity) (sum0_inj _ _))
      as (id & st1 & Hr & _ & H2 & _).
    apply H2. intros [E _]. vm_compute in E. discriminate.
Defined.

(** A request whose [run_at] is past the year 9999 in UTC passes every
    check and is then answered 500: its [job.created] event cannot be
    printed. *)
Example distant_run_at_is_internal :
  create_check (request_of svc0 (post_request late_text) (decode0 late_text)) = None /\
  posted late_text = (Ok (Error (post_request late_text) 500 "INTERNAL_ERROR"
    "internal server error"), (posted late_text).2) /\
  w_db (posted late_text).2 = db0.
Proof. split_and!; vm_compute; reflexivity. Qed.
