(* ===== verification/HttpFacts.v ===== *)
(** * What the HTTP layer promises

    Who may change what: a request that changes anything about jobs
    carried the key of an operator in service.  And the shape of every
    answer. *)

From S2P Require Import Prelude GoRuntime Strings Engine Sql Schema Effects Json Dto Repository RepositoryFacts Auth Service Executor Lock Rfc3339 Registry Worker Scenario AuthFacts Http.

Local Open Scope Z_scope.
Local Open Scope go_scope.

(** ** Computations that leave the jobs alone *)

(** Everything but the API clients is as before. *)
Definition same_jobs (d d' : Db) : Prop :=
  jobs d' = jobs d /\ job_attempts d' = job_attempts d /\
  dead_letter_jobs d' = dead_letter_jobs d /\ job_events d' = job_events d.

#[export] Instance same_jobs_preorder : PreOrder same_jobs.
Proof. split; [done|]. unfold same_jobs. intros d1 d2 d3. intuition congruence. Qed.

Section Access.
Context (e : env) (alone : forall n d, e_others e n d = d).

Definition reads {A} (m : M A) : Prop := forall w, same_jobs (w_db w) (w_db (m e w).2).

Lemma reads_ret {A} (a : A) : reads (mret a).
Proof. by intros w. Qed.

Lemma reads_fail {A} err : reads (fail err : M A).
Proof. by intros w. Qed.

Lemma reads_bind {A B} (m : M A) (k : A -> M B) :
  reads m -> (forall a, reads (k a)) -> reads (m ≫= k).
Proof.
  intros Hm Hk w. specialize (Hm w). unfold mbind, M_bind.
  destruct (m e w) as [[a|err] w1]; cbn in *; [|done]. etrans; [done|]. apply Hk.
Qed.

Lemma reads_try {A} (m : M A) : reads m -> reads (try m).
Proof. intros Hm w. specialize (Hm w). unfold try. by destruct (m e w). Qed.

Lemma reads_query {A} (f : (UUID -> Z) -> Time -> Db -> result A) : reads (pool_query f).
Proof. intros w. by rewrite pool_query_db, alone. Qed.

Lemma reads_lift {A} (x : result A) : reads (lift_result x).
Proof. by intros w. Qed.

#[local] Hint Resolve reads_ret reads_fail reads_bind reads_try reads_query reads_lift : sched.

Lemma Authenticate_reads Sum256 key : reads (Authenticate Sum256 key).
Proof.
  unfold Authenticate. apply reads_bind; [auto with sched|].
  intros [[p h]|err]; case_match; auto with sched.
  repeat (apply reads_bind; [|intros ?]); auto with sched; [by intros w|].
  apply reads_try. intros w. unfold pool_update_clients, pool_exec. rewrite alone.
  by destruct (e_outcome e (w_tick w)).
Qed.

Lemma respond_reads {A} r (m : M A) ok : reads m -> reads (respond r m ok).
Proof. unfold respond. auto with sched. Qed.

Section Routes.
Context (json_Decode : Z -> string -> option CreateRequest)
        (uuid_Parse : string -> option UUID) (time_Parse : string -> option Time)
        (marshal : CreateRequest -> result string) (Sum256 : string -> string)
        (service : Service).

Abbreviation routes :=
  (Routes json_Decode uuid_Parse time_Parse marshal Sum256 service ++
   DeadLetterRoutes uuid_Parse).

Lemma with_UUID_reads r param k :
  (forall id, reads (k id)) -> reads (with_UUID uuid_Parse r param k).
Proof. intros Hk. unfold with_UUID. case_match; auto with sched. Qed.

Lemma GetByID_reads t id : reads (GetByID t id).
Proof.
  unfold GetByID. apply reads_bind; [auto with sched|].
  intros [j|err]; [|case_match]; auto with sched.
Qed.

Lemma List_reads ctx f : reads (Service.List ctx f).
Proof.
  unfold Service.List, Repository.List. apply reads_bind; [auto with sched|]. intros f'.
  repeat (apply reads_bind; [|intros ?]); auto with sched.
Qed.

(** A route either only reads or asks for an operator first. *)
Lemma routes_guarded m p h :
  (m, p, h) ∈ routes ->
  (forall r, reads (h r)) \/ (m = "POST" /\ exists h', h = Require RoleOperator h').
Proof.
  unfold Routes, DeadLetterRoutes. rewrite !elem_of_app, !elem_of_cons, !elem_of_nil.
  intros [Hin|Hin]; repeat destruct Hin as [[= -> -> ->]|Hin]; try done;
    try (right; split; [done|by eexists]); left; intros r.
  - unfold list. case_match; [apply respond_reads, List_reads | auto with sched].
  - apply with_UUID_reads. intros id. apply respond_reads, GetByID_reads.
  - apply with_UUID_reads. intros id. apply respond_reads. unfold Attempts, ListAttempts.
    auto with sched.
  - apply with_UUID_reads. intros id. apply respond_reads. unfold Events, ListEvents.
    auto with sched.
  - unfold deadLetters. repeat case_match; try apply respond_reads; auto with sched.
    unfold Service.ListDeadLetters, Repository.ListDeadLetters. auto with sched.
Qed.

(** The client whose key authenticates. *)
Lemma Authenticate_client key w p w' :
  clients_ok (w_db w) -> Authenticate Sum256 key e w = (Ok p, w') ->
  exists c t, api_clients (w_db w) !! cr_id c = Some c /\
    active_client (HashKey Sum256 (TrimSpace key)) c = true /\ p = principal_of c (tr_slug t).
Proof.
  intros I H. apply M_bind_ok in H as (res & w1 & Hq & H). unfold try in Hq.
  destruct (pool_query _ e w) as [[[p' h]|err] w2] eqn:Eq; simplify_eq;
    [|by destruct (errors_Is err ErrNoRows)].
  apply pool_query_ok in Eq as [Hf _]. rewrite alone in Hf.
  destruct (find_active_ok _ _ _ _ _ _ I Hf) as (c & t & Hc & Ha & _ & -> & ->).
  exists c, t. split_and!; [done|done|]. rewrite bool_decide_eq_true_2 in H by done.
  cbn [negb] in H. apply M_bind_ok in H as (now & w3 & _ & H).
  apply M_bind_ok in H as (u & w4 & _ & H). by injection H as ->.
Qed.

(** The request carries the key of client [c], who is in service. *)
Definition key_of (d : Db) (r : Request) (c : client_row) : Prop :=
  api_clients d !! cr_id c = Some c /\
  active_client (HashKey Sum256 (TrimSpace (rq_Header r "X-API-Key"))) c = true.

(** Authentication by itself leaves the jobs alone, and what comes after
    it runs as the client whose key the request carries. *)
Lemma Middleware_cases next r w :
  clients_ok (w_db w) ->
  let out := Middleware (Authenticate Sum256) true next r e w in
  same_jobs (w_db w) (w_db out.2) \/
  exists c slug w1, key_of (w_db w) r c /\ same_jobs (w_db w) (w_db w1) /\
    out = next (WithContext r (WithPrincipal (rq_Context r) (principal_of c slug))) e w1.
Proof.
  intros I. unfold Middleware. cbn [negb]. cbv zeta.
  case_bool_decide; [by left|]. unfold mbind, M_bind, try.
  pose proof (Authenticate_reads Sum256 (TrimSpace (rq_Header r "X-API-Key")) w) as Ha.
  destruct (Authenticate _ _ e w) as [[pr|err] w1] eqn:HA; cbn in Ha; [|by left].
  destruct (Authenticate_client _ _ _ _ I HA) as (c & t & Hc & Hact & ->).
  rewrite TrimSpace_idem in Hact. right. by exists c, (tr_slug t), w1.
Qed.

(** A guarded endpoint that did something was allowed to. *)
Lemma Require_cases role h r c slug w :
  FromContext (rq_Context r) = Some (principal_of c slug) ->
  let out := Require role h r e w in
  w_db out.2 = w_db w \/ Allows (principal_of c slug) role = true /\ out = h r e w.
Proof.
  intros Hr. unfold Require. rewrite Hr.
  destruct (Allows _ role); [by right | by left].
Qed.

(** Who may change jobs: with authentication enabled, a request to any
    route of the job API that changed a job, an attempt, a dead letter or
    an event was a POST and carried, in X-API-Key, the key of a client in
    service with the operator or admin role; whatever faults occur, every
    other request leaves all of them as they were. *)
Theorem writes_need_operator m p h r w :
  (m, p, h) ∈ routes -> clients_ok (w_db w) ->
  let out := Middleware (Authenticate Sum256) true h r e w in
  same_jobs (w_db w) (w_db out.2) \/
  (m = "POST" /\ exists c, api_clients (w_db w) !! cr_id c = Some c /\
     active_client (HashKey Sum256 (TrimSpace (rq_Header r "X-API-Key"))) c = true /\
     cr_role c <> RoleViewer).
Proof.
  intros Hin I. cbv zeta.
  destruct (Middleware_cases h r w I) as [H|(c & slug & w1 & [Hc Ha] & H1 & ->)]; [by left|].
  destruct (routes_guarded _ _ _ Hin) as [Hr|[Hm [h' ->]]].
  { left. etrans; [done|]. apply Hr. }
  destruct (Require_cases RoleOperator h' (WithContext r (WithPrincipal (rq_Context r)
    (principal_of c slug))) c slug w1 eq_refl) as [->|[Hal _]]; [by left|].
  right. split; [done|]. exists c. split_and!; [done|done|]. intros Hv.
  unfold Allows in Hal. cbn in Hal. by rewrite Hv in Hal.
Qed.
End Routes.
End Access.

(** ** The shape of an answer *)

(** The error answers whose text is fixed, with status and code. *)
Definition fixed_errors : Datatypes.list (Z * string * string) :=
  [(400, "INVALID_INPUT", "page must be an integer");
   (400, "INVALID_INPUT", "page must be at least 1");
   (400, "INVALID_INPUT", "page_size must be an integer");
   (400, "INVALID_INPUT", "page_size must be at least 1");
   (400, "INVALID_INPUT", "created_after must be RFC3339");
   (400, "INVALID_INPUT", "created_before must be RFC3339");
   (400, "INVALID_JSON", "request body must be valid JSON");
   (400, "INVALID_UUID", "jobID must be a valid UUID");
   (400, "INVALID_UUID", "deadLetterID must be a valid UUID");
   (400, "INVALID_UUID", "eventID must be a UUID");
   (401, "UNAUTHORIZED", "X-API-Key is required");
   (401, "UNAUTHORIZED", "invalid API key");
   (401, "UNAUTHORIZED", "authentication required");
   (403, "FORBIDDEN", "insufficient permissions");
   (404, "NOT_FOUND", "resource not found");
   (404, "NOT_FOUND", "event not found");
   (429, "RATE_LIMITED", "request rate exceeded");
   (500, "INTERNAL_ERROR", "internal server error");
   (500, "INTERNAL_ERROR", "failed to load summary");
   (500, "WORKER_REGISTRY_UNAVAILABLE", "worker registry is unavailable");
   (503, "DATABASE_UNAVAILABLE", "database is not ready");
   (503, "DEPENDENCY_UNAVAILABLE", "dependency is not ready");
   (503, "DEPENDENCY_UNAVAILABLE", "outbox unavailable");
   (503, "DEPENDENCY_UNAVAILABLE", "rate limiter unavailable")].

(** The error answers that quote the error of the service: one of these
    four kinds, with status and code. *)
Definition quoted_errors : Datatypes.list (Z * string * error) :=
  [(400, "INVALID_INPUT", ErrInvalidInput);
   (409, "INVALID_TRANSITION", ErrInvalidTransition);
   (409, "CONFLICT", ErrConflict);
   (409, "IDEMPOTENCY_CONFLICT", ErrIdempotency)].

Definition error_ok (status : Z) (eb : ErrorBody) : Prop :=
  (status, eb_Code eb, eb_Message eb) ∈ fixed_errors \/
  exists kind err, (status, eb_Code eb, kind) ∈ quoted_errors /\
    errors_Is err kind = true /\ eb_Message eb = error_text err.

(** A successful envelope carries no error and status 200 or 201; any
    other carries no data and an error whose text is fixed or is that of
    an error of one of the four kinds. *)
Definition answer_ok (r : Request) (resp : Response) : Prop :=
  exists en, rs_Body resp = BEnvelope en /\
  rs_Header resp !! "Content-Type" = Some "application/json" /\
  en_RequestID en = rq_RequestID r /\
  ((en_Success en = true /\ en_Error en = None /\
    (rs_Status resp = 200 \/ rs_Status resp = 201)) \/
   (en_Success en = false /\ en_Data en = DNil /\
    exists eb, en_Error en = Some eb /\ error_ok (rs_Status resp) eb)).

(** As a handler writes it: the request id is not yet in the header. *)
Definition written (r : Request) (resp : Response) : Prop :=
  rs_Header resp !! "X-Request-ID" = None /\ answer_ok r resp.

Definition answers (r : Request) (m : M Response) : Prop :=
  forall e w, exists resp, (m e w).1 = Ok resp /\ written r resp.

Lemma answers_ret r resp : written r resp -> answers r (mret resp).
Proof. intros H e w. by exists resp. Qed.

Lemma answer_JSON r status data : status = 200 \/ status = 201 -> written r (JSON r status data).
Proof. intros H. split; [done|]. eexists. do 3 (split; [done|]). by left. Qed.

Lemma answer_Error r status code message :
  error_ok status {| eb_Code := code; eb_Message := message |} ->
  written r (Error r status code message).
Proof.
  intros H. split; [done|]. eexists. do 3 (split; [done|]). right. split_and!; [done|done|].
  eexists. by split; [reflexivity|].
Qed.

(** Membership in the tables, by computation. *)
Ltac in_table := apply (bool_decide_unpack _); vm_compute; exact Logic.I.

(** An error answer with constant code and message. *)
Ltac error_answer := apply answer_Error; left; in_table.

Lemma answer_writeError r err : written r (writeError r err).
Proof.
  unfold writeError.
  destruct (errors_Is err ErrInvalidInput) eqn:E1;
    [apply answer_Error; right; exists ErrInvalidInput, err; split_and!; [in_table|done..]|].
  destruct (errors_Is err ErrInvalidTransition) eqn:E2;
    [apply answer_Error; right; exists ErrInvalidTransition, err; split_and!; [in_table|done..]|].
  destruct (errors_Is err ErrConflict) eqn:E3;
    [apply answer_Error; right; exists ErrConflict, err; split_and!; [in_table|done..]|].
  destruct (errors_Is err ErrIdempotency) eqn:E4;
    [apply answer_Error; right; exists ErrIdempotency, err; split_and!; [in_table|done..]|].
  destruct (errors_Is err ErrNotFound); error_answer.
Qed.

Lemma answers_respond {A} r (m : M A) ok :
  (forall a, written r (ok a)) -> answers r (respond r m ok).
Proof.
  intros Hok e w. unfold respond, mbind, M_bind, try. destruct (m e w) as [[a|err] w1]; cbn.
  - eexists. split; [done|]. apply Hok.
  - eexists. split; [done|]. apply answer_writeError.
Qed.

Section Shape.
Context (json_Decode : Z -> string -> option CreateRequest)
        (uuid_Parse : string -> option UUID) (time_Parse : string -> option Time)
        (marshal : CreateRequest -> result string) (Sum256 : string -> string)
        (service : Service).

Lemma answers_with_UUID r param k :
  param = "jobID" \/ param = "deadLetterID" ->
  (forall id, answers r (k id)) -> answers r (with_UUID uuid_Parse r param k).
Proof.
  intros Hp Hk. unfold with_UUID, parseUUID. destruct (uuid_Parse _); [apply Hk|].
  apply answers_ret. destruct Hp as [-> | ->]; error_answer.
Qed.

(** A query parameter that is not as it should be. *)
Lemma queryInt_error r key fallback err :
  key = "page" \/ key = "page_size" -> queryInt r key fallback = Err err ->
  written r (Error r 400 "INVALID_INPUT" (error_text err)).
Proof.
  unfold queryInt. intros Hk. repeat case_match; intros [= <-];
    destruct Hk as [-> | ->]; error_answer.
Qed.

Lemma queryTime_error r key err :
  key = "created_after" \/ key = "created_before" -> queryTime time_Parse r key = Err err ->
  written r (Error r 400 "INVALID_INPUT" (error_text err)).
Proof.
  unfold queryTime. intros Hk. repeat case_match; intros [= <-];
    destruct Hk as [-> | ->]; error_answer.
Qed.

Lemma list_filter_error r err :
  list_filter time_Parse r = Err err -> written r (Error r 400 "INVALID_INPUT" (error_text err)).
Proof.
  unfold list_filter.
  destruct (queryInt r "page" 1) eqn:E1; [|intros [= <-]; eapply queryInt_error; [|done]; by left].
  destruct (queryInt r "page_size" 20) eqn:E2;
    [|intros [= <-]; eapply queryInt_error; [|done]; by right].
  destruct (queryTime _ r "created_after") eqn:E3;
    [|intros [= <-]; eapply queryTime_error; [|done]; by left].
  destruct (queryTime _ r "created_before") eqn:E4; [done|].
  intros [= <-]; eapply queryTime_error; [|done]; by right.
Qed.

Lemma answers_transition r fn : answers r (transition uuid_Parse fn r).
Proof.
  apply answers_with_UUID; [by left|]. intros id. apply answers_respond. intros _.
  apply answer_JSON. by left.
Qed.

Lemma answers_Require r role h : answers r (h r) -> answers r (Require role h r).
Proof.
  intros Hh. unfold Require. repeat case_match; try done;
    (apply answers_ret; error_answer).
Qed.

Lemma routes_answer m p h r :
  (m, p, h) ∈ Routes json_Decode uuid_Parse time_Parse marshal Sum256 service ++
              DeadLetterRoutes uuid_Parse ->
  answers r (h r).
Proof.
  unfold Routes, DeadLetterRoutes. rewrite !elem_of_app, !elem_of_cons, !elem_of_nil.
  intros [Hin|Hin]; repeat destruct Hin as [[= -> -> ->]|Hin]; try done;
    try (apply answers_Require); try apply answers_transition;
    try (apply answers_with_UUID; [by (left + right)|]; intros id; apply answers_respond; intros a;
         apply answer_JSON; by (left + right)).
  - unfold create. case_match; [|apply answers_ret; error_answer]. apply answers_respond. intros resp.
    apply answer_JSON. case_match; [by left | by right].
  - unfold list. destruct (list_filter _ r) eqn:E; [|by apply answers_ret, list_filter_error].
    apply answers_respond. intros resp.
    apply answer_JSON. by left.
  - unfold deadLetters.
    destruct (queryInt r "page" 1) eqn:E1;
      [|apply answers_ret; eapply queryInt_error; [|done]; by left].
    destruct (queryInt r "page_size" 20) eqn:E2;
      [|apply answers_ret; eapply queryInt_error; [|done]; by right].
    apply answers_respond. intros resp. apply answer_JSON. by left.
Qed.

(** Every request to the job API is answered, and with a well-formed
    envelope: it echoes the request id; a success has status 200 or 201
    and no error; a failure has no data, and its status, code and message
    are in the table of fixed answers, or it quotes an error of one of four
    kinds (invalid input, transition, conflict, idempotency) under its
    status and code.  This holds for any authenticator and any behaviour of the services
    below. *)
Theorem answers_wellformed authenticate enabled m p h r e w :
  (m, p, h) ∈ Routes json_Decode uuid_Parse time_Parse marshal Sum256 service ++
              DeadLetterRoutes uuid_Parse ->
  exists resp, (Middleware authenticate enabled h r e w).1 = Ok resp /\ answer_ok r resp.
Proof.
  intros Hin. unfold Middleware.
  assert (Hr : forall ctx e w, exists resp, (h (WithContext r ctx) e w).1 = Ok resp /\
    answer_ok r resp).
  { intros ctx e' w'. destruct (routes_answer m p h (WithContext r ctx) Hin e' w')
      as (resp & Ho & _ & Hr). by exists resp. }
  destruct enabled; cbn [negb]; [|apply Hr]. cbv zeta.
  case_bool_decide; [eexists; split; [reflexivity|]; eapply proj2; error_answer|].
  unfold mbind, M_bind, try. destruct (authenticate _ e w) as [[pr|err] w1]; [apply Hr|].
  eexists. split; [reflexivity|]. eapply proj2. error_answer.
Qed.
End Shape.

(** ** Witnesses *)

Definition decode0 (limit : Z) (body : string) : option CreateRequest := Some req0.
Definition parse0 (s : string) : option UUID := Some 100%N.
Definition time0 (s : string) : option Time := None.

Definition request0 : Request :=
  {| rq_Method := "POST"; rq_Path := "/api/v1/jobs";
     rq_URLParam := fun _ => ""; rq_Query := fun _ => "";
     rq_Header := fun k => if bool_decide (k = "X-API-Key") then key0 else "";
     rq_Body := "{}"; rq_Context := None; rq_RequestID := "req-1" |}.

Definition create0 : Handler := Require RoleOperator (create decode0 marshal0 sum0 svc0).

(** The operator's request does create a job. *)
Example operator_creates :
  let out := Middleware (Authenticate sum0) true create0 request0 env0 client0.2 in
  (rs_Status <$> match out.1 with Ok x => Some x | Err _ => None end) = Some 201 /\
  size (jobs (w_db out.2)) = 1%nat.
Proof. vm_compute. by split. Qed.

Lemma writes_need_operator_witness :
  let out := Middleware (Authenticate sum0) true create0 request0 env0 client0.2 in
  ~ same_jobs (w_db client0.2) (w_db out.2) /\
  exists c, api_clients (w_db client0.2) !! cr_id c = Some c /\ cr_role c <> RoleViewer.
Proof.
  assert (Hn : ~ same_jobs (w_db client0.2)
    (w_db (Middleware (Authenticate sum0) true create0 request0 env0 client0.2).2)).
  { intros (H & _). apply (f_equal size) in H. by vm_compute in H. }
  split; [exact Hn|].
  destruct (writes_need_operator env0 (fun _ _ => eq_refl) decode0 parse0 time0 marshal0 sum0
    svc0 "POST" "/" create0 request0 client0.2 ltac:(by left) clients_ok1)
    as [H|(_ & c & Hc & _ & Hr)]; [by destruct (Hn H) | by exists c].
Defined.

Lemma answers_wellformed_witness :
  exists resp, (Middleware (Authenticate sum0) true create0 request0 env0 client0.2).1 = Ok resp
    /\ answer_ok request0 resp.
Proof.
  exact (answers_wellformed decode0 parse0 time0 marshal0 sum0 svc0 (Authenticate sum0) true
           "POST" "/" create0 request0 env0 client0.2
           (list_elem_of_here ("POST", "/", create0) _)).
Defined.
