(* ===== verification/Config.v ===== *)
(** * Configuration: internal/config/config.go

    [Load] turns the environment of a process into its settings.  The
    environment is the function [os.Getenv], which answers the empty
    string for a variable that is not set. *)

From S2P Require Import Prelude GoRuntime Strings.
From Stdlib Require Import Strings.Ascii.

Local Open Scope Z_scope.
Local Open Scope string_scope.

(** ** strings and strconv *)

(** [strings.Split] with a one-byte separator. *)
Fixpoint strings_Split (sep : ascii) (s : string) : list string :=
  match s with
  | EmptyString => [""]
  | String c s' =>
      if Ascii.eqb c sep then "" :: strings_Split sep s'
      else match strings_Split sep s' with
           | [] => [String c ""]
           | p :: ps => String c p :: ps
           end
  end.

(** [strings.Join], to state what the split pieces are pieces of. *)
Fixpoint strings_Join (sep : ascii) (l : list string) : string :=
  match l with
  | [] => ""
  | [x] => x
  | x :: l' => x +:+ String sep (strings_Join sep l')
  end.

(** [strconv.ParseBool]. *)
Definition ParseBool (s : string) : option bool :=
  if bool_decide (s ∈ ["1"; "t"; "T"; "TRUE"; "true"; "True"]) then Some true
  else if bool_decide (s ∈ ["0"; "f"; "F"; "FALSE"; "false"; "False"]) then Some false
  else None.

(** ** The settings *)

Record Config := mkConfig {
  cf_AppEnv : string;
  cf_APIPort : string;
  cf_WorkerConcurrency : Z;
  cf_WorkerPollInterval : Duration;
  cf_WorkerBatchSize : Z;
  cf_DatabaseURL : string;
  cf_RedisAddr : string;
  cf_RedisPassword : string;
  cf_RedisDB : Z;
  cf_KafkaBrokers : list string;
  cf_KafkaEventsTopic : string;
  cf_JobLockTTL : Duration;
  cf_WorkerHeartbeatTTL : Duration;
  cf_WorkerHeartbeatInterval : Duration;
  cf_JobDefaultTimeout : Duration;
  cf_JobDefaultMaxRetries : Z;
  cf_JobDefaultBackoffSeconds : Z;
  cf_LogLevel : string;
  cf_AuthEnabled : bool;
  cf_CORSAllowedOrigins : list string;
  cf_RateLimitPerMinute : Z;
  cf_EventRelayBatchSize : Z;
  cf_EventRelayPollInterval : Duration;
  cf_EventRelayHealthPort : string;
  cf_WebhookAllowedHosts : list string;
  cf_WebhookAllowPrivate : bool;
  cf_WorkerHealthPort : string
}.

(** ** Loading *)

Definition split (value : string) : list string :=
  filter (fun trimmed => trimmed <> "") (TrimSpace <$> strings_Split "," value).

Section Load.
Context (Getenv : string -> string).

Definition env (key fallback : string) : string :=
  let value := Getenv key in
  if negb (bool_decide (value = "")) then value else fallback.

Definition envInt (key : string) (fallback : Z) : Z :=
  let value := Getenv key in
  if bool_decide (value = "") then fallback
  else match Atoi value with
       | None => fallback
       | Some parsed => parsed
       end.

Definition envBool (key : string) (fallback : bool) : bool :=
  let value := Getenv key in
  if bool_decide (value = "") then fallback
  else match ParseBool value with
       | None => fallback
       | Some parsed => parsed
       end.

(** [time.Duration(envInt(key, fallback)) * time.Second]. *)
Definition envSeconds (key : string) (fallback : Z) : Duration :=
  int_mul (envInt key fallback) Second.

Definition Load : Config :=
  let postgresHost := env "POSTGRES_HOST" "localhost" in
  let postgresPort := env "POSTGRES_PORT" "5432" in
  let postgresUser := env "POSTGRES_USER" "scheduler" in
  let postgresPassword := env "POSTGRES_PASSWORD" "scheduler" in
  let postgresDB := env "POSTGRES_DB" "scheduler_db" in
  let postgresSSLMode := env "POSTGRES_SSL_MODE" "disable" in
  let databaseURL := env "DATABASE_URL"
    ("postgres://" +:+ postgresUser +:+ ":" +:+ postgresPassword +:+ "@" +:+ postgresHost +:+
     ":" +:+ postgresPort +:+ "/" +:+ postgresDB +:+ "?sslmode=" +:+ postgresSSLMode) in
  {| cf_AppEnv := env "APP_ENV" "local";
     cf_APIPort := env "API_PORT" "8080";
     cf_WorkerConcurrency := envInt "WORKER_CONCURRENCY" 5;
     cf_WorkerPollInterval := envSeconds "WORKER_POLL_INTERVAL_SECONDS" 5;
     cf_WorkerBatchSize := envInt "WORKER_BATCH_SIZE" 10;
     cf_DatabaseURL := databaseURL;
     cf_RedisAddr := env "REDIS_ADDR" "localhost:6379";
     cf_RedisPassword := env "REDIS_PASSWORD" "";
     cf_RedisDB := envInt "REDIS_DB" 0;
     cf_KafkaBrokers := split (env "KAFKA_BROKERS" "localhost:9092");
     cf_KafkaEventsTopic := env "KAFKA_EVENTS_TOPIC" "scheduler.events";
     cf_JobLockTTL := envSeconds "JOB_LOCK_TTL_SECONDS" 360;
     cf_WorkerHeartbeatTTL := envSeconds "WORKER_HEARTBEAT_TTL_SECONDS" 30;
     cf_WorkerHeartbeatInterval := envSeconds "WORKER_HEARTBEAT_INTERVAL_SECONDS" 10;
     cf_JobDefaultTimeout := envSeconds "JOB_DEFAULT_TIMEOUT_SECONDS" 300;
     cf_JobDefaultMaxRetries := envInt "JOB_DEFAULT_MAX_RETRIES" 3;
     cf_JobDefaultBackoffSeconds := envInt "JOB_DEFAULT_BACKOFF_SECONDS" 30;
     cf_LogLevel := env "LOG_LEVEL" "debug";
     cf_AuthEnabled := envBool "AUTH_ENABLED" true;
     cf_CORSAllowedOrigins := split (env "CORS_ALLOWED_ORIGINS" "http://localhost:3000");
     cf_RateLimitPerMinute := envInt "RATE_LIMIT_PER_MINUTE" 120;
     cf_EventRelayBatchSize := envInt "EVENT_RELAY_BATCH_SIZE" 100;
     cf_EventRelayPollInterval := envSeconds "EVENT_RELAY_POLL_INTERVAL_SECONDS" 1;
     cf_EventRelayHealthPort := env "EVENT_RELAY_HEALTH_PORT" "8091";
     cf_WebhookAllowedHosts := split (env "WEBHOOK_ALLOWED_HOSTS" "");
     cf_WebhookAllowPrivate := envBool "WEBHOOK_ALLOW_PRIVATE" false;
     cf_WorkerHealthPort := env "WORKER_HEALTH_PORT" "8090" |}.
End Load.

(** ** Integers in text *)

Lemma digit_pretty_char x : (x < 10)%N -> digit (pretty_N_char x) = Some (Z.of_N x).
Proof.
  intros H. destruct x as [|[[[|[]|]|[[]|[]|]|]|[[|[]|]|[[]|[]|]|]|]]; try done; try lia.
Qed.

Lemma digits_pretty_go x s : digits 0 (pretty_N_go x s) = digits (Z.of_N x) s.
Proof.
  revert s. induction (N.lt_wf_0 x) as [x _ IH]. intros s.
  destruct (decide (0 < x)%N) as [Hx|Hx].
  - rewrite pretty_N_go_step by done. rewrite IH by (apply N.div_lt; lia).
    cbn [digits]. rewrite digit_pretty_char by (apply N.mod_lt; lia). cbn [mbind option_bind].
    f_equal. rewrite N2Z.inj_div, N2Z.inj_mod. pose proof (Z.div_mod (Z.of_N x) 10). lia.
  - assert (x = 0%N) as -> by lia. by rewrite pretty_N_go_0.
Qed.

Lemma parse_digits_pretty x : parse_digits (pretty x) = Some (Z.of_N x).
Proof.
  unfold pretty, pretty_N. case_decide as H; [by subst|].
  pose proof (digits_pretty_go x "") as Hd. cbn [digits] in Hd.
  destruct (pretty_N_go x "") eqn:E; [|done]. cbn in Hd. injection Hd. lia.
Qed.

(** What [strconv.Itoa] prints, [strconv.Atoi] reads. *)
Lemma Atoi_Itoa z : int64_ok z = true -> Atoi (Itoa z) = Some z.
Proof.
  intros Hz. unfold Atoi, Itoa, pretty, pretty_Z.
  assert (Hpos : forall p, exists c s', pretty (N.pos p) = String c s' /\
            Ascii.nat_of_ascii c <> 45%nat /\ Ascii.nat_of_ascii c <> 43%nat).
  { intros p. pose proof (parse_digits_pretty (N.pos p)) as Hp.
    destruct (pretty (N.pos p)) as [|c s'] eqn:E; [done|]. exists c, s'. split; [done|].
    cbn in Hp. destruct (digit c) eqn:Ed; [|done]. unfold digit in Ed.
    case_match eqn:Hc; [|done]. apply andb_prop in Hc as [Hc _]. apply Nat.leb_le in Hc. lia. }
  destruct z as [|p|p]; [done|..].
  - change (pretty p) with (pretty (N.pos p)).
    pose proof (parse_digits_pretty (N.pos p)) as Hp.
    destruct (Hpos p) as (c & s' & E & H1 & H2). rewrite E in *.
    rewrite !bool_decide_eq_false_2 by done. rewrite Hp. cbn [mbind option_bind].
    change (Z.of_N (N.pos p)) with (Z.pos p). by rewrite Hz.
  - change ("-" +:+ pretty p) with (String "-" (pretty (N.pos p))).
    cbn [mbind option_bind]. rewrite bool_decide_eq_true_2 by done.
    rewrite parse_digits_pretty. cbn [fmap option_fmap option_map mbind option_bind].
    change (- Z.of_N (N.pos p)) with (Z.neg p). by rewrite Hz.
Qed.

(** ** Lists in text *)

Definition has_char (c : ascii) (s : string) : Prop := c ∈ String.list_ascii_of_string s.

#[export] Instance has_char_dec c s : Decision (has_char c s).
Proof. unfold has_char. apply _. Defined.

Lemma has_char_app c s1 s2 : has_char c (s1 +:+ s2) <-> has_char c s1 \/ has_char c s2.
Proof. unfold has_char. by rewrite list_of_string_app, elem_of_app. Qed.

Lemma strings_Split_nonempty sep s : exists p ps, strings_Split sep s = p :: ps.
Proof.
  induction s as [|c s (p & ps & IH)]; cbn; [eauto|]. rewrite IH. case_match; eauto.
Qed.

Lemma strings_Split_pieces sep s p : p ∈ strings_Split sep s -> ~ has_char sep p.
Proof.
  revert p. induction s as [|c s IH]; cbn; intros p.
  { intros ->%list_elem_of_singleton. apply not_elem_of_nil. }
  destruct (Ascii.eqb_spec c sep) as [->|Hc].
  - intros [->|Hp]%elem_of_cons; [apply not_elem_of_nil|auto].
  - destruct (strings_Split_nonempty sep s) as (q & ps & E). rewrite E in *.
    intros [->|Hp]%elem_of_cons; [|apply IH; by right].
    unfold has_char. cbn. rewrite elem_of_cons. intros [->|H]; [done|].
    by apply (IH q); [left|].
Qed.

Lemma strings_Split_app sep x s :
  ~ has_char sep x -> strings_Split sep (x +:+ String sep s) = x :: strings_Split sep s.
Proof.
  induction x as [|c x IH]; intros Hx.
  - rewrite app_nil_string. cbn. by rewrite Ascii.eqb_refl.
  - rewrite app_cons. cbn. unfold has_char in *. cbn in Hx. rewrite elem_of_cons in Hx.
    destruct (Ascii.eqb_spec c sep) as [->|Hc]; [naive_solver|]. rewrite IH; naive_solver.
Qed.

Lemma strings_Split_single sep x : ~ has_char sep x -> strings_Split sep x = [x].
Proof.
  induction x as [|c x IH]; intros Hx; [done|]. cbn. unfold has_char in *. cbn in Hx.
  rewrite elem_of_cons in Hx.
  destruct (Ascii.eqb_spec c sep) as [->|Hc]; [naive_solver|]. rewrite IH; naive_solver.
Qed.

Lemma strings_Split_Join sep l :
  l <> [] -> Forall (fun x => ~ has_char sep x) l -> strings_Split sep (strings_Join sep l) = l.
Proof.
  intros Hne Hl. induction Hl as [|x l Hx Hl IH]; [done|].
  destruct l as [|y l]; [by apply strings_Split_single|].
  change (strings_Join sep (x :: y :: l)) with (x +:+ String sep (strings_Join sep (y :: l))).
  by rewrite strings_Split_app, IH.
Qed.

(** A list entry: not empty, no white space around it, no comma in it. *)
Definition entry_ok (x : string) : Prop := x <> "" /\ TrimSpace x = x /\ ~ has_char "," x.

Lemma split_entries s : Forall entry_ok (split s).
Proof.
  apply Forall_forall. unfold split. intros x [Hx (p & -> & Hp)%list_elem_of_fmap]%list_elem_of_filter.
  split_and!; [done|apply TrimSpace_idem|]. intros Hc.
  apply strings_Split_pieces in Hp. apply Hp.
  destruct (TrimSpace_sub p) as (a & b & ->). by rewrite !has_char_app; auto.
Qed.

Lemma split_join l : Forall entry_ok l -> split (strings_Join "," l) = l.
Proof.
  intros Hl. destruct (decide (l = [])) as [->|Hne]; [done|]. unfold split.
  rewrite strings_Split_Join; [|done|eapply Forall_impl; [exact Hl|by intros x (_ & _ & ?)]].
  clear Hne. induction Hl as [|x l (Hx & Ht & _) _ IH]; [done|].
  rewrite fmap_cons, Ht, filter_cons_True by done. by rewrite IH.
Qed.

(** ** What [Load] promises *)

Lemma Atoi_range s z : Atoi s = Some z -> int64_ok z = true.
Proof. unfold Atoi. intros (x & _ & H)%bind_Some. by case_match; simplify_eq. Qed.

Section Facts.
Context (Getenv : string -> string).

Lemma envInt_range key fallback :
  int64_ok fallback = true -> int64_ok (envInt Getenv key fallback) = true.
Proof.
  intros H. unfold envInt. case_bool_decide; [done|].
  destruct (Atoi _) eqn:E; [|done]. by eapply Atoi_range.
Qed.

Lemma envSeconds_range key fallback : int64_ok (envSeconds Getenv key fallback) = true.
Proof. apply int64_ok_spec, wrap64_range. Qed.

(** A number that is set is used, and as seconds as long as the product
    fits 64 bits. *)
Lemma envInt_set key fallback n :
  Getenv key = Itoa n -> int64_ok n = true -> envInt Getenv key fallback = n.
Proof.
  intros Hk Hn. unfold envInt. rewrite Hk. case_bool_decide as E.
  - apply Atoi_Itoa in Hn. by rewrite E in Hn.
  - by rewrite Atoi_Itoa.
Qed.

Lemma envSeconds_set key fallback n :
  Getenv key = Itoa n -> - 9223372036 <= n <= 9223372036 ->
  envSeconds Getenv key fallback = n * Second.
Proof.
  intros Hk Hn. unfold envSeconds, int_mul. rewrite (envInt_set _ _ n); [|done|].
  - apply wrap64_id. unfold Second. lia.
  - apply int64_ok_spec. lia.
Qed.

Lemma envBool_cases key fallback :
  envBool Getenv key fallback = negb fallback ->
  ParseBool (Getenv key) = Some (negb fallback).
Proof.
  unfold envBool. case_bool_decide; [by destruct fallback|].
  destruct (ParseBool (Getenv key)); [by intros ->|by destruct fallback].
Qed.

Lemma ParseBool_false s :
  ParseBool s = Some false <-> s ∈ ["0"; "f"; "F"; "FALSE"; "false"; "False"].
Proof.
  unfold ParseBool. split.
  - by repeat case_bool_decide.
  - intros H. rewrite !elem_of_cons, elem_of_nil in H.
    by repeat (destruct H as [H|H]; [by subst s|]).
Qed.

Lemma ParseBool_true s :
  ParseBool s = Some true <-> s ∈ ["1"; "t"; "T"; "TRUE"; "true"; "True"].
Proof.
  unfold ParseBool. split; [by repeat case_bool_decide|].
  intros H. by rewrite bool_decide_eq_true_2.
Qed.

(** C37. Every environment gives a well-formed configuration: numbers and
    durations are 64-bit integers, and the entries of the broker, origin
    and host lists are non-empty, trimmed and free of commas. *)
Theorem Load_typed :
  let c := Load Getenv in
  Forall (fun z => int64_ok z = true)
    [cf_WorkerConcurrency c; cf_WorkerBatchSize c; cf_RedisDB c; cf_JobDefaultMaxRetries c;
     cf_JobDefaultBackoffSeconds c; cf_RateLimitPerMinute c; cf_EventRelayBatchSize c;
     cf_WorkerPollInterval c; cf_JobLockTTL c; cf_WorkerHeartbeatTTL c;
     cf_WorkerHeartbeatInterval c; cf_JobDefaultTimeout c; cf_EventRelayPollInterval c] /\
  Forall entry_ok (cf_KafkaBrokers c ++ cf_CORSAllowedOrigins c ++ cf_WebhookAllowedHosts c).
Proof.
  split.
  - repeat apply Forall_cons_2; try apply Forall_nil_2;
      first [by apply envInt_range | apply envSeconds_range].
  - rewrite !Forall_app. split_and!; apply split_entries.
Qed.

Lemma AuthEnabled_off :
  cf_AuthEnabled (Load Getenv) = false <->
  Getenv "AUTH_ENABLED" ∈ ["0"; "f"; "F"; "FALSE"; "false"; "False"].
Proof.
  cbn [cf_AuthEnabled Load]. rewrite <- ParseBool_false. unfold envBool.
  case_bool_decide as E; rewrite ?E; [done|]. by destruct (ParseBool _) as [[|]|].
Qed.

Lemma WebhookAllowPrivate_on :
  cf_WebhookAllowPrivate (Load Getenv) = true <->
  Getenv "WEBHOOK_ALLOW_PRIVATE" ∈ ["1"; "t"; "T"; "TRUE"; "true"; "True"].
Proof.
  cbn [cf_WebhookAllowPrivate Load]. rewrite <- ParseBool_true. unfold envBool.
  case_bool_decide as E; rewrite ?E; [done|]. by destruct (ParseBool _) as [[|]|].
Qed.

(** The two security switches fail safe: authentication is off only
    under one of the six spellings of false that [strconv.ParseBool]
    knows, private webhook targets are allowed only under one of the six
    of true, and a missing or unintelligible value, such as yes or off,
    leaves authentication on and private targets refused. *)
Theorem switches_fail_safe :
  let c := Load Getenv in
  (cf_AuthEnabled c = false <->
     Getenv "AUTH_ENABLED" ∈ ["0"; "f"; "F"; "FALSE"; "false"; "False"]) /\
  (cf_WebhookAllowPrivate c = true <->
     Getenv "WEBHOOK_ALLOW_PRIVATE" ∈ ["1"; "t"; "T"; "TRUE"; "true"; "True"]).
Proof. exact (conj AuthEnabled_off WebhookAllowPrivate_on). Qed.

(** Settings are read as written: an integer variable that holds the
    decimal text of a 64-bit integer is that integer, a duration is that
    many seconds as long as it fits 64-bit nanoseconds, a list written
    with commas is that list, and a variable that is empty or does not
    parse has its default; so the lock lease of a worker, for example, is
    the configured one or 360 seconds. *)
Theorem Load_reads n hosts :
  - 9223372036 <= n <= 9223372036 -> Forall entry_ok hosts ->
  let c := Load Getenv in
  (Getenv "WORKER_BATCH_SIZE" = Itoa n -> cf_WorkerBatchSize c = n) /\
  (Getenv "JOB_LOCK_TTL_SECONDS" = Itoa n -> cf_JobLockTTL c = n * Second) /\
  (Getenv "WEBHOOK_ALLOWED_HOSTS" = strings_Join "," hosts -> cf_WebhookAllowedHosts c = hosts) /\
  (Atoi (Getenv "JOB_LOCK_TTL_SECONDS") = None -> cf_JobLockTTL c = 360 * Second).
Proof.
  intros Hn Hh. cbn. split_and!; intros H.
  - apply envInt_set; [done|]. apply int64_ok_spec. lia.
  - by apply envSeconds_set.
  - unfold env. case_bool_decide as E; rewrite H in *; cbn; [|by apply split_join].
    rewrite E in *. rewrite <- (split_join hosts Hh), E. done.
  - unfold envSeconds, envInt. rewrite H. by case_bool_decide.
Qed.
End Facts.

(** ** Witnesses *)

(** An operator's environment: a batch size, a lease, two hosts, and a
    switch that is misspelt. *)
Definition env_set (key : string) : string :=
  if bool_decide (key = "WORKER_BATCH_SIZE") then "25"
  else if bool_decide (key = "JOB_LOCK_TTL_SECONDS") then "25"
  else if bool_decide (key = "WEBHOOK_ALLOWED_HOSTS") then "a.example,b.example"
  else if bool_decide (key = "AUTH_ENABLED") then "off" else "".

Lemma Load_reads_witness :
  cf_WorkerBatchSize (Load env_set) = 25 /\ cf_JobLockTTL (Load env_set) = 25 * Second /\
  cf_WebhookAllowedHosts (Load env_set) = ["a.example"; "b.example"].
Proof.
  destruct (Load_reads env_set 25 ["a.example"; "b.example"]) as (H1 & H2 & H3 & _).
  - lia.
  - repeat constructor; by apply (bool_decide_unpack _); vm_compute.
  - split_and!; [apply H1 | apply H2 | apply H3]; by vm_compute.
Defined.

(** The sample of the repository: every variable of .env.example. *)
Definition env_example (key : string) : string :=
  default "" (list_to_map (M := gmap string string)
   [("APP_ENV", "local"); ("API_PORT", "8080"); ("WORKER_CONCURRENCY", "5");
    ("WORKER_POLL_INTERVAL_SECONDS", "5"); ("WORKER_BATCH_SIZE", "10");
    ("POSTGRES_HOST", "localhost"); ("POSTGRES_PORT", "5432");
    ("POSTGRES_USER", "scheduler"); ("POSTGRES_PASSWORD", "scheduler");
    ("POSTGRES_DB", "scheduler_db"); ("POSTGRES_SSL_MODE", "disable");
    ("REDIS_ADDR", "localhost:6379"); ("REDIS_PASSWORD", ""); ("REDIS_DB", "0");
    ("KAFKA_BROKERS", "localhost:9092"); ("KAFKA_EVENTS_TOPIC", "scheduler.events");
    ("JOB_LOCK_TTL_SECONDS", "360"); ("WORKER_HEARTBEAT_TTL_SECONDS", "30");
    ("WORKER_HEARTBEAT_INTERVAL_SECONDS", "10"); ("JOB_DEFAULT_TIMEOUT_SECONDS", "300");
    ("JOB_DEFAULT_MAX_RETRIES", "3"); ("JOB_DEFAULT_BACKOFF_SECONDS", "30");
    ("LOG_LEVEL", "debug"); ("AUTH_ENABLED", "true"); ("RATE_LIMIT_PER_MINUTE", "120");
    ("CORS_ALLOWED_ORIGINS", "http://localhost:3000"); ("EVENT_RELAY_BATCH_SIZE", "100");
    ("EVENT_RELAY_POLL_INTERVAL_SECONDS", "1"); ("EVENT_RELAY_HEALTH_PORT", "8091");
    ("WORKER_HEALTH_PORT", "8090"); ("WEBHOOK_ALLOWED_HOSTS", "webhook-sink");
    ("WEBHOOK_ALLOW_PRIVATE", "false")] !! key).

(** The sample repeats the defaults, up to its one webhook host. *)
Example example_is_default :
  cf_WebhookAllowedHosts (Load env_example) = ["webhook-sink"] /\
  Load (fun key => if bool_decide (key = "WEBHOOK_ALLOWED_HOSTS") then ""
                   else env_example key) = Load (fun _ => "").
Proof. by vm_compute. Qed.
