(* ===== verification/Float.v ===== *)
(** * Double-precision numbers

    The rate limiter computes in the numbers of Redis's Lua interpreter,
    IEEE 754 doubles.  [round53] rounds a rational to the nearest number
    with a 53-bit significand, ties to even; an operation on doubles is
    the exact one followed by [round53].  The exponent is not bounded: the
    program's numbers stay far from overflow and from the subnormals. *)

From S2P Require Import Prelude.
From Stdlib Require Import QArith Qround Qpower Lqa.
From Stdlib Require QArith.Qcanon.

Local Open Scope Q_scope.

(** ** To the nearest integer, ties to even *)

Definition rne (x : Q) : Z :=
  let f := Qfloor x in
  match Qcompare (x - inject_Z f) (1 # 2) with
  | Lt => f
  | Gt => (f + 1)%Z
  | Eq => if Z.even f then f else (f + 1)%Z
  end.

(** [2^e], for any integer [e]. *)
Definition pow2 (e : Z) : Q := Qpower 2 e.

(** The exponent of a positive rational: [2^e <= x < 2^(e+1)]. *)
Definition expo (x : Q) : Z :=
  let e := (Z.log2 (Qnum x) - Z.log2 (Zpos (Qden x)))%Z in
  if Qle_bool (pow2 e) x then e else (e - 1)%Z.

(** A positive rational, rounded at the last of 53 binary digits. *)
Definition round_pos (x : Q) : Q :=
  let u := pow2 (expo x - 52) in inject_Z (rne (x / u)) * u.

(** In lowest terms, so that equal numbers are equal. *)
Definition round53 (x : Q) : Q :=
  Qred match Qcompare x 0 with
       | Eq => 0
       | Gt => round_pos x
       | Lt => - round_pos (- x)
       end.

(** The unit roundoff. *)
Definition eps : Q := 1 # 2 ^ 53.

#[export] Instance Qle_transitive : Transitive Qle.
Proof. exact Qle_trans. Qed.

(** ** Rounding to integers *)

Lemma rne_range x : inject_Z (Qfloor x) <= inject_Z (rne x) <= inject_Z (Qfloor x) + 1.
Proof.
  unfold rne. destruct (Qcompare _ _); [destruct (Z.even _)|..];
    rewrite ?inject_Z_plus; change (inject_Z 1) with 1; lra.
Qed.

Lemma Qfloor_bounds x : inject_Z (Qfloor x) <= x < inject_Z (Qfloor x) + 1.
Proof.
  split; [apply Qfloor_le|]. pose proof (Qlt_floor x) as H. by rewrite inject_Z_plus in H.
Qed.

Lemma rne_err x : x - (1 # 2) <= inject_Z (rne x) <= x + (1 # 2).
Proof.
  pose proof (Qfloor_bounds x) as H. unfold rne.
  destruct (Qcompare_spec (x - inject_Z (Qfloor x)) (1 # 2)) as [E|E|E];
    [destruct (Z.even _)|..];
    rewrite ?inject_Z_plus; change (inject_Z 1) with 1; lra.
Qed.

Lemma rne_mono x y : x <= y -> (rne x <= rne y)%Z.
Proof.
  intros H. pose proof (Qfloor_resp_le _ _ H) as Hf.
  destruct (Z.eq_dec (Qfloor x) (Qfloor y)) as [E|E].
  - unfold rne. rewrite E.
    destruct (Qcompare_spec (x - inject_Z (Qfloor y)) (1 # 2)) as [Ex|Ex|Ex],
      (Qcompare_spec (y - inject_Z (Qfloor y)) (1 # 2)) as [Ey|Ey|Ey];
      try (exfalso; lra); try destruct (Z.even _); lia.
  - pose proof (rne_range x) as [_ Hx]. pose proof (rne_range y) as [Hy _].
    rewrite <- Zle_Qle in Hy. change 1 with (inject_Z 1) in Hx.
    rewrite <- inject_Z_plus, <- Zle_Qle in Hx. lia.
Qed.

Lemma rne_int n : rne (inject_Z n) = n.
Proof.
  unfold rne. rewrite Qfloor_Z.
  destruct (Qcompare_spec (inject_Z n - inject_Z n) (1 # 2)) as [E|E|E]; [|done|];
    exfalso; lra.
Qed.

#[export] Instance rne_proper : Proper (Qeq ==> eq) rne.
Proof. intros x y E. apply Z.le_antisymm; apply rne_mono; rewrite E; lra. Qed.

(** ** The exponent *)

Lemma pow2_pos e : 0 < pow2 e.
Proof. apply Qpower_0_lt. reflexivity. Qed.

Lemma pow2_plus a b : pow2 (a + b) == pow2 a * pow2 b.
Proof. apply Qpower_plus. discriminate. Qed.

Lemma pow2_inject e : (0 <= e)%Z -> pow2 e == inject_Z (2 ^ e).
Proof. intros H. unfold pow2. rewrite Zpower_Qpower by done. reflexivity. Qed.

Lemma pow2_le a b : (a <= b)%Z -> pow2 a <= pow2 b.
Proof.
  intros H. replace b with (a + (b - a))%Z by lia. rewrite pow2_plus.
  assert (1 <= pow2 (b - a)).
  { rewrite pow2_inject by lia. change 1 with (inject_Z 1). rewrite <- Zle_Qle.
    pose proof (Z.pow_pos_nonneg 2 (b - a)). lia. }
  pose proof (pow2_pos a). nra.
Qed.

Lemma pow2_succ e : pow2 (e + 1) == 2 * pow2 e.
Proof. rewrite pow2_plus. change (pow2 1) with (2 # 1). ring. Qed.

Lemma expo_spec x : 0 < x -> pow2 (expo x) <= x < pow2 (expo x + 1).
Proof.
  destruct x as [n d]. intros Hx. assert (Hn : (0 < n)%Z).
  { unfold Qlt in Hx. cbn in Hx. lia. }
  unfold expo. cbn [Qnum Qden].
  set (a := Z.log2 n). set (b := Z.log2 (Zpos d)).
  destruct (Z.log2_spec n Hn) as [Ha1 Ha2]. fold a in Ha1, Ha2.
  destruct (Z.log2_spec (Zpos d) ltac:(lia)) as [Hb1 Hb2]. fold b in Hb1, Hb2.
  pose proof (Z.log2_nonneg n : 0 <= a)%Z. pose proof (Z.log2_nonneg (Zpos d) : 0 <= b)%Z.
  rewrite Zle_Qle, <- pow2_inject in Ha1, Hb1 by lia.
  rewrite Zlt_Qlt, <- pow2_inject in Ha2, Hb2 by lia.
  unfold Z.succ in Ha2, Hb2. rewrite pow2_succ in Ha2, Hb2.
  assert (Ex : (n # d) * inject_Z (Zpos d) == inject_Z n).
  { unfold Qeq. cbn. lia. }
  assert (Ed : 0 < inject_Z (Zpos d)) by reflexivity.
  assert (Ee : pow2 (a - b) * pow2 b == pow2 a)
    by (rewrite <- pow2_plus; by replace (a - b + b)%Z with a by lia).
  pose proof (pow2_pos (a - b)). pose proof (pow2_pos b).
  set (q := n # d) in *. set (dq := inject_Z (Zpos d)) in *. set (nq := inject_Z n) in *.
  set (p := pow2 (a - b)) in *.
  destruct (Qle_bool p q) eqn:El.
  - apply Qle_bool_iff in El. split; [done|]. rewrite pow2_succ. fold p. nra.
  - assert (Hlt : q < p).
    { apply Qnot_le_lt. intros Hle. apply Qle_bool_iff in Hle. congruence. }
    assert (Hh : p == 2 * pow2 (a - b - 1)).
    { rewrite <- pow2_succ. unfold p. by replace (a - b - 1 + 1)%Z with (a - b)%Z by lia. }
    replace (a - b - 1 + 1)%Z with (a - b)%Z by lia. fold p. split; [nra|done].
Qed.

Lemma expo_unique x e : 0 < x -> pow2 e <= x < pow2 (e + 1) -> expo x = e.
Proof.
  intros Hx [H1 H2]. destruct (expo_spec x Hx) as [H3 H4].
  destruct (Z.lt_trichotomy (expo x) e) as [H|[H|H]]; [exfalso|done|exfalso].
  - pose proof (pow2_le (expo x + 1) e ltac:(lia)). lra.
  - pose proof (pow2_le (e + 1) (expo x) ltac:(lia)). lra.
Qed.

(** ** Rounding *)

Section Positive.
Context (x : Q) (Hx : 0 < x).
Let u : Q := pow2 (expo x - 52).

Lemma ulp_pos : 0 < u.
Proof. apply pow2_pos. Qed.

(** The significand lies between [2^52] and [2^53]. *)
Lemma significand : inject_Z (2 ^ 52) <= x / u < inject_Z (2 ^ 53).
Proof.
  destruct (expo_spec x Hx) as [H1 H2]. pose proof ulp_pos as Hu.
  assert (E1 : inject_Z (2 ^ 52) * u == pow2 (expo x)).
  { rewrite <- pow2_inject by lia. unfold u. rewrite <- pow2_plus.
    by replace (52 + (expo x - 52))%Z with (expo x) by lia. }
  assert (E2 : inject_Z (2 ^ 53) * u == pow2 (expo x + 1)).
  { rewrite <- pow2_inject by lia. unfold u. rewrite <- pow2_plus.
    by replace (53 + (expo x - 52))%Z with (expo x + 1)%Z by lia. }
  split; [apply Qle_shift_div_l | apply Qlt_shift_div_r]; rewrite ?E1, ?E2; done.
Qed.

Lemma round_pos_bounds : pow2 (expo x) <= round_pos x <= pow2 (expo x + 1).
Proof.
  pose proof ulp_pos as Hu. destruct significand as [H1 H2].
  assert (L : (2 ^ 52 <= rne (x / u))%Z) by (rewrite <- (rne_int (2 ^ 52)); by apply rne_mono).
  assert (R : (rne (x / u) <= 2 ^ 53)%Z)
    by (rewrite <- (rne_int (2 ^ 53)); apply rne_mono; lra).
  rewrite Zle_Qle in L, R. unfold round_pos. fold u.
  replace (expo x) with (52 + (expo x - 52))%Z at 1 by lia.
  replace (expo x + 1)%Z with (53 + (expo x - 52))%Z by lia.
  rewrite !pow2_plus. fold u. rewrite !pow2_inject by lia. split; nra.
Qed.

Lemma round_pos_err : x - eps * x <= round_pos x <= x + eps * x.
Proof.
  pose proof ulp_pos as Hu. destruct (expo_spec x Hx) as [H1 _].
  assert (E : pow2 (expo x) == u * inject_Z (2 ^ 52)).
  { rewrite <- pow2_inject by lia. unfold u. rewrite <- pow2_plus.
    by replace (expo x - 52 + 52)%Z with (expo x) by lia. }
  assert (Hh : u * (1 # 2) <= eps * x).
  { rewrite E in H1. unfold eps. change (inject_Z (2 ^ 52)) with (4503599627370496 # 1) in H1.
    change (1 # 2 ^ 53) with (1 # 9007199254740992). lra. }
  unfold round_pos. fold u. pose proof (rne_err (x / u)) as He.
  assert (Ex : x / u * u == x) by (field; lra).
  set (q := x / u) in *. set (r := inject_Z (rne q)) in *. split; nra.
Qed.
End Positive.

Lemma round_pos_mono x y : 0 < x -> x <= y -> round_pos x <= round_pos y.
Proof.
  intros Hx Hxy. assert (Hy : 0 < y) by lra.
  destruct (expo_spec x Hx) as [X1 X2], (expo_spec y Hy) as [Y1 Y2].
  destruct (Z.lt_trichotomy (expo x) (expo y)) as [H|[H|H]].
  - pose proof (round_pos_bounds x Hx). pose proof (round_pos_bounds y Hy).
    pose proof (pow2_le (expo x + 1) (expo y) ltac:(lia)). lra.
  - unfold round_pos. rewrite H. pose proof (pow2_pos (expo y - 52)) as Hu.
    set (u := pow2 (expo y - 52)) in *.
    assert (Hr : (rne (x / u) <= rne (y / u))%Z).
    { apply rne_mono. unfold Qdiv. apply Qmult_le_compat_r; [done|].
      apply Qlt_le_weak, Qinv_lt_0_compat, Hu. }
    rewrite Zle_Qle in Hr. apply Qmult_le_compat_r; [done|lra].
  - pose proof (pow2_le (expo y + 1) (expo x) ltac:(lia)). lra.
Qed.

Lemma round_pos_int n : (0 < n < 2 ^ 53)%Z -> round_pos (inject_Z n) == inject_Z n.
Proof.
  intros Hn. assert (Hx : 0 < inject_Z n).
  { change 0 with (inject_Z 0). rewrite <- Zlt_Qlt. lia. }
  destruct (expo_spec _ Hx) as [H1 H2].
  assert (He : (expo (inject_Z n) <= 52)%Z).
  { apply Z.nlt_ge. intros H. pose proof (pow2_le 53 (expo (inject_Z n)) ltac:(lia)) as Hp.
    rewrite pow2_inject in Hp by lia. pose proof (Qle_trans _ _ _ Hp H1) as Hle.
    rewrite <- Zle_Qle in Hle. lia. }
  unfold round_pos. set (e := expo (inject_Z n)) in *.
  assert (E : inject_Z n / pow2 (e - 52) == inject_Z (n * 2 ^ (52 - e))).
  { rewrite inject_Z_mult, <- pow2_inject by lia.
    assert (P : pow2 (52 - e) * pow2 (e - 52) == 1).
    { rewrite <- pow2_plus. by replace (52 - e + (e - 52))%Z with 0%Z by lia. }
    pose proof (pow2_pos (e - 52)).
    transitivity (inject_Z n * (pow2 (52 - e) * pow2 (e - 52)) / pow2 (e - 52)).
    - rewrite P. field. lra.
    - field. lra. }
  rewrite E, rne_int, inject_Z_mult, <- pow2_inject by lia.
  rewrite <- Qmult_assoc, <- pow2_plus. replace (52 - e + (e - 52))%Z with 0%Z by lia.
  change (pow2 0) with 1. ring.
Qed.

(** ** [round53] *)

Lemma round53_pos x : 0 < x -> round53 x == round_pos x.
Proof. intros H. unfold round53. rewrite Qred_correct. by rewrite (proj1 (Qgt_alt x 0) H). Qed.

Lemma round53_neg x : x < 0 -> round53 x == - round_pos (- x).
Proof. intros H. unfold round53. rewrite Qred_correct. by rewrite (proj1 (Qlt_alt x 0) H). Qed.

Lemma round53_zero x : x == 0 -> round53 x == 0.
Proof. intros H. unfold round53. rewrite Qred_correct. by rewrite (proj1 (Qeq_alt x 0) H). Qed.

Lemma Q_trichotomy x : x < 0 \/ x == 0 \/ 0 < x.
Proof. destruct (Qcompare_spec x 0); auto. Qed.

Lemma round_pos_pos x : 0 < x -> 0 < round_pos x.
Proof.
  intros H. pose proof (round_pos_bounds x H). pose proof (pow2_pos (expo x)). lra.
Qed.

Lemma round53_mono x y : x <= y -> round53 x <= round53 y.
Proof.
  intros H. destruct (Q_trichotomy x) as [Hx|[Hx|Hx]], (Q_trichotomy y) as [Hy|[Hy|Hy]];
    try (exfalso; lra).
  - rewrite !round53_neg by done. pose proof (round_pos_mono (- y) (- x)). lra.
  - rewrite (round53_neg x), (round53_zero y) by done. pose proof (round_pos_pos (- x)). lra.
  - rewrite (round53_neg x), (round53_pos y) by done.
    pose proof (round_pos_pos (- x)). pose proof (round_pos_pos y). lra.
  - rewrite !round53_zero by done. lra.
  - rewrite (round53_zero x), (round53_pos y) by done. pose proof (round_pos_pos y). lra.
  - rewrite !round53_pos by done. by apply round_pos_mono.
Qed.

#[export] Instance round53_proper : Proper (Qeq ==> Qeq) round53.
Proof. intros x y E. apply Qle_antisym; apply round53_mono; rewrite E; lra. Qed.

(** Small integers are doubles. *)
Lemma round53_int n : (Z.abs n < 2 ^ 53)%Z -> round53 (inject_Z n) == inject_Z n.
Proof.
  intros Hn. destruct (Z.lt_trichotomy n 0) as [H|[->|H]]; [|done|].
  - rewrite round53_neg by (change 0 with (inject_Z 0); rewrite <- Zlt_Qlt; lia).
    rewrite <- inject_Z_opp, round_pos_int by lia. rewrite inject_Z_opp. ring.
  - rewrite round53_pos by (change 0 with (inject_Z 0); rewrite <- Zlt_Qlt; lia).
    apply round_pos_int. lia.
Qed.

Lemma round53_inject n : (Z.abs n < 2 ^ 53)%Z -> round53 (inject_Z n) = inject_Z n.
Proof.
  intros Hn. pose proof (round53_int n Hn) as H. unfold round53 in *.
  rewrite Qred_correct in H. apply Qred_complete in H. rewrite H.
  apply Qcanon.Qred_identity, Z.gcd_1_r.
Qed.

(** The relative error of a rounding is at most [2^-53]. *)
Lemma round53_err x : 0 <= x -> x - eps * x <= round53 x <= x + eps * x.
Proof.
  intros H. destruct (Q_trichotomy x) as [Hx|[Hx|Hx]]; [exfalso; lra|..].
  - rewrite round53_zero by done. rewrite Hx. lra.
  - rewrite round53_pos by done. by apply round_pos_err.
Qed.

Lemma round53_nonneg x : 0 <= x -> 0 <= round53 x.
Proof. intros H. apply round53_mono in H. by rewrite (round53_int 0) in H. Qed.

(** One tenth is not a double; one half is. *)
Example round53_tenth : Qred (round53 (1 # 10)) = 3602879701896397 # 36028797018963968.
Proof. by vm_compute. Qed.
