(* ===== verification/RateLimit.v ===== *)
(** * The rate limiter: internal/auth/rate_limit.go

    A token bucket per API client in a Redis hash, refilled and drawn
    from by one Lua script, so that concurrent API replicas cannot both
    take the last token.  The script's numbers are doubles: every
    operation of it is followed by [round53].  [HMSET] stores a number
    with 17 significant digits, from which [tonumber] reads the same
    double back, so a field of the hash holds the number itself. *)

From S2P Require Import Prelude GoRuntime Engine Sql Schema Effects Json Dto Repository Auth Service Http Float.
From Stdlib Require Import QArith Lqa.

Local Open Scope Z_scope.
Local Open Scope go_scope.

(** ** The script *)

(** The fields of a hash that has not expired. *)
Definition live_hash (now : Time) (r : Redis) (key : string) : gmap string Q :=
  match rd_hashes r !! key with
  | Some (h, None) => h
  | Some (h, Some t) => if now <? t then h else ∅
  | None => ∅
  end.

Definition Q_lt_bool (x y : Q) : bool := negb (Qle_bool y x).

(** [tokens=math.min(capacity,tokens+(now-updated)*rate)]. *)
Definition refill (capacity now : Q) (values : gmap string Q) : Q :=
  let rate := round53 (capacity / 60) in
  let tokens := default capacity (values !! "tokens") in
  let updated := default now (values !! "updated") in
  let filled := round53 (tokens + round53 (round53 (now - updated) * rate)) in
  if Q_lt_bool filled capacity then filled else capacity.

(** [if tokens>=1 then tokens=tokens-1; allowed=1 end]. *)
Definition draw (tokens : Q) : Q * Z :=
  if Qle_bool 1 tokens then (round53 (tokens - 1), 1) else (tokens, 0).

Definition bucket_script (capacity now : Q) (key : string) (rnow : Time) (r : Redis)
    : result (Redis * (Z * Z)) :=
  let values := live_hash rnow r key in
  let '(tokens, allowed) := draw (refill capacity now values) in
  let h := <["updated" := now]> (<["tokens" := tokens]> values) in
  Ok (r <| rd_hashes := <[key := (h, Some (rnow + 120 * Second))]> (rd_hashes r) |>,
      (allowed, Z.quot (Qnum tokens) (Zpos (Qden tokens)))).

(** ** The limiter *)

Record RateLimiter := mkRateLimiter { lim_capacity : Z }.

Definition NewRateLimiter (perMinute : Z) : RateLimiter :=
  {| lim_capacity := if perMinute <? 1 then 120 else perMinute |}.

(** [float64(t.UnixNano())/1e9]. *)
Definition unix_seconds (t : Time) : Q := round53 (round53 (inject_Z t) / inject_Z Second).

Definition bucket_key (clientID : string) : string := "rate:client:" +:+ clientID.

Definition Allow (l : RateLimiter) (clientID : string) : M (bool * Duration) :=
  now ← time_Now;
  result ← redis_exec (bucket_script (round53 (inject_Z (lim_capacity l))) (unix_seconds now)
                         (bucket_key clientID));
  let allowed := result.1 =? 1 in
  if allowed then mret (true, 0) else mret (false, Second).

(** [RateLimiter.Middleware]. *)
Definition limiter_Middleware (l : RateLimiter) (next : Handler) : Handler := fun r =>
  match FromContext (rq_Context r) with
  | None => mret (Error r 401 "UNAUTHORIZED" "authentication required")
  | Some principal =>
      res ← try (Allow l (uuid_String (pr_ClientID principal)));
      match res with
      | Err _ => mret (Error r 503 "DEPENDENCY_UNAVAILABLE" "rate limiter unavailable")
      | Ok (allowed, retry) =>
          if negb allowed
          then mret (set_header "Retry-After" (Itoa (duration_seconds retry))
                       (Error r 429 "RATE_LIMITED" "request rate exceeded"))
          else next r
      end
  end.

(** ** One call *)

Local Open Scope Q_scope.

Lemma Q_lt_bool_spec x y : reflect (x < y) (Q_lt_bool x y).
Proof.
  unfold Q_lt_bool. destruct (Qle_bool y x) eqn:E; constructor.
  - apply Qle_bool_iff in E. by apply Qle_not_lt.
  - apply Qnot_le_lt. intros H. apply Qle_bool_iff in H. congruence.
Qed.

(** The calls of one client, each with the API's clock in seconds and the
    clock of Redis. *)
Abbreviation Calls := (Datatypes.list (Q * Time)%type).

(** The slack of one call: six roundings. *)
Definition slack : Q := 1 # 2 ^ 50.

Lemma eps_pos : 0 < eps.
Proof. reflexivity. Qed.

Lemma round53_up x : 0 <= x -> round53 x <= x * (1 + eps).
Proof. intros H. pose proof (round53_err x H). lra. Qed.

Lemma round53_down x : 0 <= x -> x * (1 - eps) <= round53 x.
Proof. intros H. pose proof (round53_err x H). lra. Qed.

Lemma Qmult_le_mono a b x y : 0 <= a -> 0 <= x -> a <= b -> x <= y -> a * x <= b * y.
Proof. intros. nra. Qed.

(** The four roundings of a refill, from above and from below. *)
Section Filled.
Context (T d k : Q) (HT : 0 <= T) (Hd : 0 <= d) (Hk : 0 <= k).
Let filled : Q := round53 (T + round53 (round53 d * round53 k)).

Lemma filled_nonneg : 0 <= filled.
Proof.
  pose proof (round53_nonneg d Hd). pose proof (round53_nonneg k Hk).
  apply round53_nonneg. assert (0 <= round53 (round53 d * round53 k)); [|lra].
  apply round53_nonneg. by apply Qmult_le_0_compat.
Qed.

Lemma filled_up : filled <= (T + d * k) * (1 + 5 * eps).
Proof.
  pose proof (round53_nonneg d Hd) as D0. pose proof (round53_nonneg k Hk) as K0.
  pose proof (round53_up d Hd) as D1. pose proof (round53_up k Hk) as K1.
  assert (P0 : 0 <= round53 d * round53 k) by (by apply Qmult_le_0_compat).
  assert (P1 : round53 d * round53 k <= d * k * ((1 + eps) * (1 + eps))).
  { setoid_replace (d * k * ((1 + eps) * (1 + eps)))
      with (d * (1 + eps) * (k * (1 + eps))) using relation Qeq by ring. by apply Qmult_le_mono. }
  pose proof (round53_nonneg _ P0) as R0. pose proof (round53_up _ P0) as R1.
  set (p := round53 (round53 d * round53 k)) in *.
  assert (X0 : 0 <= d * k) by (by apply Qmult_le_0_compat). set (x := d * k) in *.
  assert (C : 0 <= 1 + eps) by (apply Qle_bool_iff; by vm_compute).
  assert (R2 : p <= x * ((1 + eps) * (1 + eps)) * (1 + eps)).
  { etrans; [exact R1|]. by apply Qmult_le_compat_r. }
  assert (C3 : 1 <= (1 + eps) * (1 + eps) * (1 + eps)) by (apply Qle_bool_iff; by vm_compute).
  assert (S1 : T + p <= (T + x) * ((1 + eps) * (1 + eps) * (1 + eps))) by nra.
  assert (S0 : 0 <= T + p) by lra.
  pose proof (round53_up _ S0) as F. fold filled in F. etrans; [exact F|].
  assert (C4 : (1 + eps) * (1 + eps) * (1 + eps) * (1 + eps) <= 1 + 5 * eps)
    by (apply Qle_bool_iff; by vm_compute).
  apply (Qle_trans _ ((T + x) * ((1 + eps) * (1 + eps) * (1 + eps)) * (1 + eps))).
  { by apply Qmult_le_compat_r. }
  rewrite <- Qmult_assoc, !(Qmult_comm (T + x)). apply Qmult_le_compat_r; [done|lra].
Qed.

Lemma filled_down : d * k * (1 - 5 * eps) <= filled.
Proof.
  pose proof (round53_down d Hd) as D1. pose proof (round53_down k Hk) as K1.
  assert (C : 0 <= 1 - eps) by (apply Qle_bool_iff; by vm_compute).
  assert (D0 : 0 <= d * (1 - eps)) by (by apply Qmult_le_0_compat).
  assert (K0 : 0 <= k * (1 - eps)) by (by apply Qmult_le_0_compat).
  pose proof (Qmult_le_mono _ _ _ _ D0 K0 D1 K1) as P1.
  assert (P0 : 0 <= round53 d * round53 k)
    by (etrans; [|exact P1]; by apply Qmult_le_0_compat).
  pose proof (round53_down _ P0) as R1. pose proof (round53_nonneg _ P0) as R0.
  set (p := round53 (round53 d * round53 k)) in *.
  assert (S0 : 0 <= T + p) by lra. pose proof (round53_down _ S0) as F. fold filled in F.
  assert (X0 : 0 <= d * k) by (by apply Qmult_le_0_compat).
  assert (C4 : 1 - 5 * eps <= (1 - eps) * (1 - eps) * (1 - eps) * (1 - eps))
    by (apply Qle_bool_iff; by vm_compute).
  apply (Qle_trans _ (p * (1 - eps))); [|nra].
  apply (Qle_trans _ (d * k * ((1 - eps) * (1 - eps) * (1 - eps) * (1 - eps)))).
  { rewrite !(Qmult_comm (d * k)). by apply Qmult_le_compat_r. }
  setoid_replace (d * k * ((1 - eps) * (1 - eps) * (1 - eps) * (1 - eps)))
    with (d * (1 - eps) * (k * (1 - eps)) * (1 - eps) * (1 - eps)) using relation Qeq by ring.
  apply Qmult_le_compat_r; [|done]. etrans; [|exact R1]. by apply Qmult_le_compat_r.
Qed.
End Filled.

Section Bucket.
Context (c : Z) (Hc : (1 <= c < 2 ^ 53)%Z).
Let cap : Q := inject_Z c.

Lemma cap_pos : 1 <= cap.
Proof. unfold cap. change 1 with (inject_Z 1). rewrite <- Zle_Qle. lia. Qed.

Lemma cap_rate : 0 <= cap / 60.
Proof. pose proof cap_pos. unfold Qdiv. apply Qmult_le_0_compat; [lra|done]. Qed.

Lemma round_cap : round53 cap == cap.
Proof. apply round53_int. lia. Qed.

(** A bucket with [T] tokens, last touched at [u]. *)
Definition bucket_at (T u : Q) (h : gmap string Q) : Prop :=
  h !! "tokens" = Some T /\ h !! "updated" = Some u.

Lemma bucket_at_insert T u h :
  bucket_at T u (<["updated" := u]> (<["tokens" := T]> h)).
Proof. split; [rewrite lookup_insert_ne by done|]; apply lookup_insert_eq. Qed.

Lemma refill_at T u now h :
  bucket_at T u h ->
  refill cap now h = let filled := round53 (T + round53 (round53 (now - u) * round53 (cap / 60))) in
                     if Q_lt_bool filled cap then filled else cap.
Proof. intros [Ht Hu]. unfold refill. by rewrite Ht, Hu. Qed.

Lemma refill_le now h : refill cap now h <= cap.
Proof.
  unfold refill. cbv zeta.
  match goal with |- context [Q_lt_bool ?x cap] => destruct (Q_lt_bool_spec x cap) end; lra.
Qed.

Lemma refill_empty now : refill cap now ∅ = cap.
Proof.
  unfold refill. rewrite !lookup_empty. cbn [default]. cbv zeta. unfold id.
  match goal with |- context [Q_lt_bool ?x cap] => destruct (Q_lt_bool_spec x cap) as [H|H] end;
    [exfalso|done].
  setoid_replace (now - now) with (inject_Z 0) using relation Qeq in H
    by (change (inject_Z 0) with 0; ring).
  rewrite (round53_int 0) in H by lia. change (inject_Z 0) with 0 in H.
  rewrite Qmult_0_l in H. change 0 with (inject_Z 0) in H. rewrite (round53_int 0) in H by lia.
  change (inject_Z 0) with 0 in H. rewrite Qplus_0_r, round_cap in H. lra.
Qed.

Lemma refill_bounds T u now h :
  bucket_at T u h -> 0 <= T <= cap -> u <= now ->
  0 <= refill cap now h /\
  refill cap now h <= T + (now - u) * (cap / 60) + 5 * eps * cap.
Proof.
  intros Hb HT Hle. rewrite (refill_at _ _ _ _ Hb). cbv zeta.
  assert (Hd : 0 <= now - u) by lra. pose proof cap_rate as Hk. pose proof cap_pos as H1.
  pose proof (filled_nonneg T _ _ (proj1 HT) Hd Hk) as F0.
  pose proof (filled_up T _ _ (proj1 HT) Hd Hk) as F1.
  assert (X0 : 0 <= (now - u) * (cap / 60)) by (by apply Qmult_le_0_compat).
  set (x := (now - u) * (cap / 60)) in *. set (s := round53 (T + _)) in *.
  pose proof eps_pos. destruct (Q_lt_bool_spec s cap) as [Hlt|Hge]; (split; [lra|]);
    (destruct (Qlt_le_dec (T + x) cap); [|nra]).
  - assert ((T + x) * (5 * eps) <= cap * (5 * eps)) by (apply Qmult_le_compat_r; lra). lra.
  - assert ((T + x) * (5 * eps) <= cap * (5 * eps)) by (apply Qmult_le_compat_r; lra). lra.
Qed.

(** A minute and a second of patience fill any bucket up to a token. *)
Lemma refill_patient T u now h :
  bucket_at T u h -> 0 <= T -> 61 <= now - u -> 1 <= refill cap now h.
Proof.
  intros Hb HT Hle. rewrite (refill_at _ _ _ _ Hb). cbv zeta.
  assert (Hd : 0 <= now - u) by lra. pose proof cap_rate as Hk. pose proof cap_pos as H1.
  pose proof (filled_down T _ _ HT Hd Hk) as F1. set (s := round53 (T + _)) in *.
  destruct (Q_lt_bool_spec s cap); [|done]. etrans; [|exact F1].
  assert (X : (61 # 60) * cap <= (now - u) * (cap / 60)).
  { setoid_replace ((61 # 60) * cap) with (61 * (cap / 60)) using relation Qeq by field.
    by apply Qmult_le_compat_r. }
  assert (C : 1 <= (61 # 60) * (1 - 5 * eps)) by (apply Qle_bool_iff; by vm_compute).
  assert (C0 : 0 <= 1 - 5 * eps) by (apply Qle_bool_iff; by vm_compute).
  apply (Qle_trans _ ((61 # 60) * cap * (1 - 5 * eps))); [nra|].
  by apply Qmult_le_compat_r.
Qed.

(** Drawing a token. *)
Lemma draw_spec P :
  0 <= P <= cap ->
  let '(T, a) := draw P in
  (a = 0 \/ a = 1)%Z /\ (a = 1%Z <-> 1 <= P) /\ 0 <= T <= cap /\
  inject_Z a + T <= P + eps * cap.
Proof.
  intros [H0 H1]. pose proof cap_pos as Hcap. pose proof eps_pos as He. unfold draw.
  destruct (Qle_bool 1 P) eqn:E.
  - apply Qle_bool_iff in E. assert (HP : 0 <= P - 1) by lra.
    pose proof (round53_nonneg _ HP) as R0. destruct (round53_err _ HP) as [_ R1].
    assert (R2 : round53 (P - 1) <= cap).
    { rewrite <- round_cap. apply round53_mono. lra. }
    split_and!; [by right|done|done|done|]. change (inject_Z 1) with 1.
    assert (eps * (P - 1) <= eps * cap); [|lra].
    rewrite !(Qmult_comm eps). apply Qmult_le_compat_r; lra.
  - assert (Hn : ~ 1 <= P) by (intros H; apply Qle_bool_iff in H; congruence).
    split_and!; try done; [by left|]. change (inject_Z 0) with 0. nra.
Qed.

(** One run of the script on a bucket that may have expired, provided that
    expiry means a minute has passed for the API. *)
Lemma script_step key T u h expiry now rnow r :
  rd_hashes r !! key = Some (h, Some expiry) -> bucket_at T u h -> 0 <= T <= cap -> u <= now ->
  ((expiry <= rnow)%Z -> 60 <= now - u) ->
  exists r' a left h' T', bucket_script cap now key rnow r = Ok (r', (a, left)) /\
    rd_hashes r' !! key = Some (h', Some (rnow + 120 * Second)%Z) /\ bucket_at T' now h' /\
    0 <= T' <= cap /\ (a = 0 \/ a = 1)%Z /\ (61 <= now - u -> a = 1%Z) /\
    inject_Z a + T' <= T + (now - u) * (cap / 60) + slack * cap.
Proof.
  intros Hr Hb HT Hle Hexp. pose proof cap_pos as Hcap. pose proof eps_pos as He.
  unfold bucket_script. set (values := live_hash rnow r key).
  assert (Hf : 0 <= refill cap now values <= cap /\
    (61 <= now - u -> 1 <= refill cap now values) /\
    refill cap now values <= T + (now - u) * (cap / 60) + 5 * eps * cap).
  { unfold values, live_hash. rewrite Hr. destruct (Z.ltb_spec rnow expiry) as [Hlive|Hdead].
    - destruct (refill_bounds T u now h Hb HT Hle). pose proof (refill_le now h).
      split_and!; try done. intros H61. exact (refill_patient T u now h Hb (proj1 HT) H61).
    - specialize (Hexp Hdead). rewrite refill_empty. split_and!; [lra|lra|done|].
      assert (60 * (cap / 60) <= (now - u) * (cap / 60)).
      { apply Qmult_le_compat_r; [done|apply cap_rate]. }
      assert (60 * (cap / 60) == cap) by field. nra. }
  destruct Hf as (Hf & H61 & Hup). pose proof (draw_spec _ Hf) as Hd.
  destruct (draw _) as [T' a]. destruct Hd as (Ha & Ha1 & HT' & Hdraw).
  do 5 eexists. split; [reflexivity|]. cbn. rewrite lookup_insert_eq. split; [done|].
  split; [apply bucket_at_insert|].
  split; [exact HT'|]. split; [exact Ha|]. split.
  - intros H. by apply Ha1, H61.
  - assert (6 * eps * cap <= slack * cap).
    { apply Qmult_le_compat_r; [|lra]. apply Qle_bool_iff. by vm_compute. }
    lra.
Qed.

(** ** Many calls *)

(** How many calls are allowed. *)
Fixpoint run_calls (key : string) (calls : Calls) (r : Redis) : Z * Redis :=
  match calls with
  | [] => (0%Z, r)
  | (now, rnow) :: calls' =>
      match bucket_script cap now key rnow r with
      | Ok (r', (a, _)) => let '(n, r'') := run_calls key calls' r' in ((a + n)%Z, r'')
      | Err _ => run_calls key calls' r
      end
  end.

(** The API's clock does not run backwards, and between two calls the
    clock of Redis does not run ahead of it by more than a minute. *)
Fixpoint paced (u : Q) (rprev : Time) (calls : Calls) : Prop :=
  match calls with
  | [] => True
  | (now, rnow) :: calls' =>
      u <= now /\ inject_Z (rnow - rprev) <= (now - u + 60) * inject_Z Second /\
      paced now rnow calls'
  end.

Fixpoint last_call (u : Q) (calls : Calls) : Q :=
  match calls with
  | [] => u
  | (now, _) :: calls' => last_call now calls'
  end.

Lemma paced_expiry u now rprev rnow :
  inject_Z (rnow - rprev) <= (now - u + 60) * inject_Z Second ->
  (rprev + 120 * Second <= rnow)%Z -> 60 <= now - u.
Proof.
  intros H Hexp. assert (H2 : inject_Z (120 * Second) <= inject_Z (rnow - rprev))
    by (rewrite <- Zle_Qle; lia).
  change (inject_Z (120 * Second)) with (120000000000 # 1) in H2.
  change (inject_Z Second) with (1000000000 # 1) in H. lra.
Qed.

(** The bucket is in a good state, touched at [u] and [rprev]. *)
Definition good (key : string) (u : Q) (rprev : Time) (T : Q) (r : Redis) : Prop :=
  exists h, rd_hashes r !! key = Some (h, Some (rprev + 120 * Second)%Z) /\
    bucket_at T u h /\ 0 <= T <= cap.

Lemma run_calls_bound key calls u rprev T r :
  good key u rprev T r -> paced u rprev calls ->
  exists T' rlast, good key (last_call u calls) rlast T' (run_calls key calls r).2 /\
  inject_Z (run_calls key calls r).1 + T' <=
    T + (last_call u calls - u) * (cap / 60) + inject_Z (Z.of_nat (length calls)) * (slack * cap).
Proof.
  revert u rprev T r. induction calls as [|[now rnow] calls IH]; intros u rprev T r Hg Hp.
  { exists T, rprev. split; [done|]. cbn [run_calls last_call length fst].
    change (inject_Z (Z.of_nat 0)) with 0. change (inject_Z 0) with 0. lra. }
  destruct Hp as (Hle & Hdrift & Hp). destruct Hg as (h & Hr & Hb & HT).
  destruct (script_step key T u h _ now rnow r Hr Hb HT Hle (paced_expiry _ _ _ _ Hdrift))
    as (r' & a & left & h' & T1 & Hs & Hr' & Hb' & HT1 & _ & _ & Hbound).
  cbn [run_calls last_call length]. rewrite Hs.
  destruct (IH now rnow T1 r') as (T' & rlast & Hg' & HIH); [by exists h'|done|].
  destruct (run_calls key calls r') as [n r'']. cbn [fst snd] in *.
  exists T', rlast. split; [done|]. rewrite inject_Z_plus, Nat2Z.inj_succ.
  unfold Z.succ. rewrite inject_Z_plus. change (inject_Z 1) with 1.
  set (L := last_call now calls) in *. set (m := inject_Z (Z.of_nat (length calls))) in *.
  set (k := cap / 60) in *. set (sc := slack * cap) in *. lra.
Qed.

(** The first call of a new client. *)
Lemma first_call key now rnow r :
  rd_hashes r !! key = None ->
  exists r' left T, bucket_script cap now key rnow r = Ok (r', (1%Z, left)) /\
    good key now rnow T r' /\ 1 + T <= cap + slack * cap.
Proof.
  intros Hr. pose proof cap_pos as Hcap. unfold bucket_script, live_hash. rewrite Hr, refill_empty.
  pose proof (draw_spec cap ltac:(lra)) as Hd. destruct (draw cap) as [T a].
  destruct Hd as (_ & Ha & HT & Hb). destruct Ha as [_ Ha]. rewrite (Ha Hcap) in *.
  do 3 eexists. split; [reflexivity|]. split.
  - eexists. cbn. rewrite lookup_insert_eq. split; [done|]. split; [|done].
    apply bucket_at_insert.
  - change (inject_Z 1) with 1 in Hb. assert (eps * cap <= slack * cap); [|lra].
    apply Qmult_le_compat_r; [|lra]. apply Qle_bool_iff. by vm_compute.
Qed.

Lemma script_rate_bound key now rnow calls r :
  rd_hashes r !! key = None -> paced now rnow calls ->
  inject_Z (run_calls key ((now, rnow) :: calls) r).1 <=
    cap + (last_call now calls - now) * (cap / 60) +
    inject_Z (Z.of_nat (S (length calls))) * (slack * cap).
Proof.
  intros Hr Hp. destruct (first_call key now rnow r Hr) as (r1 & left & T & Hs & Hg & Hb).
  destruct (run_calls_bound key calls now rnow T r1 Hg Hp) as (T' & rl & (h & _ & _ & HT) & H).
  cbn [run_calls]. rewrite Hs. destruct (run_calls key calls r1) as [n r2]. cbn [fst snd] in *.
  rewrite inject_Z_plus, Nat2Z.inj_succ. unfold Z.succ. rewrite inject_Z_plus.
  change (inject_Z 1) with 1. set (m := inject_Z (Z.of_nat (length calls))) in *.
  set (k := cap / 60) in *. set (sc := slack * cap) in *. lra.
Qed.

Lemma script_never_locked key now rnow calls r now' rnow' :
  rd_hashes r !! key = None -> paced now rnow calls ->
  let last := last_call now calls in
  let r' := (run_calls key ((now, rnow) :: calls) r).2 in
  61 <= now' - last ->
  (exists r1 left, bucket_script cap now key rnow r = Ok (r1, (1%Z, left))) /\
  (exists r2 left, bucket_script cap now' key rnow' r' = Ok (r2, (1%Z, left))).
Proof.
  intros Hr Hp last r' H61. destruct (first_call key now rnow r Hr) as (r1 & left & T & Hs & Hg & _).
  split; [by do 2 eexists|].
  destruct (run_calls_bound key calls now rnow T r1 Hg Hp) as (T' & rl & (h & Hh & Hb & HT) & _).
  assert (E : r' = (run_calls key calls r1).2).
  { unfold r'. cbn [run_calls]. rewrite Hs. by destruct (run_calls key calls r1). }
  rewrite E. fold last in Hb.
  destruct (script_step key T' last h _ now' rnow' _ Hh Hb HT) as
    (r2 & a & left2 & _ & _ & Hs2 & _ & _ & _ & _ & Ha & _); [lra|intros _; lra|].
  rewrite (Ha H61) in Hs2. by do 2 eexists.
Qed.
End Bucket.

(** Buckets of other clients are left alone. *)
Lemma bucket_script_frame capacity now key rnow r r' x k :
  bucket_script capacity now key rnow r = Ok (r', x) -> k <> key ->
  rd_hashes r' !! k = rd_hashes r !! k /\ rd_strings r' = rd_strings r /\
  rd_sets r' = rd_sets r.
Proof.
  unfold bucket_script. destruct (draw _) as [T a]. intros [= <- _] Hk. cbn.
  by rewrite lookup_insert_ne.
Qed.

(** ** The limiter over time *)

(** A client that calls [Allow] again and again, and how many of its calls
    are allowed. *)
Fixpoint allow_many (l : RateLimiter) (clientID : string) (n : nat) : M Z :=
  match n with
  | O => mret 0%Z
  | S n' =>
      '(allowed, _) ← Allow l clientID;
      k ← allow_many l clientID n';
      mret ((if allowed : bool then 1 else 0) + k)%Z
  end.

(** The clocks those calls read, from tick [t] on. *)
Fixpoint calls_at (e : env) (t n : nat) : Calls :=
  match n with
  | O => []
  | S n' => (unix_seconds (e_time e t), e_redisnow e (S t)) :: calls_at e (S (S t)) n'
  end.

Section Limiter.
Context (l : RateLimiter) (Hc : (1 <= lim_capacity l < 2 ^ 53)%Z) (clientID : string).
Context (e : env) (He : healthy e).
Let c := lim_capacity l.
Let cap : Q := inject_Z c.
Let key := bucket_key clientID.

Lemma Allow_run w :
  exists r' a left,
    bucket_script cap (unix_seconds (e_time e (w_tick w))) key (e_redisnow e (S (w_tick w)))
      (w_redis w) = Ok (r', (a, left)) /\
    Allow l clientID e w = (Ok (if (a =? 1)%Z then (true, 0%Z) else (false, Second)),
      w <| w_redis := r' |> <| w_tick := S (S (w_tick w)) |>).
Proof.
  unfold Allow. rewrite time_Now_bind. unfold mbind, M_bind. rewrite (redis_exec_healthy _ He).
  rewrite round53_inject by lia. fold c cap key. cbn [w_tick w_redis upd].
  destruct (bucket_script cap _ key _ _) as [[r' [a left]]|err] eqn:E.
  - exists r', a, left. split; [done|]. cbn. by destruct (a =? 1)%Z.
  - unfold bucket_script in E. by destruct (draw _).
Qed.

Lemma script_answer now rnow r r' a left :
  bucket_script cap now key rnow r = Ok (r', (a, left)) -> (a = 0 \/ a = 1)%Z.
Proof.
  unfold bucket_script, draw. destruct (Qle_bool 1 _); intros H; simplify_eq; auto.
Qed.

Lemma allow_many_run n w :
  exists w', allow_many l clientID n e w =
    (Ok (run_calls c key (calls_at e (w_tick w) n) (w_redis w)).1, w') /\
    w_redis w' = (run_calls c key (calls_at e (w_tick w) n) (w_redis w)).2 /\
    w_tick w' = (w_tick w + 2 * n)%nat.
Proof.
  revert w. induction n as [|n IH]; intros w.
  { exists w. cbn. split_and!; [done|done|lia]. }
  destruct (Allow_run w) as (r' & a & left & Hs & Ha). cbn [allow_many calls_at run_calls].
  fold cap. rewrite Hs. unfold mbind at 1, M_bind at 1. rewrite Ha.
  set (w1 := upd w_tick _ _). destruct (IH w1) as (w' & Hm & Hr & Ht).
  change (w_redis w1) with r' in Hm, Hr. change (w_tick w1) with (S (S (w_tick w))) in Hm, Hr, Ht.
  exists w'. destruct (run_calls c key _ r') as [k r2]. cbn [fst snd] in *.
  destruct (script_answer _ _ _ _ _ _ Hs) as [->| ->]; cbn [Z.eqb Pos.eqb];
    unfold mbind, M_bind; rewrite Hm; (split_and!; [done|done|lia]).
Qed.

(** C26. The limiter limits.  However often a client with no bucket yet
    calls, the number of its calls that are allowed is at most the
    capacity, plus the capacity times the minutes between its first and
    its last call, up to a rounding error of 2^-50 of the capacity per
    call.  Expiry of an idle bucket after 120 seconds gives nothing away
    as long as the API's clock does not run backwards and the clock of
    Redis does not gain more than a minute on it between two calls. *)
Theorem rate_bound n w :
  rd_hashes (w_redis w) !! key = None ->
  let calls := calls_at e (w_tick w) (S n) in
  let first := unix_seconds (e_time e (w_tick w)) in
  paced first (e_redisnow e (S (w_tick w))) (tail calls) ->
  exists allowed w', allow_many l clientID (S n) e w = (Ok allowed, w') /\
    inject_Z allowed <= cap + (last_call first calls - first) * (cap / 60) +
                        inject_Z (Z.of_nat (S n)) * (slack * cap).
Proof.
  intros Hr calls first Hp. destruct (allow_many_run (S n) w) as (w' & Hm & _).
  do 2 eexists. split; [exact Hm|].
  pose proof (script_rate_bound c Hc key first (e_redisnow e (S (w_tick w))) (tail calls)
    (w_redis w) Hr Hp) as H.
  assert (Hl : forall t m, length (calls_at e t m) = m)
    by (intros t m; revert t; induction m; intros t; cbn; auto).
  cbn [tail calls calls_at] in H. by rewrite Hl in H.
Qed.

(** The limiter never locks a client out.  After any number of calls,
    allowed or refused, a call 61 seconds after the last one is allowed,
    whatever the capacity and whether or not the bucket has expired
    meanwhile. *)
Theorem never_locked_out n w :
  rd_hashes (w_redis w) !! key = None ->
  let calls := calls_at e (w_tick w) (S n) in
  let first := unix_seconds (e_time e (w_tick w)) in
  paced first (e_redisnow e (S (w_tick w))) (tail calls) ->
  let w' := (allow_many l clientID (S n) e w).2 in
  61 <= unix_seconds (e_time e (w_tick w')) - last_call first calls ->
  (Allow l clientID e w').1 = Ok (true, 0%Z).
Proof.
  intros Hr calls first Hp w' H61. destruct (allow_many_run (S n) w) as (w1 & Hm & Hr1 & Ht1).
  unfold w' in *. rewrite Hm in *. cbn [snd] in *.
  destruct (Allow_run w1) as (r2 & a & left & Hs & ->). cbn [fst].
  pose proof (script_never_locked c Hc key first (e_redisnow e (S (w_tick w))) (tail calls)
    (w_redis w) _ (e_redisnow e (S (w_tick w1))) Hr Hp H61) as (_ & r3 & left3 & Hs').
  rewrite Hr1 in Hs. pose proof (eq_trans (eq_sym Hs) Hs') as E. by injection E as _ -> _.
Qed.
End Limiter.

(** ** Witnesses: two requests per minute, one call every two seconds *)

Definition limiter2 : RateLimiter := NewRateLimiter 2.

Definition env_calls : env :=
  {| e_uuid := N.of_nat; e_time := fun n => (Z.of_nat n * (if Nat.ltb n 6 then 1 else 12) * Second)%Z;
     e_pgnow := fun n => 0%Z; e_redisnow := fun n => (Z.of_nat n * Second)%Z;
     e_outcome := fun _ => Applied; e_others := fun _ d => d; e_redis_others := fun _ r => r;
     e_renewals := fun _ => 0%nat; e_locked := fun _ _ => false; e_rank := fun _ _ => 0%Z;
     e_rows := fun _ => 0%nat |}.

Lemma env_calls_healthy : healthy env_calls.
Proof. by split. Qed.

(** Three calls, two of them allowed. *)
Lemma rate_bound_witness : exists allowed w',
  allow_many limiter2 "c" 3 env_calls empty_world = (Ok allowed, w') /\ allowed = 2%Z /\
  inject_Z allowed <= 2 + (4 - 0) * (2 / 60) + 3 * (slack * 2).
Proof.
  destruct (rate_bound limiter2 ltac:(by vm_compute) "c" env_calls env_calls_healthy 2 empty_world)
    as (allowed & w' & E & H); [by vm_compute..|].
  exists allowed, w'. split; [exact E|]. split; [|exact H].
  vm_compute in E. by injection E.
Defined.

(** Sixty-eight seconds later the client may call again. *)
Lemma never_locked_out_witness :
  (Allow limiter2 "c" env_calls (allow_many limiter2 "c" 3 env_calls empty_world).2).1
    = Ok (true, 0%Z).
Proof.
  apply (never_locked_out limiter2 ltac:(by vm_compute) "c" env_calls env_calls_healthy 2
           empty_world); by vm_compute.
Defined.
