(* ===== verification/Metrics.v ===== *)
(** * Metrics: internal/observability

    The Prometheus implementation of the recorder interface and the HTTP
    instrumentation, down to the calls on the collectors of the client
    library ([collector]), which are logged in the world. *)

From S2P Require Import Prelude GoRuntime Engine Sql Schema Effects Json Dto Repository Auth Service Executor Lock Rfc3339 Registry Http.

Local Open Scope Z_scope.
Local Open Scope go_scope.

(** ** The recorder *)

(** The collectors, by the names they are registered under. *)
Record PrometheusRecorder := mkPrometheusRecorder {
  jobsCreated : string;
  jobsCompleted : string;
  jobsFailed : string;
  jobsDeadLettered : string;
  executionDuration : string;
  workerClaimed : string;
  activeWorkers : string
}.

Definition NewPrometheusRecorder : PrometheusRecorder :=
  {| jobsCreated := "jobs_created_total";
     jobsCompleted := "jobs_completed_total";
     jobsFailed := "jobs_failed_total";
     jobsDeadLettered := "jobs_dead_lettered_total";
     executionDuration := "job_execution_duration_seconds";
     workerClaimed := "worker_claimed_jobs_total";
     activeWorkers := "active_workers" |}.

(** The six methods. *)
Definition prometheus_Recorder (r : PrometheusRecorder) : Recorder := fun m =>
  match m with
  | JobCreated jobType => collect (CInc (jobsCreated r) [jobType])
  | JobCompleted jobType duration =>
      collect (CInc (jobsCompleted r) [jobType]);;
      collect (CObserve (executionDuration r) [jobType] duration)
  | JobFailed jobType => collect (CInc (jobsFailed r) [jobType])
  | JobDeadLettered jobType => collect (CInc (jobsDeadLettered r) [jobType])
  | WorkerClaimed count => collect (CAdd (workerClaimed r) count)
  | SetActiveWorkers count => collect (CSet (activeWorkers r) count)
  end.

(** ** Instrumentation *)

Section Http.
(** [chi.RouteContext(r.Context()).RoutePattern()] once a request has been
    routed. *)
Context (RoutePattern : Request -> string).

(** A panic of [next] passes through, and nothing is recorded. *)
Definition HTTPMiddleware (next : Handler) : Handler := fun r =>
  started ← time_Now;
  resp ← next r;
  let route := RoutePattern r in
  let route := if bool_decide (route = "") then "unmatched" else route in
  collect (CInc "http_requests_total" [rq_Method r; route; Itoa (rs_Status resp)]);;
  elapsed ← time_Since started;
  collect (CObserve "http_request_duration_seconds" [rq_Method r; route] elapsed);;
  mret resp.
End Http.

(** ** What the collectors show *)

(** The value of a counter, and the number of observations of a
    histogram, after a log of calls. *)
Definition counter (name : string) (labels : Datatypes.list string)
    (log : Datatypes.list collector) : Z :=
  foldr (fun c n => match c with
                    | CInc name' labels' =>
                        if bool_decide (name' = name /\ labels' = labels) then 1 + n else n
                    | CAdd name' k => if bool_decide (name' = name /\ labels = []) then k + n else n
                    | _ => n
                    end) 0 log.

Definition observations (name : string) (labels : Datatypes.list string)
    (log : Datatypes.list collector) : Datatypes.list Duration :=
  omap (fun c => match c with
                 | CObserve name' labels' d =>
                     if bool_decide (name' = name /\ labels' = labels) then Some d else None
                 | _ => None
                 end) log.

Definition gauge (name : string) (log : Datatypes.list collector) : option Z :=
  last (omap (fun c => match c with
                       | CSet name' k => if bool_decide (name' = name) then Some k else None
                       | _ => None
                       end) log).

(** The calls a list of recorder calls makes. *)
Definition calls_of (r : PrometheusRecorder) (m : metric) : Datatypes.list collector :=
  match m with
  | JobCreated t => [CInc (jobsCreated r) [t]]
  | JobCompleted t d => [CInc (jobsCompleted r) [t]; CObserve (executionDuration r) [t] d]
  | JobFailed t => [CInc (jobsFailed r) [t]]
  | JobDeadLettered t => [CInc (jobsDeadLettered r) [t]]
  | WorkerClaimed n => [CAdd (workerClaimed r) n]
  | SetActiveWorkers n => [CSet (activeWorkers r) n]
  end.

Fixpoint record_all (rec : Recorder) (ms : Datatypes.list metric) : M unit :=
  match ms with
  | [] => mret tt
  | m :: ms' => rec m;; record_all rec ms'
  end.

Lemma prometheus_log r m e w :
  prometheus_Recorder r m e w = (Ok tt, w <| w_prom := w_prom w ++ calls_of r m |>).
Proof.
  destruct m as [| t d | | | |]; try done. unfold prometheus_Recorder, mbind, M_bind, collect.
  change (calls_of r (JobCompleted t d)) with
    ([CInc (jobsCompleted r) [t]] ++ [CObserve (executionDuration r) [t] d]).
  by rewrite app_assoc.
Qed.

Lemma record_all_log r ms e w :
  record_all (prometheus_Recorder r) ms e w =
  (Ok tt, w <| w_prom := w_prom w ++ (ms ≫= calls_of r) |>).
Proof.
  revert w. induction ms as [|m ms IH]; intros w.
  { cbn. rewrite app_nil_r. by destruct w. }
  change ((prometheus_Recorder r m ≫= fun _ => record_all (prometheus_Recorder r) ms) e w =
    (Ok tt, w <| w_prom := w_prom w ++ (calls_of r m ++ (ms ≫= calls_of r)) |>)).
  unfold mbind at 1, M_bind at 1. rewrite prometheus_log, IH. cbn. by rewrite <- app_assoc.
Qed.

Lemma counter_app name labels l1 l2 :
  counter name labels (l1 ++ l2) = counter name labels l1 + counter name labels l2.
Proof.
  unfold counter. induction l1 as [|c l1 IH]; [done|]. cbn. rewrite IH.
  destruct c; try done; case_bool_decide; lia.
Qed.

Lemma observations_app name labels l1 l2 :
  observations name labels (l1 ++ l2) = observations name labels l1 ++ observations name labels l2.
Proof. apply omap_app. Qed.

(** A property of one call, summed over a list of calls. *)
Lemma counter_calls r name labels (f : metric -> Z) ms :
  (forall m, counter name labels (calls_of r m) = f m) ->
  counter name labels (ms ≫= calls_of r) = foldr (fun m n => f m + n) 0 ms.
Proof.
  intros H. induction ms as [|m ms IH]; [done|].
  rewrite bind_cons, counter_app, H, IH. done.
Qed.

(** The Prometheus series tell what the recorder was told: after any
    calls, starting from empty collectors, the completed counter of a job
    type counts its completions, and its histogram holds exactly their
    durations, in order; the created, failed and dead-letter counters
    count theirs; the claim counter sums the claims; and the gauge shows
    the last number of active workers.  No series picks up another's
    events. *)
Theorem prometheus_faithful ms t e w :
  w_prom w = [] ->
  let r := NewPrometheusRecorder in
  let out := record_all (prometheus_Recorder r) ms e w in
  let log := w_prom out.2 in
  let count (P : metric -> bool) := foldr (fun m n => (if P m then 1 else 0) + n) 0 ms in
  out.1 = Ok tt /\ w_db out.2 = w_db w /\
  counter (jobsCreated r) [t] log =
    count (fun m => match m with JobCreated t' => bool_decide (t' = t) | _ => false end) /\
  counter (jobsCompleted r) [t] log =
    count (fun m => match m with JobCompleted t' _ => bool_decide (t' = t) | _ => false end) /\
  counter (jobsFailed r) [t] log =
    count (fun m => match m with JobFailed t' => bool_decide (t' = t) | _ => false end) /\
  counter (jobsDeadLettered r) [t] log =
    count (fun m => match m with JobDeadLettered t' => bool_decide (t' = t) | _ => false end) /\
  counter (workerClaimed r) [] log =
    foldr (fun m n => (match m with WorkerClaimed k => k | _ => 0 end) + n) 0 ms /\
  observations (executionDuration r) [t] log =
    omap (fun m => match m with
                   | JobCompleted t' d => if bool_decide (t' = t) then Some d else None
                   | _ => None end) ms /\
  gauge (activeWorkers r) log =
    last (omap (fun m => match m with SetActiveWorkers k => Some k | _ => None end) ms).
Proof.
  intros H0. cbv zeta. rewrite record_all_log, H0. cbn [fst snd w_prom w_db upd upd_w_prom app].
  assert (Hlab : forall t', bool_decide (t' = t) = bool_decide ([t'] = [t]))
    by (intros t'; apply bool_decide_ext; split; [by intros ->|by intros [= ->]]).
  split_and!; try done;
    try (apply counter_calls; intros m; destruct m; cbn; rewrite ?Hlab; repeat case_bool_decide;
         naive_solver lia).
  - induction ms as [|m ms IH]; [done|]. rewrite bind_cons, observations_app, IH.
    destruct m; cbn; rewrite ?Hlab; repeat case_bool_decide; naive_solver.
  - unfold gauge. f_equal. induction ms as [|m ms IH]; [done|]. rewrite bind_cons, omap_app, IH.
    destruct m; done.
Qed.

Lemma prometheus_faithful_witness :
  counter "jobs_completed_total" ["CALL_WEBHOOK"]
    (w_prom (record_all (prometheus_Recorder NewPrometheusRecorder)
      [WorkerClaimed 2; JobCompleted "CALL_WEBHOOK" 5; JobFailed "CALL_WEBHOOK"]
      quiet_env empty_world).2) = 1.
Proof.
  destruct (prometheus_faithful [WorkerClaimed 2; JobCompleted "CALL_WEBHOOK" 5;
    JobFailed "CALL_WEBHOOK"] "CALL_WEBHOOK" quiet_env empty_world eq_refl)
    as (_ & _ & _ & H & _). exact H.
Defined.
