(* ===== verification/Server.v ===== *)
(** * The API server: internal/server/server.go

    The router with its middleware (internal/middleware), the health,
    readiness, worker, identity, dashboard and replay endpoints, and CORS.
    What chi decides, which registered pattern a path matches, is the
    parameter [chi_route]; whatever it answers, only registered endpoints
    run, and those under /api/v1 run behind authentication and the rate
    limiter. *)

From S2P Require Import Prelude GoRuntime Strings Engine Sql Schema Effects Json Dto Repository Auth Service Executor Lock Rfc3339 Registry Worker Outbox Http Float RateLimit Metrics.

Local Open Scope Z_scope.
Local Open Scope go_scope.

(** ** Middleware *)

(** [middleware.RequestID]. *)
Definition RequestID_Middleware (next : Handler) : Handler := fun r =>
  let requestID := rq_Header r "X-Request-ID" in
  requestID ← (if bool_decide (requestID = "")
               then id ← uuid_New; mret (uuid_String id)
               else mret requestID);
  resp ← next (r <| rq_RequestID := requestID |>);
  mret (set_header "X-Request-ID" requestID resp).

(** [middleware.Recovery]: a panic becomes a response.  Of the headers
    set before the panic only the request id, set outside, is kept. *)
Definition Recovery (next : Handler) : Handler := fun r =>
  res ← try (next r);
  match res with
  | Ok resp => mret resp
  | Err _ => mret (Error r 500 "INTERNAL_ERROR" "internal server error")
  end.

(** The headers set for an allowed [Origin]. *)
Definition cors_headers (origins : Datatypes.list string) (origin : string) (resp : Response)
    : Response :=
  let allowed : gset string := list_to_set (TrimSpace <$> origins) in
  if bool_decide (origin ∈ allowed) && negb (bool_decide (origin = ""))
  then set_header "Access-Control-Allow-Methods" "GET,POST,OPTIONS"
         (set_header "Access-Control-Allow-Headers" "Content-Type, X-API-Key, Idempotency-Key"
            (set_header "Vary" "Origin"
               (set_header "Access-Control-Allow-Origin" origin resp)))
  else resp.

(** [cors(origins)]. *)
Definition cors (origins : Datatypes.list string) (next : Handler) : Handler := fun r =>
  let headers := cors_headers origins (rq_Header r "Origin") in
  if bool_decide (rq_Method r = "OPTIONS")
  then mret (headers {| rs_Status := 204; rs_Header := ∅; rs_Body := BEmpty |})
  else resp ← next r; mret (headers resp).

(** ** Endpoints *)

Record Options := mkOptions {
  op_Authenticator : string -> M Principal;
  op_AuthEnabled : bool;
  op_RateLimiter : option RateLimiter;
  op_AllowedOrigins : Datatypes.list string;
  op_Outbox : bool;
  op_ReadyChecks : Datatypes.list (M unit)
}.

Definition health : Handler := fun r => mret (JSON r 200 (DStrings [("status", "ok")])).

(** [db.Ping(ctx)]. *)
Definition db_Ping : M unit := pool_exec (fun _ d => Ok (d, tt)).

Fixpoint run_checks (checks : Datatypes.list (M unit)) : M bool :=
  match checks with
  | [] => mret true
  | check :: checks' =>
      res ← try check;
      match res with Err _ => mret false | Ok _ => run_checks checks' end
  end.

Definition ready (opts : Options) : Handler := fun r =>
  res ← try db_Ping;
  match res with
  | Err _ => mret (Error r 503 "DATABASE_UNAVAILABLE" "database is not ready")
  | Ok _ =>
      ok ← run_checks (op_ReadyChecks opts);
      mret (if ok : bool then JSON r 200 (DStrings [("status", "ready")])
            else Error r 503 "DEPENDENCY_UNAVAILABLE" "dependency is not ready")
  end.

Definition workers (registry : Registry) (metrics : Recorder) : Handler := fun r =>
  res ← try (rg_ActiveWorkers registry);
  match res with
  | Err _ => mret (Error r 500 "WORKER_REGISTRY_UNAVAILABLE" "worker registry is unavailable")
  | Ok items =>
      metrics (SetActiveWorkers (Z.of_nat (length items)));;
      mret (JSON r 200 (DWorkers items))
  end.

Definition whoami : Handler := fun r => mret (JSON r 200 (DPrincipal (FromContext (rq_Context r)))).

(** ** The dashboard *)

Definition all_statuses : Datatypes.list Status :=
  [StatusPending; StatusScheduled; StatusRunning; StatusSucceeded; StatusFailed;
   StatusRetryScheduled; StatusDeadLettered; StatusCancelled; StatusPaused].

Definition status_count (tenant : UUID) (s : Status) (d : Db) : Z :=
  Z.of_nat (length (select_where (fun r => bool_decide (jr_tenant_id r = tenant) &&
                                          bool_decide (jr_status r = s)) (jobs d))).

(** The count of the tenant's jobs, [GROUP BY status]: only the statuses
    that occur have a row. *)
Definition status_groups (tenant : UUID) (d : Db) : Datatypes.list (string * Z) :=
  filter (fun g => g.2 <> 0) ((fun s => (status_string s, status_count tenant s d)) <$> all_statuses).

(** [db.Query] and the loop over [rows.Next()]: an error that comes after
    the first answer ends the loop early, and [rows.Err()] is not asked. *)
Definition query_status_counts (tenant : UUID) : M (gmap string Z) := fun e w =>
  match pool_query (fun rank _ d =>
          Ok (order_by (fun g => [rank (N.pos (encode g.1))]) (status_groups tenant d))) e w with
  | (Err err, w1) => (Err err, w1)
  | (Ok rows, w1) =>
      let n := w_tick w1 in
      let rows := match e_outcome e n with
                  | Applied => rows
                  | _ => take (e_rows e n) rows
                  end in
      (Ok (list_to_map rows), w1 <| w_tick := S n |>)
  end.

(** [status='FAILED' AND failed_at>=now()-interval '24 hours']. *)
Definition failed_last_day (tenant : UUID) (now : Time) (a : attempt_row) : bool :=
  bool_decide (ar_tenant_id a = tenant) && bool_decide (ar_status a = AttemptFailed) &&
  match ar_failed_at a with
  | Some t => now - 24 * 3600 * Second <=? t
  | None => false
  end.

Definition count_failures (tenant : UUID) : M Z :=
  pool_query (fun _ now d =>
    Ok (Z.of_nat (length (select_where (failed_last_day tenant now) (job_attempts d))))).

(** [x, _ := m]: the zero value on an error. *)
Definition ignore_error {A} (zero : A) (m : M A) : M A :=
  res ← try m;
  mret match res with Ok a => a | Err _ => zero end.

Definition dashboard (opts : Options) (registry : Registry) : Handler := fun r =>
  let tenant := pr_TenantID (PrincipalOrDefault (rq_Context r)) in
  res ← try (query_status_counts tenant);
  match res with
  | Err _ => mret (Error r 500 "INTERNAL_ERROR" "failed to load summary")
  | Ok counts =>
      items ← ignore_error [] (rg_ActiveWorkers registry);
      failures ← ignore_error 0 (count_failures tenant);
      backlog ← (if op_Outbox opts then ignore_error 0 (Backlog (Some tenant)) else mret 0);
      mret (JSON r 200 (DSummary
        {| ds_StatusCounts := counts; ds_ActiveWorkers := Z.of_nat (length items);
           ds_OutboxBacklog := backlog; ds_FailuresLast24Hour := failures |}))
  end.

(** ** Replay *)

Definition replay (uuid_Parse : string -> option UUID) (opts : Options) : Handler := fun r =>
  if negb (op_Outbox opts)
  then mret (Error r 503 "DEPENDENCY_UNAVAILABLE" "outbox unavailable")
  else match uuid_Parse (rq_URLParam r "eventID") with
       | None => mret (Error r 400 "INVALID_UUID" "eventID must be a UUID")
       | Some id =>
           let tenant := pr_TenantID (PrincipalOrDefault (rq_Context r)) in
           res ← try (Replay tenant id);
           mret match res with
                | Err _ => Error r 404 "NOT_FOUND" "event not found"
                | Ok _ => JSON r 200 (DStrings [("event_id", uuid_String id); ("status", "queued")])
                end
       end.

(** ** The router *)

(** What chi finds for a method and a path: a pattern with the values of
    its parameters, or nothing, inside or outside the mounted sub-router. *)
Inductive routed :=
| Matched (pattern : string) (params : string -> string)
| Unmatched (mounted : bool).

Abbreviation Table := (Datatypes.list (string * string * Handler)).

Definition prefixed (prefix : string) (t : Table) : Table :=
  (fun '(m, p, h) => (m, prefix +:+ p, h)) <$> t.

(** The endpoint registered for a method and a pattern; a star stands for
    [Handle], every method. *)
Definition find_route (method pattern : string) (t : Table) : option Handler :=
  snd <$> head (filter (fun x => (x.1.1 = method \/ x.1.1 = "*") /\ x.1.2 = pattern) t).

Section Server.
Context (json_Decode : Z -> string -> option CreateRequest)
        (uuid_Parse : string -> option UUID)
        (time_Parse : string -> option Time)
        (marshal : CreateRequest -> result string) (Sum256 : string -> string).
Context (chi_route : string -> string -> routed) (RoutePattern : Request -> string)
        (chi_unmatched promhttp : Handler).
Context (service : Service) (registry : Registry) (metrics : Recorder) (opts : Options).

Definition root_table : Table :=
  [("GET", "/health", health);
   ("GET", "/ready", ready opts);
   ("*", "/metrics", promhttp)].

Definition api_table : Table :=
  prefixed "/jobs" (Routes json_Decode uuid_Parse time_Parse marshal Sum256 service) ++
  prefixed "/dead-letter-jobs" (DeadLetterRoutes uuid_Parse) ++
  [("GET", "/workers", workers registry metrics);
   ("GET", "/auth/whoami", whoami);
   ("GET", "/dashboard/summary", dashboard opts registry);
   ("POST", "/events/{eventID}/replay", Require RoleAdmin (replay uuid_Parse opts))].

(** The sub-router of /api/v1: its middleware runs before it routes. *)
Definition api (next : Handler) : Handler :=
  Middleware (op_Authenticator opts) (op_AuthEnabled opts)
    (match op_RateLimiter opts with
     | Some l => limiter_Middleware l next
     | None => next
     end).

Definition dispatch : Handler := fun r =>
  match chi_route (rq_Method r) (rq_Path r) with
  | Unmatched false => chi_unmatched r
  | Unmatched true => api chi_unmatched r
  | Matched pattern params =>
      let r := r <| rq_URLParam := params |> in
      match find_route (rq_Method r) pattern root_table with
      | Some h => h r
      | None =>
          match find_route (rq_Method r) pattern (prefixed "/api/v1" api_table) with
          | Some h => api h r
          | None => chi_unmatched r
          end
      end
  end.

(** [server.New]; [chimiddleware.RealIP] changes only the remote address,
    which no handler reads. *)
Definition New : Handler :=
  RequestID_Middleware (Recovery (HTTPMiddleware RoutePattern (cors (op_AllowedOrigins opts) dispatch))).
End Server.
