(* ===== verification/Isolation.v ===== *)
(** * Tenants do not reach each other

    The write side of tenant isolation: the operations of
    internal/job/service.go and the replay endpoint of
    internal/server/server.go, the one call of the API that rewrites
    events. *)

From S2P Require Import Prelude GoRuntime Strings Engine Sql Schema Effects Json Dto Repository RepositoryFacts Invariant Preservation Auth Service Executor Lock Rfc3339 Registry Worker Scenario Safety Outbox System Finalise Lifecycle Tenancy Http Float RateLimit Metrics Server.

Local Open Scope Z_scope.
Local Open Scope go_scope.

Lemma Replay_scoped tenant id e w :
  (forall n d, e_others e n d = d) ->
  others_untouched tenant (w_db w) (w_db (Replay tenant id e w).2).
Proof.
  intros He. unfold Replay. rewrite M_bind_eq.
  assert (H : others_untouched tenant (w_db w) (w_db (pool_update_events
    (fun k r => bool_decide (vr_tenant_id r = tenant) && bool_decide (k = id)) set_replayed e w).2)).
  { unfold pool_update_events, pool_exec. rewrite He.
    assert (U : others_untouched tenant (w_db w) ((w_db w) <| job_events :=
      (update_where (fun k r => bool_decide (vr_tenant_id r = tenant) && bool_decide (k = id))
         (set_replayed (e_pgnow e (w_tick w))) (job_events (w_db w))).1 |>)).
    { split_and!; try apply same_others_refl. apply same_others_update; [|done].
      intros k v _ Hp. by bool_prop. }
    destruct (update_where _ _ _) as [t n]. destruct (e_outcome e (w_tick w)); cbn in *;
      first [done | apply others_untouched_refl]. }
  destruct (pool_update_events _ _ e w) as [[n|err] w1]; [|exact H]. by case_bool_decide.
Qed.

(** C30. Nothing a tenant does through the API, creating, cancelling,
    pausing, resuming, retrying, requeueing or replaying an event, changes,
    removes or adds a job, an attempt, a dead letter or an event of another
    tenant, whatever faults occur. *)
Theorem writes_are_tenant_scoped marshal Sum256 s uuid_Parse opts r req id e w :
  let ctx := rq_Context r in
  let tenant := pr_TenantID (PrincipalOrDefault ctx) in
  (forall n d, e_others e n d = d) -> (forall m, db_frame (sv_metrics s m)) ->
  db_ok (w_db w) ->
  others_untouched tenant (w_db w)
    (w_db (Service.Create marshal Sum256 s ctx req e w).2) /\
  others_untouched tenant (w_db w) (w_db (Service.Cancel ctx id e w).2) /\
  others_untouched tenant (w_db w) (w_db (Service.Pause ctx id e w).2) /\
  others_untouched tenant (w_db w) (w_db (Service.Resume ctx id e w).2) /\
  others_untouched tenant (w_db w) (w_db (Service.Retry ctx id e w).2) /\
  others_untouched tenant (w_db w) (w_db (Service.RequeueDeadLetter ctx id e w).2) /\
  others_untouched tenant (w_db w) (w_db (Server.replay uuid_Parse opts r e w).2).
Proof.
  cbv zeta. intros He Hm I.
  split_and!; try by apply transition_scoped.
  - by apply service_Create_scoped.
  - by apply service_Requeue_scoped.
  - unfold replay. case_match; [apply others_untouched_refl|].
    case_match; [|apply others_untouched_refl]. rewrite M_bind_eq. unfold try.
    match goal with |- context [Replay ?t ?i e w] =>
      pose proof (Replay_scoped t i e w He); by destruct (Replay t i e w) end.
Qed.

Definition replay_request : Request :=
  {| rq_Method := "POST"; rq_Path := "/api/v1/events/104/replay"; rq_URLParam := fun _ => "104";
     rq_Query := fun _ => ""; rq_Header := fun _ => ""; rq_Body := ""; rq_Context := None;
     rq_RequestID := "r-1" |}.

Definition replay_options : Options :=
  {| op_Authenticator := fun _ => fail ErrNoRows; op_AuthEnabled := false; op_RateLimiter := None;
     op_AllowedOrigins := []; op_Outbox := true; op_ReadyChecks := [] |}.

Lemma writes_are_tenant_scoped_witness :
  others_untouched DefaultTenantID (w_db claimed)
    (w_db (Service.Cancel None 100%N env0 claimed).2) /\
  others_untouched DefaultTenantID (w_db claimed)
    (w_db (Server.replay (fun _ => Some 101%N) replay_options replay_request env0 claimed).2).
Proof.
  pose proof (writes_are_tenant_scoped marshal0 sum0 svc0 (fun _ => Some 101%N) replay_options
    replay_request req0 100%N env0 claimed (fun _ _ => eq_refl) (fun _ _ _ => eq_refl)
    (sk_db _ claimed_ok)) as H.
  exact (conj (proj1 (proj2 H)) (proj2 (proj2 (proj2 (proj2 (proj2 (proj2 H))))))).
Defined.
