(* ===== verification/ServerFacts.v ===== *)
(** * What the API server promises

    The router with all its middleware as one handler: every request is
    answered, a write is authorised and within its rate, CORS opens
    nothing to other origins, and what the dashboard counts. *)

From S2P Require Import Prelude GoRuntime Strings Engine Sql Schema Effects Json Dto Repository RepositoryFacts Auth Service Executor Lock Rfc3339 Registry Worker Scenario AuthFacts Safety Outbox System Idempotency Http HttpFacts Float RateLimit Metrics Server.

Local Open Scope Z_scope.
Local Open Scope go_scope.

(** The value of a call that returned. *)
Definition ok_value {A} (res : result A) : option A :=
  match res with Ok a => Some a | Err _ => None end.

(** ** Routes *)

Lemma find_route_elem method pattern t h :
  find_route method pattern t = Some h ->
  exists m, (m = method \/ m = "*") /\ (m, pattern, h) ∈ t.
Proof.
  unfold find_route. intros ([[m p] h'] & Hh & ->)%fmap_Some.
  assert (Hin : (m, p, h') ∈ filter (fun x : string * string * Handler =>
    (x.1.1 = method \/ x.1.1 = "*") /\ x.1.2 = pattern) t).
  { destruct (filter _ t) as [|x l]; [done|]. injection Hh as ->. apply list_elem_of_here. }
  apply list_elem_of_filter in Hin as [[Hm Hp] Hin]. cbn in *. subst. eauto.
Qed.

Lemma prefixed_elem prefix t m p h :
  (m, p, h) ∈ prefixed prefix t -> exists p', p = prefix +:+ p' /\ (m, p', h) ∈ t.
Proof.
  unfold prefixed. intros ([[m' p'] h'] & [= -> -> ->] & Hin)%list_elem_of_fmap. eauto.
Qed.

Lemma mounted_elem pre1 pre2 t1 t2 m p h :
  (m, p, h) ∈ prefixed pre1 t1 ++ prefixed pre2 t2 -> exists p', (m, p', h) ∈ t1 ++ t2.
Proof.
  intros [(p' & _ & H)%prefixed_elem|(p' & _ & H)%prefixed_elem]%elem_of_app;
    exists p'; apply elem_of_app; auto.
Qed.

(** ** The shell around the endpoints *)

(** Handlers of a library set no request id of theirs. *)
Definition library (h : Handler) : Prop :=
  forall r e w resp, (h r e w).1 = Ok resp -> rs_Header resp !! "X-Request-ID" = None.

(** The same method, path and id; the context and the path parameters may
    differ. *)
Definition same_target (r r' : Request) : Prop :=
  rq_Method r' = rq_Method r /\ rq_Path r' = rq_Path r /\ rq_RequestID r' = rq_RequestID r.

Lemma same_target_refl r : same_target r r.
Proof. done. Qed.

Section Writes.
(** What may be answered beside the API's own answers; it depends on
    nothing but method, path and id of the request, status and body of the
    response. *)
Context (other : Request -> Response -> Prop).
Context (other_request : forall r r' resp, same_target r r' -> other r' resp -> other r resp).
Context (other_response : forall r resp resp', rs_Status resp' = rs_Status resp ->
           rs_Body resp' = rs_Body resp -> other r resp -> other r resp').

(** What a handler writes, unless it panics. *)
Definition writes (r : Request) (m : M Response) : Prop :=
  forall e w resp, (m e w).1 = Ok resp ->
    rs_Header resp !! "X-Request-ID" = None /\ (answer_ok r resp \/ other r resp).

Lemma writes_ret r resp : written r resp -> writes r (mret resp).
Proof. intros [H1 H2] e w resp' [= <-]. auto. Qed.

Lemma writes_bind {A} r (m : M A) k : (forall a, writes r (k a)) -> writes r (m ≫= k).
Proof.
  intros Hk e w resp. unfold mbind, M_bind. destruct (m e w) as [[a|err] w1]; [apply Hk|done].
Qed.

Lemma writes_answers r m : answers r m -> writes r m.
Proof. intros H e w resp Ho. destruct (H e w) as (resp' & Ho' & H1 & H2).
  rewrite Ho' in Ho. injection Ho as ->. auto. Qed.

(** Another request with the same target is answered alike. *)
Lemma writes_same r r' m : same_target r r' -> writes r' m -> writes r m.
Proof.
  intros E H e w resp Ho. destruct (H e w resp Ho) as [H1 [H2|H2]]; (split; [done|]).
  - left. destruct E as (_ & _ & E). unfold answer_ok in *. by rewrite E in H2.
  - right. by eapply other_request.
Qed.
End Writes.

#[local] Hint Resolve writes_ret writes_bind : sched.

Lemma written_set_header key value r resp :
  key <> "X-Request-ID" -> key <> "Content-Type" -> written r resp ->
  written r (set_header key value resp).
Proof.
  intros Hk Hc [H1 (en & Hb & Ht & H)]. split.
  - cbn. by rewrite lookup_union, H1, lookup_singleton_ne.
  - exists en. split; [done|]. split; [|done]. cbn. by rewrite lookup_union_Some_l with (x := "application/json").
Qed.

Ltac writes_error := apply writes_ret; error_answer.

Section Answers.
Context (json_Decode : Z -> string -> option CreateRequest)
        (uuid_Parse : string -> option UUID) (time_Parse : string -> option Time)
        (marshal : CreateRequest -> result string) (Sum256 : string -> string)
        (chi_route : string -> string -> routed) (RoutePattern : Request -> string)
        (chi_unmatched promhttp : Handler)
        (service : Service) (registry : Registry) (metrics : Recorder) (opts : Options).
Context (unmatched_lib : library chi_unmatched) (promhttp_lib : library promhttp).

Abbreviation endpoints := (root_table promhttp opts ++ prefixed "/api/v1"
  (api_table json_Decode uuid_Parse time_Parse marshal Sum256 service registry metrics opts)).

(** No endpoint is registered for what the router found. *)
Definition unrouted (r : Request) : Prop :=
  forall pattern params, chi_route (rq_Method r) (rq_Path r) = Matched pattern params ->
    forall m h, m = rq_Method r \/ m = "*" -> (m, pattern, h) ∉ endpoints.

(** The answers that are not the API's own: of a preflight, of the router
    where there is no endpoint, of the metrics handler at /metrics. *)
Inductive passed_on (r : Request) (resp : Response) : Prop :=
| po_preflight :
    rq_Method r = "OPTIONS" -> rs_Status resp = 204 -> rs_Body resp = BEmpty ->
    passed_on r resp
| po_unmatched r' e w resp0 :
    unrouted r -> same_target r r' -> (chi_unmatched r' e w).1 = Ok resp0 ->
    rs_Status resp = rs_Status resp0 -> rs_Body resp = rs_Body resp0 -> passed_on r resp
| po_metrics params r' e w resp0 :
    chi_route (rq_Method r) (rq_Path r) = Matched "/metrics" params ->
    same_target r r' -> (promhttp r' e w).1 = Ok resp0 ->
    rs_Status resp = rs_Status resp0 -> rs_Body resp = rs_Body resp0 -> passed_on r resp.

Lemma passed_request r r' resp : same_target r r' -> passed_on r' resp -> passed_on r resp.
Proof.
  intros (Em & Ep & Ei) H. unfold same_target in *.
  destruct H as [H1 H2 H3|r1 e w resp0 Hu Ht H1 H2 H3|params r1 e w resp0 Hr Ht H1 H2 H3];
    unfold same_target, unrouted in *; rewrite ?Em, ?Ep, ?Ei in *.
  - by apply po_preflight.
  - by eapply (po_unmatched r resp r1 e w resp0).
  - by eapply (po_metrics r resp params r1 e w resp0).
Qed.

Lemma passed_response r resp resp' :
  rs_Status resp' = rs_Status resp -> rs_Body resp' = rs_Body resp ->
  passed_on r resp -> passed_on r resp'.
Proof.
  intros Es Eb H. destruct H as [H1 H2 H3|r1 e w resp0 Hu Ht H1 H2 H3|params r1 e w resp0 Hr Ht H1 H2 H3].
  - apply po_preflight; congruence.
  - eapply (po_unmatched r resp' r1 e w resp0); try done; congruence.
  - eapply (po_metrics r resp' params r1 e w resp0); try done; congruence.
Qed.

Abbreviation writes := (writes passed_on).
Abbreviation writes_same := (writes_same passed_on passed_request).

Lemma unmatched_writes r : unrouted r -> writes r (chi_unmatched r).
Proof.
  intros Hu e w resp Ho. split; [by eapply unmatched_lib|]. right.
  eapply (po_unmatched r resp r e w resp); [done|apply same_target_refl|done..].
Qed.

Lemma root_table_writes m p h r params :
  chi_route (rq_Method r) (rq_Path r) = Matched p params ->
  (m, p, h) ∈ root_table promhttp opts -> writes r (h r).
Proof.
  intros Hr. unfold root_table. rewrite !elem_of_cons, elem_of_nil.
  intros Hin. repeat destruct Hin as [[= -> -> ->]|Hin]; try done.
  - apply writes_ret, answer_JSON. by left.
  - apply writes_bind. intros [u|err]; [|writes_error]. apply writes_bind. intros [].
    + apply writes_ret, answer_JSON. by left.
    + writes_error.
  - intros e w resp Ho. split; [by eapply promhttp_lib|]. right.
    eapply (po_metrics r resp params r e w resp); [done|apply same_target_refl|done..].
Qed.

Lemma replay_writes r : writes r (replay uuid_Parse opts r).
Proof.
  unfold replay. case_match; [writes_error|]. case_match; [|writes_error].
  apply writes_bind. intros [u|err]; [apply writes_ret, answer_JSON; by left | writes_error].
Qed.

Lemma api_table_writes m p h r :
  (m, p, h) ∈ api_table json_Decode uuid_Parse time_Parse marshal Sum256 service registry
                metrics opts -> writes r (h r).
Proof.
  unfold api_table. rewrite app_assoc, elem_of_app. intros [Hin|Hin].
  { apply mounted_elem in Hin as (p' & Hin). eapply writes_answers, routes_answer, Hin. }
  rewrite !elem_of_cons, elem_of_nil in Hin.
  repeat destruct Hin as [[= -> -> ->]|Hin]; try done.
  - apply writes_bind. intros [items|err]; [|writes_error].
    apply writes_bind. intros _. apply writes_ret, answer_JSON. by left.
  - apply writes_ret, answer_JSON. by left.
  - apply writes_bind. intros [counts|err]; [|writes_error].
    repeat (apply writes_bind; intros ?). apply writes_ret, answer_JSON. by left.
  - unfold Require. repeat case_match; try writes_error. apply replay_writes.
Qed.

Lemma api_writes next r : (forall r', same_target r r' -> writes r (next r')) ->
  writes r (api opts next r).
Proof.
  intros Hn. unfold api. set (next' := match op_RateLimiter opts with Some _ => _ | None => _ end).
  assert (Hn' : forall r', same_target r r' -> writes r (next' r')).
  { intros r' E. unfold next'. destruct (op_RateLimiter opts) as [l|]; [|by apply Hn].
    unfold limiter_Middleware.
    case_match; [|apply (writes_same r r'); [done|]; writes_error].
    apply writes_bind. intros [[[] retry]|err]; [by apply Hn|..]; apply (writes_same r r' _ E).
    - apply writes_ret, written_set_header; [done|done|]. error_answer.
    - writes_error. }
  unfold Middleware. case_match; [by apply Hn'|]. cbv zeta. case_bool_decide; [writes_error|].
  apply writes_bind. intros [pr|err]; [by apply Hn' | writes_error].
Qed.

Abbreviation serve := (dispatch json_Decode uuid_Parse time_Parse marshal Sum256 chi_route
  chi_unmatched promhttp service registry metrics opts).
Abbreviation server := (New json_Decode uuid_Parse time_Parse marshal Sum256 chi_route RoutePattern
  chi_unmatched promhttp service registry metrics opts).

Lemma find_route_none method pattern t m h :
  find_route method pattern t = None -> m = method \/ m = "*" -> (m, pattern, h) ∉ t.
Proof.
  unfold find_route. intros Hn Hm Hin.
  assert (Hf : (m, pattern, h) ∈ filter (fun x : string * string * Handler =>
    (x.1.1 = method \/ x.1.1 = "*") /\ x.1.2 = pattern) t)
    by (by apply list_elem_of_filter).
  destruct (filter _ t); [by apply not_elem_of_nil in Hf|done].
Qed.

Lemma dispatch_writes r : writes r (serve r).
Proof.
  unfold dispatch. destruct (chi_route _ _) as [pattern params|[]] eqn:Er.
  - apply (writes_same _ (r <| rq_URLParam := params |>)); [done|].
    set (r1 := r <| rq_URLParam := params |>). cbv zeta.
    destruct (find_route _ pattern (root_table _ _)) as [h|] eqn:E1.
    { apply find_route_elem in E1 as (m & _ & Hin). by eapply (root_table_writes _ _ _ r1). }
    destruct (find_route _ pattern (prefixed _ _)) as [h|] eqn:E2.
    2:{ apply unmatched_writes. intros p' params' Hp m h Hm. rewrite elem_of_app.
        change (chi_route (rq_Method r) (rq_Path r) = Matched p' params') in Hp.
        rewrite Er in Hp. injection Hp as <- _.
        pose proof (find_route_none _ _ _ m h E1 Hm) as N1.
        pose proof (find_route_none _ _ _ m h E2 Hm) as N2. tauto. }
    apply find_route_elem in E2 as (m & _ & (p' & _ & Hin)%prefixed_elem).
    apply api_writes. intros r' Hr. apply (writes_same _ r'); [done|].
    by eapply api_table_writes.
  - apply api_writes. intros r' Hr. apply (writes_same _ r'); [done|]. apply unmatched_writes.
    intros p' params' Hp. destruct Hr as (Em & Ep & _). rewrite Em, Ep in Hp. congruence.
  - apply unmatched_writes. intros p' params' Hp. congruence.
Qed.

Lemma cors_headers_keep origins origin r resp :
  rs_Header resp !! "X-Request-ID" = None /\ (answer_ok r resp \/ passed_on r resp) ->
  let resp' := cors_headers origins origin resp in
  rs_Header resp' !! "X-Request-ID" = None /\ (answer_ok r resp' \/ passed_on r resp').
Proof.
  intros [H1 [H2|H2]]; unfold cors_headers; cbv zeta; (case_match; [|by auto]).
  - assert (Hw : written r resp) by done.
    match goal with |- rs_Header ?x !! _ = _ /\ _ => assert (Hx : written r x) end.
    { by repeat apply written_set_header. }
    destruct Hx. auto.
  - split; [cbn; by rewrite !lookup_union, H1, !lookup_singleton_ne by done|]. right.
    by eapply passed_response; [..|exact H2].
Qed.

Lemma cors_writes origins next r : writes r (next r) -> writes r (cors origins next r).
Proof.
  intros Hn. unfold cors. cbv zeta. case_bool_decide.
  - intros e w resp [= <-]. apply cors_headers_keep. split; [done|]. right. by apply po_preflight.
  - intros e w resp. unfold mbind, M_bind, mret, M_ret.
    destruct (next r e w) as [[a|err] w1] eqn:E; [|done]. intros [= <-].
    apply cors_headers_keep, (Hn e w). by rewrite E.
Qed.

End Answers.

(** What the shell does to the database. *)
Lemma bind_ret_db {A B} (m : M A) (f : A -> B) e w :
  w_db ((m ≫= fun a => mret (f a)) e w).2 = w_db (m e w).2.
Proof. unfold mbind, M_bind. by destruct (m e w) as [[a|err] w1]. Qed.

Lemma Recovery_db next r e w : w_db (Recovery next r e w).2 = w_db (next r e w).2.
Proof. unfold Recovery, mbind, M_bind, try. by destruct (next r e w) as [[resp|err] w1]. Qed.

Lemma HTTPMiddleware_db RoutePattern next r e w :
  w_db (HTTPMiddleware RoutePattern next r e w).2 =
  w_db (next r e (w <| w_tick := S (w_tick w) |>)).2.
Proof.
  unfold HTTPMiddleware. rewrite time_Now_bind. unfold mbind, M_bind.
  by destruct (next r e _) as [[resp|err] w1].
Qed.

Lemma cors_db origins next r e w :
  w_db (cors origins next r e w).2 = w_db w \/
  w_db (cors origins next r e w).2 = w_db (next r e w).2.
Proof.
  unfold cors. cbv zeta. case_bool_decide; [by left|]. right. unfold mbind, M_bind.
  by destruct (next r e w) as [[resp|err] w1].
Qed.

(** ** Who may write *)

Lemma reads_frame {A} e (m : M A) : db_frame m -> reads e m.
Proof. intros H w. by rewrite H. Qed.

Lemma db_frame_Allow l id : db_frame (Allow l id).
Proof.
  unfold Allow. apply db_frame_bind; [done|]. intros now.
  apply db_frame_bind; [apply db_frame_redis|]. intros [allowed tokens]. by case_match.
Qed.

(** The limiter lets a request through on a token, or answers itself. *)
Lemma limiter_cases l next r pr e w :
  FromContext (rq_Context r) = Some pr ->
  let out := limiter_Middleware l next r e w in
  w_db out.2 = w_db w \/
  exists w1, Allow l (uuid_String (pr_ClientID pr)) e w = (Ok (true, 0), w1) /\
    w_db w1 = w_db w /\ out = next r e w1.
Proof.
  intros Hr. unfold limiter_Middleware. rewrite Hr.
  pose proof (db_frame_Allow l (uuid_String (pr_ClientID pr)) e w) as Hf.
  cbv zeta. unfold mbind at 1 2, M_bind at 1 2, try.
  destruct (Allow _ _ e w) as [[[[] retry]|err] w1] eqn:EA; cbn in Hf |- *; [|by left|by left].
  right. exists w1. split_and!; [|done|done]. f_equal. f_equal. f_equal.
  unfold Allow in EA. apply M_bind_ok in EA as (now & w2 & _ & EA).
  apply M_bind_ok in EA as (x & w3 & _ & EA). destruct (x.1 =? 1); [by injection EA|discriminate].
Qed.

Lemma run_checks_frame checks :
  (forall check, check ∈ checks -> db_frame check) -> db_frame (run_checks checks).
Proof.
  induction checks as [|c cs IH]; intros H; [apply db_frame_ret|]. cbn.
  apply db_frame_bind; [apply db_frame_try, H; set_solver|].
  intros [u|err]; [apply IH; set_solver | apply db_frame_ret].
Qed.

Section Writes.
Context (e : env) (alone : forall n d, e_others e n d = d).
Context (json_Decode : Z -> string -> option CreateRequest)
        (uuid_Parse : string -> option UUID) (time_Parse : string -> option Time)
        (marshal : CreateRequest -> result string) (Sum256 : string -> string)
        (chi_route : string -> string -> routed) (RoutePattern : Request -> string)
        (chi_unmatched promhttp : Handler)
        (service : Service) (registry : Registry) (metrics : Recorder) (opts : Options).
Context (unmatched_frame : forall r, db_frame (chi_unmatched r))
        (promhttp_frame : forall r, db_frame (promhttp r))
        (checks_frame : forall check, check ∈ op_ReadyChecks opts -> db_frame check).
Context `{!RegistryLaws registry, !RecorderLaws metrics}.

Abbreviation serve := (dispatch json_Decode uuid_Parse time_Parse marshal Sum256 chi_route
  chi_unmatched promhttp service registry metrics opts).
Abbreviation server := (New json_Decode uuid_Parse time_Parse marshal Sum256 chi_route RoutePattern
  chi_unmatched promhttp service registry metrics opts).

Definition replay_pattern : string := "/api/v1/events/{eventID}/replay".

Lemma root_table_reads m p h r : (m, p, h) ∈ root_table promhttp opts -> reads e (h r).
Proof.
  unfold root_table. rewrite !elem_of_cons, elem_of_nil.
  intros Hin. repeat destruct Hin as [[= -> -> ->]|Hin]; try done.
  - unfold ready. apply reads_bind; [apply reads_try|].
    { intros w. unfold db_Ping, pool_exec. rewrite alone. by repeat case_match. }
    intros [u|err]; [|apply reads_ret].
    apply reads_bind; [by apply reads_frame, run_checks_frame | intros b; apply reads_ret].
  - by apply reads_frame.
Qed.

Lemma query_status_counts_reads tenant : reads e (query_status_counts tenant).
Proof.
  intros w. unfold query_status_counts.
  match goal with |- context [pool_query ?f e w] =>
    pose proof (reads_query e alone f w) as H; destruct (pool_query f e w) as [[rows|err] w1] end;
    done.
Qed.

Lemma ignore_error_reads {A} (zero : A) m : reads e m -> reads e (ignore_error zero m).
Proof. intros H. apply reads_bind; [by apply reads_try|]. intros x. apply reads_ret. Qed.

Lemma dashboard_reads r : reads e (dashboard opts registry r).
Proof.
  unfold dashboard. cbv zeta.
  apply reads_bind; [apply reads_try, query_status_counts_reads|].
  intros [counts|err]; [|apply reads_ret].
  apply reads_bind; [apply ignore_error_reads, reads_frame, active_frame|]. intros items.
  apply reads_bind; [apply ignore_error_reads, reads_query, alone|]. intros failures.
  apply reads_bind; [|intros backlog; apply reads_ret].
  case_match; [apply ignore_error_reads, reads_query, alone | apply reads_ret].
Qed.

(** An endpoint of the API only reads, or it is a POST and asks for a
    role first. *)
Lemma api_table_guarded m p h :
  (m, p, h) ∈ api_table json_Decode uuid_Parse time_Parse marshal Sum256 service registry
                metrics opts ->
  (forall r, reads e (h r)) \/
  (m = "POST" /\ exists role h', h = Require role h' /\ role <> RoleViewer /\
     ("/api/v1" +:+ p = replay_pattern -> role = RoleAdmin)).
Proof.
  unfold api_table. rewrite app_assoc, elem_of_app. intros [Hin|Hin].
  { assert (Hp : "/api/v1" +:+ p <> replay_pattern).
    { apply elem_of_app in Hin as [(p' & -> & _)%prefixed_elem|(p' & -> & _)%prefixed_elem];
        discriminate. }
    apply mounted_elem in Hin as (p' & Hin).
    eapply routes_guarded in Hin as [H|[-> [h' ->]]]; [by left| |exact alone].
    right. split; [done|]. exists RoleOperator, h'. by split_and!. }
  rewrite !elem_of_cons, elem_of_nil in Hin.
  repeat destruct Hin as [[= -> -> ->]|Hin]; try done.
  - left. intros r. unfold workers. apply reads_bind; [apply reads_try, reads_frame, active_frame|].
    intros [items|err]; [|apply reads_ret].
    apply reads_bind; [apply reads_frame, recorder_frame | intros ?; apply reads_ret].
  - left. intros r. apply reads_ret.
  - left. apply dashboard_reads.
  - right. split; [done|]. by exists RoleAdmin, (replay uuid_Parse opts).
Qed.

(** What it takes to write. *)
Definition authorised (d : Db) (r : Request) : Prop :=
  rq_Method r = "POST" /\ exists c, key_of Sum256 d r c /\ cr_role c <> RoleViewer /\
    (forall params, chi_route (rq_Method r) (rq_Path r) = Matched replay_pattern params ->
       cr_role c = RoleAdmin) /\
    (forall l, op_RateLimiter opts = Some l ->
       exists w1 w2, Allow l (uuid_String (cr_id c)) e w1 = (Ok (true, 0), w2)).

Context (enabled : op_AuthEnabled opts = true)
        (authenticator : op_Authenticator opts = Authenticate Sum256).

(** Past authentication and the limiter, as the key's client. *)
Lemma api_cases next r w :
  clients_ok (w_db w) ->
  let out := api opts next r e w in
  same_jobs (w_db w) (w_db out.2) \/
  exists c slug w1, key_of Sum256 (w_db w) r c /\ same_jobs (w_db w) (w_db w1) /\
    (forall l, op_RateLimiter opts = Some l ->
       exists w1 w2, Allow l (uuid_String (cr_id c)) e w1 = (Ok (true, 0), w2)) /\
    out = next (WithContext r (WithPrincipal (rq_Context r) (principal_of c slug))) e w1.
Proof.
  intros I. unfold api. rewrite enabled, authenticator. cbv zeta.
  edestruct (Middleware_cases e alone Sum256) as [H|(c & slug & w1 & Hk & H1 & ->)]; [done|by left|].
  destruct (op_RateLimiter opts) as [l|]; [|right; by exists c, slug, w1].
  destruct (limiter_cases l next (WithContext r (WithPrincipal (rq_Context r)
    (principal_of c slug))) (principal_of c slug) e w1 eq_refl) as [->|(w2 & HA & Hd & ->)];
    [by left|].
  right. exists c, slug, w2. split_and!; [done|by rewrite Hd| |done].
  intros l' [= <-]. by exists w1, w2.
Qed.

Lemma dispatch_guarded r w :
  clients_ok (w_db w) ->
  same_jobs (w_db w) (w_db (serve r e w).2) \/ authorised (w_db w) r.
Proof.
  intros I. unfold dispatch. destruct (chi_route _ _) as [pattern params|[]] eqn:Er.
  - cbv zeta. set (r1 := r <| rq_URLParam := params |>).
    destruct (find_route _ pattern (root_table _ _)) as [h|] eqn:E1.
    { apply find_route_elem in E1 as (m & _ & Hin). left. by eapply root_table_reads. }
    destruct (find_route _ pattern (prefixed _ _)) as [h|] eqn:E2;
      [|left; by rewrite unmatched_frame].
    apply find_route_elem in E2 as (m & Hm & (p' & -> & Hin)%prefixed_elem).
    destruct (api_cases h r1 w I) as [H|(c & slug & w1 & Hk & H1 & Hl & ->)]; [by left|].
    destruct (api_table_guarded _ _ _ Hin) as [Hr|(-> & role & h' & -> & Hv & Ha)].
    { left. etrans; [done|]. apply Hr. }
    destruct (Require_cases e role h' (WithContext r1 (WithPrincipal (rq_Context r1)
      (principal_of c slug))) c slug w1 eq_refl) as [->|[Hal _]]; [by left|].
    right. unfold Allows in Hal. cbn in Hal. split; [by destruct Hm|].
    exists c. split_and!; [done| | |done].
    + intros Hc. rewrite Hc in Hal. by destruct role.
    + intros params'. rewrite Er. intros HM.
      assert (Hp : "/api/v1" +:+ p' = replay_pattern) by exact (f_equal (fun x =>
        match x with Matched p _ => p | _ => "" end) HM).
      rewrite (Ha Hp) in Hal.
      by destruct (cr_role c).
  - destruct (api_cases chi_unmatched r w I) as [H|(c & slug & w1 & _ & H1 & _ & ->)]; [by left|].
    left. by rewrite unmatched_frame.
  - left. by rewrite unmatched_frame.
Qed.

Lemma server_guarded r w :
  clients_ok (w_db w) ->
  same_jobs (w_db w) (w_db (server r e w).2) \/ authorised (w_db w) r.
Proof.
  intros I. unfold New, RequestID_Middleware.
  set (inner := Recovery _). cbv zeta.
  assert (Hi : forall id w, clients_ok (w_db w) ->
    same_jobs (w_db w) (w_db (inner (r <| rq_RequestID := id |>) e w).2) \/
    authorised (w_db w) r).
  { clear w I. intros rid w I. unfold inner. rewrite Recovery_db, HTTPMiddleware_db.
    set (w1 := w <| w_tick := S (w_tick w) |>).
    destruct (cors_db (op_AllowedOrigins opts) serve (r <| rq_RequestID := rid |>) e w1)
      as [->| ->]; [by left|]. exact (dispatch_guarded (r <| rq_RequestID := rid |>) w1 I). }
  case_bool_decide.
  - rewrite M_bind_assoc, uuid_New_bind, M_ret_bind, bind_ret_db. set (w1 := w <| w_tick := S (w_tick w) |>). exact (Hi _ w1 I).
  - rewrite M_ret_bind, bind_ret_db. by apply Hi.
Qed.

(** C25. Who may change jobs: with authentication on, a request to the
    server that changed a job, an attempt, a dead letter or an event was
    a POST with the key of a client in service, in the operator or admin
    role (admin to replay an event), and that client's token bucket, if
    rates are limited, had given it a token.  Every other request, to
    whatever path, leaves all of them as they were, whatever faults and
    panics occur. *)
Theorem writes_are_authorised r w :
  clients_ok (w_db w) ->
  same_jobs (w_db w) (w_db (server r e w).2) \/ authorised (w_db w) r.
Proof. apply server_guarded. Qed.
End Writes.

(** ** Cross-origin requests *)

(** CORS: a response names an allowed origin only if the request's
    Origin is, after trimming, one of the configured ones, and then it
    names exactly that origin, never a wildcard; a preflight is answered
    with 204 without reaching any endpoint, and any other response keeps
    the status and body the endpoint gave it. *)
Theorem cors_spec origins next r e w :
  (forall resp w', next r e w = (Ok resp, w') ->
     rs_Header resp !! "Access-Control-Allow-Origin" = None) ->
  let origin := rq_Header r "Origin" in
  let out := cors origins next r e w in
  (rq_Method r = "OPTIONS" -> out.2 = w /\ rs_Status <$> ok_value out.1 = Some 204) /\
  (rq_Method r <> "OPTIONS" ->
     out.2 = (next r e w).2 /\
     rs_Status <$> ok_value out.1 = rs_Status <$> ok_value (next r e w).1 /\
     rs_Body <$> ok_value out.1 = rs_Body <$> ok_value (next r e w).1) /\
  forall resp o, out.1 = Ok resp ->
    (rs_Header resp !! "Access-Control-Allow-Origin" = Some o <->
     o = origin /\ origin <> "" /\ exists c, c ∈ origins /\ TrimSpace c = origin).
Proof.
  intros Hn origin out.
  assert (Hh : forall resp o, rs_Header resp !! "Access-Control-Allow-Origin" = None ->
    rs_Header (cors_headers origins origin resp) !! "Access-Control-Allow-Origin" = Some o <->
    o = origin /\ origin <> "" /\ exists c, c ∈ origins /\ TrimSpace c = origin).
  { intros resp o H0. unfold cors_headers. cbv zeta.
    assert (Hin : origin ∈ (list_to_set (TrimSpace <$> origins) : gset string) <->
      exists c, c ∈ origins /\ TrimSpace c = origin)
      by (rewrite elem_of_list_to_set, list_elem_of_fmap; naive_solver).
    rewrite <- Hin. case_bool_decide as H1; case_bool_decide as H2; cbn; try (rewrite H0; naive_solver).
    rewrite !lookup_union, H0, lookup_singleton_eq, !lookup_singleton_ne by done. cbn. naive_solver. }
  assert (Hk : forall resp, rs_Status (cors_headers origins origin resp) = rs_Status resp /\
    rs_Body (cors_headers origins origin resp) = rs_Body resp).
  { intros resp. unfold cors_headers. cbv zeta. by case_match. }
  unfold out, cors, mbind, M_bind. cbv zeta. fold origin. case_bool_decide.
  - split_and!; [|done|].
    + intros _. cbn. by rewrite (proj1 (Hk _)).
    + intros resp o [= <-]. by apply Hh.
  - split_and!; [done| |].
    + intros _. destruct (next r e w) as [[resp|err] w1]; cbn; [|done].
      by destruct (Hk resp) as [-> ->].
    + intros resp' o. destruct (next r e w) as [[resp|err] w1] eqn:E; [|done].
      intros [= <-]. apply Hh. by eapply Hn.
Qed.

(** ** Readiness *)

(** Ready means: the database answered, and every check after it. *)
Lemma run_checks_all checks e w w' :
  run_checks checks e w = (Ok true, w') ->
  forall check, check ∈ checks -> exists w1 w2 u, check e w1 = (Ok u, w2).
Proof.
  revert w. induction checks as [|c cs IH]; intros w; [set_solver|].
  cbn. unfold mbind, M_bind, try. destruct (c e w) as [[u|err] w1] eqn:E; [|done].
  intros H check [->|Hin]%elem_of_cons; [by exists w, w1, u|]. by eapply IH.
Qed.

Lemma ready_sound opts r e w resp w' :
  ready opts r e w = (Ok resp, w') -> rs_Status resp = 200 ->
  e_outcome e (w_tick w) = Applied /\
  forall check, check ∈ op_ReadyChecks opts -> exists w1 w2 u, check e w1 = (Ok u, w2).
Proof.
  unfold ready. intros H H200. unfold mbind at 1, M_bind at 1, try in H.
  destruct (db_Ping e w) as [[u|err] w1] eqn:Ep; [|by injection H as <- _].
  apply M_bind_ok in H as (ok & w2 & Hc & H). injection H as <- ->. destruct ok; [|done].
  split; [|by eapply run_checks_all].
  unfold db_Ping, pool_exec in Ep. by destruct (e_outcome e (w_tick w)).
Qed.

(** ** The dashboard *)

Lemma status_groups_elem tenant d x n :
  (x, n) ∈ status_groups tenant d <->
  n <> 0 /\ exists s, x = status_string s /\ n = status_count tenant s d.
Proof.
  unfold status_groups. rewrite list_elem_of_filter, list_elem_of_fmap. cbn [snd]. split.
  - intros [Hn (s & [= -> ->] & _)]. eauto.
  - intros [Hn (s & -> & ->)]. split; [done|]. exists s. split; [done|].
    destruct s; repeat (apply list_elem_of_here || apply list_elem_of_further).
Qed.

Lemma status_groups_nodup tenant d : NoDup (status_groups tenant d).*1.
Proof.
  eapply sublist_NoDup; [|apply fmap_sublist, sublist_filter].
  rewrite <- list_fmap_compose.
  by refine (bool_decide_unpack (NoDup (status_string <$> all_statuses)) _).
Qed.

(** The map the loop over the rows builds, in whatever order they come. *)
Lemma status_counts_lookup tenant d rows s :
  rows ≡ₚ status_groups tenant d ->
  (list_to_map rows : gmap string Z) !! status_string s =
  (if bool_decide (status_count tenant s d = 0) then None else Some (status_count tenant s d)).
Proof.
  intros Hp. assert (Hn : NoDup rows.*1) by (rewrite Hp; apply status_groups_nodup).
  assert (Hin : forall n, (status_string s, n) ∈ rows <-> n <> 0 /\ n = status_count tenant s d).
  { intros n. rewrite Hp, status_groups_elem. split; [|naive_solver].
    intros [H (s' & ->%status_string_inj & ->)]. done. }
  case_bool_decide as Hz.
  - apply not_elem_of_list_to_map_1. intros ([x n] & Hx & Hr)%list_elem_of_fmap. cbn in Hx. subst x.
    apply Hin in Hr. lia.
  - apply elem_of_list_to_map_1; [done|]. by apply Hin.
Qed.

(** Every job of the tenant is counted under one status. *)
Lemma status_counts_total tenant d :
  foldr Z.add 0 ((fun s => status_count tenant s d) <$> all_statuses) =
  Z.of_nat (size (filter (fun kv : UUID * job_row => jr_tenant_id kv.2 = tenant) (jobs d))).
Proof.
  assert (H : forall rows : Datatypes.list job_row,
    foldr Z.add 0 ((fun s => Z.of_nat (length (filter (fun r =>
      bool_decide (jr_tenant_id r = tenant) && bool_decide (jr_status r = s) = true) rows)))
      <$> all_statuses) =
    Z.of_nat (length (filter (fun r => bool_decide (jr_tenant_id r = tenant) = true) rows))).
  { induction rows as [|r rows IH]; [done|]. cbn [fmap list_fmap all_statuses foldr] in *.
    rewrite !filter_cons.
    destruct (bool_decide (jr_tenant_id r = tenant)); cbn [andb];
      destruct (jr_status r); repeat (case_decide; try done);
      cbn [length] in *; lia. }
  specialize (H (snd <$> map_to_list (jobs d))).
  unfold status_count, select_where in *. rewrite H.
  pose proof (length_select_where (fun r => bool_decide (jr_tenant_id r = tenant)) (jobs d)) as Hl.
  unfold select_where in Hl. rewrite Hl. do 2 f_equal. apply map_filter_ext.
  intros k r _. cbn. apply bool_decide_eq_true.
Qed.

(** The rows of a table that satisfy a predicate, counted. *)
Definition count_rows {V} (P : V -> Prop) `{!forall v, Decision (P v)} (t : gmap UUID V) : Z :=
  Z.of_nat (size (filter (fun kv => P kv.2) t)).

Lemma count_rows_select {V} (P : V -> Prop) `{!forall v, Decision (P v)} (f : V -> bool) t :
  (forall v, f v = true <-> P v) -> Z.of_nat (length (select_where f t)) = count_rows P t.
Proof.
  intros Hf. unfold count_rows. rewrite length_select_where. do 2 f_equal.
  apply map_filter_ext. intros k v _. apply Hf.
Qed.

Lemma ignore_error_ok {A} (zero : A) m e w :
  ignore_error zero m e w = (Ok (default zero (ok_value (m e w).1)), (m e w).2).
Proof. unfold ignore_error, mbind, M_bind, try. by destruct (m e w) as [[a|err] w1]. Qed.

(** A failed attempt of the tenant since [t]. *)
Definition failed_since (tenant : UUID) (t : Time) (a : attempt_row) : Prop :=
  ar_tenant_id a = tenant /\ ar_status a = AttemptFailed /\
  match ar_failed_at a with Some t' => t <= t' | None => False end.

#[export] Instance failed_since_dec tenant t a : Decision (failed_since tenant t a).
Proof. unfold failed_since. destruct (ar_failed_at a); apply _. Defined.

Lemma query_status_counts_healthy tenant e w :
  healthy e -> exists rows, rows ≡ₚ status_groups tenant (w_db w) /\
    query_status_counts tenant e w = (Ok (list_to_map rows), w <| w_tick := S (S (w_tick w)) |>).
Proof.
  intros H. unfold query_status_counts. rewrite (pool_query_healthy e H).
  eexists. split; [|rewrite (h_outcome _ H); reflexivity]. apply order_by_perm.
Qed.

(** The dashboard is exact while the dependencies answer: the summary
    has, for every status, the number of the caller's tenant's jobs in it
    (no entry when there is none, and no other entry), which add up to all
    jobs of the tenant; the number of live workers; the attempts of the
    tenant that failed in the last 24 hours of the database's clock; and
    the tenant's unpublished events.  Rows of other tenants count nowhere. *)
Theorem dashboard_exact opts registry r e w items :
  healthy e -> RegistryLaws registry ->
  (forall w, (rg_ActiveWorkers registry e w).1 = Ok items) ->
  let tenant := pr_TenantID (PrincipalOrDefault (rq_Context r)) in
  let d := w_db w in
  exists s w' n,
    dashboard opts registry r e w = (Ok (JSON r 200 (DSummary s)), w') /\ w_db w' = d /\
    (forall st n, ds_StatusCounts s !! status_string st = Some n <-> n <> 0 /\
       n = count_rows (fun j => jr_tenant_id j = tenant /\ jr_status j = st) (jobs d)) /\
    (forall x n, ds_StatusCounts s !! x = Some n -> exists st, x = status_string st) /\
    foldr Z.add 0 ((fun st => default 0 (ds_StatusCounts s !! status_string st)) <$> all_statuses) =
      count_rows (fun j => jr_tenant_id j = tenant) (jobs d) /\
    ds_ActiveWorkers s = Z.of_nat (length items) /\
    ds_FailuresLast24Hour s =
      count_rows (failed_since tenant (e_pgnow e n - 24 * 3600 * Second)) (job_attempts d) /\
    ds_OutboxBacklog s = (if op_Outbox opts
      then count_rows (fun v => vr_tenant_id v = tenant /\ vr_published_at v = None) (job_events d)
      else 0).
Proof.
  intros H R Hreg tenant d. unfold dashboard. fold tenant. cbv zeta.
  destruct (query_status_counts_healthy tenant e w H) as (rows & Hp & Hq). fold d in Hp.
  unfold mbind at 1, M_bind at 1, try. rewrite Hq.
  set (w1 := w <| w_tick := S (S (w_tick w)) |>).
  pose proof (Hreg w1) as Hi. pose proof (active_frame e w1) as Hd. change (w_db w1) with d in Hd.
  unfold mbind at 1, M_bind at 1. rewrite ignore_error_ok.
  destruct (rg_ActiveWorkers registry e w1) as [res w2]. cbn [fst snd] in Hi, Hd |- *. subst res.
  cbn [ok_value default]. unfold mbind at 1, M_bind at 1. rewrite ignore_error_ok.
  unfold count_failures. rewrite (pool_query_healthy e H). cbn [fst snd ok_value default].
  set (w3 := w2 <| w_tick := S (w_tick w2) |>).
  set (failures := Z.of_nat _).
  assert (Hb : exists w4, (if op_Outbox opts then ignore_error 0 (Backlog (Some tenant)) else mret 0)
    e w3 = (Ok (if op_Outbox opts then count_rows (fun v => vr_tenant_id v = tenant /\
      vr_published_at v = None) (job_events d) else 0), w4) /\ w_db w4 = d).
  { destruct (op_Outbox opts); [|by exists w3]. rewrite ignore_error_ok.
    unfold Backlog. rewrite (pool_query_healthy e H). eexists. cbn [fst snd ok_value default].
    change (w_db w3) with (w_db w2). rewrite Hd.
    split; [apply f_equal2; [apply f_equal|reflexivity]|exact Hd].
    apply count_rows_select. intros v. rewrite andb_true_iff, !bool_decide_eq_true. done. }
  destruct Hb as (w4 & Hb & Hd4). unfold mbind, M_bind. rewrite Hb.
  eexists _, w4, (w_tick w2). split; [reflexivity|]. split; [done|].
  cbn [ds_StatusCounts ds_ActiveWorkers ds_FailuresLast24Hour ds_OutboxBacklog].
  assert (Hc : forall st, status_count tenant st d =
    count_rows (fun j => jr_tenant_id j = tenant /\ jr_status j = st) (jobs d)).
  { intros st. apply count_rows_select. intros j.
    by rewrite andb_true_iff, !bool_decide_eq_true. }
  split_and!; try done.
  - intros st n. rewrite (status_counts_lookup tenant d rows st Hp), Hc. case_bool_decide; naive_solver.
  - intros x n Hx. apply elem_of_list_to_map_2 in Hx. rewrite Hp, status_groups_elem in Hx.
    naive_solver.
  - etrans; [|apply status_counts_total]. f_equal. apply list_fmap_ext. intros i st _.
    rewrite (status_counts_lookup tenant d rows st Hp). by case_bool_decide.
  - unfold failures. rewrite Hd. apply count_rows_select. intros a.
    unfold failed_last_day, failed_since. rewrite !andb_true_iff, !bool_decide_eq_true.
    destruct (ar_failed_at a); rewrite ?Z.leb_le; naive_solver.
Qed.

Lemma pool_query_rejected {A} (f : (UUID -> Z) -> Time -> Db -> result A) e w ft :
  e_outcome e (w_tick w) = Rejected ft ->
  pool_query f e w = (Err (fault_error ft),
    w <| w_db := e_others e (w_tick w) (w_db w) |> <| w_tick := S (w_tick w) |>).
Proof. intros Ho. unfold pool_query, pool_exec. by rewrite Ho. Qed.

(** An outage is not visible in the dashboard: if the database accepts
    the first query and then every dependency is lost, the endpoint still
    answers 200, with a summary of no workers, no failures, no backlog and
    only the status counts that had arrived, none if none had. *)
Theorem dashboard_hides_outage opts general r e w ft :
  e_outcome e (w_tick w) = Applied ->
  (forall n, (w_tick w < n)%nat -> e_outcome e n = Rejected ft) ->
  exists s w',
    dashboard opts (RedisRegistry general) r e w = (Ok (JSON r 200 (DSummary s)), w') /\
    ds_ActiveWorkers s = 0 /\ ds_FailuresLast24Hour s = 0 /\ ds_OutboxBacklog s = 0 /\
    (e_rows e (S (w_tick w)) = 0%nat -> ds_StatusCounts s = ∅).
Proof.
  intros Ho Hlost. unfold dashboard. cbv zeta. set (tenant := pr_TenantID _).
  assert (Hq : exists counts w1, query_status_counts tenant e w = (Ok counts, w1) /\
    w_tick w1 = S (S (w_tick w)) /\ (e_rows e (S (w_tick w)) = 0%nat -> counts = ∅)).
  { unfold query_status_counts, pool_query, pool_exec. rewrite Ho.
    eexists _, _. split; [reflexivity|]. split; [done|]. intros Hr. cbn [w_tick upd upd_w_tick upd_w_db].
    rewrite Hlost by lia. by rewrite Hr. }
  destruct Hq as (counts & w1 & Hq & Ht & Hr).
  unfold mbind at 1, M_bind at 1, try. rewrite Hq.
  unfold mbind at 1, M_bind at 1. rewrite ignore_error_ok.
  assert (Ha : exists w2, ActiveWorkers general e w1 = (Err (fault_error ft), w2) /\
    (w_tick w < w_tick w2)%nat).
  { unfold ActiveWorkers, SMembers, redis_exec, mbind, M_bind.
    rewrite Hlost by lia. eexists. split; [reflexivity|]. cbn. lia. }
  destruct Ha as (w2 & Ha & Ht2). cbn [rg_ActiveWorkers RedisRegistry]. rewrite Ha.
  cbn [fst snd ok_value default]. unfold mbind at 1, M_bind at 1. rewrite ignore_error_ok.
  unfold count_failures. rewrite (pool_query_rejected _ e w2 ft) by by apply Hlost.
  set (w3 := w2 <| w_db := _ |> <| w_tick := _ |>). cbn [fst snd ok_value default].
  assert (Ht3 : w_tick w3 = S (w_tick w2)) by done. clearbody w3.
  unfold mbind, M_bind. destruct (op_Outbox opts).
  - rewrite ignore_error_ok. unfold Backlog.
    rewrite (pool_query_rejected _ e w3 ft) by (apply Hlost; lia).
    eexists _, _. split; [reflexivity|]. by split_and!.
  - eexists _, _. split; [reflexivity|]. by split_and!.
Qed.

(** ** Witnesses *)

Definition route0 (method path : string) : routed :=
  if bool_decide (path = "/api/v1/jobs") then Matched "/api/v1/jobs/" (fun _ => "")
  else Unmatched (String.prefix "/api/v1/" path).

Definition unmatched0 : Handler := fun _ =>
  mret {| rs_Status := 404; rs_Header := {[ "Content-Type" := "text/plain" ]};
          rs_Body := BText "404 page not found" |}.

Definition options0 : Options :=
  {| op_Authenticator := Authenticate sum0; op_AuthEnabled := true;
     op_RateLimiter := Some (NewRateLimiter 120); op_AllowedOrigins := [" http://localhost:3000"];
     op_Outbox := true; op_ReadyChecks := [] |}.

Definition general0 (s : string) : option Time := None.

Definition server0 : Handler :=
  New decode0 parse0 time0 marshal0 sum0 route0 rq_Path unmatched0 unmatched0 svc0
    (RedisRegistry general0) (prometheus_Recorder NewPrometheusRecorder) options0.

Lemma unmatched0_library : library unmatched0.
Proof. by intros r e w resp [= <-]. Qed.

#[export] Instance prometheus_laws : RecorderLaws (prometheus_Recorder NewPrometheusRecorder).
Proof. split; intros; by rewrite ?prometheus_log || (intros e w; by rewrite prometheus_log). Qed.

(** A wrong key gets 401, the operator's key creates the job and counts
    the request. *)
Example server_creates :
  let bad := server0 (request0 <| rq_RequestID := "" |>) env0 world0 in
  let out := server0 request0 env0 client0.2 in
  (rs_Status <$> ok_value bad.1) = Some 401 /\ size (jobs (w_db bad.2)) = 0%nat /\
  (rs_Status <$> ok_value out.1) = Some 201 /\ size (jobs (w_db out.2)) = 1%nat /\
  counter "http_requests_total" ["POST"; "/api/v1/jobs"; "201"] (w_prom out.2) = 1.
Proof. vm_compute. by split_and!. Qed.


Lemma writes_are_authorised_witness :
  ~ same_jobs (w_db client0.2) (w_db (server0 request0 env0 client0.2).2) /\
  authorised env0 sum0 route0 options0 (w_db client0.2) request0.
Proof.
  assert (Hn : ~ same_jobs (w_db client0.2) (w_db (server0 request0 env0 client0.2).2)).
  { intros (H & _). apply (f_equal size) in H. by vm_compute in H. }
  split; [exact Hn|].
  destruct (writes_are_authorised env0 (fun _ _ => eq_refl) decode0 parse0 time0 marshal0 sum0
    route0 rq_Path unmatched0 unmatched0 svc0 (RedisRegistry general0)
    (prometheus_Recorder NewPrometheusRecorder) options0 (fun _ _ _ => eq_refl)
    (fun _ _ _ => eq_refl) (fun c Hc => match not_elem_of_nil c Hc with end) eq_refl eq_refl
    request0 client0.2 clients_ok1) as [H|H]; [by destruct (Hn H) | exact H].
Defined.

Definition preflight0 : Request :=
  {| rq_Method := "GET"; rq_Path := "/health"; rq_URLParam := fun _ => ""; rq_Query := fun _ => "";
     rq_Header := fun k => if bool_decide (k = "Origin") then "http://localhost:3000" else "";
     rq_Body := ""; rq_Context := None; rq_RequestID := "" |}.

Lemma cors_spec_witness :
  exists resp, (cors [" http://localhost:3000"] health preflight0 env0 world0).1 = Ok resp /\
    rs_Header resp !! "Access-Control-Allow-Origin" = Some "http://localhost:3000".
Proof.
  destruct (cors_spec [" http://localhost:3000"] health preflight0 env0 world0
    ltac:(by intros resp w' [= <- _])) as (_ & _ & H).
  eexists. split; [reflexivity|]. apply (H _ "http://localhost:3000" eq_refl).
  split; [reflexivity|]. split; [discriminate|]. exists " http://localhost:3000".
  split; [apply list_elem_of_here | by vm_compute].
Defined.

Lemma dashboard_exact_witness :
  exists s w', dashboard options0 NoopRegistry request0 env0 created2 =
    (Ok (JSON request0 200 (DSummary s)), w') /\
    foldr Z.add 0 ((fun st => default 0 (ds_StatusCounts s !! status_string st)) <$> all_statuses) = 2.
Proof.
  destruct (dashboard_exact options0 NoopRegistry request0 env0 created2 [] env0_healthy _
    (fun _ => eq_refl)) as (s & w' & n & Hd & _ & _ & _ & Ht & _).
  exists s, w'. split; [exact Hd|]. rewrite Ht. by vm_compute.
Defined.

(** The connection breaks after the first answer, before any row. *)
Definition env_outage : env :=
  {| e_uuid := e_uuid env0; e_time := clock0; e_pgnow := clock0; e_redisnow := clock0;
     e_outcome := fun n => if (n <=? w_tick created2)%nat then Applied else Rejected FConn;
     e_others := fun _ d => d; e_redis_others := fun _ r => r; e_renewals := fun _ => 1%nat;
     e_locked := fun _ _ => false; e_rank := fun _ u => Z.of_N u; e_rows := fun _ => 0%nat |}.

Lemma dashboard_hides_outage_witness :
  size (jobs (w_db created2)) = 2%nat /\
  exists s w', dashboard options0 (RedisRegistry general0) request0 env_outage created2 =
    (Ok (JSON request0 200 (DSummary s)), w') /\ ds_StatusCounts s = ∅.
Proof.
  split; [by vm_compute|].
  destruct (dashboard_hides_outage options0 general0 request0 env_outage created2 FConn)
    as (s & w' & Hd & _ & _ & _ & H).
  - cbn. by rewrite Nat.leb_refl.
  - intros n Hn. cbn. by rewrite (proj2 (Nat.leb_gt _ _) Hn).
  - exists s, w'. split; [exact Hd|]. by apply H.
Defined.
