(* ===== verification/ServerSafety.v ===== *)
(** * The API server as one of the processes

    Every request, whatever it is and whatever the other processes commit
    in the meantime, keeps the database invariant and moves jobs only
    along the lifecycle: the server is a legitimate environment of the
    workers and the relay. *)

From S2P Require Import Prelude GoRuntime Strings Engine Sql Schema Effects Json Dto Repository RepositoryFacts Invariant Preservation Auth Service Executor Lock Rfc3339 Registry Worker Scenario AuthFacts Safety Outbox OutboxFacts System Idempotency Http HttpFacts Float RateLimit Metrics Server ServerFacts.

Local Open Scope Z_scope.
Local Open Scope go_scope.

(** ** Computations that keep the guarantees *)

Definition sane {A} (m : M A) : Prop := safe always m anything.

Lemma sane_ret {A} (a : A) : sane (mret a).
Proof. by apply safe_ret. Qed.

Lemma sane_fail {A} err : sane (fail err : M A).
Proof. apply safe_fail. Qed.

Lemma sane_bind {A B} (m : M A) (k : A -> M B) :
  sane m -> (forall a, sane (k a)) -> sane (m ≫= k).
Proof. intros Hm Hk. eapply safe_bind; [exact Hm|]. exact Hk. Qed.

Lemma sane_try {A} (m : M A) : sane m -> sane (try m).
Proof. intros Hm. eapply safe_conseq; [..|apply safe_try, Hm]; done. Qed.

Lemma sane_frame {A} (m : M A) : db_frame m -> sane m.
Proof. intros Hm. eapply safe_conseq; [..|apply (safe_frame always), Hm]; done. Qed.

Lemma sane_query {A} (f : (UUID -> Z) -> Time -> Db -> result A) : sane (pool_query f).
Proof. eapply safe_conseq; [..|apply (safe_query always)]; done. Qed.

Lemma sane_lift {A} (x : result A) : sane (lift_result x).
Proof. by apply sane_frame. Qed.

Create HintDb sane.
#[export] Hint Resolve sane_ret sane_fail sane_bind sane_try sane_query sane_lift : sane.

Lemma sane_respond {A} r (m : M A) ok : sane m -> sane (respond r m ok).
Proof. unfold respond. auto with sane. Qed.

Lemma sane_ignore_error {A} (zero : A) m : sane m -> sane (ignore_error zero m).
Proof. unfold ignore_error. auto with sane. Qed.

#[export] Hint Resolve sane_respond sane_ignore_error : sane.

Lemma sane_Ping : sane db_Ping.
Proof. apply (safe_pool always). intros now d d' [] I _ [= <-]. split; [by apply sound_refl|done]. Qed.

(** ** The endpoints *)

Section Server.
Context (json_Decode : Z -> string -> option CreateRequest)
        (uuid_Parse : string -> option UUID) (time_Parse : string -> option Time)
        (marshal : CreateRequest -> result string) (Sum256 : string -> string)
        (chi_route : string -> string -> routed) (RoutePattern : Request -> string)
        (chi_unmatched promhttp : Handler)
        (service : Service) (registry : Registry) (metrics : Recorder) (opts : Options).
Context (unmatched_frame : forall r, db_frame (chi_unmatched r))
        (promhttp_frame : forall r, db_frame (promhttp r))
        (checks_frame : forall check, check ∈ op_ReadyChecks opts -> db_frame check)
        (service_frame : forall m, db_frame (sv_metrics service m))
        (authenticator : op_Authenticator opts = Authenticate Sum256).
Context `{!RegistryLaws registry, !RecorderLaws metrics}.

Lemma sane_with_UUID r param k :
  (forall id, sane (k id)) -> sane (with_UUID uuid_Parse r param k).
Proof. intros Hk. unfold with_UUID. case_match; auto with sane. Qed.

Lemma sane_transition ctx id to from :
  operator_transition from to -> sane (Service.transition ctx id to from).
Proof. apply transition_safe. Qed.

Lemma sane_Require role h r : sane (h r) -> sane (Require role h r).
Proof. intros Hh. unfold Require. repeat case_match; auto with sane. Qed.

Lemma routes_sane m p h r :
  (m, p, h) ∈ Routes json_Decode uuid_Parse time_Parse marshal Sum256 service ++
              DeadLetterRoutes uuid_Parse -> sane (h r).
Proof.
  unfold Routes, DeadLetterRoutes. rewrite !elem_of_app, !elem_of_cons, !elem_of_nil.
  intros [Hin|Hin]; repeat destruct Hin as [[= -> -> ->]|Hin]; try done;
    try apply sane_Require;
    try (apply sane_with_UUID; intros id; apply sane_respond);
    try (apply sane_transition; unfold operator_transition; tauto).
  - unfold create. case_match; [|apply sane_ret].
    apply sane_respond, service_Create_safe, service_frame.
  - unfold list. case_match; [|apply sane_ret]. apply sane_respond.
    unfold Service.List, Repository.List. repeat (apply sane_bind; [auto with sane|intros ?]).
    auto with sane.
  - apply GetByID_safe.
  - unfold Attempts, ListAttempts. auto with sane.
  - unfold Events, ListEvents. auto with sane.
  - unfold deadLetters. repeat case_match; auto with sane. apply sane_respond.
    unfold Service.ListDeadLetters, Repository.ListDeadLetters. auto with sane.
  - unfold Service.RequeueDeadLetter. apply sane_bind; [by apply sane_frame|]. intros now.
    apply RequeueDeadLetter_safe.
Qed.

Lemma root_table_sane m p h r : (m, p, h) ∈ root_table promhttp opts -> sane (h r).
Proof.
  unfold root_table. rewrite !elem_of_cons, elem_of_nil.
  intros Hin. repeat destruct Hin as [[= -> -> ->]|Hin]; try done.
  - apply sane_ret.
  - unfold ready. apply sane_bind; [apply sane_try, sane_Ping|].
    intros [u|err]; [|apply sane_ret].
    apply sane_bind; [by apply sane_frame, run_checks_frame | intros b; apply sane_ret].
  - by apply sane_frame.
Qed.

Lemma query_status_counts_sane tenant : sane (query_status_counts tenant).
Proof.
  intros e w He I _. unfold query_status_counts.
  match goal with |- context [pool_query ?f e w] =>
    pose proof (proj1 (sane_query f e w He I Logic.I)) as H;
    destruct (pool_query f e w) as [[rows|err] w1] end; done.
Qed.

Lemma dashboard_sane r : sane (dashboard opts registry r).
Proof.
  unfold dashboard. cbv zeta.
  apply sane_bind; [apply sane_try, query_status_counts_sane|].
  intros [counts|err]; [|apply sane_ret].
  apply sane_bind; [apply sane_ignore_error, sane_frame, active_frame|]. intros items.
  apply sane_bind; [apply sane_ignore_error, sane_query|]. intros failures.
  apply sane_bind; [|intros backlog; apply sane_ret].
  case_match; [apply sane_ignore_error, sane_query | apply sane_ret].
Qed.

Lemma api_table_sane m p h r :
  (m, p, h) ∈ api_table json_Decode uuid_Parse time_Parse marshal Sum256 service registry
                metrics opts -> sane (h r).
Proof.
  unfold api_table. rewrite app_assoc, elem_of_app. intros [(p' & Hin)%mounted_elem|Hin].
  { by eapply routes_sane. }
  rewrite !elem_of_cons, elem_of_nil in Hin.
  repeat destruct Hin as [[= -> -> ->]|Hin]; try done.
  - unfold workers. apply sane_bind; [apply sane_try, sane_frame, active_frame|].
    intros [items|err]; [|apply sane_ret].
    apply sane_bind; [apply sane_frame, recorder_frame | intros ?; apply sane_ret].
  - apply sane_ret.
  - apply dashboard_sane.
  - apply sane_Require. unfold replay. case_match; [apply sane_ret|].
    case_match; [|apply sane_ret].
    apply sane_bind; [apply sane_try, Replay_safe | intros ?; apply sane_ret].
Qed.

Lemma api_sane next r : (forall r', sane (next r')) -> sane (api opts next r).
Proof.
  intros Hn. unfold api. set (next' := match op_RateLimiter opts with Some _ => _ | None => _ end).
  assert (Hn' : forall r', sane (next' r')).
  { intros r'. unfold next'. destruct (op_RateLimiter opts) as [l|]; [|apply Hn].
    unfold limiter_Middleware. case_match; [|apply sane_ret].
    apply sane_bind; [apply sane_try, sane_frame, db_frame_Allow|].
    intros [[[] retry]|err]; [apply Hn|apply sane_ret|apply sane_ret]. }
  unfold Middleware. case_match; [apply Hn'|]. cbv zeta. case_bool_decide; [apply sane_ret|].
  rewrite authenticator. apply sane_bind; [apply sane_try, Authenticate_safe|].
  intros [pr|err]; [apply Hn' | apply sane_ret].
Qed.

Lemma dispatch_sane r :
  sane (dispatch json_Decode uuid_Parse time_Parse marshal Sum256 chi_route chi_unmatched promhttp
          service registry metrics opts r).
Proof.
  unfold dispatch. destruct (chi_route _ _) as [pattern params|[]]; cbv zeta.
  - destruct (find_route _ pattern (root_table _ _)) as [h|] eqn:E1.
    { apply find_route_elem in E1 as (m & _ & Hin). by eapply root_table_sane. }
    destruct (find_route _ pattern (prefixed _ _)) as [h|] eqn:E2; [|by apply sane_frame].
    apply find_route_elem in E2 as (m & _ & (p' & _ & Hin)%prefixed_elem).
    apply api_sane. intros r'. by eapply api_table_sane.
  - apply api_sane. intros r'. by apply sane_frame.
  - by apply sane_frame.
Qed.

Lemma server_sane r :
  sane (New json_Decode uuid_Parse time_Parse marshal Sum256 chi_route RoutePattern chi_unmatched
          promhttp service registry metrics opts r).
Proof.
  unfold New, RequestID_Middleware. cbv zeta.
  apply sane_bind; [case_match; [by apply sane_frame|apply sane_ret]|]. intros id.
  apply sane_bind; [|intros resp; apply sane_ret].
  unfold Recovery. apply sane_bind; [apply sane_try|intros [resp|err]; apply sane_ret].
  unfold HTTPMiddleware. apply sane_bind; [by apply sane_frame|]. intros started.
  apply sane_bind.
  - unfold cors. cbv zeta. case_match; [apply sane_ret|].
    apply sane_bind; [apply dispatch_sane|intros resp; apply sane_ret].
  - intros resp. repeat (apply sane_bind; [by apply sane_frame|intros ?]). apply sane_ret.
Qed.
End Server.
