(* ===== verification/Envelope.v ===== *)
(** * An event on the topic

    [json.Marshal] of the envelope of internal/events/events.go, which
    internal/kafka/producer.go writes, and a consumer that reads it back
    with [json.Unmarshal].  The text PostgreSQL gives for a JSONB payload,
    the zone an instant is printed in and [uuid.Parse] are parameters. *)

From S2P Require Import Prelude GoRuntime Strings Engine Sql Schema Effects Json Dto Repository Auth Service Executor Lock Rfc3339 JsonText JsonRaw JsonDecode JsonScan Webhook Wire.

Local Open Scope Z_scope.
Local Open Scope go_scope.

(** ** Ids as text *)

(** An id has sixteen bytes. *)
Definition uuid_ok (u : UUID) : bool := (u <? 2 ^ 128)%N.

(** The value of a run of hexadecimal digits; hyphens are skipped. *)
Fixpoint hex_value (acc : N) (s : string) : option N :=
  match s with
  | EmptyString => Some acc
  | String c s' =>
      let n := Ascii.N_of_ascii c in
      if (n =? 45)%N then hex_value acc s'
      else if is_hex n then hex_value (16 * acc + hex_val n) s'
      else None
  end.

(** [uuid.Parse] of the canonical form. *)
Definition uuid_Read (s : string) : option UUID :=
  if bool_decide (String.length s = 36%nat) then hex_value 0 s else None.

(** One digit as [hex_digits] prints it. *)
Lemma hex_char d : (d < 16)%N -> exists c,
  String.substring (N.to_nat d) 1 "0123456789abcdef" = String c EmptyString /\
  Ascii.N_of_ascii c = hex_code d.
Proof.
  intros Hd. assert (Hin : d ∈ (N.of_nat <$> seq 0 16)).
  { apply list_elem_of_fmap. exists (N.to_nat d). split; [lia|]. apply elem_of_seq. lia. }
  revert d Hin Hd. apply (Forall_forall (fun d => (d < 16)%N -> _) _).
  repeat constructor; intros _; by eexists.
Qed.

Lemma hex_code_not_hyphen d : (d < 16)%N -> (hex_code d =? 45)%N = false.
Proof. intros Hd. apply N.eqb_neq. unfold hex_code. destruct (N.ltb_spec d 10); lia. Qed.

Lemma hex_value_digits w n acc s :
  hex_value acc (hex_digits w n +:+ s) =
  hex_value (16 ^ N.of_nat w * acc + n mod 16 ^ N.of_nat w) s.
Proof.
  revert n acc s. induction w as [|w IH]; intros n acc s.
  { cbn [hex_digits]. rewrite N.pow_0_r, N.mod_1_r. by replace (1 * acc + 0)%N with acc by lia. }
  cbn [hex_digits]. pose proof (N.mod_lt n 16 ltac:(lia)) as Hd.
  destruct (hex_char _ Hd) as (c & Hc & Hv). rewrite Hc, string_app_assoc, IH.
  change (String c EmptyString +:+ s) with (String c s). cbn [hex_value]. cbv zeta. destruct (hex_code_hex _ Hd) as [Hx Hval].
  rewrite Hv, hex_code_not_hyphen, Hx, Hval by done. f_equal.
  rewrite Nat2N.inj_succ, N.pow_succ_r'.
  rewrite (N.Div0.mod_mul_r n 16 (16 ^ N.of_nat w)). lia.
Qed.

Lemma shiftr_split u k w :
  (2 ^ w * N.shiftr u (k + w) + N.shiftr u k mod 2 ^ w)%N = N.shiftr u k.
Proof.
  rewrite !N.shiftr_div_pow2, N.pow_add_r, <- N.Div0.div_div. symmetry. apply N.div_mod'.
Qed.

Lemma hex_digits_length w n : String.length (hex_digits w n) = w.
Proof.
  revert n. induction w as [|w IH]; intros n; [done|]. cbn [hex_digits].
  destruct (hex_char (n mod 16)) as (c & -> & _); [apply N.mod_lt; lia|].
  rewrite string_length_app, IH. cbn. lia.
Qed.

Lemma uuid_String_length u : String.length (uuid_String u) = 36%nat.
Proof. unfold uuid_String. by rewrite !string_length_app, !hex_digits_length. Qed.

(** [uuid.Parse] reads what [String] printed. *)
Lemma uuid_Read_String u : uuid_ok u = true -> uuid_Read (uuid_String u) = Some u.
Proof.
  intros Hu%N.ltb_lt. unfold uuid_Read. rewrite bool_decide_eq_true_2 by apply uuid_String_length.
  unfold uuid_String.
  assert (Hy : forall acc s, hex_value acc ("-" +:+ s) = hex_value acc s) by done.
  rewrite hex_value_digits, Hy, hex_value_digits, Hy, hex_value_digits, Hy, hex_value_digits, Hy.
  assert (Hnil : forall s : string, s = s +:+ "") by (induction s as [|c s IH]; [done|];
    rewrite app_cons; by f_equal).
  rewrite (Hnil (hex_digits 12 u)), hex_value_digits. cbn [hex_value]. f_equal.
  change (16 ^ N.of_nat 8)%N with (2 ^ 32)%N. change (16 ^ N.of_nat 4)%N with (2 ^ 16)%N.
  change (16 ^ N.of_nat 12)%N with (2 ^ 48)%N.
  rewrite (N.mod_small (N.shiftr u 96)).
  2:{ rewrite N.shiftr_div_pow2. apply N.Div0.div_lt_upper_bound. by rewrite <- N.pow_add_r. }
  rewrite N.mul_0_r, N.add_0_l.
  pose proof (shiftr_split u 80 16) as H1. pose proof (shiftr_split u 64 16) as H2.
  pose proof (shiftr_split u 48 16) as H3. pose proof (shiftr_split u 0 48) as H4.
  change (80 + 16)%N with 96%N in H1. change (64 + 16)%N with 80%N in H2.
  change (48 + 16)%N with 64%N in H3. rewrite H1, H2, H3. exact H4.
Qed.

Lemma hex_digits_plain w n : plain (codes (hex_digits w n)).
Proof.
  revert n. induction w as [|w IH]; intros n; [constructor|]. cbn [hex_digits].
  pose proof (N.mod_lt n 16 ltac:(lia)) as Hd. destruct (hex_char _ Hd) as (c & -> & Hc).
  rewrite codes_app, plain_app. split; [apply IH|]. unfold codes. cbn. constructor; [|constructor].
  rewrite Hc. unfold hex_code. rewrite !elem_of_cons, elem_of_nil. clear Hc.
  revert Hd. generalize (n mod 16)%N. intros d Hd. destruct (N.ltb_spec d 10); lia.
Qed.

Lemma uuid_String_plain u : plain (codes (uuid_String u)).
Proof.
  assert (Hy : plain (codes "-")) by by apply (bool_decide_unpack _).
  unfold uuid_String. rewrite !codes_app, !plain_app. by split_and!; try apply hex_digits_plain.
Qed.

(** ** The envelope *)

(** [events.Event] as a consumer decodes it. *)
Record TopicEvent := mkTopicEvent {
  en_EventID : UUID;
  en_SchemaVersion : Z;
  en_TenantID : UUID;
  en_EventType : string;
  en_Source : string;
  en_EntityType : string;
  en_EntityID : string;
  en_OccurredAt : Time;
  en_CorrelationID : string;
  en_CausationID : option UUID;
  en_Payload : string
}.

#[export] Instance eta_TopicEvent : Eta TopicEvent := fun v =>
  mkTopicEvent (en_EventID v) (en_SchemaVersion v) (en_TenantID v) (en_EventType v) (en_Source v)
    (en_EntityType v) (en_EntityID v) (en_OccurredAt v) (en_CorrelationID v) (en_CausationID v)
    (en_Payload v).
#[export] Instance upd_en_EventID : Upd en_EventID := ltac:(mk_upd en_EventID).
#[export] Instance upd_en_SchemaVersion : Upd en_SchemaVersion := ltac:(mk_upd en_SchemaVersion).
#[export] Instance upd_en_TenantID : Upd en_TenantID := ltac:(mk_upd en_TenantID).
#[export] Instance upd_en_EventType : Upd en_EventType := ltac:(mk_upd en_EventType).
#[export] Instance upd_en_Source : Upd en_Source := ltac:(mk_upd en_Source).
#[export] Instance upd_en_EntityType : Upd en_EntityType := ltac:(mk_upd en_EntityType).
#[export] Instance upd_en_EntityID : Upd en_EntityID := ltac:(mk_upd en_EntityID).
#[export] Instance upd_en_OccurredAt : Upd en_OccurredAt := ltac:(mk_upd en_OccurredAt).
#[export] Instance upd_en_CorrelationID : Upd en_CorrelationID := ltac:(mk_upd en_CorrelationID).
#[export] Instance upd_en_CausationID : Upd en_CausationID := ltac:(mk_upd en_CausationID).
#[export] Instance upd_en_Payload : Upd en_Payload := ltac:(mk_upd en_Payload).

Inductive event_field :=
| EEventID | ESchemaVersion | ETenantID | EEventType | ESource | EEntityType | EEntityID
| EOccurredAt | ECorrelationID | ECausationID | EPayload.

(** The JSON names of the struct; [PublishAttempts] has none. *)
Definition event_fields : list (string * event_field) :=
  [("event_id", EEventID); ("schema_version", ESchemaVersion); ("tenant_id", ETenantID);
   ("event_type", EEventType); ("source", ESource); ("entity_type", EEntityType);
   ("entity_id", EEntityID); ("occurred_at", EOccurredAt); ("correlation_id", ECorrelationID);
   ("causation_id", ECausationID); ("payload", EPayload)].

Section Wire.
Context (uuid_Parse : string -> option UUID) (time_Parse : string -> option Time).
(** An instant in the zone of the process, unless its year has more than
    four digits; the text of a JSONB value. *)
Context (time_text : Time -> option string) (jsonb_text : payload -> string).

(** ** Encoding *)

(** The members in the order of the struct, the two optional ones where
    they are not empty. *)
Definition event_members (ev : OutboxEvent) (occurred_at : string) : list (string * list N) :=
  [("event_id", quote (codes (uuid_String (oe_EventID ev))));
   ("schema_version", print_int (oe_SchemaVersion ev));
   ("tenant_id", quote (codes (uuid_String (oe_TenantID ev))));
   ("event_type", quote (codes (oe_EventType ev)));
   ("source", quote (codes (oe_Source ev)));
   ("entity_type", quote (codes (oe_EntityType ev)));
   ("entity_id", quote (codes (oe_EntityID ev)));
   ("occurred_at", quote (codes occurred_at))] ++
  (if bool_decide (oe_CorrelationID ev = "") then []
   else [("correlation_id", quote (codes (oe_CorrelationID ev)))]) ++
  match oe_CausationID ev with
  | None => []
  | Some id => [("causation_id", quote (codes (uuid_String id)))]
  end ++
  [("payload", raw_bytes (jsonb_text (oe_Payload ev)))].

(** The fields of an event are values of their Go types. *)
Definition event_ok (ev : OutboxEvent) : bool :=
  uuid_ok (oe_EventID ev) && int64_ok (oe_SchemaVersion ev) && uuid_ok (oe_TenantID ev) &&
  match oe_CausationID ev with None => true | Some id => uuid_ok id end.

(** [json.Marshal(event)]; what is no Go value has no text. *)
Definition marshal_event (ev : OutboxEvent) : result string :=
  if negb (event_ok ev) then Err (ErrorString "json: unsupported value")
  else match time_text (oe_OccurredAt ev) with
  | None => Err (ErrorString "json: error calling MarshalJSON for type time.Time")
  | Some occurred_at =>
      if negb (bool_decide (jsonb_text (oe_Payload ev) = "")) &&
         negb (json_Valid (jsonb_text (oe_Payload ev)))
      then Err (ErrorString "json: error calling MarshalJSON for type json.RawMessage")
      else Ok (text (print_object (event_members ev occurred_at)))
  end.

(** ** Decoding *)

(** [UUID.UnmarshalText] of a JSON string; [null] leaves the field. *)
Definition decode_uuid (old : UUID) (raw : list N) : option UUID :=
  if is_null raw then Some old else s ← decode_string "" raw; uuid_Parse s.

Definition set_event_field (v : TopicEvent) (key raw : list N) : option TopicEvent :=
  match match_field event_fields key with
  | None => Some v
  | Some EEventID => id ← decode_uuid (en_EventID v) raw; Some (v <| en_EventID := id |>)
  | Some ESchemaVersion =>
      z ← decode_int (en_SchemaVersion v) raw; Some (v <| en_SchemaVersion := z |>)
  | Some ETenantID => id ← decode_uuid (en_TenantID v) raw; Some (v <| en_TenantID := id |>)
  | Some EEventType => s ← decode_string (en_EventType v) raw; Some (v <| en_EventType := s |>)
  | Some ESource => s ← decode_string (en_Source v) raw; Some (v <| en_Source := s |>)
  | Some EEntityType => s ← decode_string (en_EntityType v) raw; Some (v <| en_EntityType := s |>)
  | Some EEntityID => s ← decode_string (en_EntityID v) raw; Some (v <| en_EntityID := s |>)
  | Some EOccurredAt =>
      t ← decode_time time_Parse (en_OccurredAt v) raw; Some (v <| en_OccurredAt := t |>)
  | Some ECorrelationID =>
      s ← decode_string (en_CorrelationID v) raw; Some (v <| en_CorrelationID := s |>)
  | Some ECausationID =>
      if is_null raw then Some (v <| en_CausationID := None |>)
      else id ← decode_uuid uuid_Nil raw; Some (v <| en_CausationID := Some id |>)
  | Some EPayload => Some (v <| en_Payload := text raw |>)
  end.

Definition zero_envelope : TopicEvent :=
  mkTopicEvent uuid_Nil 0 uuid_Nil "" "" "" "" zero_time "" None "".

(** [json.Unmarshal] into the struct. *)
Definition unmarshal_event (body : string) : option TopicEvent :=
  if json_Valid body
  then fs ← object_fields (codes body); decode_fields set_event_field zero_envelope fs
  else None.

(** What a consumer is to read: the event, with text in UTF-8 and the
    payload compact. *)
Definition envelope_of (ev : OutboxEvent) : TopicEvent :=
  let valid s := text (to_valid (codes s)) in
  {| en_EventID := oe_EventID ev;
     en_SchemaVersion := oe_SchemaVersion ev;
     en_TenantID := oe_TenantID ev;
     en_EventType := valid (oe_EventType ev);
     en_Source := valid (oe_Source ev);
     en_EntityType := valid (oe_EntityType ev);
     en_EntityID := valid (oe_EntityID ev);
     en_OccurredAt := oe_OccurredAt ev;
     en_CorrelationID := valid (oe_CorrelationID ev);
     en_CausationID := oe_CausationID ev;
     en_Payload := text (compact (codes (jsonb_text (oe_Payload ev)))) |}.

(** ** The round trip *)

(** [uuid.Parse] reads what [String] printed, the time is printed as
    RFC 3339, the database returns JSON within the depth of the decoder. *)
Class EventText : Prop := {
  parse_printed : forall u, uuid_ok u = true -> uuid_Parse (uuid_String u) = Some u;
  time_printed : forall t s, time_text t = Some s -> plain (codes s) /\ time_Parse s = Some t;
  jsonb_printed : forall p, exists r,
    json_value (2 * length (codes (jsonb_text p)) + 2) 1 (codes (jsonb_text p)) = Some r /\
    skip_ws r = []
}.
Context `{T : EventText}.

Lemma jsonb_nonempty p : jsonb_text p <> "".
Proof. intros E. destruct (jsonb_printed p) as (r & H & _). by rewrite E in H. Qed.

Lemma raw_jsonb p : raw_bytes (jsonb_text p) = compact (codes (jsonb_text p)).
Proof. unfold raw_bytes. by rewrite bool_decide_eq_false_2 by apply jsonb_nonempty. Qed.

Lemma event_members_text ev s : Forall (fun m => value_text 1 m.2) (event_members ev s).
Proof.
  unfold event_members. rewrite raw_jsonb. destruct (jsonb_printed (oe_Payload ev)) as (r & Hv & Hr).
  pose proof (compact_text _ _ _ Hv Hr) as Hp. rewrite !Forall_app.
  split_and!; repeat case_match;
    repeat first [apply Forall_nil_2 | apply Forall_cons_2]; cbn [snd];
    auto using quote_text, print_int_text.
Qed.

Lemma event_members_bytes ev s : Forall (fun m => byte_list m.2) (event_members ev s).
Proof.
  unfold event_members. rewrite raw_jsonb, !Forall_app.
  split_and!; repeat case_match; repeat match goal with
  | |- Forall _ (_ :: _) => apply Forall_cons_2; cbn [snd]
  | |- Forall _ [] => apply Forall_nil_2
  end;
    solve [apply quote_bytes, codes_bytes | apply codes_bytes | apply compact_bytes, codes_bytes].
Qed.

Lemma decode_uuid_printed old u :
  uuid_ok u = true -> decode_uuid old (quote (codes (uuid_String u))) = Some u.
Proof.
  intros Hu. unfold decode_uuid. rewrite is_null_quote, decode_quote. cbn [mbind option_bind].
  rewrite (proj2 (quote_plain _ (uuid_String_plain u))), text_codes. by apply parse_printed.
Qed.

Lemma decode_time_printed old t s :
  time_text t = Some s -> decode_time time_Parse old (quote (codes s)) = Some t.
Proof.
  intros [Hs Hp]%time_printed. by apply decode_plain_time.
Qed.

(** One printed member is stored in its field. *)
Lemma event_field_step v name f raw :
  match_field event_fields (to_valid (codes name)) = Some f ->
  set_event_field v (to_valid (codes name)) raw =
  match f with
  | EEventID => id ← decode_uuid (en_EventID v) raw; Some (v <| en_EventID := id |>)
  | ESchemaVersion =>
      z ← decode_int (en_SchemaVersion v) raw; Some (v <| en_SchemaVersion := z |>)
  | ETenantID => id ← decode_uuid (en_TenantID v) raw; Some (v <| en_TenantID := id |>)
  | EEventType => s ← decode_string (en_EventType v) raw; Some (v <| en_EventType := s |>)
  | ESource => s ← decode_string (en_Source v) raw; Some (v <| en_Source := s |>)
  | EEntityType => s ← decode_string (en_EntityType v) raw; Some (v <| en_EntityType := s |>)
  | EEntityID => s ← decode_string (en_EntityID v) raw; Some (v <| en_EntityID := s |>)
  | EOccurredAt =>
      t ← decode_time time_Parse (en_OccurredAt v) raw; Some (v <| en_OccurredAt := t |>)
  | ECorrelationID =>
      s ← decode_string (en_CorrelationID v) raw; Some (v <| en_CorrelationID := s |>)
  | ECausationID =>
      if is_null raw then Some (v <| en_CausationID := None |>)
      else id ← decode_uuid uuid_Nil raw; Some (v <| en_CausationID := Some id |>)
  | EPayload => Some (v <| en_Payload := text raw |>)
  end.
Proof. intros H. unfold set_event_field. by rewrite H. Qed.

Ltac envelope_step name f tac :=
  erewrite decode_fields_cons;
    [|rewrite (event_field_step _ name f) by (vm_compute; reflexivity); tac; reflexivity].

Lemma event_read ev s :
  event_ok ev = true -> time_text (oe_OccurredAt ev) = Some s ->
  decode_fields set_event_field zero_envelope (seen <$> event_members ev s) = Some (envelope_of ev).
Proof.
  unfold event_ok. intros [[[He Hv]%andb_true_iff Ht]%andb_true_iff Hc]%andb_true_iff Hs.
  unfold event_members. rewrite raw_jsonb, !fmap_app. unfold seen. cbn [fmap list_fmap fst snd app].
  envelope_step "event_id" EEventID ltac:(rewrite decode_uuid_printed by done).
  envelope_step "schema_version" ESchemaVersion ltac:(rewrite decode_print_int by done).
  envelope_step "tenant_id" ETenantID ltac:(rewrite decode_uuid_printed by done).
  envelope_step "event_type" EEventType ltac:(rewrite decode_quote).
  envelope_step "source" ESource ltac:(rewrite decode_quote).
  envelope_step "entity_type" EEntityType ltac:(rewrite decode_quote).
  envelope_step "entity_id" EEntityID ltac:(rewrite decode_quote).
  envelope_step "occurred_at" EOccurredAt ltac:(rewrite (decode_time_printed _ _ _ Hs)).
  unfold envelope_of. case_bool_decide as Hcorr; [rewrite Hcorr|]; destruct (oe_CausationID ev);
    cbn [fmap list_fmap fst snd app];
    [| |envelope_step "correlation_id" ECorrelationID ltac:(rewrite decode_quote)..];
    try envelope_step "causation_id" ECausationID
      ltac:(rewrite is_null_quote, decode_uuid_printed by done);
    envelope_step "payload" EPayload idtac; done.
Qed.

(** A consumer that decodes the message of an event with
    [json.Unmarshal] reads every field of the event back, the optional ones
    where they were left out too; text is in UTF-8 and the payload compact. *)
Theorem envelope_roundtrip ev body :
  marshal_event ev = Ok body -> unmarshal_event body = Some (envelope_of ev).
Proof.
  unfold marshal_event. intros H. destruct (event_ok ev) eqn:Hok; [|done]. cbn [negb] in H.
  destruct (time_text (oe_OccurredAt ev)) as [s|] eqn:Hs; [|done].
  destruct (_ && _) in H; [done|]. injection H as <-. unfold unmarshal_event.
  destruct (print_object_valid _ (event_members_text ev s) (event_members_bytes ev s)) as [-> ->].
  rewrite object_fields_printed by apply event_members_text. by apply event_read.
Qed.
End Wire.

(** ** Texts that satisfy the laws *)

(** Instants in UTC. *)
Definition utc_text (t : Time) : option string :=
  if json_year_ok t then Some (time_Format t) else None.

Definition print_jval (v : jval) : list N :=
  match v with
  | JStr s => quote (codes s)
  | JInt z => print_int z
  | JBool b => print_bool b
  | JUUID u => quote (codes (uuid_String u))
  | JTime t => quote (codes (time_Format t))
  end.

(** A payload as a compact object. *)
Definition object_text (p : payload) : string :=
  text (print_object (prod_map id print_jval <$> p)).

Lemma print_jval_text d v : value_text d (print_jval v).
Proof. destruct v; first [apply quote_text | apply print_int_text | apply print_bool_text]. Qed.

Lemma print_jval_bytes v : byte_list (print_jval v).
Proof.
  destruct v as [| |[]| |]; solve [apply quote_bytes, codes_bytes | apply codes_bytes].
Qed.

Lemma object_text_codes p :
  codes (object_text p) = print_object (prod_map id print_jval <$> p) /\
  value_text 1 (codes (object_text p)).
Proof.
  assert (H : codes (object_text p) = print_object (prod_map id print_jval <$> p)).
  { apply codes_text, print_object_bytes, Forall_fmap, Forall_true. intros [k v]. apply print_jval_bytes. }
  split; [done|]. rewrite H. apply print_object_text; [done|].
  apply Forall_fmap, Forall_true. intros [k v]. apply print_jval_text.
Qed.

#[export] Instance utc_event_text general :
  EventText uuid_Read (time_Parse general) utc_text object_text.
Proof.
  split.
  - apply uuid_Read_String.
  - intros t s. unfold utc_text. destruct (json_year_ok t) eqn:E; [|done]. intros [= <-].
    split; [by apply time_Format_plain|by apply time_Parse_Format].
  - intros p. destruct (object_text_codes p) as [_ [_ Hv]]. exists []. by rewrite Hv.
Qed.
