(* ===== verification/Kafka.v ===== *)
(** * The Kafka publisher: internal/kafka/producer.go

    A producer writes each event to one topic, keyed by the job's id.
    The client library is a set of parameters; what the relay relies on
    is stated as [WriterLaws], and a producer over such a writer is a
    publisher in the relay's sense. *)

From S2P Require Import Prelude GoRuntime Strings Engine Sql Schema Effects Json Dto Repository Auth Service Executor Lock Rfc3339 JsonText JsonRaw JsonDecode Registry Worker Scenario Safety Outbox System Delivery Config Envelope.

Local Open Scope Z_scope.
Local Open Scope go_scope.

(** ** The producer *)

Inductive Balancer := LeastBytes.
Inductive RequiredAcks := RequireNone | RequireOne | RequireAll.

(** The fields of [kafka.Writer] the program sets. *)
Record Writer := mkWriter {
  kw_Addr : list string;
  kw_Topic : string;
  kw_Balancer : Balancer;
  kw_BatchTimeout : Duration;
  kw_AllowAutoTopicCreation : bool;
  kw_RequiredAcks : RequiredAcks
}.

Record Message := mkMessage {
  ms_Key : string;
  ms_Value : string
}.

Record Producer := mkProducer {
  pd_writer : Writer;
  pd_brokers : list string
}.

Definition NewProducer (brokers : list string) (topic : string) : Producer :=
  {| pd_writer := {| kw_Addr := brokers; kw_Topic := topic; kw_Balancer := LeastBytes;
                     kw_BatchTimeout := 10 * Millisecond; kw_AllowAutoTopicCreation := true;
                     kw_RequiredAcks := RequireAll |};
     pd_brokers := brokers |}.

Section Producer.
(** The text of an instant and of a payload, the writer's [WriteMessages]
    and [Close], and [kafka.DialContext] with the connection's [Close]. *)
Context (time_text : Time -> option string) (jsonb_text : payload -> string)
        (WriteMessages : Writer -> Message -> M unit)
        (writer_Close : Writer -> M unit)
        (DialContext : string -> M (M unit)).

Definition Publish (p : Producer) (event : OutboxEvent) : M unit :=
  body ← lift_result (marshal_event time_text jsonb_text event);
  WriteMessages (pd_writer p) {| ms_Key := oe_EntityID event; ms_Value := body |}.

Definition Close (p : Producer) : M unit := writer_Close (pd_writer p).

Definition Ping (p : Producer) : M unit :=
  match pd_brokers p with
  | [] => fail (ErrorString "no Kafka brokers configured")
  | broker :: _ => connection_Close ← DialContext broker; connection_Close
  end.

(** ** What the relay relies on *)

(** How a consumer reads a message: [uuid.Parse], [time.Parse], and what it
    makes of the payload's text. *)
Context (uuid_Parse : string -> option UUID) (time_Parse : string -> option Time)
        (jsonb_value : string -> payload).

Definition event_of (v : TopicEvent) : OutboxEvent :=
  mkOutboxEvent (en_EventID v) (en_SchemaVersion v) (en_TenantID v) (en_EventType v) (en_Source v)
    (en_EntityType v) (en_EntityID v) (en_OccurredAt v) (en_CorrelationID v) (en_CausationID v)
    (jsonb_value (en_Payload v)) 0.

(** A write that returned with the acknowledgement of all replicas is on
    the topic, as a consumer reads it. *)
Class WriterLaws : Prop := {
  write_frame : forall k m, db_frame (WriteMessages k m);
  write_grows : forall k m e w x, x ∈ w_bus w -> x ∈ w_bus (WriteMessages k m e w).2;
  write_acknowledged : forall k m e w v, kw_RequiredAcks k = RequireAll ->
    unmarshal_event uuid_Parse time_Parse (ms_Value m) = Some v ->
    (WriteMessages k m e w).1 = Ok tt -> event_of v ∈ w_bus (WriteMessages k m e w).2
}.

Lemma Publish_laws brokers topic :
  EventText uuid_Parse time_Parse time_text jsonb_text -> WriterLaws ->
  PublisherLaws (Publish (NewProducer brokers topic)).
Proof.
  intros T L. unfold Publish. split.
  - intros ev e w. unfold lift_result, mbind, M_bind.
    destruct (marshal_event _ _ ev); [apply (write_frame _ _)|done].
  - intros ev e w x Hx. unfold lift_result, mbind, M_bind.
    destruct (marshal_event _ _ ev); [by apply write_grows|done].
  - intros ev e w. unfold lift_result, mbind, M_bind.
    destruct (marshal_event _ _ ev) as [body|err] eqn:E; [|done]. intros Ho.
    exists (event_of (envelope_of jsonb_text ev)). split; [|done].
    eapply write_acknowledged; [done| |done]. by eapply envelope_roundtrip.
Qed.
End Producer.

(** ** A writer that satisfies the laws *)

(** A broker that is always there and knows its messages. *)
Definition write_topic (k : Writer) (m : Message) : M unit := fun e w =>
  match unmarshal_event uuid_Read (time_Parse (fun _ => None)) (ms_Value m) with
  | Some v => (Ok tt, w <| w_bus := w_bus w ++ [event_of (fun _ => []) v] |>)
  | None => (Err (ErrorString "unknown message"), w)
  end.

#[export] Instance write_topic_laws :
  WriterLaws write_topic uuid_Read (time_Parse (fun _ => None)) (fun _ => []).
Proof.
  split; unfold write_topic.
  - intros k m e w. by case_match.
  - intros k m e w x Hx. case_match; cbn; set_solver.
  - intros k m e w v _ ->. cbn. set_solver.
Qed.
