(* ===== verification/Cmd.v ===== *)
(** * The processes: cmd/

    How the four programs are put together from the configuration:
    the API server, the worker, the event relay with their health
    endpoints, and the administration command.  A start-up that fails ends
    the process ([log.Fatal], [panic]) and is an error here; listening,
    signals and shutdown are in [Serve]. *)

From S2P Require Import Prelude GoRuntime Strings Engine Sql Schema Effects Json Dto Repository Auth Service Executor Lock Rfc3339 Registry Worker Outbox Http Float RateLimit Metrics Server Delivery Config Envelope Kafka.
From Stdlib Require Import Ascii QArith.

Local Open Scope Z_scope.
Local Open Scope go_scope.

(** ** Connections *)

Section Connect.
(** [zap.NewDevelopment], [zap.NewProduction] and [pgxpool.New]. *)
Context (zap_NewDevelopment zap_NewProduction : result unit) (pgxpool_New : string -> M unit).

(** [logger.New]. *)
Definition logger_New (level : string) : result unit :=
  if bool_decide (level = "debug") then zap_NewDevelopment else zap_NewProduction.

(** [postgres.Connect]. *)
Definition postgres_Connect (databaseURL : string) : M unit := pgxpool_New databaseURL.

(** [client.Ping(ctx).Err()]. *)
Definition redis_Ping : M unit := redis_exec (fun _ r => Ok (r, tt)).

(** [redis.Connect]: the address, password and number name the one Redis
    of the world. *)
Definition redis_Connect (addr password : string) (db : Z) : M unit := redis_Ping.

(** What the three services do first. *)
Definition start (cfg : Config) : M unit :=
  lift_result (logger_New (cf_LogLevel cfg));;
  postgres_Connect (cf_DatabaseURL cfg).

Definition start_redis (cfg : Config) : M unit :=
  start cfg;; redis_Connect (cf_RedisAddr cfg) (cf_RedisPassword cfg) (cf_RedisDB cfg).

(** ** cmd/api *)

(** [int(d.Seconds())]: seconds and nanoseconds are added as doubles. *)
Definition int_Seconds (d : Duration) : Z :=
  let q := round53 (inject_Z (Z.quot d Second) +
                    round53 (inject_Z (Z.rem d Second) / inject_Z Second)) in
  Z.quot (Qnum q) (Zpos (Qden q)).

Section Api.
Context (json_Decode : Z -> string -> option CreateRequest)
        (uuid_Parse : string -> option UUID) (parse_general : string -> option Time)
        (marshal : CreateRequest -> result string) (Sum256 : string -> string)
        (chi_route : string -> string -> routed) (RoutePattern : Request -> string)
        (chi_unmatched promhttp : Handler).

Definition api_options (cfg : Config) : Options :=
  {| op_Authenticator := Authenticate Sum256;
     op_AuthEnabled := cf_AuthEnabled cfg;
     op_RateLimiter := Some (NewRateLimiter (cf_RateLimitPerMinute cfg));
     op_AllowedOrigins := cf_CORSAllowedOrigins cfg;
     op_Outbox := true;
     op_ReadyChecks := [redis_Ping] |}.

Definition api_service (cfg : Config) : Service :=
  Service.WithMetrics
    (Service.NewService (cf_JobDefaultMaxRetries cfg) (cf_JobDefaultBackoffSeconds cfg)
       (int_Seconds (cf_JobDefaultTimeout cfg)))
    (Some (prometheus_Recorder NewPrometheusRecorder)).

(** The address the API process listens on and its handler. *)
Definition api_main (cfg : Config) : M (string * Handler) :=
  start_redis cfg;;
  mret (":" +:+ cf_APIPort cfg,
        New json_Decode uuid_Parse (time_Parse parse_general) marshal Sum256 chi_route RoutePattern
          chi_unmatched promhttp (api_service cfg) (RedisRegistry parse_general)
          (prometheus_Recorder NewPrometheusRecorder) (api_options cfg)).
End Api.

(** ** Health endpoints of the worker and the relay *)

Definition empty_response (status : Z) : Response :=
  {| rs_Status := status; rs_Header := ∅; rs_Body := BEmpty |}.

Definition newline : string := String (Ascii.ascii_of_nat 10) EmptyString.

(** [http.Error]. *)
Definition http_Error (text : string) (status : Z) : Response :=
  {| rs_Status := status;
     rs_Header := <["X-Content-Type-Options" := "nosniff"]>
                    {[ "Content-Type" := "text/plain; charset=utf-8" ]};
     rs_Body := BText (text +:+ newline) |}.

(** Both checks in order; the second runs only if the first passed. *)
Definition health_handler (promhttp : Handler) (second : M unit) : Handler := fun r =>
  if bool_decide (rq_Path r = "/health") then mret (empty_response 200)
  else if bool_decide (rq_Path r = "/ready") then
    ok ← run_checks [db_Ping; second];
    mret (if ok : bool then empty_response 200 else http_Error "not ready" 503)
  else if bool_decide (rq_Path r = "/metrics") then promhttp r
  else mret (http_Error "404 page not found" 404).

Definition worker_health (promhttp : Handler) : Handler := health_handler promhttp redis_Ping.

(** ** cmd/worker *)

Section WorkerMain.
Context (json_Unmarshal : string -> option webhookPayload)
        (url_Parse : string -> result URL)
        (LookupIPAddr : nat -> string -> result (Datatypes.list Z))
        (http_Do : nat -> HttpRequest -> result HttpResponse)
        (marshal_metadata : Z -> Z -> string -> bool -> string)
        (parse_general : string -> option Time).

(** The worker as the process configures it. *)
Definition worker_service (cfg : Config) : M Worker :=
  let options := {| eo_AllowedHosts := cf_WebhookAllowedHosts cfg;
                    eo_AllowPrivateNetworks := cf_WebhookAllowPrivate cfg |} in
  let executor := fun (_ : ExecCtx) j =>
    Execute json_Unmarshal url_Parse LookupIPAddr http_Do marshal_metadata options j in
  s ← Worker.NewService executor "" (cf_WorkerConcurrency cfg) (cf_WorkerBatchSize cfg)
        (cf_WorkerPollInterval cfg) (cf_JobLockTTL cfg);
  let s := WithLockManager s (Some RedisLock) in
  let s := Worker.WithMetrics s (Some (prometheus_Recorder NewPrometheusRecorder)) in
  mret (WithRegistry s (Some (RedisRegistry parse_general)) (cf_WorkerHeartbeatTTL cfg)
          (cf_WorkerHeartbeatInterval cfg)).

Definition worker_main (ticks : nat) cut (cfg : Config) : M unit :=
  start_redis cfg;;
  s ← worker_service cfg;
  Run ticks cut s.
End WorkerMain.

(** ** cmd/event-relay *)

Section RelayMain.
Context (time_text : Time -> option string) (jsonb_text : payload -> string)
        (WriteMessages : Writer -> Message -> M unit)
        (DialContext : string -> M (M unit)).

Definition relay_producer (cfg : Config) : Producer :=
  NewProducer (cf_KafkaBrokers cfg) (cf_KafkaEventsTopic cfg).

Definition relay_main (turns : nat) (cfg : Config) : M unit :=
  start cfg;;
  r ← NewRelay (Publish time_text jsonb_text WriteMessages (relay_producer cfg))
        (cf_EventRelayBatchSize cfg) (cf_EventRelayPollInterval cfg);
  relay_Run turns r.

Definition relay_health (promhttp : Handler) (cfg : Config) : Handler :=
  health_handler promhttp (Ping DialContext (relay_producer cfg)).
End RelayMain.
End Connect.

(** ** cmd/scheduler-admin *)

(** How the command ends: its exit code and what it printed. *)
Inductive Exit := Exited (code : Z) (stdout : string).

(** [name=value] at the first equals sign. *)
Fixpoint cut_equals (s : string) : string * option string :=
  match s with
  | EmptyString => (EmptyString, None)
  | String c s' =>
      if bool_decide (c = "="%char) then (EmptyString, Some s')
      else let '(name, value) := cut_equals s' in (String c name, value)
  end.

(** One argument as [FlagSet.parseOne] reads it: the end of the flags, a
    bad flag, or a name with the value after an equals sign. *)
Inductive flag_arg :=
| FlagEnd
| FlagBad
| FlagNamed (name : string) (value : option string).

Definition flag_name (s : string) : flag_arg :=
  match s with
  | EmptyString => FlagBad
  | String c _ =>
      if bool_decide (c = "-"%char) || bool_decide (c = "="%char) then FlagBad
      else let '(name, value) := cut_equals s in FlagNamed name value
  end.

Definition read_flag (s : string) : flag_arg :=
  match s with
  | String "-"%char (String "-"%char EmptyString) => FlagEnd
  | String "-"%char (String "-"%char s') => flag_name s'
  | String "-"%char (String c s') => flag_name (String c s')
  | _ => FlagEnd
  end.

(** [flags.Parse] with [flag.ExitOnError] and string flags only: the
    values, or the exit code. *)
Fixpoint flags_Parse (formal : gmap string string) (args : Datatypes.list string)
    : gmap string string + Z :=
  match args with
  | [] => inl formal
  | s :: rest =>
      match read_flag s with
      | FlagEnd => inl formal
      | FlagBad => inr 2
      | FlagNamed name value =>
          match formal !! name with
          | None => inr (if bool_decide (name = "help") || bool_decide (name = "h") then 0 else 2)
          | Some _ =>
              match value, rest with
              | Some v, _ => flags_Parse (<[name := v]> formal) rest
              | None, v :: rest' => flags_Parse (<[name := v]> formal) rest'
              | None, [] => inr 2
              end
          end
      end
  end.

Definition role_of (s : string) : option Role :=
  if bool_decide (s = "viewer") then Some RoleViewer
  else if bool_decide (s = "operator") then Some RoleOperator
  else if bool_decide (s = "admin") then Some RoleAdmin
  else None.

Definition usage : Exit := Exited 2 "".

(** [fatal(err)] writes to standard error. *)
Definition fatal : Exit := Exited 1 "".

Section Admin.
Context (pgxpool_New : string -> M unit) (uuid_Parse : string -> option UUID)
        (Sum256 : string -> string) (rand_Read : nat -> result string).

Definition create_flags : gmap string string :=
  list_to_map [("tenant", uuid_String DefaultTenantID); ("name", "local-admin");
               ("role", "admin"); ("key", "")].

Definition revoke_flags : gmap string string := {[ "id" := "" ]}.

(** [*flags.String(name, ...)] after parsing. *)
Definition flag_value (flags : gmap string string) (name : string) : string :=
  default "" (flags !! name).

Definition create_api_key (args : Datatypes.list string) : M Exit :=
  match flags_Parse create_flags args with
  | inr code => mret (Exited code "")
  | inl flags =>
      match uuid_Parse (flag_value flags "tenant") with
      | None => mret fatal
      | Some tenantID =>
          match role_of (flag_value flags "role") with
          | None => mret fatal
          | Some role =>
              res ← try (CreateClient Sum256 rand_Read tenantID (flag_value flags "name") role
                           (flag_value flags "key"));
              mret match res with
                   | Err _ => fatal
                   | Ok (id, secret) =>
                       Exited 0 ("client_id=" +:+ uuid_String id +:+ newline +:+
                                 "api_key=" +:+ secret +:+ newline)
                   end
          end
      end
  end.

Definition revoke_api_key (args : Datatypes.list string) : M Exit :=
  match flags_Parse revoke_flags args with
  | inr code => mret (Exited code "")
  | inl flags =>
      match uuid_Parse (flag_value flags "id") with
      | None => mret fatal
      | Some id =>
          res ← try (RevokeClient id);
          mret match res with
               | Err _ => fatal
               | Ok _ => Exited 0 ("revoked=" +:+ uuid_String id +:+ newline)
               end
      end
  end.

(** [main]; [args] are the arguments after the program's name. *)
Definition admin_main (cfg : Config) (args : Datatypes.list string) : M Exit :=
  match args with
  | [] => mret usage
  | command :: args' =>
      res ← try (postgres_Connect pgxpool_New (cf_DatabaseURL cfg));
      match res with
      | Err _ => mret fatal
      | Ok _ =>
          if bool_decide (command = "create-api-key") then create_api_key args'
          else if bool_decide (command = "revoke-api-key") then revoke_api_key args'
          else mret usage
      end
  end.
End Admin.

Example flags_forms :
  flags_Parse create_flags ["-role"; "viewer"; "--name=ci"; "-key=k=1"; "--"; "-x"] =
  inl (<["key" := "k=1"]> (<["name" := "ci"]> (<["role" := "viewer"]> create_flags))) /\
  flags_Parse create_flags ["-rolle"; "viewer"] = inr 2 /\
  flags_Parse create_flags ["-role"] = inr 2 /\
  flags_Parse create_flags ["-help"] = inr 0.
Proof. by vm_compute. Qed.
