(* ===== verification/CmdFacts.v ===== *)
(** * What the configured programs promise

    The programs of cmd/ as they are configured from the environment:
    the API is closed unless it is opened on purpose, the worker and the
    relay keep the guarantees of their components round by round, a poll
    interval that is not positive ends them at once, and a key made by the
    administration command is good for the role it was made for. *)

From S2P Require Import Prelude GoRuntime Strings Engine Sql Schema Effects Json Dto Repository RepositoryFacts Invariant Auth Service Executor Lock Rfc3339 Registry Worker Scenario AuthFacts Safety Outbox OutboxFacts System Delivery Idempotency Http HttpFacts Float RateLimit Metrics Server ServerFacts ServerSafety Config Envelope Kafka Cmd.

Local Open Scope Z_scope.
Local Open Scope go_scope.

Lemma NewRateLimiter_pos n : 1 <= lim_capacity (NewRateLimiter n).
Proof. unfold NewRateLimiter. cbn [lim_capacity]. destruct (Z.ltb_spec n 1); lia. Qed.

(** What a worker is told to do by its configuration. *)
Definition worker_settings (c : Config) (s : Worker) : Prop :=
  (exists id, wk_workerID s = "worker-" +:+ uuid_String id) /\
  wk_concurrency s = Z.max 1 (cf_WorkerConcurrency c) /\
  wk_batchSize s = Z.max 1 (cf_WorkerBatchSize c) /\
  wk_pollInterval s = cf_WorkerPollInterval c /\ wk_lockTTL s = cf_JobLockTTL c /\
  wk_lockManager s = RedisLock /\
  (0 < cf_WorkerHeartbeatTTL c -> wk_heartbeatTTL s = cf_WorkerHeartbeatTTL c) /\
  (cf_WorkerHeartbeatTTL c <= 0 -> wk_heartbeatTTL s = 30 * 10 ^ 9) /\
  (0 < cf_WorkerHeartbeatInterval c -> wk_heartbeatInterval s = cf_WorkerHeartbeatInterval c) /\
  (cf_WorkerHeartbeatInterval c <= 0 -> wk_heartbeatInterval s = 10 * 10 ^ 9).

Section Processes.
Context (Getenv : string -> string).
Context (zap_NewDevelopment zap_NewProduction : result unit) (pgxpool_New : string -> M unit).
Context (pool_frame : forall url, db_frame (pgxpool_New url)).

Abbreviation cfg := (Load Getenv).

Lemma start_frame : db_frame (start zap_NewDevelopment zap_NewProduction pgxpool_New cfg).
Proof. unfold start. apply db_frame_bind; [by intros e w|]. intros _. apply pool_frame. Qed.

Lemma start_redis_frame :
  db_frame (start_redis zap_NewDevelopment zap_NewProduction pgxpool_New cfg).
Proof.
  unfold start_redis. apply db_frame_bind; [apply start_frame|]. intros _. apply db_frame_redis.
Qed.

(** ** The API *)

Section Api.
Context (json_Decode : Z -> string -> option CreateRequest)
        (uuid_Parse : string -> option UUID) (parse_general : string -> option Time)
        (marshal : CreateRequest -> result string) (Sum256 : string -> string)
        (chi_route : string -> string -> routed) (RoutePattern : Request -> string)
        (chi_unmatched promhttp : Handler).
Context (unmatched_frame : forall r, db_frame (chi_unmatched r))
        (promhttp_frame : forall r, db_frame (promhttp r)).

(** Closed unless opened: an API process that came up listens on the
    configured port; and unless AUTH_ENABLED was one of the six spellings
    of false, whatever else the environment held, no request to it changes
    a job, an attempt, a dead letter or an event unless it is a POST with
    the key of an operator or admin in service that got a token from its
    bucket of at least one request a minute. *)
Theorem api_process_closed e w0 w1 addr h r w :
  api_main zap_NewDevelopment zap_NewProduction pgxpool_New json_Decode uuid_Parse parse_general
    marshal Sum256 chi_route RoutePattern chi_unmatched promhttp cfg e w0 = (Ok (addr, h), w1) ->
  (forall n d, e_others e n d = d) ->
  Getenv "AUTH_ENABLED" ∉ ["0"; "f"; "F"; "FALSE"; "false"; "False"] ->
  clients_ok (w_db w) ->
  addr = ":" +:+ cf_APIPort cfg /\
  (exists l, op_RateLimiter (api_options Sum256 cfg) = Some l /\ 1 <= lim_capacity l) /\
  (same_jobs (w_db w) (w_db (h r e w).2) \/
   authorised e Sum256 chi_route (api_options Sum256 cfg) (w_db w) r).
Proof.
  intros Hm alone Hauth I. apply M_bind_ok in Hm as (u & w2 & _ & Hm). injection Hm as <- <- _.
  split_and!; [done| |].
  - eexists. split; [reflexivity|]. apply NewRateLimiter_pos.
  - apply (server_guarded e alone); try done.
    + intros check ->%list_elem_of_singleton. apply db_frame_redis.
    + apply _.
    + apply _.
    + change (cf_AuthEnabled cfg = true). apply not_false_is_true. by rewrite AuthEnabled_off.
Qed.

End Api.

(** ** The worker *)

Section WorkerProcess.
Context (json_Unmarshal : string -> option webhookPayload)
        (url_Parse : string -> result URL)
        (LookupIPAddr : nat -> string -> result (Datatypes.list Z))
        (http_Do : nat -> HttpRequest -> result HttpResponse)
        (marshal_metadata : Z -> Z -> string -> bool -> string)
        (parse_general : string -> option Time).

Lemma validateHost_frame options host : db_frame (validateHost LookupIPAddr options host).
Proof. intros e w. unfold validateHost. by repeat case_match. Qed.

Lemma validateURL_frame options u : db_frame (validateURL LookupIPAddr options u).
Proof. unfold validateURL. repeat case_match; auto with sched. apply validateHost_frame. Qed.

Lemma Execute_frame options j :
  db_frame (Execute json_Unmarshal url_Parse LookupIPAddr http_Do marshal_metadata options j).
Proof.
  unfold Execute. case_match; [|auto with sched]. unfold webhook_Execute.
  do 2 (case_match; [|auto with sched]).
  apply db_frame_bind; [apply db_frame_try, validateURL_frame|].
  intros [u|err]; [|auto with sched]. do 2 (case_match; [|auto with sched]).
  do 2 (apply db_frame_bind; [by intros ? ?|intros ?]). case_match; [|auto with sched].
  apply db_frame_bind; by intros.
Qed.

Lemma prometheus_frame m : db_frame (prometheus_Recorder NewPrometheusRecorder m).
Proof. apply recorder_frame. Qed.

Abbreviation service := (worker_service json_Unmarshal url_Parse LookupIPAddr http_Do
  marshal_metadata parse_general).
Abbreviation main := (worker_main zap_NewDevelopment zap_NewProduction pgxpool_New json_Unmarshal
  url_Parse LookupIPAddr http_Do marshal_metadata parse_general).

(** The environment sets the worker up: at least one slot and batches of
    at least one job, heartbeats every ten seconds that live for thirty
    unless positive durations are configured; the poll interval and the
    lock's life as they are given. *)
Lemma worker_service_ok e w : exists s,
  service cfg e w = (Ok s, w <| w_tick := S (w_tick w) |>) /\ WorkerLaws s /\
  worker_settings cfg s.
Proof.
  unfold worker_service, Worker.NewService. rewrite bool_decide_eq_true_2 by done.
  generalize (Load Getenv). intros c. eexists. split; [reflexivity|].
  unfold WithRegistry, worker_settings.
  destruct (Z.ltb_spec 0 (cf_WorkerHeartbeatTTL c)), (Z.ltb_spec 0 (cf_WorkerHeartbeatInterval c));
    (split; [split; [apply _|exact prometheus_frame| |apply _]; intros x j; apply Execute_frame|]);
    cbn -[Z.ltb Z.max Z.mul];
    (split_and!; [by eexists| | |done|done|done|by intros; (lia || done)..]);
    destruct (Z.ltb_spec (cf_WorkerConcurrency c) 1), (Z.ltb_spec (cf_WorkerBatchSize c) 1); lia.
Qed.

(** Run round by round, a worker process keeps the system's guarantees,
    whatever the webhooks, Redis and the other processes do; unless its
    poll interval is positive, it panics before it claims anything. *)
Lemma worker_main_safe ticks cut e w :
  rely e -> db_ok (w_db w) ->
  let out := main ticks cut cfg e w in
  reaches (w_db w) (w_db out.2) /\
  (cf_WorkerPollInterval cfg <= 0 -> w_db out.2 = w_db w /\ exists err, out.1 = Err err).
Proof.
  intros He I. cbv zeta. unfold worker_main. pose proof (start_redis_frame e w) as Hf.
  rewrite M_bind_eq.
  destruct (start_redis _ _ _ cfg e w) as [[u|err] w1]; cbn in Hf; cbn beta iota.
  2:{ cbn. rewrite Hf. split; [by apply (reaches_refl (w_db w))|]. intros _. split; [done|by eexists]. }
  destruct (worker_service_ok e w1) as (s & Hs & L & _ & _ & _ & Hp & _).
  rewrite M_bind_eq, Hs. set (w2 := w1 <| w_tick := S (w_tick w1) |>).
  assert (Hd : w_db w2 = w_db w) by done. split.
  - rewrite <- Hd. by apply (Run_safe s ticks cut e w2 He); [rewrite Hd|].
  - intros Hi. unfold Run, time_NewTicker. rewrite Hp, (proj2 (Z.leb_le _ 0) Hi). cbn. split; [done|by eexists].
Qed.
End WorkerProcess.

(** ** The relay *)

Section RelayProcess.
Context (time_text : Time -> option string) (jsonb_text : payload -> string)
        (uuid_Parse : string -> option UUID) (time_Parse : string -> option Time)
        (event_text : EventText uuid_Parse time_Parse time_text jsonb_text).
Context (WriteMessages : Writer -> Message -> M unit) (jsonb_value : string -> payload)
        (writer_laws : WriterLaws WriteMessages uuid_Parse time_Parse jsonb_value).
Context (pool_bus : forall url e w, w_bus (pgxpool_New url e w).2 = w_bus w).

Abbreviation main := (relay_main zap_NewDevelopment zap_NewProduction pgxpool_New time_text
  jsonb_text WriteMessages).

(** Turn by turn, the relay process delivers and leaves the jobs alone;
    unless its poll interval is positive it panics before it claims
    anything. *)
Lemma relay_main_delivers turns (A : UUID -> Prop) e w :
  rely e -> db_ok (w_db w) ->
  (forall n d, publishes A d (e_others e n d)) ->
  delivered A w ->
  let out := main turns cfg e w in
  delivered A out.2 /\ reaches (w_db w) (w_db out.2) /\
  (cf_EventRelayPollInterval cfg <= 0 -> w_db out.2 = w_db w /\ exists err, out.1 = Err err).
Proof.
  intros He I Ho Hw. cbv zeta. unfold relay_main. pose proof (start_frame e w) as Hf.
  assert (Hb : w_bus (start zap_NewDevelopment zap_NewProduction pgxpool_New cfg e w).2 = w_bus w).
  { unfold start, lift_result, mbind, M_bind. destruct (logger_New _ _ _); [apply pool_bus|done]. }
  rewrite M_bind_eq.
  destruct (start _ _ _ cfg e w) as [[u|err] w1]; cbn in Hf, Hb; cbn beta iota.
  2:{ cbn. rewrite Hf. split; [by apply (delivered_frame A w)|].
      split; [by apply (reaches_refl (w_db w))|]. intros _. split; [done|by eexists]. }
  set (p := Publish _ _ _ _). unfold NewRelay.
  rewrite M_bind_assoc, uuid_New_bind, M_ret_bind.
  set (w2 := w1 <| w_tick := S (w_tick w1) |>).
  set (r := {| rl_publisher := p |}).
  assert (L : PublisherLaws (rl_publisher r)) by (by eapply Publish_laws).
  assert (Hd : w_db w2 = w_db w) by done.
  assert (Hw2 : delivered A w2) by (by apply (delivered_frame A w)).
  split_and!.
  - by apply relay_Run_delivered.
  - rewrite <- Hd. by apply (relay_Run_safe turns r (fun ev => pub_frame ev) e w2 He); [rewrite Hd|].
  - intros Hi. unfold relay_Run, time_NewTicker.
    change (rl_interval r) with (cf_EventRelayPollInterval cfg). rewrite (proj2 (Z.leb_le _ 0) Hi). cbn.
    split; [done|by eexists].
Qed.
End RelayProcess.
End Processes.

(** ** The administration command *)

Section AdminProcess.
Context (pgxpool_New : string -> M unit) (uuid_Parse : string -> option UUID)
        (Sum256 : string -> string) (rand_Read : nat -> result string).
Context (pool_frame : forall url, db_frame (pgxpool_New url)).

Abbreviation admin := (admin_main pgxpool_New uuid_Parse Sum256 rand_Read).

(** The names of the three roles. *)
Definition roles : Datatypes.list (string * Role) :=
  [("viewer", RoleViewer); ("operator", RoleOperator); ("admin", RoleAdmin)].

Lemma role_of_named name role : role_of name = Some role -> (name, role) ∈ roles.
Proof. unfold role_of, roles. repeat case_bool_decide; subst; intros [= <-]; set_solver. Qed.

Lemma role_of_unnamed name : name ∉ ["viewer"; "operator"; "admin"] -> role_of name = None.
Proof. unfold role_of. intros H. repeat case_bool_decide; subst; set_solver. Qed.

(** Arguments [create-api-key] does not act on. *)
Definition refused_args (args : Datatypes.list string) : Prop :=
  match flags_Parse create_flags args with
  | inr _ => True
  | inl flags => uuid_Parse (flag_value flags "tenant") = None \/
                 flag_value flags "role" ∉ ["viewer"; "operator"; "admin"]
  end.

(** The line the command prints for a new key. *)
Definition key_text (id : UUID) (key : string) : string :=
  "client_id=" +:+ uuid_String id +:+ newline +:+ "api_key=" +:+ key +:+ newline.

Lemma create_api_key_refused args e w :
  refused_args args ->
  create_api_key uuid_Parse Sum256 rand_Read args e w =
    (Ok (Exited (match flags_Parse create_flags args with inr code => code | inl _ => 1 end) ""), w).
Proof.
  unfold refused_args, create_api_key. destruct (flags_Parse _ _) as [flags|code]; [|done].
  intros [->|Hr]; [done|]. rewrite (role_of_unnamed _ Hr). by destruct (uuid_Parse _).
Qed.

Lemma create_api_key_ok args flags e w text w1 :
  flags_Parse create_flags args = inl flags ->
  create_api_key uuid_Parse Sum256 rand_Read args e w = (Ok (Exited 0 text), w1) ->
  exists tenant role id key,
    uuid_Parse (flag_value flags "tenant") = Some tenant /\
    (flag_value flags "role", role) ∈ roles /\ text = key_text id key /\
    CreateClient Sum256 rand_Read tenant (flag_value flags "name") role (flag_value flags "key") e w
      = (Ok (id, key), w1).
Proof.
  intros Hp. unfold create_api_key. rewrite Hp.
  destruct (uuid_Parse _) as [tenant|]; [|done]. destruct (role_of _) as [role|] eqn:Hr; [|done].
  apply role_of_named in Hr. unfold mbind, M_bind, try.
  destruct (CreateClient _ _ _ _ _ _ e w) as [[[id key]|err] w2] eqn:E; [|done].
  intros [= <- <-]. by exists tenant, role, id, key.
Qed.

(** C34. create-api-key: arguments that do not parse, a tenant that is not
    a UUID or a role other than viewer, operator and admin end the command
    without a key and with an error code (0 only where the flag package
    stopped for -help), and the database is not touched; and when it prints
    a client and a key that was not in use, the key, with white space
    around it or not, authenticates as that client, with the name and
    tenant that were asked for and the role of the name that was given. *)
Theorem create_api_key_spec c args e e2 w :
  healthy e -> healthy e2 -> clients_ok (w_db w) ->
  let out := admin c ("create-api-key" :: args) e w in
  (refused_args args -> w_db out.2 = w_db w /\
     exists code, out.1 = Ok (Exited code "") /\
       (code = 0 -> flags_Parse create_flags args = inr 0)) /\
  (forall flags text w1, flags_Parse create_flags args = inl flags ->
     out = (Ok (Exited 0 text), w1) ->
     exists tenant role id key,
       uuid_Parse (flag_value flags "tenant") = Some tenant /\
       (flag_value flags "role", role)
         ∈ [("viewer", RoleViewer); ("operator", RoleOperator); ("admin", RoleAdmin)] /\
       text = key_text id key /\
       ((forall k r, api_clients (w_db w) !! k = Some r -> cr_key_hash r <> HashKey Sum256 key) ->
        forall presented, TrimSpace presented = key ->
        exists slug, (Authenticate Sum256 presented e2 w1).1 =
          Ok {| pr_ClientID := id; pr_TenantID := tenant; pr_TenantSlug := slug;
                pr_ClientName := flag_value flags "name"; pr_Role := role |})).
Proof.
  intros He He2 I. cbv zeta. unfold admin_main, postgres_Connect. rewrite M_bind_eq. unfold try.
  pose proof (pool_frame (cf_DatabaseURL c) e w) as Hf.
  destruct (pgxpool_New _ e w) as [[u|err] w0]; cbn in Hf; cbn beta iota;
    [rewrite bool_decide_eq_true_2 by done|].
  - split.
    + intros Hr. rewrite (create_api_key_refused args e w0 Hr). split; [exact Hf|].
      eexists. split; [reflexivity|]. by destruct (flags_Parse _ _) as [?|?]; [|intros ->].
    + intros flags text w1 Hp Hc.
      destruct (create_api_key_ok args flags e w0 text w1 Hp Hc)
        as (tenant & role & id & key & Ht & Hr & -> & Hcc).
      exists tenant, role, id, key. split_and!; [done..|]. intros Hno presented Hpr.
      eapply (CreateClient_authenticates Sum256 rand_Read _ _ _ _ e w0);
        [done|done|by rewrite Hf|exact Hcc|by rewrite Hf|done].
  - split; [|done]. intros _. split; [exact Hf|]. by eexists.
Qed.
End AdminProcess.

(** ** Witnesses *)

Definition pool0 (url : string) : M unit := mret tt.
Definition getenv0 (key : string) : string := "".

(** The API with the defaults of the configuration. *)
Definition api0 : M (string * Handler) :=
  api_main (Ok tt) (Ok tt) pool0 decode0 parse0 general0 marshal0 sum0 route0 rq_Path unmatched0
    unmatched0 (Load getenv0).
Definition handler0 : Handler := (value ("", unmatched0) (api0 env0 world0)).2.

Lemma api_process_closed_witness :
  ~ same_jobs (w_db client0.2) (w_db (handler0 request0 env0 client0.2).2) /\
  authorised env0 sum0 route0 (api_options sum0 (Load getenv0)) (w_db client0.2) request0.
Proof.
  assert (Hn : ~ same_jobs (w_db client0.2) (w_db (handler0 request0 env0 client0.2).2)).
  { intros (H & _). apply (f_equal size) in H. by vm_compute in H. }
  split; [exact Hn|].
  assert (Hauth : getenv0 "AUTH_ENABLED" ∉ ["0"; "f"; "F"; "FALSE"; "false"; "False"])
    by (apply (bool_decide_unpack _); by vm_compute).
  destruct (api_process_closed getenv0 (Ok tt) (Ok tt) pool0 decode0 parse0 general0
    marshal0 sum0 route0 rq_Path unmatched0 unmatched0 (fun _ _ _ => eq_refl) (fun _ _ _ => eq_refl)
    env0 world0 (api0 env0 world0).2 ":8080" handler0 request0 client0.2 eq_refl
    (fun _ _ => eq_refl) Hauth clients_ok1) as (_ & _ & [H|H]);
    [by destruct (Hn H) | exact H].
Defined.

Definition getenv_still (key : string) : string :=
  if bool_decide (key = "WORKER_POLL_INTERVAL_SECONDS") then "0" else "".

(** With the defaults the worker does process the job. *)
Example worker_runs :
  let w := (worker_main (Ok tt) (Ok tt) pool0 demo_decode demo_parse demo_lookup (demo_do 200)
    (fun _ _ _ _ => "{}") general0 1 (fun _ => None) (Load getenv0) env0 created).2 in
  (jr_status <$> jobs (w_db w) !! 100%N) = Some StatusSucceeded.
Proof. by vm_compute. Qed.

Definition relay0 (turns : nat) : M unit :=
  relay_main (Ok tt) (Ok tt) pool0 utc_text object_text write_topic turns (Load getenv0).

(** The event of the new job reaches the topic. *)
Example relay_publishes :
  length (w_bus (relay0 1 env0 created).2) = 1%nat.
Proof. by vm_compute. Qed.

Definition parse_default (s : string) : option UUID := Some DefaultTenantID.

Definition admin0 : result Exit * world :=
  admin_main pool0 parse_default sum0 rand0 (Load getenv0) ["create-api-key"; "-role=viewer"]
    env0 world0.

Lemma create_api_key_spec_witness :
  exists id key, admin0.1 = Ok (Exited 0 (key_text id key)) /\
    forall presented, TrimSpace presented = key ->
    exists slug, (Authenticate sum0 presented env0 admin0.2).1 =
      Ok {| pr_ClientID := id; pr_TenantID := DefaultTenantID; pr_TenantSlug := slug;
            pr_ClientName := "local-admin"; pr_Role := RoleViewer |}.
Proof.
  destruct (create_api_key_spec pool0 parse_default sum0 rand0 (fun _ _ _ => eq_refl) (Load getenv0)
    ["-role=viewer"] env0 env0 world0 env0_healthy env0_healthy clients_ok0) as [_ H].
  destruct (H (<["role" := "viewer"]> create_flags)
    match admin0.1 with Ok (Exited _ text) => text | _ => "" end admin0.2 ltac:(by vm_compute)
    ltac:(by vm_compute)) as (tenant & role & id & key & [= <-] & Hr & Ht & Ha).
  assert (role = RoleViewer) as ->.
  { clear -Hr. replace (flag_value _ _) with "viewer" in Hr by (by vm_compute).
    unfold roles in Hr. set_solver. }
  exists id, key. split; [rewrite <- Ht; by vm_compute|]. apply Ha.
  intros k r Hk. vm_compute in Hk. discriminate Hk.
Defined.
