(* ===== verification/Serve.v ===== *)
(** * Serving, signals and the end of a process: cmd/

    What [main] does beside the program it has put together: an HTTP
    server in a goroutine of its own (the API, or the health endpoint of a
    worker or relay), and the graceful shutdown at the end.  [http.Server]
    is modelled as far as [main] uses it: [ListenAndServe] fails or
    accepts until [Shutdown]; [Shutdown] closes the listener and returns
    when no request is active any more, or when its context (ten seconds
    for the API, five for the others) runs out. *)

From S2P Require Import Prelude GoRuntime Strings Engine Sql Schema Effects Json Dto Repository RepositoryFacts Invariant Auth Service Executor Lock Rfc3339 Registry Worker Safety Outbox System Http Server Pool.

Local Open Scope Z_scope.
Local Open Scope go_scope.

(** ** The server and [main] *)

(** [ListenAndServe]: before it listens, serving, returned with
    [http.ErrServerClosed], or returned with another error. *)
Inductive listener := Starting | Listening | Closed | Broken.

(** [main]: waiting for its cause to stop, in [Shutdown], or gone with an
    exit code. *)
Inductive main_phase := Running | Stopping | Ended (code : Z).

Record process (B : Type) := mkprocess {
  ps_world : world;
  ps_body : B;
  ps_listener : listener;
  ps_active : Datatypes.list Request;
  ps_main : main_phase
}.
Arguments mkprocess {B}.
Arguments ps_world {B}.
Arguments ps_body {B}.
Arguments ps_listener {B}.
Arguments ps_active {B}.
Arguments ps_main {B}.

Inductive event :=
| Accepted (r : Request)
| Answered (r : Request) (res : result Response)
| ListenFailed
| GraceOver
| Step.

Section Process.
Context {B : Type}.
(** What the rest of the system may do during a request; the handler;
    whether an error of [ListenAndServe] is fatal ([log.Fatal])
    or only logged; the program beside the server, and when [main] goes on
    to [Shutdown]. *)
Context (others : env -> Prop) (h : Handler) (fatal : bool)
        (body_step : world * B -> world * B -> Prop) (body_over : B -> bool).

(** A process that has not ended. *)
Definition alive (m : main_phase) : bool := match m with Ended _ => false | _ => true end.

Inductive process_step : event -> process B -> process B -> Prop :=
| pr_body w w' b b' s a m :
    alive m = true -> body_step (w, b) (w', b') ->
    process_step Step (mkprocess w b s a m) (mkprocess w' b' s a m)
| pr_listen w b a m :
    alive m = true ->
    process_step Step (mkprocess w b Starting a m) (mkprocess w b Listening a m)
| pr_broken w b s a m :
    alive m = true -> s = Starting \/ s = Listening ->
    process_step ListenFailed (mkprocess w b s a m)
      (mkprocess w b Broken a (if fatal then Ended 1 else m))
| pr_accept w b a m r :
    alive m = true ->
    process_step (Accepted r) (mkprocess w b Listening a m) (mkprocess w b Listening (a ++ [r]) m)
| pr_answer w w' b s a1 a2 m r res e :
    (** The requests run side by side; what the others commit meanwhile is
        the environment's. *)
    alive m = true -> others e -> h r e w = (res, w') ->
    process_step (Answered r res) (mkprocess w b s (a1 ++ r :: a2) m)
      (mkprocess w' b s (a1 ++ a2) m)
| pr_shutdown w b s a :
    body_over b = true ->
    process_step Step (mkprocess w b s a Running)
      (mkprocess w b (match s with Broken => Broken | _ => Closed end) a Stopping)
| pr_drained w b s :
    process_step Step (mkprocess w b s [] Stopping) (mkprocess w b s [] (Ended 0))
| pr_grace_over w b s a :
    process_step GraceOver (mkprocess w b s a Stopping) (mkprocess w b s a (Ended 0)).

Inductive process_run : process B -> Datatypes.list event -> process B -> Prop :=
| pn_refl p : process_run p [] p
| pn_step p1 p2 p3 ev tr :
    process_run p1 tr p2 -> process_step ev p2 p3 -> process_run p1 (tr ++ [ev]) p3.

Definition started (w : world) (b : B) : process B := mkprocess w b Starting [] Running.
End Process.

Definition accepted (ev : event) : option Request :=
  match ev with Accepted r => Some r | _ => None end.
Definition answered (ev : event) : option Request :=
  match ev with Answered r _ => Some r | _ => None end.

(** ** cmd/api *)

(** [ctx]: done once the signal has come. *)
Inductive signal_step : world * bool -> world * bool -> Prop :=
| sg_signal w : signal_step (w, false) (w, true).

Abbreviation api_run h := (process_run rely h true signal_step (fun done => done)).
Abbreviation api_started w := (started w false).

(** ** cmd/worker *)

(** [service.Run(ctx)]; [main] goes on when it has returned. *)
Definition worker_body (s : Worker) (x y : world * local) : Prop := exists lab, local_step s lab x y.

Definition run_returned (l : local) : bool :=
  match l_main l with MStopped => true | _ => false end.

Abbreviation worker_run s health := (process_run rely health false (worker_body s) run_returned).
Abbreviation worker_started s w := (started w (booted s)).

(** ** cmd/event-relay *)

(** The loop of [relay.Run(ctx)]: publishing, at its [select], returned. *)
Inductive relay_state := RPublishing | RSelecting | RReturned.

Inductive relay_step (others : env -> Prop) (r : Relay) : world * (bool * relay_state) -> world * (bool * relay_state) -> Prop :=
| re_signal w st : relay_step others r (w, (false, st)) (w, (true, st))
| re_publish w w' done res e :
    others e -> (done = true -> canceled e) -> publishBatch r e w = (res, w') ->
    relay_step others r (w, (done, RPublishing)) (w', (done, RSelecting))
| re_tick w done : relay_step others r (w, (done, RSelecting)) (w, (done, RPublishing))
| re_return w : relay_step others r (w, (true, RSelecting)) (w, (true, RReturned)).

Definition relay_returned (b : bool * relay_state) : bool :=
  match b.2 with RReturned => true | _ => false end.

Abbreviation relay_serving others r health :=
  (process_run others health false (relay_step others r) relay_returned).
Abbreviation relay_started w := (started w (false, RPublishing)).
