(* ===== verification/ServeFacts.v ===== *)
(** * What a process promises until its end

    Requests and graceful shutdown, for any handler and any program beside
    the server; then the API, the worker and the relay as they are
    started from their configuration. *)

From S2P Require Import Prelude GoRuntime Strings Engine Sql Schema Effects Json Dto Repository RepositoryFacts Invariant Preservation Auth Service Executor Lock Rfc3339 Registry Worker Scenario AuthFacts Safety Outbox OutboxFacts System Journal Delivery Idempotency Pool Schedule PoolFacts Shutdown Http HttpFacts Float RateLimit Metrics Server ServerFacts ServerSafety Config Envelope Kafka Cmd Serve CmdFacts.

Local Open Scope Z_scope.
Local Open Scope go_scope.

Section Process.
Context {B : Type} (others : Effects.env -> Prop) (h : Handler) (fatal : bool) (body_step : world * B -> world * B -> Prop)
        (body_over : B -> bool).
Abbreviation pstep := (process_step others h fatal body_step body_over).
Abbreviation prun := (process_run others h fatal body_step body_over).

(** ** No request is forgotten *)

Lemma process_step_requests ev p p' :
  pstep ev p p' ->
  ps_active p ++ option_list (accepted ev) ≡ₚ option_list (answered ev) ++ ps_active p'.
Proof. destruct 1; cbn; rewrite ?app_nil_r; try done. solve_Permutation. Qed.

Lemma requests_accounted w b tr p :
  prun (started w b) tr p -> omap accepted tr ≡ₚ omap answered tr ++ ps_active p.
Proof.
  intros H. remember (started w b) as p0 eqn:Hp.
  induction H as [p1|p1 p2 p3 ev tr _ IH Hs]; subst; [done|].
  apply process_step_requests in Hs. rewrite !omap_app, IH, <- (assoc_L (++)) by done.
  replace (omap accepted [ev]) with (option_list (accepted ev)) by (cbn; by destruct (accepted ev)).
  rewrite Hs. cbn. destruct (answered ev); cbn; solve_Permutation.
Qed.

(** ** How it ends *)

Context (over_stable : forall w b w' b', body_step (w, b) (w', b') ->
           body_over b = true -> body_over b' = true).

Definition closing (s : listener) : bool :=
  match s with Closed | Broken => true | _ => false end.

(** Once [main] has left its wait the program beside it is over and the
    listener closed; the exit code is 0 after that, with nothing left to
    answer unless the grace period ran out, and 1 after a fatal error of
    the listener. *)
Definition phase_ok (tr : Datatypes.list event) (p : process B) : Prop :=
  match ps_main p with
  | Running => True
  | Stopping => body_over (ps_body p) = true /\ closing (ps_listener p) = true
  | Ended code =>
      (code = 0 /\ body_over (ps_body p) = true /\ closing (ps_listener p) = true /\
       (GraceOver ∈ tr \/ ps_active p = [])) \/
      (code = 1 /\ fatal = true /\ ListenFailed ∈ tr)
  end.

Lemma process_step_phase tr ev p p' :
  pstep ev p p' -> phase_ok tr p -> phase_ok (tr ++ [ev]) p'.
Proof.
  unfold phase_ok.
  destruct 1 as [w w' b b' s a m Hm Hb|w b a m Hm|w b s a m Hm Hl|w b a m r Hm
    |w w' b s a1 a2 m r res e Hm He Hr|w b s a Ho|w b s|w b s a]; cbn.
  - destruct m; try done; intros [Ho Hs]; eauto.
  - by destruct m; try done; intros [_ ?].
  - destruct fatal; cbn; [intros _; right; set_solver|]. by destruct m; try done; intros [? _].
  - by destruct m; try done; intros [_ ?].
  - by destruct m.
  - intros _. split; [done|]. by destruct s.
  - intros [Ho Hs]. left. by auto.
  - intros [Ho Hs]. left. split_and!; [done..|]. left. set_solver.
Qed.

Lemma process_run_phase w b tr p : prun (started w b) tr p -> phase_ok tr p.
Proof.
  intros H. remember (started w b) as p0 eqn:Hp.
  induction H as [p1|p1 p2 p3 ev tr _ IH Hs]; subst; [done|]. by eapply process_step_phase, IH.
Qed.

(** ** The database *)

Context (others_rely : forall e, others e -> rely e) (sane_handler : forall r, sane (h r))
        (I : Db -> B -> Prop).
Context (I_stable : forall d d' b, reaches d d' -> I d b -> I d' b).
Context (I_step : forall w b w' b', body_step (w, b) (w', b') -> db_ok (w_db w) -> I (w_db w) b ->
           reaches (w_db w) (w_db w') /\ I (w_db w') b').

Lemma process_step_reaches ev p p' :
  pstep ev p p' -> db_ok (w_db (ps_world p)) -> I (w_db (ps_world p)) (ps_body p) ->
  reaches (w_db (ps_world p)) (w_db (ps_world p')) /\ I (w_db (ps_world p')) (ps_body p').
Proof.
  destruct 1 as [w w' b b' s a m Hm Hb|w b a m Hm|w b s a m Hm Hl|w b a m r Hm
    |w w' b s a1 a2 m r res e Hm He Hr|w b s a Ho|w b s|w b s a]; cbn; intros Hok HI;
    try (split; [by apply reaches_refl|done]).
  - by eapply I_step.
  - destruct (sane_handler r e w (others_rely e He) Hok Logic.I) as [R _]. rewrite Hr in R. cbn in R.
    split; [done|]. by eapply I_stable.
Qed.

(** Anything else that the steps keep. *)
Lemma process_run_keeps (J : world -> Prop) w b tr p :
  (forall e w r, others e -> J w -> J (h r e w).2) ->
  (forall w b w' b', body_step (w, b) (w', b') -> J w -> J w') ->
  prun (started w b) tr p -> J w -> J (ps_world p).
Proof.
  intros Hh Hb H HJ. remember (started w b) as p0 eqn:Hp.
  induction H as [p1|p1 p2 p3 ev tr _ IH Hs]; subst; [done|]. specialize (IH eq_refl).
  destruct Hs as [| | | |w1 w' b1 s a1 a2 m r res e Hm He Hr| | |]; cbn in *; try done; [by eauto|].
  specialize (Hh e w1 r He IH). by rewrite Hr in Hh.
Qed.

Lemma process_run_reaches w b tr p :
  prun (started w b) tr p -> db_ok (w_db w) -> I (w_db w) b ->
  reaches (w_db w) (w_db (ps_world p)) /\ I (w_db (ps_world p)) (ps_body p).
Proof.
  intros H Hok HI. remember (started w b) as p0 eqn:Hp.
  induction H as [p1|p1 p2 p3 ev tr _ IH Hs]; subst; [by split; [apply reaches_refl|]|].
  destruct (IH eq_refl) as [R HI2].
  destruct (process_step_reaches _ _ _ Hs (re_ok _ _ R) HI2) as [R2 HI3].
  split; [by etrans|done].
Qed.
End Process.

(** ** Health endpoints *)

Lemma run_checks_sane checks : Forall sane checks -> sane (run_checks checks).
Proof.
  induction 1 as [|check checks Hc _ IH]; cbn; [apply sane_ret|].
  apply sane_bind; [by apply sane_try|]. intros [u|err]; [exact IH|apply sane_ret].
Qed.

Lemma health_sane promhttp second r :
  (forall r, db_frame (promhttp r)) -> sane second -> sane (health_handler promhttp second r).
Proof.
  intros Hp Hs. unfold health_handler. repeat case_bool_decide; try apply sane_ret.
  - apply sane_bind; [|intros ok; apply sane_ret]. apply run_checks_sane.
    apply Forall_cons; split; [apply sane_Ping|]. by apply Forall_singleton.
  - by apply sane_frame.
Qed.

(** ** A worker's goroutines as the program beside a server *)

Section WorkerBody.
Context (s : Worker) `{!WorkerLaws s}.

(** The jobs it carries exist, with their attempts. *)
Definition carries (d : Db) (l : local) : Prop :=
  Forall (fun j => j_ActiveAttemptID j <> uuid_Nil /\ in_flight d j) (held l).

Lemma carries_stable d d' l : reaches d d' -> carries d l -> carries d' l.
Proof.
  intros R H. eapply Forall_impl; [exact H|]. intros j [Hn Hf]. split; [done|].
  by apply (in_flight_stable j d d' R).
Qed.

Lemma worker_body_reaches w l w' l' :
  worker_body s (w, l) (w', l') -> db_ok (w_db w) -> carries (w_db w) l ->
  reaches (w_db w) (w_db w') /\ carries (w_db w') l'.
Proof.
  intros (lab & Hs) I HC. unfold carries in HC. rewrite Forall_and in HC. destruct HC as [Hn HF].
  destruct (local_step_refines s _ _ _ _ _ Hs Hn) as (new & [Hnew Hm Hh _]).
  set (G := pair (wk_workerID s) <$> held l).
  assert (Hok : sys_ok (mksys (w_db w) G)).
  { split; [done|]. cbn. intros v j (j' & [= -> ->] & Hj)%list_elem_of_fmap.
    rewrite Forall_forall in HF. by apply HF. }
  destruct (sys_steps_sound _ _ (Hm G (reflexivity G)) Hok) as [[_ HF'] R]. split; [done|].
  apply Forall_forall. intros j Hj. eapply elem_of_submseteq in Hj; [|exact Hh]. split.
  - apply elem_of_app in Hj as [Hj|Hj].
    + rewrite Forall_forall in Hn. by apply Hn.
    + pose proof (nc_not_nil _ _ _ Hnew) as Hn'. rewrite Forall_forall in Hn'. by apply Hn'.
  - apply (HF' (wk_workerID s)). cbn. unfold G. rewrite <- fmap_app. by apply list_elem_of_fmap_2.
Qed.

(** Nothing follows the return of [Run] in its goroutine. *)
Lemma run_returned_stable w l w' l' :
  worker_body s (w, l) (w', l') -> run_returned l = true -> run_returned l' = true.
Proof.
  unfold run_returned. intros (lab & Hs) H.
  assert (Hm : l_main l = MStopped) by (by destruct (l_main l)).
  inversion Hs; subst; cbn; try congruence; by rewrite Hm.
Qed.

Lemma worker_run_local health w tr p :
  worker_run s health (worker_started s w) tr p -> local_ok s (ps_body p).
Proof.
  intros H. remember (worker_started s w) as p0 eqn:Hp.
  induction H as [p1|p1 p2 p3 ev tr _ IH Hs]; subst; [apply booted_ok|].
  specialize (IH eq_refl). destruct Hs as [w1 w' b b' ? ? ? ? (lab & Hl)| | | | | | |]; try done.
  by eapply local_step_ok.
Qed.
End WorkerBody.

(** ** The processes *)

Section Processes.
Context (Getenv : string -> string).
Context (zap_NewDevelopment zap_NewProduction : result unit) (pgxpool_New : string -> M unit).
Context (pool_frame : forall url, db_frame (pgxpool_New url)).
Context (parse_general : string -> option Time) (promhttp : Handler)
        (promhttp_frame : forall r, db_frame (promhttp r)).

Abbreviation cfg := (Load Getenv).

Section Api.
Context (json_Decode : Z -> string -> option CreateRequest) (uuid_Parse : string -> option UUID)
        (marshal : CreateRequest -> result string) (Sum256 : string -> string)
        (chi_route : string -> string -> routed) (RoutePattern : Request -> string)
        (chi_unmatched : Handler) (unmatched_frame : forall r, db_frame (chi_unmatched r)).

(** C23. An API process from its start to its exit, in every environment it
    can be started in: through any requests, well-formed, authorised or
    neither, served side by side, whatever fails, panics or is committed by
    the other processes in between, the database invariant holds and jobs
    move only along the lifecycle; every request it accepted is answered or
    still being served; and when it has exited, then either with code 1
    because its listener failed, or with code 0 after the signal, and then
    every accepted request was answered unless the ten seconds ran out. *)
Theorem api_process e w0 w1 addr h tr p :
  rely e -> db_ok (w_db w0) ->
  api_main zap_NewDevelopment zap_NewProduction pgxpool_New json_Decode uuid_Parse parse_general
    marshal Sum256 chi_route RoutePattern chi_unmatched promhttp cfg e w0 = (Ok (addr, h), w1) ->
  api_run h (api_started w1) tr p ->
  reaches (w_db w0) (w_db (ps_world p)) /\
  omap accepted tr ≡ₚ omap answered tr ++ ps_active p /\
  (forall code, ps_main p = Ended code ->
     (code = 1 /\ ListenFailed ∈ tr) \/
     (code = 0 /\ ps_body p = true /\ (GraceOver ∈ tr \/ omap accepted tr ≡ₚ omap answered tr))).
Proof.
  intros He I Hm Hrun.
  pose proof (start_redis_frame Getenv zap_NewDevelopment zap_NewProduction _ pool_frame e w0) as Hf.
  apply M_bind_ok in Hm as (u & w2 & Hs & Hm). rewrite Hs in Hf. cbn in Hf.
  injection Hm as _ <- <-. rewrite <- Hf in I |- *.
  pose proof (requests_accounted _ _ _ _ _ _ _ _ _ Hrun) as Hreq. split_and!; [|done|].
  - refine (proj1 (process_run_reaches _ _ _ _ _ (fun _ H => H) _ (fun _ _ => True) _ _ w2 false tr p Hrun I Logic.I));
      [|done|].
    + intros r. apply server_sane; try done.
      * intros check ->%list_elem_of_singleton. apply db_frame_redis.
      * intros m. apply recorder_frame.
      * apply _.
      * apply _.
    + inversion 1. subst. intros Hok _. split; [by apply reaches_refl|done].
  - intros code Hc.
    assert (Hst : forall w b w' b', signal_step (w, b) (w', b') -> b = true -> b' = true)
      by (by inversion 1).
    pose proof (process_run_phase _ _ _ _ _ Hst _ _ _ _ Hrun) as Hph. unfold phase_ok in Hph.
    rewrite Hc in Hph. destruct Hph as [(-> & Hb & _ & Ha)|(-> & _ & Hl)]; [right|by left].
    split_and!; [done|done|]. destruct Ha as [?|Ha]; [by left|right]. by rewrite Hreq, Ha, app_nil_r.
Qed.
End Api.

Section WorkerProcess.
Context (json_Unmarshal : string -> option webhookPayload) (url_Parse : string -> result URL)
        (LookupIPAddr : nat -> string -> result (Datatypes.list Z))
        (http_Do : nat -> HttpRequest -> result HttpResponse)
        (marshal_metadata : Z -> Z -> string -> bool -> string).

Abbreviation service := (worker_service json_Unmarshal url_Parse LookupIPAddr http_Do
  marshal_metadata parse_general).
Abbreviation main := (worker_main zap_NewDevelopment zap_NewProduction pgxpool_New json_Unmarshal
  url_Parse LookupIPAddr http_Do marshal_metadata parse_general).
Abbreviation boot := (start_redis zap_NewDevelopment zap_NewProduction pgxpool_New).

(** C15. A worker process from its start to its exit, in every environment it
    can be given: with its slots, renewals, heartbeat, poll loop and health
    endpoint running side by side, whatever the webhooks, Redis and the
    other processes do, it keeps the database invariant and moves jobs only
    along the lifecycle; a health endpoint that cannot listen does not end
    it; it exits with code 0 and only after [Run] has returned and every
    slot has finished.  Its settings are made safe on the way: whatever is
    configured, it has at least one slot and asks for at least one job per
    claim, and its heartbeat has a positive interval and life (ten and
    thirty seconds where none is configured).  The poll interval is not
    made safe: unless it is positive, the process panics before it claims
    anything. *)
Theorem worker_process e w :
  rely e -> db_ok (w_db w) ->
  (forall s w1, (boot cfg;; service cfg) e w = (Ok s, w1) ->
     (exists id, wk_workerID s = "worker-" +:+ uuid_String id) /\
     wk_concurrency s = Z.max 1 (cf_WorkerConcurrency cfg) /\
     wk_batchSize s = Z.max 1 (cf_WorkerBatchSize cfg) /\
     wk_pollInterval s = cf_WorkerPollInterval cfg /\ wk_lockTTL s = cf_JobLockTTL cfg /\
     wk_lockManager s = RedisLock /\
     (0 < cf_WorkerHeartbeatTTL cfg -> wk_heartbeatTTL s = cf_WorkerHeartbeatTTL cfg) /\
     (cf_WorkerHeartbeatTTL cfg <= 0 -> wk_heartbeatTTL s = 30 * 10 ^ 9) /\
     (0 < cf_WorkerHeartbeatInterval cfg -> wk_heartbeatInterval s = cf_WorkerHeartbeatInterval cfg) /\
     (cf_WorkerHeartbeatInterval cfg <= 0 -> wk_heartbeatInterval s = 10 * 10 ^ 9)) /\
  (forall s w1 tr p, (boot cfg;; service cfg) e w = (Ok s, w1) ->
     worker_run s (worker_health promhttp) (worker_started s w1) tr p ->
     length (l_slots (ps_body p)) = Z.to_nat (Z.max 1 (cf_WorkerConcurrency cfg)) /\
     reaches (w_db w) (w_db (ps_world p)) /\
     omap accepted tr ≡ₚ omap answered tr ++ ps_active p /\
     (forall code, ps_main p = Ended code ->
        code = 0 /\ l_main (ps_body p) = MStopped /\ Forall (eq Pool.Exited) (l_slots (ps_body p)))) /\
  (forall ticks cut, cf_WorkerPollInterval cfg <= 0 ->
     w_db (main ticks cut cfg e w).2 = w_db w /\ exists err, (main ticks cut cfg e w).1 = Err err).
Proof.
  intros He I. split_and!; [| |intros ticks cut; by apply worker_main_safe].
  { intros s w1 (u & w2 & _ & Hs)%M_bind_ok.
    destruct (worker_service_ok Getenv json_Unmarshal url_Parse LookupIPAddr http_Do
      marshal_metadata parse_general e w2) as (s' & Hs' & _ & Hset).
    rewrite Hs in Hs'. injection Hs' as <- _. exact Hset. }
  intros s w1 tr p Hs Hrun. apply M_bind_ok in Hs as (u & w2 & Hb & Hs).
  pose proof (start_redis_frame Getenv zap_NewDevelopment zap_NewProduction _ pool_frame e w) as Hf.
  rewrite Hb in Hf. cbn in Hf.
  destruct (worker_service_ok Getenv json_Unmarshal url_Parse LookupIPAddr http_Do marshal_metadata
    parse_general e w2) as (s' & Hs' & L & _ & Hslots & _). rewrite Hs in Hs'. injection Hs' as <- ->.
  set (w1 := w2 <| w_tick := S (w_tick w2) |>) in Hrun. assert (Hd : w_db w1 = w_db w) by done.
  split_and!; [| |by eapply requests_accounted|].
  - rewrite <- Hslots. apply (lo_length _ _ (worker_run_local s _ _ _ _ Hrun)).
  - rewrite <- Hd. refine (proj1 (process_run_reaches _ _ _ _ _ (fun _ H => H) _ carries carries_stable
      (worker_body_reaches s) w1 (booted s) tr p Hrun _ _)); [|by rewrite Hd|].
    + intros r. apply health_sane; [done|]. apply sane_frame, db_frame_redis.
    + unfold carries. by rewrite (proj1 (held_booted s)).
  - intros code Hc. pose proof (worker_run_local s _ _ _ _ Hrun) as Hok.
    pose proof (process_run_phase _ _ _ _ _ (run_returned_stable s) _ _ _ _ Hrun) as Hph.
    unfold phase_ok in Hph. rewrite Hc in Hph. destruct Hph as [(-> & Hr & _)|(_ & ? & _)]; [|done].
    assert (Hm : l_main (ps_body p) = MStopped)
      by (unfold run_returned in Hr; by destruct (l_main (ps_body p))).
    split_and!; [done|done|]. by apply (lo_stopped _ _ Hok).
Qed.
End WorkerProcess.

Section RelayProcess.
Context (time_text : Time -> option string) (jsonb_text : payload -> string)
        (uuid_Parse : string -> option UUID) (time_Parse : string -> option Time)
        (event_text : EventText uuid_Parse time_Parse time_text jsonb_text).
Context (WriteMessages : Writer -> Message -> M unit) (jsonb_value : string -> payload)
        (writer_laws : WriterLaws WriteMessages uuid_Parse time_Parse jsonb_value)
        (DialContext : string -> M (M unit)).
(** Opening a pool, dialling a broker and printing the metrics touch
    neither the tables nor the topic. *)
Context (pool_bus : forall url e w, w_bus (pgxpool_New url e w).2 = w_bus w)
        (promhttp_bus : forall r e w, w_bus (promhttp r e w).2 = w_bus w).
Context (dial_frame : forall p, db_frame (Ping DialContext p))
        (dial_bus : forall p e w, w_bus (Ping DialContext p e w).2 = w_bus w).

Abbreviation main := (relay_main zap_NewDevelopment zap_NewProduction pgxpool_New time_text
  jsonb_text WriteMessages).
Abbreviation boot := (start zap_NewDevelopment zap_NewProduction pgxpool_New).
Abbreviation relay_new := (NewRelay (Publish time_text jsonb_text WriteMessages (relay_producer cfg))
  (cf_EventRelayBatchSize cfg) (cf_EventRelayPollInterval cfg)).

(** The other processes keep the invariant and publish only [A]. *)
Definition beside (A : UUID -> Prop) (e : Effects.env) : Prop :=
  rely e /\ forall n d, publishes A d (e_others e n d).

Lemma health_delivered A r e w :
  beside A e -> delivered A w -> delivered A (relay_health DialContext promhttp cfg r e w).2.
Proof.
  intros [_ Ho] Hw. unfold relay_health, health_handler. repeat case_bool_decide; try done.
  - cbn [run_checks]. rewrite !M_bind_eq. unfold try.
    assert (H1 : delivered A (db_Ping e w).2).
    { apply (pool_exec_delivered A e Ho); [|done]. by intros now d d' a [= <- _]. }
    destruct (db_Ping e w) as [[u|err] w1]; cbn in H1; [|done].
    pose proof (dial_frame (relay_producer cfg) e w1) as Hf.
    pose proof (dial_bus (relay_producer cfg) e w1) as Hb. rewrite M_bind_eq.
    destruct (Ping _ _ e w1) as [[u2|err] w2]; cbn in *; by apply (delivered_frame A w1).
  - apply (delivered_frame A w); [apply promhttp_frame|apply promhttp_bus|done].
Qed.

Lemma health_effects (R : Db -> Db -> Prop) `{!PreOrder R} rq :
  effects R (relay_health DialContext promhttp cfg rq).
Proof.
  unfold relay_health, health_handler. repeat case_bool_decide; try by apply (effects_frame _).
  apply (effects_bind _); [|intros ok; by apply (effects_frame _)]. cbn [run_checks].
  apply (effects_bind _); [apply (effects_try _), (effects_stmt _); by intros ? ? ? ? [= <- _]|].
  intros [u|err]; [|by apply (effects_frame _)].
  apply (effects_bind _); [apply (effects_try _), (effects_frame _), dial_frame|].
  intros [u2|err]; by apply (effects_frame _).
Qed.

Lemma boot_bus e w : w_bus (boot cfg e w).2 = w_bus w.
Proof.
  unfold start, lift_result, mbind, M_bind. destruct (logger_New _ _ _); [apply pool_bus|done].
Qed.

(** C24. The relay process delivers, from its start to its exit: every event
    it has marked published, whatever faults occur, beside its health
    endpoint and beside any other relays ([A] are the events those
    published), is on the Kafka topic, acknowledged by all replicas; the
    database invariant stays; and it exits with code 0, only after its loop
    has returned.  What it does to the database itself is to rewrite the
    publication columns of events that are there: in whatever relation [R]
    the commits of the others are, if rewriting those columns is in it
    ([keeps_events]: every other table as it was, no event added, lost or
    changed in its content), then what happens during the whole run is in
    [R] too.  Unless the poll interval is positive the process panics
    before it claims anything. *)
Theorem relay_process (A : UUID -> Prop) e w :
  beside A e -> db_ok (w_db w) -> delivered A w ->
  (forall r w1 tr p, (boot cfg;; relay_new) e w = (Ok r, w1) ->
     relay_serving (beside A) r (relay_health DialContext promhttp cfg) (relay_started w1) tr p ->
     delivered A (ps_world p) /\ reaches (w_db w) (w_db (ps_world p)) /\
     (forall code, ps_main p = Ended code -> code = 0 /\ relay_returned (ps_body p) = true)) /\
  (forall (R : Db -> Db -> Prop) r w1 tr p, PreOrder R ->
     (forall d d', keeps_events d d' -> R d d') ->
     (boot cfg;; relay_new) e w = (Ok r, w1) ->
     relay_serving (fun e => beside A e /\ forall n d, R d (e_others e n d)) r
       (relay_health DialContext promhttp cfg) (relay_started w1) tr p ->
     R (w_db w) (w_db (ps_world p))) /\
  (forall turns, cf_EventRelayPollInterval cfg <= 0 ->
     w_db (main turns cfg e w).2 = w_db w /\ exists err, (main turns cfg e w).1 = Err err).
Proof.
  intros [He Ho] I Hw. split_and!.
  2:{ intros R r w1 tr p HR Hkeep Hs Hrun. apply M_bind_ok in Hs as (u & w2 & Hb & Hs).
      pose proof (start_frame Getenv zap_NewDevelopment zap_NewProduction _ pool_frame e w) as Hf.
      rewrite Hb in Hf. cbn in Hf. rewrite <- Hf.
      unfold NewRelay in Hs. rewrite uuid_New_bind in Hs. injection Hs as Hr <-.
      assert (L : PublisherLaws (rl_publisher r)) by (rewrite <- Hr; by eapply Publish_laws).
      clear Hr. eapply (process_run_keeps _ _ _ _ _ (fun w' => R (w_db w2) (w_db w'))); [| |exact Hrun|done].
      - intros e' w' rq [_ He'] Hw'. etrans; [exact Hw'|]. by apply health_effects.
      - inversion 1; subst; [done| |done..]. intros Hw'. etrans; [exact Hw'|].
        match goal with Hp : publishBatch r ?e' ?w' = _, Hx : beside A ?e' /\ _ |- _ =>
          pose proof (publishBatch_effects R Hkeep r (fun ev => pub_frame ev) e' w' (proj2 Hx)) as HD;
          by rewrite Hp in HD end. }
  2:{ intros turns. by apply (relay_main_delivers Getenv zap_NewDevelopment zap_NewProduction
        pgxpool_New pool_frame time_text jsonb_text uuid_Parse time_Parse event_text
        WriteMessages jsonb_value writer_laws pool_bus turns A). }
  intros r w1 tr p Hs Hrun. apply M_bind_ok in Hs as (u & w2 & Hb & Hs).
  pose proof (start_frame Getenv zap_NewDevelopment zap_NewProduction _ pool_frame e w) as Hf.
  pose proof (boot_bus e w) as Hbus. rewrite Hb in Hf, Hbus. cbn in Hf, Hbus.
  unfold NewRelay in Hs. rewrite uuid_New_bind in Hs. injection Hs as Hr <-.
  set (w1 := w2 <| w_tick := S (w_tick w2) |>) in Hrun. assert (Hd : w_db w1 = w_db w) by done.
  assert (L : PublisherLaws (rl_publisher r)) by (rewrite <- Hr; by eapply Publish_laws).
  clear Hr. split_and!.
  - eapply process_run_keeps; [| |exact Hrun|by apply (delivered_frame A w)].
    + intros e' w' rq He' Hw'. by apply health_delivered.
    + inversion 1; subst; [done| |done..]. intros Hw'.
      match goal with Hx : beside A ?e', Hp : publishBatch r ?e' w0 = _ |- _ =>
        pose proof (publishBatch_delivered A e' (proj2 Hx) r w0 L Hw') as HD; by rewrite Hp in HD end.
  - rewrite <- Hd. refine (proj1 (process_run_reaches _ _ _ _ _ (fun _ H => proj1 H) _ (fun _ _ => True)
      _ _ w1 _ tr p Hrun _ Logic.I)); [|done| |by rewrite Hd].
    + intros rq. apply health_sane; [done|]. apply sane_frame, dial_frame.
    + inversion 1; subst; intros Hok _; (split; [|done]); try by apply reaches_refl.
      match goal with Hx : beside A ?e', Hp : publishBatch r ?e' w0 = _ |- _ =>
        destruct (publishBatch_safe r (fun ev => pub_frame ev) e' w0 (proj1 Hx) Hok Logic.I) as [R _];
        by rewrite Hp in R end.
  - intros code Hc.
    assert (Hst : forall w b w' b', relay_step (beside A) r (w, b) (w', b') ->
      relay_returned b = true -> relay_returned b' = true) by (by inversion 1).
    pose proof (process_run_phase _ _ _ _ _ Hst _ _ _ _ Hrun) as Hph. unfold phase_ok in Hph.
    rewrite Hc in Hph. by destruct Hph as [(-> & Hret & _)|(_ & ? & _)].
Qed.
End RelayProcess.
End Processes.

(** ** Witnesses *)

(** An API process that serves one request and is stopped. *)
Definition api_up : world := (api0 env0 created).2.
Definition served : result Response * world := handler0 request0 env0 api_up.

Definition api_events : Datatypes.list event :=
  [] ++ [Step] ++ [Accepted request0] ++ [Step] ++ [Answered request0 served.1] ++ [Step] ++ [Step].

Definition api_down : process bool := mkprocess served.2 true Closed [] (Ended 0).

Lemma api_run0 : api_run handler0 (api_started api_up) api_events api_down.
Proof.
  pose proof (pn_refl rely handler0 true signal_step (fun done => done) (api_started api_up)) as H.
  eapply pn_step in H; [|by apply pr_listen].
  eapply pn_step in H; [|by apply (pr_accept _ _ _ _ _ _ _ _ _ request0)].
  eapply pn_step in H; [|by apply pr_body, sg_signal].
  eapply pn_step in H; [|apply (pr_answer _ _ _ _ _ api_up served.2 true Listening [] [] Running request0
    served.1 env0 eq_refl rely0); by unfold served; destruct (handler0 _ _ _)].
  eapply pn_step in H; [|by apply pr_shutdown].
  eapply pn_step in H; [|by apply pr_drained].
  exact H.
Qed.

Lemma api_process_witness :
  reaches (w_db created) (w_db served.2) /\ (exists code, ps_main api_down = Ended code) /\
  omap accepted api_events = [request0].
Proof.
  split; [|split; [by eexists|done]].
  exact (proj1 (api_process getenv0 (Ok tt) (Ok tt) pool0 (fun _ _ _ => eq_refl) general0 unmatched0
    (fun _ _ _ => eq_refl) decode0 parse0 marshal0 sum0 route0 rq_Path unmatched0
    (fun _ _ _ => eq_refl) env0 created api_up ":8080" handler0 api_events api_down rely0 created_ok
    eq_refl api_run0)).
Defined.

Lemma value_ok {A} (dflt : A) (r : result A * world) :
  match r.1 with Ok _ => true | Err _ => false end = true -> r = (Ok (value dflt r), r.2).
Proof. by destruct r as [[a|err] w]. Qed.

(** A worker as the defaults configure it takes a job up to its handler
    and is stopped. *)
Definition boot0 (getenv : string -> string) : result Worker * world :=
  (start_redis (Ok tt) (Ok tt) pool0 (Load getenv);;
   worker_service demo_decode demo_parse demo_lookup (demo_do 200) (fun _ _ _ _ => "{}") general0
     (Load getenv)) env0 created.
Definition worker_up : Worker := value worker2 (boot0 getenv0).

Definition worker_choices : Datatypes.list choice :=
  [CTick; CMain; CMain; CHand 0; CMain; CSlot 0; CSlot 0; CSignal; CReturn; CMain; CSlot 0; CRenew 0;
   CSlot 0; CSlot 0; CSlot 0] ++ (CExit <$> seq 0 (Z.to_nat (wk_concurrency worker_up))) ++ [CMain].

Definition worker_played : Datatypes.list label * (world * local) :=
  default ([], (created, booted worker2))
    (play worker_up env0 env_down worker_choices (boot0 getenv0).2 (booted worker_up)).

(** Playing a schedule inside a process. *)
Lemma play_process s live down health cs w l tr w' l' p0 evs :
  solo live -> solo down -> canceled down ->
  play s live down cs w l = Some (tr, (w', l')) ->
  worker_run s health p0 evs (mkprocess w l Starting [] Running) ->
  worker_run s health p0 (evs ++ replicate (length cs) Step) (mkprocess w' l' Starting [] Running).
Proof.
  intros Hl Hd Hc. revert w l tr evs. induction cs as [|c cs IH]; intros w l tr evs H Hrun; cbn in H.
  { injection H as <- <- <-. by rewrite app_nil_r. }
  apply bind_Some in H as ([lab [w1 l1]] & H1 & H). apply bind_Some in H as ([tr1 x] & H2 & H).
  injection H as <- ->. cbn [length replicate]. rewrite cons_middle, (assoc_L (++)).
  eapply IH; [exact H2|]. eapply pn_step; [exact Hrun|]. apply pr_body; [done|].
  exists lab. by eapply (play_step_sound s live down).
Qed.

Definition worker_events : Datatypes.list event :=
  replicate (length worker_choices) Step ++ [Step] ++ [Step].
Definition worker_gone : process local :=
  mkprocess worker_played.2.1 worker_played.2.2 Closed [] (Ended 0).

Lemma worker_run0 :
  worker_run worker_up (worker_health unmatched0) (worker_started worker_up (boot0 getenv0).2)
    worker_events worker_gone.
Proof.
  unfold worker_events, worker_gone. rewrite (assoc_L (++)).
  assert (Hr : run_returned worker_played.2.2 = true) by by vm_compute.
  eapply pn_step; [|by apply pr_drained].
  eapply pn_step; [|by apply (pr_shutdown _ _ _ _ _ _ _ Starting)].
  apply (play_process _ env0 env_down _ worker_choices (boot0 getenv0).2 (booted worker_up)
    worker_played.1 _ _ _ [] solo0 solo_down canceled_down); [|apply pn_refl].
  vm_compute. reflexivity.
Qed.

Lemma worker_process_witness :
  reaches (w_db created) (w_db worker_played.2.1) /\
  (jr_status <$> jobs (w_db worker_played.2.1) !! 100%N) = Some StatusRunning /\
  l_main worker_played.2.2 = MStopped /\
  (exists err, (worker_main (Ok tt) (Ok tt) pool0 demo_decode demo_parse demo_lookup (demo_do 200)
     (fun _ _ _ _ => "{}") general0 2 (fun _ => None) (Load getenv_still) env0 created).1 = Err err).
Proof.
  split_and!; [|by vm_compute|by vm_compute|].
  - refine (proj1 (proj2 (proj1 (proj2 (worker_process getenv0 (Ok tt) (Ok tt) pool0 (fun _ _ _ => eq_refl) general0
      unmatched0 (fun _ _ _ => eq_refl) demo_decode demo_parse demo_lookup (demo_do 200)
      (fun _ _ _ _ => "{}") env0 created rely0 created_ok)) worker_up (boot0 getenv0).2 worker_events
      worker_gone _ worker_run0))).
    apply (value_ok worker2 (boot0 getenv0)). by vm_compute.
  - apply (proj2 (proj2 (worker_process getenv_still (Ok tt) (Ok tt) pool0 (fun _ _ _ => eq_refl) general0
      unmatched0 (fun _ _ _ => eq_refl) demo_decode demo_parse demo_lookup (demo_do 200)
      (fun _ _ _ _ => "{}") env0 created rely0 created_ok)) 2%nat (fun _ => None)). by vm_compute.
Defined.

(** A relay that publishes the new job's event. *)
Definition relay_up : result Relay * world :=
  (start (Ok tt) (Ok tt) pool0 (Load getenv0);;
   NewRelay (Publish utc_text object_text write_topic (relay_producer (Load getenv0)))
     (cf_EventRelayBatchSize (Load getenv0)) (cf_EventRelayPollInterval (Load getenv0))) env0 created.
Definition relay_fallback : Relay :=
  {| rl_publisher := fun _ => mret tt; rl_id := ""; rl_batch := 1; rl_interval := 1; rl_lease := 1 |}.
Definition relay1 : Relay := value relay_fallback relay_up.
Definition dial0 (broker : string) : M (M unit) := mret (mret tt).
Definition published1 : result unit * world := publishBatch relay1 env0 relay_up.2.

Lemma beside0 : beside (fun _ => False) env0.
Proof. split; [apply rely0|]. intros n d. reflexivity. Qed.

Lemma relay_run0 (others : Effects.env -> Prop) : others env0 ->
  relay_serving others relay1 (relay_health dial0 unmatched0 (Load getenv0))
    (relay_started relay_up.2) ([] ++ [Step])
    (mkprocess published1.2 (false, RSelecting) Starting [] Running).
Proof.
  intros Ho. eapply pn_step; [apply pn_refl|]. apply pr_body; [done|].
  apply (re_publish _ _ _ _ _ published1.1 env0 Ho); [done|].
  by unfold published1; destruct (publishBatch _ _ _).
Qed.

#[local] Instance keeps_events_preorder : PreOrder keeps_events.
Proof.
  split; [apply _|]. intros d1 d2 d3 [E12 H12] [E23 H23]. split.
  - rewrite E23, E12. by destruct d1.
  - intros k. specialize (H12 k). specialize (H23 k).
    destruct H12 as [r1 r2 S|]; inversion H23; subst; constructor. by etrans.
Qed.

Lemma relay_process_witness :
  delivered (fun _ => False) published1.2 /\ published (w_db published1.2) (oe_EventID event0) /\
  length (w_bus published1.2) = 1%nat /\ keeps_events (w_db created) (w_db published1.2).
Proof.
  destruct (relay_process getenv0 (Ok tt) (Ok tt) pool0 (fun _ _ _ => eq_refl) unmatched0
    (fun _ _ _ => eq_refl) utc_text object_text uuid_Read (time_Parse (fun _ => None))
    (utc_event_text _) write_topic (fun _ => []) write_topic_laws dial0
    (fun _ _ _ => eq_refl) (fun _ _ _ => eq_refl)
    (fun p _ _ => ltac:(by unfold Ping; destruct (pd_brokers p)))
    (fun p _ _ => ltac:(by unfold Ping; destruct (pd_brokers p)))
    (fun _ => False) env0 created beside0 created_ok created_delivered) as (H & HR & _).
  assert (Hup : relay_up = (Ok relay1, relay_up.2))
    by (apply (value_ok relay_fallback relay_up); by vm_compute).
  split; [|split; [eexists; split; [by vm_compute|by eexists]|split; [by vm_compute|]]].
  - exact (proj1 (H relay1 relay_up.2 _ _ Hup (relay_run0 _ beside0))).
  - exact (HR keeps_events relay1 relay_up.2 _ _ _ (fun _ _ K => K) Hup
      (relay_run0 _ (conj beside0 (fun _ d => reflexivity d)))).
Defined.
